(* ===== verification/_CoqProject ===== *)
-Q . S2P
Prelude.v
LinkList.v
Checksum.v
Msrc.v
Names.v
World.v
Interfaces.v
Send.v
Groups.v
Samples.v
Routing.v
RoutingFacts.v
Blind.v
Mld2Logic.v
ListFacts.v
Subscr.v
MshipDb.v
Masks.v
Mtrace.v
MtraceFacts.v
Rfc3810.v
Mld2Refine.v
Mld2Expire.v
DownstreamFacts.v
Memory.v
MemoryFacts.v
MemoryRefine.v
MemoryRecords.v
MemoryDestroy.v
MemoryMdb.v
MemoryExpire.v
MemoryWalk.v
Filter.v
Packet.v
MemoryForward.v
MemoryReport.v
ReportFacts.v
Daemon.v
Common.v
Printing.v
Typed.v
TimerFacts.v
Invariant.v
Forwarding.v
PacketFacts.v
Delivery.v
QueryFacts.v
DaemonFacts.v
MemoryDaemon.v
FilterFacts.v
