(* ===== verification/Prelude.v ===== *)
(** * The easy cast du multi hub, modelled and verified

    [ecmh] is an IPv6 multicast router for a Linux host without a multicast routing daemon of
    its own.  It listens on a raw packet socket, keeps per group and interface the MLDv2 filter
    state that the listeners report, forwards multicast packets from the interface they arrive
    on, joins the groups on an upstream interface and installs routes in the kernel's forwarding
    cache.  The repository also holds [mtrace6], a multicast traceroute client.  Paths below are
    relative to the repository.

    ** What is modelled

    The build is the one [Makefile] makes on Linux: [ECMH_SUPPORT_MLD2], [ECMH_GETIFADDR] and
    [DEBUG] set, [ECMH_SUPPORT_IPV4] and [ECMH_BPF] not, on a 64-bit little-endian host.  Code
    between [#if 0] and [#endif] is not compiled and has no counterpart.

    The files, each after the ones it uses:

    - [Prelude]: machine integers and byte order, searches by predicate and by key, the live
      elements of a list of possibly NULL data; tactics and hint databases;
    - [LinkList] ([src/linklist.c]): module [Heap], the doubly linked list on a heap of cells;
      section [sets], the set operations above it on the sequence of data values, against the
      interface [ListCmp], what [list->cmp] promises; [ListFacts] applies both;
    - [Checksum] ([inchksum], [ipv6_checksum] of [src/ecmh.c], [hash_make] of [src/hash.c]);
    - [Msrc] ([src/msrc.c], [src/mrec.c], constants and macros of [src/mld.h], [src/mld2.h]);
    - [Names] (the tables of names of [src/ecmh.c] and [lookup], which the debug messages of the receive path call);
    - [World]: the whole state of the daemon, the monad [M] of its code, a small program logic; [Blind]: the commands that do
      not look at the groups;
    - [Interfaces] ([src/interfaces.c]), [Send] (the packets [src/ecmh.c] builds and sends),
      [Groups] ([src/groups.c], [src/grpint.c]);
    - [Routing] ([src/mcast_client.c], [src/kernel_routing.c], and
      [handle_upstream_subscription] of [src/mld2_logic.c]), with [RoutingFacts];
    - [Mld2Logic] ([src/mld2_logic.c]), the router state machine, with its specification
      [Rfc3810], the simulation [Mld2Refine], the expiry [Mld2Expire] and the theorems on
      reports [DownstreamFacts];
    - [Memory]: the same state machine, the list operations and the functions that free, on pointers to objects that
      [malloc] gave, with the shapes and rules of [MemoryFacts]; [MemoryRefine] relates its branches to
      those of [Mld2Logic], [MemoryRecords] follows a group record from its creation to its destruction,
      [MemoryDestroy] the end of a group, [MemoryMdb] the merge of [src/mship_db.c]; [MemoryExpire] has the expiry on these objects and
      [MemoryWalk] its simulation, [MemoryForward] forwarding, [MemoryReport] the group and the entry a report finds or makes,
      and [MemoryDaemon] the receive path, the main loop, the shutdown and the simulation of whole runs;
    - [Filter]: the packet filter that [src/ecmh.c] attaches to its socket and the machine that runs it; [FilterFacts], what no run
      forwards because of it;
    - [Packet] (the receive path of [src/ecmh.c], from the Ethernet type to the MLD messages and
      to forwarding), with [ReportFacts], [Forwarding], [PacketFacts] and, from a report to the
      data that follows it, [Delivery];
    - [Daemon] (options, start-up, interface updates, timer, signals, main loop and shutdown of
      [src/ecmh.c]), with the typing judgement [Typed], the overflow of its timers [TimerFacts], the invariant of all runs [Invariant], the queries [QueryFacts] and
      the rest [DaemonFacts];
    - [Common] ([src/common.c]): messages and the file with the process number; [Printing]: the functions that print records and lists;
    - [Subscr] ([src/subscr.c]) and [MshipDb] ([src/mship_db.c]), which no code of the daemon
      calls any more;
    - [Mtrace] ([tools/mtrace6/mtrace6.c], [src/trace.h]), with [MtraceFacts]; [Masks], the netmask macros of [src/trace.h];
    - [Samples]: a small concrete system that satisfies the hypotheses of the theorems.

    ** How the parts interact

    [Daemon.main_round] first does what the alarm left to do ([Daemon.timeout]: update the interfaces,
    send the general queries, [Mld2Logic.expire_sources]), then answers an upcall of the kernel
    ([Routing.mrouter6_handlesocket]) and receives a frame ([Daemon.handleinterfaces]), which
    [Packet.l3_ipv6] decodes as an MLD message or forwards.  A report goes record by record to
    [Mld2Logic.handle_downstream_subscription], which finds or makes the entry with
    [Groups.groupint_get], changes it and sends queries with [Send.mld_send_mquery]; afterwards
    [Routing.handle_upstream_subscription] joins what is left upstream and walks the kernel
    routes with [Routing.expire_routes].  Expiry and forwarding remove entries in the same way.

    ** How state and effects are represented

    - [World.world] holds [struct conf] and the static variables of the other files.  An
      operation of type [M A] takes the answers of the system and a world to a result
      ([Ret]) or to a fault ([Crash]: NULL dereference, access out of bounds, double free), each
      with the world it leaves.  A fault stands for undefined behaviour; a search that runs past the end of a table of names is one.
    - The operating system is the parameter [World.OS]: clock, allocator, sockets, interface
      queries, received frames, as functions of the number of calls made so far ([w_tick]), so
      that a theorem holds for any sequence of answers.  What the daemon asks for is a trace of
      events, most recent first.
    - An [intnode *] is an index of the interface array.  Lists of groups, entries, sources and
      routes are sequences; a pointer to an element is its position.  [LinkList.HeapFacts]
      justifies this reading of the list operations on the heap.  A loop that deletes from the list
      it walks counts the elements that are left, which the saved [next] pointer amounts to.
    - [Memory.P] adds a heap of objects to [M]: a list header with the data pointers of its nodes, a source, a record, an
      entry, a group.  An allocation is at an address that is not in use (class [Memory.Malloc]); reading,
      writing or freeing what is not there faults.  A command has no other access to the objects, so that
      [MemoryRecords.report_record_memory] excludes uses after free, and its shapes account for every object.
    - On pointers, a command of [M] that neither reads nor changes the groups ([Blind.blind]) is used as it is ([Memory.lift]), one that only reads
      them reads them through their pointers ([MemoryExpire.through]); what changes them is written out on the objects.  The field
      [w_groups] of the world is not looked at there; [MemoryDaemon.lockstep] is the relation to the operation on values.
    - Values of C types keep their width ([u8], [u16], [u32], [u64] where the code stores); a source timer
      and a filter timer are 32 bits wide, the clock is a [long].
    - A received packet is a region of the receive buffer and a pointer into it an offset; reads
      and writes outside the buffer fault, those outside the packet do not.
    - A packet under construction is the list of its bytes.

    ** Bounds and fuel

    [LinkList.Heap] walks have one unit of fuel per cell of the heap and one more
    ([HeapFacts.dls_size]: no list is longer).  [Checksum.inchksum] folds carries four
    times, enough below 2^32 bytes ([fold_carries_16]).  [Packet.skip_headers] has [headers_fuel], one unit per eight bytes of
    the packet, which [PacketFacts.skip_headers_terminates] proves enough.  [Mtrace.show_hops]
    has one unit per byte left, [Common.dec] one per digit of an [int].  Every other recursion is structural or on a count the code
    has.  The main loop, which does not end, is the step relation [Daemon.step].

    ** What the theorems show

    - The state machine (C1 to C4, C23): a report takes exactly the step that [Mld2Refine.ecmh_step] gives, in INCLUDE and in EXCLUDE
      mode; the states on which this is the step of RFC 3810 are characterised in both modes ([Rfc3810] is the specification: sections 7.4.1 and 7.4.2, and 7.6.3,
      where the timers of the sources that are queried are only ever lowered; the code sets them).  [expire_sources] ends, deletions during the
      walk included, and is a map over the entries, as long as the list of kernel routes and the interface of every entry are there, as C10 and C28
      also assume: without them it faults (C20).  What becomes of it when the clock outgrows the timers (C28).
    - Invariants (C5, C6, C32): in every state of a run groups and entries are unique, modes and filter
      timers in range and sources unique; every field of the state and every argument of a system call has the
      width of its C type; and the configuration is the one of the command line.
    - Memory (C7 to C11, C34): the daemon on pointers has exactly the runs of the daemon on values, its memory is always the lists
      of the state, the rest of the program and what was lost.  A run ends ([Daemon.ended], [MemoryDaemon.ended]) by a signal or by an error of [select] or
      of the reception; the clean-up that follows, up to the deletion of the groups, gives back every object of the lists exactly once ([Daemon.shutdown]; what [main] does
      after that, and how it faults, is [Common.main_end]);
      a group record and a pass of the expiry, each with what it leaves behind; what records never give back, and that this grows with each.
    - Receiving and forwarding (C12 to C17, C26, C27, C29): who gets a packet, at most one and never the
      interface it came from; a report opens its group for the listener interval, through any packets to the group and passes of the timer; the report parser is the inverse of an encoder,
      and on any bytes ends, with a fault exactly when it meets a record of a type that the table of names does not list (memory and the list of kernel routes
      provided); what a message with a bad checksum does; a record announced but behind the packet is obeyed (C29).
    - The packet filter (C30, C31): the frames it keeps, and that a daemon whose socket has it never forwards a packet with UDP
      behind its IPv6 header.
    - Routing (C18 to C22): the routes accepted, the calls made to the kernel, what is
      deleted, where a refresh faults, and the entry [groupint_get] finds or makes.
    - Sending (C24, C25): the bytes of a query, with a checksum that verifies, who is asked and when.
    - Membership database and traceroute (C33 to C36): the merge is RFC 4605's unless an EXCLUDE
      subscription meets an INCLUDE record, and leaves no memory behind; the client decodes the hops a response encodes, within its buffers.
    - Tables, lists, processes and checksum (C37 to C40): the bounds of the name tables, refinement of the list operations, the
      file with the process number, the one's complement sum.

    Where the code does not do what its comments or the RFC say, the theorem states what it does.

    ** Not modelled

    - The daemon's operations do not carry the messages they log, only the look-ups of names made for them: [Common] and [Printing] have the functions that log, with [inet_ntop] as a
      parameter; the formatting of [vprintf] and [vsyslog] is not modelled.  Priority, scheduler and user id.
    - Of the kernel's filter machine, the instructions the program does not use.
    - The code of [ECMH_BPF] and of [ECMH_SUPPORT_IPV4]: the build does not contain it, and the former does not
      compile ([int_create_bpf] calls [int_find_ipv4] with an argument too many).
    - Failures of [malloc] for copies of sources, records and lists; those of groups, entries,
      routes and list nodes are modelled.
    - The hash table of [src/hash.c], which does not compile; test programs; packaging.
    - Time passes only between system calls; signals arrive between two rounds of the main loop.

    ** Not proved

    The merge of subscriptions driven by the reports of several interfaces (no code of the daemon does it); reports across the wrap-around
    of 32 bits, which their theorems exclude by [now + MALI < 2 ^ 32] (for the expiry see [TimerFacts]). *)

From stdpp Require Export base numbers option gmap list.
Export list_basics.list list_relations.list list_misc.list list_monad.list list_tactics.list list_numbers.list.

#[export] Set Default Goal Selector "!".

#[global] Open Scope Z_scope.

(** * Machine integers

    The daemon is compiled for a 64-bit little-endian Linux host:
    [unsigned int] and [uint32_t] are 32 bits wide, [uint16_t] 16 bits,
    [time_t], [long] and [uint64_t] 64 bits.  A value is a [Z]; the wrap-around of
    an unsigned type is written where the code stores into it. *)

Definition u8 (x : Z) : Z := x mod 2 ^ 8.
Definition u16 (x : Z) : Z := x mod 2 ^ 16.
Definition u32 (x : Z) : Z := x mod 2 ^ 32.
Definition u64 (x : Z) : Z := x mod 2 ^ 64.

Lemma u8_range x : 0 <= u8 x < 2 ^ 8.
Proof. apply Z.mod_pos_bound; lia. Qed.
Lemma u16_range x : 0 <= u16 x < 2 ^ 16.
Proof. apply Z.mod_pos_bound; lia. Qed.
Lemma u32_range x : 0 <= u32 x < 2 ^ 32.
Proof. apply Z.mod_pos_bound; lia. Qed.
Lemma u64_range x : 0 <= u64 x < 2 ^ 64.
Proof. apply Z.mod_pos_bound; lia. Qed.

Lemma u16_small x : 0 <= x < 2 ^ 16 -> u16 x = x.
Proof. apply Z.mod_small. Qed.
Lemma u32_small x : 0 <= x < 2 ^ 32 -> u32 x = x.
Proof. apply Z.mod_small. Qed.
Lemma u64_small x : 0 <= x < 2 ^ 64 -> u64 x = x.
Proof. apply Z.mod_small. Qed.

(** Byte order: [htons]/[ntohs] exchange the two bytes of a 16-bit value. *)
Definition htons (x : Z) : Z := (x mod 256) * 256 + (x / 256) mod 256.
Abbreviation ntohs := htons (only parsing).

Lemma htons_range x : 0 <= htons x < 2 ^ 16.
Proof.
  unfold htons. pose proof (Z.mod_pos_bound x 256). pose proof (Z.mod_pos_bound (x / 256) 256). lia.
Qed.

Lemma htons_involutive x : 0 <= x < 2 ^ 16 -> htons (htons x) = x.
Proof.
  intros Hx. unfold htons.
  pose proof (Z.mod_pos_bound x 256). pose proof (Z.div_mod x 256).
  assert (0 <= x / 256 < 256) by (split; [apply Z.div_pos | apply Z.div_lt_upper_bound]; lia).
  rewrite (Z.mod_small (x / 256)) by lia.
  rewrite Z.div_add_l, (Z.div_small (x / 256)), Z.add_0_r, Z.mod_mod by lia.
  rewrite (Z.add_comm (x mod 256 * 256)), Z_mod_plus_full, (Z.mod_small (x / 256)) by lia. lia.
Qed.

(** The two bytes, in memory order, of a 16-bit value stored by a
    little-endian host, and the value loaded back from them. *)
Definition le16 (x : Z) : list Z := [x mod 256; (x / 256) mod 256].
Definition le16_load (b0 b1 : Z) : Z := b0 + 256 * b1.

Lemma le16_load_store x : 0 <= x < 2 ^ 16 -> le16_load (x mod 256) ((x / 256) mod 256) = x.
Proof.
  intros Hx. unfold le16_load.
  rewrite (Z.mod_small (x / 256)).
  - pose proof (Z.div_mod x 256). lia.
  - split; [apply Z.div_pos | apply Z.div_lt_upper_bound]; lia.
Qed.

(** * Searching a list for a position

    A pointer the code finds by walking a list is modelled by the position of
    its node; [find_idx f l] is the position of the first element that satisfies [f]. *)

Fixpoint find_idx {A} (f : A -> bool) (l : list A) : option nat :=
  match l with
  | [] => None
  | x :: l' => if f x then Some 0%nat else S <$> find_idx f l'
  end.

Section find_idx.
Context {A : Type} (f : A -> bool).
Implicit Types l : list A.

Lemma find_idx_Some l i :
  find_idx f l = Some i ->
  exists x, l !! i = Some x /\ f x = true /\ forall j y, (j < i)%nat -> l !! j = Some y -> f y = false.
Proof.
  revert i; induction l as [|x l IH]; intros i; simpl; [done|].
  destruct (f x) eqn:Hx.
  - intros [= <-]. exists x. split_and!; [done..|]. intros; lia.
  - intros (j & Hj & ->)%fmap_Some. destruct (IH j Hj) as (y & ? & ? & Hlt).
    exists y. split_and!; [done..|]. intros [|k] z ?; simpl; [naive_solver|].
    apply Hlt. lia.
Qed.

Lemma find_idx_None l : find_idx f l = None <-> forall x, x ∈ l -> f x = false.
Proof.
  induction l as [|x l IH]; simpl; [split; [intros _ y []%elem_of_nil | done]|].
  setoid_rewrite elem_of_cons. destruct (f x) eqn:Hx; [|rewrite fmap_None, IH].
  - split; [done|]. intros H. specialize (H x (or_introl eq_refl)). congruence.
  - split; [intros H y [->|Hy]; auto | auto].
Qed.

Lemma find_idx_is_Some l : is_Some (find_idx f l) <-> exists x, x ∈ l /\ f x = true.
Proof.
  destruct (find_idx f l) as [i|] eqn:Hi.
  - destruct (find_idx_Some _ _ Hi) as (x & Hx & ? & _). split; [|done].
    intros _. exists x. split; [by eapply list_elem_of_lookup_2|done].
  - split; [by intros []|]. intros (x & Hin & Hf).
    pose proof (proj1 (find_idx_None l) Hi x Hin). congruence.
Qed.

Lemma find_idx_lt l i : find_idx f l = Some i -> (i < length l)%nat.
Proof. intros (x & Hx & _)%find_idx_Some. by eapply lookup_lt_Some. Qed.

Lemma find_idx_app_None l k : find_idx f l = None -> find_idx f (l ++ k) = Nat.add (length l) <$> find_idx f k.
Proof.
  induction l as [|x l IH]; simpl; [by destruct (find_idx f k)|].
  destruct (f x); [done|]. intros ->%fmap_None%IH. by destruct (find_idx f k).
Qed.
End find_idx.

(** Searching by a key that is unique in the list. *)
Section find_key.
Context {A K : Type} `{EqDecision K} (key : A -> K).
Implicit Types l : list A.

Definition find_key (k : K) (l : list A) : option nat := find_idx (fun x => bool_decide (k = key x)) l.

Lemma find_key_Some k l i : find_key k l = Some i -> exists x, l !! i = Some x /\ key x = k.
Proof. intros (x & ? & Hk & _)%find_idx_Some. apply bool_decide_eq_true in Hk. eauto. Qed.
Lemma find_key_None k l : find_key k l = None <-> k ∉ key <$> l.
Proof.
  unfold find_key. rewrite find_idx_None. split.
  - intros H (x & -> & Hx)%list_elem_of_fmap. apply H in Hx. by rewrite bool_decide_true in Hx.
  - intros H x Hx. apply bool_decide_eq_false. intros ->. apply H. by apply list_elem_of_fmap_2.
Qed.
Lemma find_key_NoDup k l i x :
  NoDup (key <$> l) -> l !! i = Some x -> key x = k -> find_key k l = Some i.
Proof.
  intros Hnd Hi <-. destruct (find_key (key x) l) as [j|] eqn:Hj.
  - apply find_key_Some in Hj as (y & Hj & Hk). f_equal.
    eapply (NoDup_lookup (key <$> l)); [done| |]; by rewrite list_lookup_fmap, ?Hi, ?Hj; simpl; rewrite ?Hk.
  - apply find_key_None in Hj. exfalso. apply Hj. apply list_elem_of_fmap_2. by eapply list_elem_of_lookup_2.
Qed.

(** Updating an element without touching its key; adding one; deleting one. *)
Lemma fmap_key_alter (f : A -> A) i (l : list A) : (forall x, key (f x) = key x) -> key <$> alter f i l = key <$> l.
Proof.
  intros Hf. apply list_eq. intros j. rewrite !list_lookup_fmap. rewrite list_lookup_alter.
  case_decide as Hij; [subst j|done]. destruct (l !! i); simpl; by rewrite ?Hf.
Qed.
Lemma find_key_fmap k l : find_key k l = find_idx (fun x => bool_decide (k = x)) (key <$> l).
Proof. unfold find_key. induction l as [|x l IH]; [done|]. csimpl. by rewrite IH. Qed.
Lemma find_key_alter (f : A -> A) k i (l : list A) : (forall x, key (f x) = key x) -> find_key k (alter f i l) = find_key k l.
Proof. intros Hf. by rewrite !find_key_fmap, fmap_key_alter. Qed.
Lemma NoDup_key_snoc l x : NoDup (key <$> l) -> find_key (key x) l = None -> NoDup (key <$> (l ++ [x])).
Proof.
  intros Hl Hx%find_key_None. rewrite fmap_app. apply NoDup_app. split_and!; [done| |apply NoDup_singleton].
  by intros k Hk ->%list_elem_of_singleton.
Qed.
Lemma NoDup_key_delete l i : NoDup (key <$> l) -> NoDup (key <$> delete i l).
Proof.
  intros Hnd. eapply sublist_NoDup; [exact Hnd|]. clear Hnd. revert i.
  induction l as [|x l IH]; intros i; [constructor|].
  destruct i; csimpl; [by apply sublist_cons | by apply sublist_skip].
Qed.

(** The element itself, rather than its position. *)
Fixpoint find_by (k : K) (l : list A) : option A :=
  match l with
  | [] => None
  | x :: l => if decide (key x = k) then Some x else find_by k l
  end.

Lemma find_by_idx k l : find_by k l = (i ← find_key k l; l !! i).
Proof.
  unfold find_key. induction l as [|x l IH]; [done|]. simpl. rewrite IH.
  case_decide; case_bool_decide; try congruence; [done|]. by destruct (find_idx _ l).
Qed.
Lemma find_by_Some k l x : find_by k l = Some x -> x ∈ l /\ key x = k.
Proof.
  induction l as [|y l IH]; simpl; [done|]. rewrite elem_of_cons. case_decide; [naive_solver|].
  intros ?%IH. naive_solver.
Qed.
Lemma find_by_None k l : find_by k l = None <-> k ∉ key <$> l.
Proof.
  induction l as [|y l IH]; csimpl; [split; [intros _ []%elem_of_nil|done]|].
  rewrite elem_of_cons. case_decide as E; [split; [done|naive_solver]|]. rewrite IH. naive_solver.
Qed.
Lemma find_by_NoDup l i x : NoDup (key <$> l) -> l !! i = Some x -> find_by (key x) l = Some x.
Proof. intros. rewrite find_by_idx, (find_key_NoDup _ _ i x); done. Qed.
Lemma find_by_app k l l' : find_by k (l ++ l') = match find_by k l with Some x => Some x | None => find_by k l' end.
Proof. induction l as [|y l IH]; simpl; [done|]. by case_decide. Qed.
Lemma find_by_alter (f : A -> A) k l i x :
  (forall x, key (f x) = key x) -> NoDup (key <$> l) -> l !! i = Some x ->
  find_by k (alter f i l) = if decide (k = key x) then Some (f x) else find_by k l.
Proof.
  intros Hf. revert i. induction l as [|y l IH]; intros i; csimpl; [done|]. intros [Hy Hnd]%NoDup_cons.
  destruct i as [|i]; simpl.
  - intros [= ->]. change (alter f 0%nat (x :: l)) with (f x :: l). simpl. rewrite Hf. repeat case_decide; congruence.
  - intros Hi. specialize (IH i Hnd Hi). unfold alter in IH. rewrite IH.
    repeat case_decide; subst; try done. exfalso. apply Hy. replace (key y) with (key x) by congruence.
    apply list_elem_of_fmap_2. by eapply list_elem_of_lookup_2.
Qed.
Lemma find_by_delete k l i x :
  NoDup (key <$> l) -> l !! i = Some x ->
  find_by k (delete i l) = if decide (k = key x) then None else find_by k l.
Proof.
  revert i. induction l as [|y l IH]; intros i; csimpl; [done|]. intros [Hy Hnd]%NoDup_cons.
  destruct i as [|i]; simpl.
  - intros [= ->]. repeat case_decide; try congruence. subst. by apply find_by_None.
  - intros Hi. specialize (IH i Hnd Hi). cbn [delete list_delete] in *. rewrite IH. repeat case_decide; subst; try done. exfalso. apply Hy.
    replace (key y) with (key x) by congruence. apply list_elem_of_fmap_2. by eapply list_elem_of_lookup_2.
Qed.
Lemma find_by_omap (f : A -> option A) k l :
  (forall x y, f x = Some y -> key y = key x) -> NoDup (key <$> l) -> find_by k (omap f l) = find_by k l ≫= f.
Proof.
  intros Hf. induction l as [|x l IH]; csimpl; [done|]. intros [Hx Hnd]%NoDup_cons. specialize (IH Hnd).
  destruct (f x) as [y|] eqn:Ey; simpl; [rewrite (Hf x y Ey)|]; case_decide as E; simpl; try done.
  - rewrite IH. assert (find_by k l = None) as -> by (apply find_by_None; by rewrite <-E). done.
Qed.
Lemma NoDup_key_omap (f : A -> option A) l :
  (forall x y, f x = Some y -> key y = key x) -> NoDup (key <$> l) -> NoDup (key <$> omap f l).
Proof.
  intros Hf. induction l as [|x l IH]; csimpl; [done|]. intros [Hx Hnd]%NoDup_cons.
  destruct (f x) as [y|] eqn:Ey; csimpl; [|auto]. apply NoDup_cons. split; [|auto].
  rewrite (Hf x y Ey). intros (z & Hz & (z' & Hz' & Ez)%list_elem_of_omap)%list_elem_of_fmap.
  apply Hx. rewrite Hz, (Hf z' z Ez). by apply list_elem_of_fmap_2.
Qed.
End find_key.

(** * Lists of possibly-NULL data pointers

    The nodes of a [struct list] carry a [void *data] that may be [NULL]; the
    iteration macro [LIST_LOOP] skips those.  A list of data values is a
    [list (option A)], [None] standing for [NULL], and [live l] is what a
    [LIST_LOOP] visits. *)

Definition live {A} (l : list (option A)) : list A := omap id l.

Section live.
Context {A : Type}.
Implicit Types l : list (option A).

Lemma live_nil : live (A := A) [] = [].
Proof. done. Qed.
Lemma live_cons_Some x l : live (Some x :: l) = x :: live l.
Proof. done. Qed.
Lemma live_cons_None l : live (None :: l) = live l.
Proof. done. Qed.
Lemma live_app l k : live (l ++ k) = live l ++ live k.
Proof. apply omap_app. Qed.
Lemma live_Some (l : list A) : live (Some <$> l) = l.
Proof. induction l as [|x l IH]; [done|]. rewrite fmap_cons, live_cons_Some. by rewrite IH. Qed.
Lemma elem_of_live l x : x ∈ live l <-> Some x ∈ l.
Proof. unfold live. rewrite list_elem_of_omap. split; [intros ([y|] & ? & Hy)|]; naive_solver. Qed.
Lemma live_delete_sublist l i : live (delete i l) `sublist_of` live l.
Proof.
  revert i. induction l as [|[x|] l IH]; intros [|i]; simpl; [done|done| | |done|].
  - by apply sublist_cons.
  - change (x :: live (delete i l) `sublist_of` x :: live l). by apply sublist_skip.
  - apply IH.
Qed.
Lemma length_live l : (length (live l) <= length l)%nat.
Proof. induction l as [|[x|] l IH]; simpl; [done|..]; unfold live in *; simpl; lia. Qed.
End live.

#[global] Arguments live : simpl never.

(** * Hints and tactics of the development *)

Create HintDb ecmh.
#[export] Hint Resolve u8_range u16_range u32_range u64_range htons_range : ecmh.
Create Rewrite HintDb ecmh_rw.
#[export] Hint Rewrite @live_nil @live_cons_Some @live_cons_None @live_app @live_Some : ecmh_rw.

(** Case analysis on the first boolean test or match of the goal. *)
Ltac step_match :=
  match goal with
  | |- context [match ?x with _ => _ end] => destruct x eqn:?
  end.

(** Replace boolean tests of integers by the corresponding propositions. *)
Ltac zify_bool :=
  repeat match goal with
  | H : (_ =? _)%Z = true |- _ => apply Z.eqb_eq in H
  | H : (_ =? _)%Z = false |- _ => apply Z.eqb_neq in H
  | H : (_ <? _)%Z = true |- _ => apply Z.ltb_lt in H
  | H : (_ <? _)%Z = false |- _ => apply Z.ltb_ge in H
  | H : (_ <=? _)%Z = true |- _ => apply Z.leb_le in H
  | H : (_ <=? _)%Z = false |- _ => apply Z.leb_gt in H
  | H : (_ && _) = true |- _ => apply andb_true_iff in H; destruct H
  | H : (_ || _) = false |- _ => apply orb_false_iff in H; destruct H
  end.
