(* ===== verification/LinkList.v ===== *)
(** The generic linked list of [src/linklist.c] and [src/linklist.h], at two levels.

    - Module [Heap] is the C code on a heap of [struct listnode] cells: explicit
      [next]/[prev]/[data] pointers, [malloc] that may fail, and [None] for an access to
      memory that is not allocated.  The representation predicate [lrep] relates a heap
      and a [struct list] to the sequence of its nodes, and each operation is proved to
      implement the corresponding operation on sequences, without invalid access.
    - Section [sets] is the code built above it (membership, intersection, union,
      difference, bulk removal and insertion), on sequences of data values that may be
      [NULL]; a position stands for the pointer the code obtained by walking the list. *)

From S2P Require Import Prelude.

Module Heap.

(** ** Data: [struct listnode], [struct list] *)

Record listnode := Node { next : Z; prev : Z; data : Z }.

(** [del], [copy] and [cmp] are function pointers; [0] is [NULL]. *)
Record clist := CList { head : Z; tail : Z; count : Z; del : Z; copy : Z; cmp : Z }.

Definition set_next (v : Z) (n : listnode) : listnode := Node v (prev n) (data n).
Definition set_prev (v : Z) (n : listnode) : listnode := Node (next n) v (data n).
Definition set_ends (hd tl : Z) (l : clist) : clist := CList hd tl (count l) (del l) (copy l) (cmp l).
Definition set_count (c : Z) (l : clist) : clist := CList (head l) (tail l) c (del l) (copy l) (cmp l).

Abbreviation heap := (gmap Z listnode).

(** Store through a pointer; [None] when nothing is allocated there. *)
Definition store (p : Z) (f : listnode -> listnode) (h : heap) : option heap :=
  n ← h !! p; Some (<[p := f n]> h).

(** ** Operations *)

Definition list_new (malloc_ok : bool) : option clist :=
  if malloc_ok then Some (CList 0 0 0 0 0 0) else None.

(** [fresh] is what [malloc] answered: an address, or [None]; the node is zeroed. *)
Definition listnode_new (fresh : option Z) (h : heap) : heap * Z :=
  match fresh with
  | Some p => (<[p := Node 0 0 0]> h, p)
  | None => (h, 0)
  end.

(** [free] of an address that is not allocated is an error. *)
Definition listnode_free (p : Z) (h : heap) : option heap :=
  _ ← h !! p; Some (delete p h).

Definition list_isempty (l : clist) : bool := (head l =? 0) && (tail l =? 0).

Definition listnode_add (fresh : option Z) (val : Z) (h : heap) (l : clist) : option (heap * clist * Z) :=
  let '(h, node) := listnode_new fresh h in
  if node =? 0 then Some (h, l, 0)
  else
    h ← store node (fun n => Node (next n) (tail l) val) h;
    '(h, l) ← (if head l =? 0 then Some (h, set_ends node (tail l) l)
               else h ← store (tail l) (set_next node) h; Some (h, l));
    let l := set_ends (head l) node l in
    let l := if count l <? 0 then set_count 0 l else l in
    Some (h, set_count (count l + 1) l, node).

(** The four lines that take a node out of the chain, repeated in
    [listnode_delete], [list_delete_node] and [list_movefront_node]. *)
Definition unlink (node : Z) (h : heap) (l : clist) : option (heap * clist) :=
  n ← h !! node;
  '(h, l) ← (if prev n =? 0 then Some (h, set_ends (next n) (tail l) l)
             else h ← store (prev n) (set_next (next n)) h; Some (h, l));
  n ← h !! node;
  if next n =? 0 then Some (h, set_ends (head l) (prev n) l)
  else h ← store (next n) (set_prev (prev n)) h; Some (h, l).

Definition list_delete_node (node : Z) (h : heap) (l : clist) : option (heap * clist) :=
  '(h, l) ← unlink node h l;
  h ← listnode_free node h;
  Some (h, set_count (count l - 1) l).

(** The loop of [listnode_delete]; [fuel] bounds the number of nodes visited. *)
Fixpoint listnode_delete_loop (fuel : nat) (val node : Z) (h : heap) (l : clist) : option (heap * clist) :=
  match fuel with
  | O => None
  | S fuel =>
    if node =? 0 then Some (h, l)
    else
      n ← h !! node;
      if negb (data n =? val) then listnode_delete_loop fuel val (next n) h l
      else
        '(h, l) ← unlink node h l;
        let l := set_count (count l - 1) l in
        h ← listnode_free node h;
        Some (h, l)
  end.

Definition listnode_delete (val : Z) (h : heap) (l : clist) : option (heap * clist) :=
  listnode_delete_loop (S (size h)) val (head l) h l.

(** The loop shared by [list_delete_all_node] and [list_delete]: it also
    returns the data pointers handed to [list->del], in order. *)
Fixpoint free_nodes (fuel : nat) (node : Z) (h : heap) (l : clist) : option (heap * list Z) :=
  match fuel with
  | O => None
  | S fuel =>
    if node =? 0 then Some (h, [])
    else
      n ← h !! node;
      h ← listnode_free node h;
      '(h, calls) ← free_nodes fuel (next n) h l;
      Some (h, if del l =? 0 then calls else data n :: calls)
  end.

Definition list_delete_all_node (h : heap) (l : clist) : option (heap * clist * list Z) :=
  '(h, calls) ← free_nodes (S (size h)) (head l) h l;
  Some (h, set_count 0 (set_ends 0 0 l), calls).

Definition list_movefront_node (node : Z) (h : heap) (l : clist) : option (heap * clist) :=
  if head l =? node then Some (h, l)
  else
    '(h, l) ← unlink node h l;
    h ← (if head l =? 0 then Some h
         else
           first ← h !! head l;
           h ← store node (set_prev (prev first)) h;
           store (head l) (set_prev node) h);
    h ← store node (set_next (head l)) h;
    Some (h, set_ends node (tail l) l).

(** [list_hasmember]: [call] applies a function pointer. The result is the
    data pointer found, [0] when there is none. *)
Fixpoint hasmember_loop (fuel : nat) (call : Z -> Z -> Z -> bool) (l : clist) (needle node : Z) (h : heap) : option Z :=
  match fuel with
  | O => None
  | S fuel =>
    if node =? 0 then Some 0
    else
      n ← h !! node;
      let hit := if cmp l =? 0 then data n =? needle else call (cmp l) (data n) needle in
      if negb (data n =? 0) && hit then Some (data n)
      else hasmember_loop fuel call l needle (next n) h
  end.

Definition list_hasmember (call : Z -> Z -> Z -> bool) (l : clist) (needle : Z) (h : heap) : option Z :=
  hasmember_loop (S (size h)) call l needle (head l) h.
End Heap.

(** * Set operations above the list *)

(** What a list promises to its operations when its creator sets [list->cmp]: the function
    compares a key of the elements. *)
Class ListCmp {A K : Type} `{EqDecision K} (key : A -> K) (cmp : A -> A -> bool) : Prop :=
  cmp_key x y : cmp x y = bool_decide (key x = key y).

Section sets.
Context {A : Type} (cmp : A -> A -> bool).
Implicit Types a b l r : list (option A).

(** [list_hasmember] with a comparison function: the position of the first
    node whose (non-NULL) data compares equal to [needle]. *)
Definition list_hasmember l (needle : A) : option nat :=
  find_idx (fun o => match o with Some element => cmp element needle | None => false end) l.

Definition is_member l (needle : A) : bool :=
  match list_hasmember l needle with Some _ => true | None => false end.

(** [listnode_add] at the end; [listnode_delete] of the node at a position. *)
Definition listnode_add l (val : option A) : list (option A) := l ++ [val].
Definition listnode_delete l (i : nat) : list (option A) := delete i l.

Definition list_isempty l : bool := match l with [] => true | _ => false end.

Definition list_intersect a b : list (option A) :=
  let result := fold_left (fun r e => if is_member b e then listnode_add r (Some e) else r) (live a) [] in
  fold_left (fun r e => if is_member a e && negb (is_member r e) then listnode_add r (Some e) else r)
    (live b) result.

Definition list_union a (b : option (list (option A))) : list (option A) :=
  let result := fold_left (fun r e => listnode_add r (Some e)) (live a) [] in
  match b with
  | None => result
  | Some b => fold_left (fun r e => if negb (is_member r e) then listnode_add r (Some e) else r) (live b) result
  end.

Definition list_difference a b : list (option A) :=
  fold_left (fun r e => if negb (is_member b e) then listnode_add r (Some e) else r) (live a) [].

(** [b] is walked while [a] changes; the two lists are distinct at every call. *)
Definition list_remove_all a b : list (option A) :=
  fold_left (fun a e => match list_hasmember a e with
                        | Some i => listnode_delete a i
                        | None => a
                        end) (live b) a.

(** The code reuses [element] for the result of the membership test, so what
    it adds when the test fails is [NULL]. *)
Definition list_add_all a b : list (option A) :=
  fold_left (fun a e => match list_hasmember a e with
                        | None => listnode_add a None
                        | Some _ => a
                        end) (live b) a.
End sets.
#[global] Arguments list_intersect : simpl never.
#[global] Arguments list_union : simpl never.
#[global] Arguments list_difference : simpl never.
#[global] Arguments list_remove_all : simpl never.
#[global] Arguments list_add_all : simpl never.

(** * The representation predicate *)

Module HeapFacts.
Import Heap.

Definition hd_loc (xs : list (Z * Z)) (nxt : Z) : Z :=
  match xs with [] => nxt | (p, _) :: _ => p end.
Fixpoint last_loc (prv : Z) (xs : list (Z * Z)) : Z :=
  match xs with [] => prv | (p, _) :: xs => last_loc p xs end.

(** A chain of nodes [xs] (address, data), entered from [prv], leading to [nxt]. *)
Fixpoint dls (h : heap) (prv : Z) (xs : list (Z * Z)) (nxt : Z) : Prop :=
  match xs with
  | [] => True
  | (p, d) :: xs => p ≠ 0 /\ h !! p = Some (Node (hd_loc xs nxt) prv d) /\ dls h p xs nxt
  end.

Definition lrep (h : heap) (l : clist) (xs : list (Z * Z)) : Prop :=
  dls h 0 xs 0 /\ head l = hd_loc xs 0 /\ tail l = last_loc 0 xs /\
  count l = Z.of_nat (length xs) /\ NoDup xs.*1.

(** The operations leave alone every cell outside the list. *)
Definition frame (h h' : heap) (ps : list Z) : Prop := forall q, q ∉ ps -> h' !! q = h !! q.

Lemma hd_loc_app xs ys n : hd_loc (xs ++ ys) n = hd_loc xs (hd_loc ys n).
Proof. by destruct xs as [|[p d] xs]. Qed.
Lemma last_loc_app p xs ys : last_loc p (xs ++ ys) = last_loc (last_loc p xs) ys.
Proof. revert p; induction xs as [|[q d] xs IH]; intros p; simpl; auto. Qed.

Lemma dls_app h prv xs ys nxt :
  dls h prv (xs ++ ys) nxt <-> dls h prv xs (hd_loc ys nxt) /\ dls h (last_loc prv xs) ys nxt.
Proof.
  revert prv; induction xs as [|[p d] xs IH]; intros prv; simpl; [tauto|].
  rewrite IH, hd_loc_app. tauto.
Qed.

Lemma dls_frame h h' prv xs nxt :
  (forall p, p ∈ xs.*1 -> h' !! p = h !! p) -> dls h prv xs nxt -> dls h' prv xs nxt.
Proof.
  revert prv; induction xs as [|[p d] xs IH]; intros prv; csimpl; [done|].
  intros Hf (? & Hp & Hxs). split_and!; [done| |].
  - rewrite Hf; [done|]. left.
  - apply IH; [|done]. intros q Hq. apply Hf. by right.
Qed.

Lemma dls_lookup h prv xs nxt p : dls h prv xs nxt -> p ∈ xs.*1 -> is_Some (h !! p) /\ p ≠ 0.
Proof.
  revert prv; induction xs as [|[q d] xs IH]; intros prv; csimpl; [by intros _ ?%elem_of_nil|].
  intros (? & Hq & Hxs) [->|Hin]%elem_of_cons; eauto.
Qed.

Lemma hd_loc_in xs n : xs ≠ [] -> hd_loc xs n ∈ xs.*1.
Proof. destruct xs as [|[p d] xs]; [done|]. intros _. csimpl. left. Qed.
Lemma last_loc_in p xs : xs ≠ [] -> last_loc p xs ∈ xs.*1.
Proof.
  destruct xs as [|[q d] xs _] using rev_ind; [done|]. intros _.
  rewrite last_loc_app, fmap_app. csimpl. apply elem_of_app. right. left.
Qed.

Lemma hd_loc_zero h prv xs nxt : dls h prv xs nxt -> nxt = 0 -> (hd_loc xs nxt = 0 <-> xs = []).
Proof. destruct xs as [|[p d] xs]; csimpl; [by intros _ ->|]. by intros (? & _) _. Qed.
Lemma last_loc_zero h xs nxt : dls h 0 xs nxt -> (last_loc 0 xs = 0 <-> xs = []).
Proof.
  intros H. destruct xs as [|x xs]; [done|]. split; [|done]. intros Hl.
  assert (Hin : last_loc 0 (x :: xs) ∈ (x :: xs).*1) by (by apply last_loc_in).
  rewrite Hl in Hin. by apply (dls_lookup _ _ _ _ _ H) in Hin as [_ ?].
Qed.

Lemma store_Some p f h n : h !! p = Some n -> store p f h = Some (<[p := f n]> h).
Proof. unfold store. by intros ->. Qed.

(** Redirecting the [next] pointer of the last node, and the [prev] pointer of the first. *)
Lemma dls_set_last h prv xs p d nxt nxt' :
  NoDup (xs ++ [(p, d)]).*1 -> dls h prv (xs ++ [(p, d)]) nxt ->
  exists h', store p (set_next nxt') h = Some h' /\ dls h' prv (xs ++ [(p, d)]) nxt' /\ frame h h' [p].
Proof.
  rewrite fmap_app. intros (_ & Hdis & _)%NoDup_app (Hxs & Hp & Hl & _)%dls_app.
  eexists. split; [by apply store_Some|]. split.
  - apply dls_app. simpl. split_and!; [|done|by rewrite lookup_insert_eq|done].
    apply (dls_frame h); [|done]. intros q Hq. apply lookup_insert_ne. intros <-.
    apply (Hdis p Hq). csimpl. left.
  - intros q Hq. apply lookup_insert_ne. intros <-. apply Hq. left.
Qed.

Lemma dls_set_first h prv prv' p d xs nxt :
  NoDup ((p, d) :: xs).*1 -> dls h prv ((p, d) :: xs) nxt ->
  exists h', store p (set_prev prv') h = Some h' /\ dls h' prv' ((p, d) :: xs) nxt /\ frame h h' [p].
Proof.
  csimpl. intros [Hni _]%NoDup_cons (Hp & Hl & Hxs).
  eexists. split; [by apply store_Some|]. split.
  - split_and!; [done|by rewrite lookup_insert_eq|].
    apply (dls_frame h); [|done]. intros q Hq. apply lookup_insert_ne. congruence.
  - intros q Hq. apply lookup_insert_ne. intros <-. apply Hq. left.
Qed.

Lemma frame_refl h ps : frame h h ps.
Proof. by intros q _. Qed.
Lemma frame_trans h1 h2 h3 ps : frame h1 h2 ps -> frame h2 h3 ps -> frame h1 h3 ps.
Proof. intros H1 H2 q Hq. rewrite H2, H1; done. Qed.
Lemma frame_mono h1 h2 ps qs : frame h1 h2 ps -> (forall p, p ∈ ps -> p ∈ qs) -> frame h1 h2 qs.
Proof. intros H Hsub q Hq. apply H. auto. Qed.

(** First half of [unlink]: the predecessor (or the head) is redirected. *)
Lemma redirect_prev h l a p nxt' :
  dls h 0 a p -> NoDup a.*1 -> head l = hd_loc a p ->
  exists h', (if last_loc 0 a =? 0 then Some (h, set_ends nxt' (tail l) l)
              else h ← store (last_loc 0 a) (set_next nxt') h; Some (h, l))
             = Some (h', set_ends (hd_loc a nxt') (tail l) l) /\
    dls h' 0 a nxt' /\ frame h h' a.*1.
Proof.
  intros Ha Hnd Hhd. destruct (Z.eqb_spec (last_loc 0 a) 0) as [Hz|Hz].
  - apply (last_loc_zero _ _ _ Ha) in Hz as ->. exists h. eauto using frame_refl.
  - destruct a as [|[q d] a _] using rev_ind; [done|]. rewrite last_loc_app in *. simpl in *.
    destruct (dls_set_last _ _ _ _ _ _ nxt' Hnd Ha) as (h' & -> & ? & Hf). exists h'. split_and!; [|done|].
    + simpl. do 2 f_equal. rewrite hd_loc_app in Hhd |- *. destruct l; simpl in *.
      destruct a as [|[? ?] a]; simpl in *; by subst.
    + eapply frame_mono; [done|]. intros r ->%list_elem_of_singleton. rewrite fmap_app.
      apply elem_of_app. right. left.
Qed.

(** Second half: the successor (or the tail) is redirected. *)
Lemma redirect_next h l p b prv' :
  dls h p b 0 -> NoDup b.*1 -> tail l = last_loc p b ->
  exists h', (if hd_loc b 0 =? 0 then Some (h, set_ends (head l) prv' l)
              else h ← store (hd_loc b 0) (set_prev prv') h; Some (h, l))
             = Some (h', set_ends (head l) (last_loc prv' b) l) /\
    dls h' prv' b 0 /\ frame h h' b.*1.
Proof.
  intros Hb Hnd Htl. destruct (Z.eqb_spec (hd_loc b 0) 0) as [Hz|Hz].
  - apply (hd_loc_zero _ _ _ _ Hb) in Hz as ->; [|done]. exists h. eauto using frame_refl.
  - destruct b as [|[q d] b]; [done|]. simpl hd_loc.
    destruct (dls_set_first _ _ prv' _ _ _ _ Hnd Hb) as (h' & -> & ? & Hf). exists h'. split_and!; [|done|].
    + simpl. do 2 f_equal. destruct l; simpl in *. by subst.
    + eapply frame_mono; [done|]. intros r ->%list_elem_of_singleton. csimpl. left.
Qed.

Lemma unlink_spec h l a p d b :
  dls h 0 (a ++ (p, d) :: b) 0 -> NoDup (a ++ (p, d) :: b).*1 ->
  head l = hd_loc (a ++ (p, d) :: b) 0 -> tail l = last_loc 0 (a ++ (p, d) :: b) ->
  exists h', unlink p h l = Some (h', set_ends (hd_loc (a ++ b) 0) (last_loc 0 (a ++ b)) l) /\
    dls h' 0 (a ++ b) 0 /\ h' !! p = Some (Node (hd_loc b 0) (last_loc 0 a) d) /\
    frame h h' (a ++ b).*1.
Proof.
  intros (Ha & Hp & Hl & Hb)%dls_app Hnd Hhd Htl.
  rewrite fmap_app in Hnd. csimpl in Hnd.
  apply NoDup_app in Hnd as (Hnda & Hdis & [Hpb Hndb]%NoDup_cons).
  assert (Hpa : p ∉ a.*1) by (intros Hin; apply (Hdis p Hin); left).
  rewrite hd_loc_app in Hhd. rewrite last_loc_app in Htl. simpl in Hhd, Htl.
  destruct (redirect_prev h l a p (hd_loc b 0) Ha Hnda Hhd) as (h1 & E1 & Ha1 & F1).
  unfold unlink. rewrite Hl. simpl. rewrite E1. simpl.
  rewrite (F1 p Hpa), Hl. simpl.
  assert (Hb1 : dls h1 p b 0).
  { apply (dls_frame h); [|done]. intros q Hq. apply F1. intros Hqa. apply (Hdis q Hqa). by right. }
  destruct (redirect_next h1 (set_ends (hd_loc a (hd_loc b 0)) (tail l) l) p b (last_loc 0 a) Hb1 Hndb Htl)
    as (h2 & E2 & Hb2 & F2).
  simpl in E2. rewrite E2. exists h2. rewrite hd_loc_app, last_loc_app. split_and!; [done| | |].
  - apply dls_app. split; [|done]. apply (dls_frame h1); [|done]. intros q Hq. apply F2.
    intros Hqb. apply (Hdis q Hq). by right.
  - by rewrite F2, F1.
  - rewrite fmap_app. eapply frame_trans; eapply frame_mono; eauto; set_solver.
Qed.

Lemma dls_size h prv xs nxt : dls h prv xs nxt -> NoDup xs.*1 -> (length xs <= size h)%nat.
Proof.
  intros Hd Hnd. rewrite <-(length_fmap fst xs), <-size_dom.
  rewrite <-(size_list_to_set (C := gset Z) xs.*1) by done.
  apply subseteq_size. intros q Hq%elem_of_list_to_set. apply elem_of_dom.
  by apply (dls_lookup _ _ _ _ _ Hd).
Qed.

(** What [listnode_delete] does to the sequence of nodes. *)
Definition remove_data (v : Z) (xs : list (Z * Z)) : list (Z * Z) :=
  match find_idx (fun x => x.2 =? v) xs with Some i => delete i xs | None => xs end.

Lemma remove_data_app v a p b :
  (forall x, x ∈ a -> x.2 ≠ v) -> remove_data v (a ++ (p, v) :: b) = a ++ b.
Proof.
  intros Ha. unfold remove_data. rewrite find_idx_app_None; simpl.
  - rewrite Z.eqb_refl. simpl. rewrite Nat.add_0_r. by apply delete_middle.
  - apply find_idx_None. intros x Hx. apply Z.eqb_neq. auto.
Qed.
Lemma remove_data_None v xs : (forall x, x ∈ xs -> x.2 ≠ v) -> remove_data v xs = xs.
Proof.
  intros Ha. unfold remove_data.
  by rewrite (proj2 (find_idx_None _ _)) by (intros; apply Z.eqb_neq; auto).
Qed.

(** Taking a node of the list out and freeing it. *)
Lemma free_unlinked h l a p d b :
  lrep h l (a ++ (p, d) :: b) ->
  exists h' l', unlink p h l = Some (h', l') /\
    lrep (delete p h') (set_count (count l - 1) l') (a ++ b) /\
    count l' = count l /\ is_Some (h' !! p) /\ frame h h' (a ++ (p, d) :: b).*1.
Proof.
  intros (Hd & Hhd & Htl & Hc & Hnd).
  destruct (unlink_spec h l a p d b Hd Hnd Hhd Htl) as (h' & E & Hd' & Hp & F).
  assert (Hsub : a ++ b `sublist_of` a ++ (p, d) :: b) by (apply sublist_app; [done|by apply sublist_cons]).
  eexists h', _. split; [exact E|]. rewrite fmap_app in Hnd. csimpl in Hnd.
  pose proof Hnd as (_ & Hdis & [Hpb _]%NoDup_cons)%NoDup_app.
  split_and!; [|done|by rewrite Hp|].
  - split_and!; simpl; [|done|done| |].
    + apply (dls_frame h'); [|done]. intros q Hq. apply lookup_delete_ne. intros <-.
      rewrite fmap_app in Hq. apply elem_of_app in Hq as [Hq|]; [|done]. apply (Hdis p Hq). left.
    + rewrite Hc, !length_app. simpl. lia.
    + rewrite fmap_app. apply NoDup_app in Hnd as (? & ? & [? ?]%NoDup_cons). apply NoDup_app.
      split_and!; [done| |done]. intros q ??. eapply Hdis; [done|]. by right.
  - eapply frame_mono; [done|]. intros q Hq. rewrite fmap_app in *. csimpl.
    apply elem_of_app in Hq as [?|?]; apply elem_of_app; [by left|]. right. by right.
Qed.

Lemma listnode_delete_loop_spec v h l b : forall fuel a,
  lrep h l (a ++ b) -> (forall x, x ∈ a -> x.2 ≠ v) -> (length b < fuel)%nat ->
  exists h' l', listnode_delete_loop fuel v (hd_loc b 0) h l = Some (h', l') /\
    lrep h' l' (remove_data v (a ++ b)) /\ frame h h' (a ++ b).*1.
Proof.
  induction b as [|[p d] b IH]; intros [|fuel] a Hl Ha Hf; simpl in *; try lia.
  { exists h, l. rewrite remove_data_None; [auto using frame_refl|]. by rewrite app_nil_r. }
  pose proof Hl as ((_ & Hp & Hn & _)%dls_app & _). simpl in Hn.
  rewrite (proj2 (Z.eqb_neq p 0) Hp), Hn. simpl. destruct (Z.eqb_spec d v) as [->|Hv]; simpl.
  - destruct (free_unlinked _ _ _ _ _ _ Hl) as (h' & l' & E & Hl' & Hc & [n Hp'] & F). rewrite E. simpl.
    unfold listnode_free. rewrite Hp'. simpl. eexists _, _. split; [done|].
    rewrite remove_data_app, Hc by done. split; [done|].
    intros q Hq. rewrite lookup_delete_ne; [by apply F|]. intros <-. apply Hq.
    rewrite fmap_app. apply elem_of_app. right. left.
  - rewrite (cons_middle _ a b) in *. rewrite app_assoc in *.
    apply IH; [done| |lia]. intros x [?| ->%list_elem_of_singleton]%elem_of_app; auto.
Qed.

(** ** The operations refine operations on sequences *)

(** [listnode_add] appends the value, in a fresh node. *)
Theorem listnode_add_refines h l xs p v :
  lrep h l xs -> h !! p = None -> p ≠ 0 ->
  exists h' l', listnode_add (Some p) v h l = Some (h', l', p) /\
    lrep h' l' (xs ++ [(p, v)]) /\ frame h h' (p :: xs.*1).
Proof.
  intros (Hd & Hhd & Htl & Hc & Hnd) Hp Hp0.
  assert (Hpx : p ∉ xs.*1).
  { intros Hin. apply (dls_lookup _ _ _ _ _ Hd) in Hin as [[n Hn] _]. congruence. }
  set (h1 := <[p := Node 0 (tail l) v]> h).
  assert (Hd1 : dls h1 0 xs 0).
  { apply (dls_frame h); [|done]. intros q Hq. apply lookup_insert_ne. congruence. }
  assert (Hnd' : NoDup (xs ++ [(p, v)]).*1).
  { rewrite fmap_app. apply NoDup_app. split_and!; [done| |apply NoDup_singleton].
    intros q ? ->%list_elem_of_singleton. done. }
  unfold listnode_add, listnode_new. rewrite (proj2 (Z.eqb_neq p 0) Hp0).
  rewrite (store_Some _ _ _ (Node 0 0 0)) by apply lookup_insert_eq. simpl. rewrite insert_insert_eq. fold h1.
  pose proof (Zle_0_nat (length xs)). rewrite <-Hc in *.
  destruct xs as [|[q d] xs _] using rev_ind.
  - simpl in *. rewrite Hhd. simpl. rewrite (proj2 (Z.ltb_ge _ _)) by done.
    eexists _, _. split; [done|]. split.
    + split_and!; simpl; [|done|done|by rewrite Hc|done]. split_and!; [done| |done].
      unfold h1. by rewrite lookup_insert_eq, Htl.
    + intros r Hr. apply lookup_insert_ne. intros <-. apply Hr. left.
  - assert (Hne : head l ≠ 0).
    { rewrite Hhd. intros H0. apply (hd_loc_zero _ _ _ _ Hd eq_refl) in H0. by destruct xs. }
    rewrite (proj2 (Z.eqb_neq _ _) Hne). simpl. rewrite last_loc_app in Htl. simpl in Htl.
    destruct (dls_set_last _ _ _ _ _ _ p Hnd Hd1) as (h2 & E & Hd2 & F2).
    rewrite <-Htl in E, F2. rewrite E. simpl. rewrite (proj2 (Z.ltb_ge _ _)) by done.
    eexists _, _. split; [done|]. split.
    + split_and!; simpl; [| | |by rewrite Hc, !length_app; simpl; lia|done].
      * apply dls_app. simpl. split_and!; [done|done| |done].
        rewrite F2; [unfold h1; rewrite lookup_insert_eq, last_loc_app; simpl; by rewrite Htl|].
        intros ->%list_elem_of_singleton. apply Hpx. rewrite Htl, fmap_app. apply elem_of_app. right. left.
      * by rewrite hd_loc_app in *; simpl in *; destruct xs as [|[]].
      * by rewrite last_loc_app.
    + intros r [Hr1 Hr2]%not_elem_of_cons. rewrite F2; [by apply lookup_insert_ne|].
      intros ->%list_elem_of_singleton. apply Hr2. rewrite Htl, fmap_app. apply elem_of_app. right. left.
Qed.

Theorem listnode_add_nomem h l v : listnode_add None v h l = Some (h, l, 0).
Proof. done. Qed.

(** C38: [listnode_delete] unlinks and frees the first node that holds the value, if there is one, and
    touches no cell outside the list. *)
Theorem listnode_delete_refines h l xs v :
  lrep h l xs ->
  exists h' l', listnode_delete v h l = Some (h', l') /\
    lrep h' l' (remove_data v xs) /\ frame h h' xs.*1.
Proof.
  intros Hl. pose proof Hl as (Hd & Hhd & _ & _ & Hnd). unfold listnode_delete. rewrite Hhd.
  apply (listnode_delete_loop_spec v h l xs _ []); [done|by intros ? ?%elem_of_nil|].
  pose proof (dls_size _ _ _ _ Hd Hnd). lia.
Qed.

Theorem list_delete_node_refines h l a p d b :
  lrep h l (a ++ (p, d) :: b) ->
  exists h' l', list_delete_node p h l = Some (h', l') /\ lrep h' l' (a ++ b) /\ h' !! p = None.
Proof.
  intros Hl. destruct (free_unlinked _ _ _ _ _ _ Hl) as (h' & l' & E & Hl' & Hc & [n Hp'] & _).
  unfold list_delete_node, listnode_free. rewrite E. simpl. rewrite Hp'. simpl. rewrite Hc.
  eexists _, _. split_and!; [done|done|apply lookup_delete_eq].
Qed.

(** [list_movefront_node] moves a node of the list to its front and keeps the order of the others. *)
Theorem list_movefront_node_refines h l a p d b :
  lrep h l (a ++ (p, d) :: b) ->
  exists h' l', list_movefront_node p h l = Some (h', l') /\ lrep h' l' ((p, d) :: a ++ b).
Proof.
  intros Hl. pose proof Hl as (Hd & Hhd & Htl & Hc & Hnd).
  unfold list_movefront_node. destruct (Z.eqb_spec (head l) p) as [Hp|Hp].
  { exists h, l. split; [done|]. rewrite Hhd, hd_loc_app in Hp. destruct a as [|[q e] a]; [done|].
    simpl in *. subst q. exfalso. revert Hnd. rewrite fmap_app. csimpl. intros [Hin _]%NoDup_cons.
    apply Hin. apply elem_of_app. right. rewrite Hp. left. }
  destruct (unlink_spec h l a p d b Hd Hnd Hhd Htl) as (h1 & E1 & Hd1 & Hp1 & F1).
  rewrite E1. simpl. rewrite fmap_app in Hnd. csimpl in Hnd.
  pose proof Hnd as (Hnda & Hdis & [Hpb Hndb]%NoDup_cons)%NoDup_app.
  assert (Hp0 : p ≠ 0). { apply dls_app in Hd as [_ Hd]. by destruct Hd. }
  assert (Hpab : p ∉ (a ++ b).*1).
  { rewrite fmap_app. intros [Hin|Hin]%elem_of_app; [|done]. apply (Hdis p Hin). left. }
  assert (Hndab : NoDup (p :: (a ++ b).*1)).
  { constructor; [done|]. rewrite fmap_app. apply NoDup_app. split_and!; [done| |done].
    intros q ??. eapply Hdis; [done|]. by right. }
  destruct a as [|[q e] a].
  { simpl in Hhd. congruence. }
  simpl app in *. simpl hd_loc. set (ab := a ++ b) in *. destruct Hd1 as (Hq0 & Hq & Hab).
  rewrite (proj2 (Z.eqb_neq q 0) Hq0). simpl. rewrite Hq. unfold store. rewrite Hp1. simpl.
  assert (Hqp : q ≠ p) by (intros ->; apply Hpab; csimpl; left).
  rewrite lookup_insert_ne, Hq by done. simpl. rewrite lookup_insert_ne, lookup_insert_eq by done. simpl.
  eexists _, _. split; [done|]. unfold set_next, set_prev; simpl.
  rewrite (insert_insert_ne _ p q) by done. rewrite insert_insert_eq.
  csimpl in Hndab. apply NoDup_cons in Hndab as [_ [Hqab ?]%NoDup_cons].
  split_and!; simpl; [| done | done | | csimpl; constructor; [done|by constructor]].
  - split_and!; [done|by rewrite lookup_insert_ne, lookup_insert_eq by congruence|done|by rewrite lookup_insert_eq|].
    apply (dls_frame h1); [|done]. intros r Hr.
    rewrite !lookup_insert_ne; [done| |]; [intros <-; apply Hpab; csimpl; by right|intros <-; done].
  - rewrite Hc. simpl. unfold ab. rewrite !length_app. simpl. lia.
Qed.

Lemma free_nodes_spec l xs : forall fuel prv h,
  dls h prv xs 0 -> NoDup xs.*1 -> (length xs < fuel)%nat ->
  exists h', free_nodes fuel (hd_loc xs 0) h l = Some (h', if del l =? 0 then [] else xs.*2) /\
    (forall q, q ∈ xs.*1 -> h' !! q = None) /\ frame h h' xs.*1.
Proof.
  induction xs as [|[p d] xs IH]; intros [|fuel] prv h Hd Hnd Hf; csimpl in *; try lia.
  { exists h. rewrite Tauto.if_same. split_and!; [done|by intros ? ?%elem_of_nil|apply frame_refl]. }
  destruct Hd as (Hp0 & Hp & Hd). apply NoDup_cons in Hnd as [Hpx Hnd].
  rewrite (proj2 (Z.eqb_neq p 0) Hp0). unfold listnode_free. rewrite Hp. simpl.
  destruct (IH fuel p (delete p h)) as (h' & E & Hdel & F); [|done|lia|].
  { apply (dls_frame h); [|done]. intros q Hq. apply lookup_delete_ne. congruence. }
  rewrite E. simpl. eexists. split; [by destruct (del l =? 0)|]. split.
  - intros q [->|Hq]%elem_of_cons; [rewrite F by done; apply lookup_delete_eq|auto].
  - intros q [??]%not_elem_of_cons. rewrite F by done. by apply lookup_delete_ne.
Qed.

(** Emptying a list: the destructor runs once on every data pointer, in list
    order, every node is freed, and no other cell changes. *)
Theorem list_delete_all_node_refines h l xs :
  lrep h l xs ->
  exists h' l', list_delete_all_node h l = Some (h', l', if del l =? 0 then [] else xs.*2) /\
    lrep h' l' [] /\ (forall q, q ∈ xs.*1 -> h' !! q = None) /\ frame h h' xs.*1.
Proof.
  intros (Hd & Hhd & _ & _ & Hnd). unfold list_delete_all_node. rewrite Hhd.
  destruct (free_nodes_spec l xs (S (size h)) 0 h) as (h' & E & ? & ?); [done..| |].
  { pose proof (dls_size _ _ _ _ Hd Hnd). lia. }
  rewrite E. eexists _, _. split; [done|]. split_and!; [|done|done]. split_and!; try done. apply NoDup_nil_2.
Qed.

Lemma lrep_empty h l xs : lrep h l xs -> list_isempty l = bool_decide (xs = []).
Proof.
  intros (Hd & Hhd & Htl & _ & _). unfold list_isempty. rewrite Hhd, Htl.
  destruct xs as [|[p d] xs]; [done|]. destruct Hd as (Hp & _). simpl.
  by rewrite (proj2 (Z.eqb_neq p 0) Hp).
Qed.

(** The data values of a list as the set operations see them. *)
Definition datas (xs : list (Z * Z)) : list (option Z) :=
  (fun x => if x.2 =? 0 then None else Some x.2) <$> xs.

(** The pointer-level search returns the data pointer of the node that the search on sequences finds. *)
Theorem list_hasmember_refines call h l xs needle :
  lrep h l xs ->
  let cmp' := if cmp l =? 0 then Z.eqb else call (cmp l) in
  list_hasmember call l needle h
  = Some (match LinkList.list_hasmember cmp' (datas xs) needle with
          | Some i => default 0 (snd <$> xs !! i)
          | None => 0
          end).
Proof.
  intros (Hd & Hhd & _ & _ & Hnd) cmp'. unfold list_hasmember. rewrite Hhd.
  assert (Hlen : (length xs < S (size h))%nat) by (pose proof (dls_size _ _ _ _ Hd Hnd); lia).
  clear Hnd Hhd. revert Hd Hlen. generalize 0 at 1 as prv. generalize (S (size h)) as fuel.
  induction xs as [|[p d] xs IH]; intros [|fuel] prv Hd Hlen; simpl in *; try lia; [done|].
  destruct Hd as (Hp0 & Hp & Hd). rewrite (proj2 (Z.eqb_neq p 0) Hp0), Hp. simpl.
  replace (if cmp l =? 0 then d =? needle else call (cmp l) d needle) with (cmp' d needle)
    by (unfold cmp'; by destruct (cmp l =? 0)).
  rewrite (IH fuel p Hd) by lia.
  unfold LinkList.list_hasmember. clear IH. destruct (Z.eqb_spec d 0) as [->|Hd0]; simpl;
    [|destruct (cmp' d needle); [done|]]; by destruct (find_idx _ (datas xs)).
Qed.
End HeapFacts.

(** * The set operations compute set operations

    For a [cmp] that keeps the promise of [ListCmp] ([msrc_cmp] compares addresses); [keys l]
    is the list of the keys a [LIST_LOOP] over [l] meets. *)

Section set_facts.
Context {A K : Type} `{EqDecision K} (key : A -> K) (cmp : A -> A -> bool) `{!ListCmp key cmp}.
Implicit Types a b l r : list (option A).

Definition keys l : list K := key <$> live l.

Lemma keys_app a b : keys (a ++ b) = keys a ++ keys b.
Proof. unfold keys. by rewrite live_app, fmap_app. Qed.
Lemma keys_snoc a x : keys (a ++ [Some x]) = keys a ++ [key x].
Proof. apply keys_app. Qed.
Lemma elem_of_keys l k : k ∈ keys l <-> exists x, x ∈ live l /\ key x = k.
Proof. unfold keys. rewrite list_elem_of_fmap. naive_solver. Qed.

Lemma is_member_keys l x : is_member cmp l x = bool_decide (key x ∈ keys l).
Proof.
  unfold is_member. destruct (list_hasmember cmp l x) as [i|] eqn:E; symmetry.
  - apply bool_decide_eq_true. apply find_idx_Some in E as ([y|] & Hy & Hc & _); [|done].
    rewrite cmp_key in Hc. apply bool_decide_eq_true in Hc as <-. apply elem_of_keys.
    exists y. split; [|done]. apply elem_of_live. by eapply list_elem_of_lookup_2.
  - apply bool_decide_eq_false. intros (y & Hy & Hk)%elem_of_keys. unfold list_hasmember in E.
    rewrite find_idx_None in E. apply elem_of_live, E in Hy. rewrite cmp_key, Hk in Hy.
    by rewrite bool_decide_true in Hy.
Qed.

Lemma list_hasmember_None l x : list_hasmember cmp l x = None <-> key x ∉ keys l.
Proof.
  pose proof (is_member_keys l x) as H. unfold is_member in H.
  destruct (list_hasmember cmp l x); case_bool_decide; naive_solver.
Qed.

(** A filtering copy loop appends the selected elements, in order. *)
Lemma fold_filter (f : A -> bool) xs r :
  fold_left (fun r e => if f e then listnode_add r (Some e) else r) xs r = r ++ (Some <$> filter (fun x => f x) xs).
Proof.
  revert r; induction xs as [|x xs IH]; intros r; simpl; [by rewrite app_nil_r|].
  rewrite IH, filter_cons. destruct (f x); simpl; [|done].
  unfold listnode_add. by rewrite <-app_assoc.
Qed.

Lemma live_difference a b :
  live (list_difference cmp a b) = filter (fun x => key x ∉ keys b) (live a).
Proof.
  unfold list_difference. rewrite (fold_filter (fun e => negb (is_member cmp b e))), app_nil_l, live_Some.
  apply list_filter_iff. intros x. rewrite is_member_keys. by case_bool_decide; simpl; split; auto.
Qed.

(** The second loop of [list_intersect] never adds anything. *)
Lemma live_intersect a b :
  live (list_intersect cmp a b) = filter (fun x => key x ∈ keys b) (live a).
Proof.
  unfold list_intersect. rewrite (fold_filter (fun e => is_member cmp b e)), app_nil_l.
  set (r := Some <$> filter (fun x => is_member cmp b x) (live a)).
  assert (Hr : live r = filter (fun x => key x ∈ keys b) (live a)).
  { unfold r. rewrite live_Some. apply list_filter_iff. intros x. rewrite is_member_keys.
    by rewrite bool_decide_spec. }
  rewrite <-Hr. enough (E : forall ys, (forall y, y ∈ ys -> y ∈ live b) ->
    fold_left (fun r e => if is_member cmp a e && negb (is_member cmp r e) then listnode_add r (Some e) else r) ys r = r)
    by (by rewrite E).
  induction ys as [|y ys IH]; intros Hys; [done|]. simpl.
  rewrite !is_member_keys. rewrite <-bool_decide_not, <-bool_decide_and.
  rewrite bool_decide_eq_false_2; [apply IH; intros; apply Hys; by right|].
  intros [Ha Hnr]. apply Hnr. apply elem_of_keys in Ha as (x & Hx & Hk). apply elem_of_keys.
  exists x. split; [|done]. rewrite Hr. apply list_elem_of_filter. split; [|done].
  rewrite Hk. apply elem_of_keys. exists y. split; [|done]. apply Hys. left.
Qed.

Lemma keys_intersect_elem a b k : k ∈ keys (list_intersect cmp a b) <-> k ∈ keys a /\ k ∈ keys b.
Proof.
  rewrite elem_of_keys, (elem_of_keys a). setoid_rewrite live_intersect. setoid_rewrite list_elem_of_filter.
  split; [intros (x & [? ?] & <-); eauto|]. intros [(x & ? & <-) ?]; eauto.
Qed.
Lemma keys_difference_elem a b k : k ∈ keys (list_difference cmp a b) <-> k ∈ keys a /\ k ∉ keys b.
Proof.
  rewrite elem_of_keys, (elem_of_keys a). setoid_rewrite live_difference. setoid_rewrite list_elem_of_filter.
  split; [intros (x & [? ?] & <-); eauto|]. intros [(x & ? & <-) ?]; eauto.
Qed.

(** The elements of [xs] whose key is new, first occurrences only. *)
Fixpoint fresh_elems (seen : list K) (xs : list A) : list A :=
  match xs with
  | [] => []
  | x :: xs => if decide (key x ∈ seen) then fresh_elems seen xs
               else x :: fresh_elems (seen ++ [key x]) xs
  end.

Lemma fold_fresh xs r :
  fold_left (fun r e => if negb (is_member cmp r e) then listnode_add r (Some e) else r) xs r
  = r ++ (Some <$> fresh_elems (keys r) xs).
Proof.
  revert r; induction xs as [|x xs IH]; intros r; simpl; [by rewrite app_nil_r|].
  rewrite IH, is_member_keys. case_bool_decide as Hx; simpl.
  - by rewrite decide_True by done.
  - rewrite decide_False by done. unfold listnode_add. by rewrite keys_snoc, <-app_assoc.
Qed.

Lemma fresh_elems_NoDup seen xs : NoDup seen -> NoDup (seen ++ (key <$> fresh_elems seen xs)).
Proof.
  revert seen; induction xs as [|x xs IH]; intros seen Hs; simpl; [by rewrite app_nil_r|].
  case_decide as Hx; [by apply IH|]. csimpl. rewrite (cons_middle _ seen), app_assoc. apply IH.
  apply NoDup_app. split_and!; [done| |apply NoDup_singleton]. by intros k ? ->%list_elem_of_singleton.
Qed.

Lemma fresh_elems_keys seen xs k : k ∈ seen ++ (key <$> fresh_elems seen xs) <-> k ∈ seen \/ k ∈ key <$> xs.
Proof.
  revert seen; induction xs as [|x xs IH]; intros seen; csimpl.
  { rewrite app_nil_r, elem_of_nil. tauto. }
  rewrite elem_of_cons. case_decide as Hx; csimpl.
  - rewrite IH. naive_solver.
  - rewrite (cons_middle _ seen), app_assoc, IH, elem_of_app, list_elem_of_singleton. tauto.
Qed.

Lemma fold_copy (xs : list A) r : fold_left (fun r e => listnode_add r (Some e)) xs r = r ++ (Some <$> xs).
Proof.
  revert r; induction xs as [|x xs IH]; intros r; simpl; [by rewrite app_nil_r|].
  rewrite IH. unfold listnode_add. by rewrite <-app_assoc.
Qed.

(** Union keeps [a] and appends the elements of [b] whose key is new. *)
Lemma live_union a b :
  live (list_union cmp a (Some b)) = live a ++ fresh_elems (keys a) (live b).
Proof.
  unfold list_union. rewrite fold_copy, app_nil_l, fold_fresh, live_app, !live_Some.
  do 2 f_equal. unfold keys. by rewrite live_Some.
Qed.
Lemma live_union_None a : live (list_union cmp a None) = live a.
Proof. unfold list_union. by rewrite fold_copy, app_nil_l, live_Some. Qed.

Lemma keys_union_elem a b k : k ∈ keys (list_union cmp a (Some b)) <-> k ∈ keys a \/ k ∈ keys b.
Proof. unfold keys at 1. rewrite live_union, fmap_app. apply fresh_elems_keys. Qed.
Lemma keys_union_NoDup a b : NoDup (keys a) -> NoDup (keys (list_union cmp a (Some b))).
Proof. intros Ha. unfold keys at 1. rewrite live_union, fmap_app. by apply fresh_elems_NoDup. Qed.

Lemma keys_filter_NoDup (P : A -> Prop) `{forall x, Decision (P x)} xs :
  NoDup (key <$> xs) -> NoDup (key <$> filter P xs).
Proof.
  induction xs as [|x xs IH]; [done|]. rewrite filter_cons. csimpl. intros [Hx ?]%NoDup_cons.
  case_decide; [|auto]. csimpl. apply NoDup_cons. split; [|auto].
  intros (y & Hy & [_ ?]%list_elem_of_filter)%list_elem_of_fmap. apply Hx. rewrite Hy.
  by apply list_elem_of_fmap_2.
Qed.
Lemma keys_intersect_NoDup a b : NoDup (keys a) -> NoDup (keys (list_intersect cmp a b)).
Proof. intros ?. unfold keys at 1. rewrite live_intersect. by apply keys_filter_NoDup. Qed.
Lemma keys_difference_NoDup a b : NoDup (keys a) -> NoDup (keys (list_difference cmp a b)).
Proof. intros ?. unfold keys at 1. rewrite live_difference. by apply keys_filter_NoDup. Qed.

(** Deleting the node [list_hasmember] found. *)
Lemma live_delete_found a e i :
  NoDup (keys a) -> list_hasmember cmp a e = Some i ->
  live (listnode_delete a i) = filter (fun x => key x ≠ key e) (live a).
Proof.
  unfold list_hasmember, listnode_delete, keys. revert i.
  induction a as [|[x|] a IH]; intros i; simpl; [by intros| |].
  - autorewrite with ecmh_rw. rewrite cmp_key, filter_cons. csimpl. intros [Hx Hnd]%NoDup_cons.
    case_bool_decide as Hk.
    + intros [= <-]. rewrite decide_False by naive_solver. simpl. symmetry.
      clear IH. induction (live a) as [|y l IHl]; [done|]. csimpl in *.
      apply not_elem_of_cons in Hx as [? ?]. rewrite filter_cons_True by congruence.
      apply NoDup_cons in Hnd as [_ ?]. f_equal. by apply IHl.
    + intros (j & Hj & ->)%fmap_Some. rewrite decide_True by done. simpl. autorewrite with ecmh_rw.
      f_equal. by apply IH.
  - autorewrite with ecmh_rw. intros Hnd (j & Hj & ->)%fmap_Some. simpl. autorewrite with ecmh_rw. by apply IH.
Qed.

Lemma live_remove_fold es a :
  NoDup (keys a) ->
  live (fold_left (fun a e => match list_hasmember cmp a e with
                              | Some i => listnode_delete a i
                              | None => a
                              end) es a)
  = filter (fun x => key x ∉ key <$> es) (live a).
Proof.
  revert a. induction es as [|e es IH]; intros a Hnd; simpl.
  { symmetry. induction (live a) as [|x l IHl]; [done|]. rewrite filter_cons_True; [by rewrite IHl|].
    apply not_elem_of_nil. }
  destruct (list_hasmember cmp a e) as [i|] eqn:E.
  - assert (Hl := live_delete_found _ _ _ Hnd E). rewrite IH, Hl, list_filter_filter.
    + apply list_filter_iff. intros x. csimpl. rewrite not_elem_of_cons. tauto.
    + unfold keys. rewrite Hl. by apply keys_filter_NoDup.
  - rewrite IH by done. apply list_hasmember_None in E. unfold keys in E.
    clear -E. induction (live a) as [|x l IHl]; [done|]. csimpl in *.
    apply not_elem_of_cons in E as [? ?]. rewrite !filter_cons, IHl by done.
    repeat case_decide; set_solver.
Qed.

Lemma live_remove_all a b :
  NoDup (keys a) -> live (list_remove_all cmp a b) = filter (fun x => key x ∉ keys b) (live a).
Proof. apply live_remove_fold. Qed.

Lemma keys_remove_all_NoDup a b : NoDup (keys a) -> NoDup (keys (list_remove_all cmp a b)).
Proof. intros ?. unfold keys at 1. rewrite live_remove_all by done. by apply keys_filter_NoDup. Qed.
Lemma keys_remove_all_elem a b k :
  NoDup (keys a) -> k ∈ keys (list_remove_all cmp a b) <-> k ∈ keys a /\ k ∉ keys b.
Proof.
  intros Hnd. rewrite elem_of_keys, (elem_of_keys a), live_remove_all by done. setoid_rewrite list_elem_of_filter.
  split; [intros (x & [? ?] & <-); eauto|]. intros [(x & ? & <-) ?]; eauto.
Qed.

(** [list_add_all] never adds an element: it appends a [NULL] node for each missing one. *)
Lemma list_add_all_spec a b :
  list_add_all cmp a b = a ++ replicate (length (filter (fun x => key x ∉ keys a) (live b))) None.
Proof.
  unfold list_add_all. generalize (live b) as es. intros es.
  assert (E : forall n, keys (a ++ replicate n None) = keys a).
  { intros n. rewrite keys_app. unfold keys at 2. replace (live (replicate n None)) with (@nil A); [by rewrite app_nil_r|].
    induction n as [|n IHn]; [done|]. by simpl; rewrite live_cons_None. }
  enough (H : forall n, fold_left (fun a e => match list_hasmember cmp a e with
                        | None => listnode_add a None | Some _ => a end) es (a ++ replicate n None)
    = a ++ replicate (n + length (filter (fun x => key x ∉ keys a) es)) None).
  { specialize (H O). by rewrite app_nil_r in H. }
  induction es as [|e es IH]; intros n; simpl; [by rewrite Nat.add_0_r|].
  rewrite filter_cons. destruct (list_hasmember cmp (a ++ replicate n None) e) as [i|] eqn:Ei.
  - rewrite IH. rewrite decide_False; [done|]. intros Hin. rewrite <-(E n) in Hin.
    apply list_hasmember_None in Hin. congruence.
  - apply list_hasmember_None in Ei. rewrite E in Ei. rewrite decide_True by done. unfold listnode_add.
    replace ((a ++ replicate n None) ++ [None]) with (a ++ replicate (S n) None)
      by (rewrite replicate_S_end; by rewrite app_assoc).
    rewrite IH. simpl. by rewrite Nat.add_succ_r.
Qed.
End set_facts.
