(* ===== verification/Checksum.v ===== *)
(** The Internet checksum of [src/ecmh.c] ([inchksum], [ipv6_checksum]) and
    the MMH hash of [src/hash.c] ([hash_make]): word arithmetic, termination of the
    carry-folding loop, and what the results mean. *)

From S2P Require Import Prelude.

(** * Definitions *)

(** The words of [inchksum]: 16-bit loads on a little-endian host, the odd
    last byte added alone.  [data] lists the bytes at the pointer, each in [0..255]. *)
Fixpoint word_sum (data : list Z) : Z :=
  match data with
  | b0 :: b1 :: data => le16_load b0 b1 + word_sum data
  | [b] => b
  | [] => 0
  end.

(** [while (sum >> 16) sum = (sum & 0xffff) + (sum >> 16);] *)
Fixpoint fold_carries (fuel : nat) (sum : Z) : Z :=
  match fuel with
  | O => sum
  | S fuel => if Z.shiftr sum 16 =? 0 then sum
              else fold_carries fuel (Z.land sum 65535 + Z.shiftr sum 16)
  end.

(** The accumulator of a buffer of less than 2^32 bytes is below 2^48: four rounds reach 16 bits. *)
Definition inchksum (data : list Z) : Z := u16 (fold_carries 4 (word_sum data)).

(** The pseudo header as it lies in memory; [length] is a [uint16_t]. *)
Definition pseudo_header (protocol : Z) (length : Z) : list Z :=
  le16 (htons length) ++ [0; 0; 0; u8 protocol].

(** The end of [ipv6_checksum], also inlined in [sendpacket6]: two carry
    rounds, complement, and 0 replaced by 0xffff. *)
Definition finish_checksum (chksum : Z) : Z :=
  let chksum := u32 (Z.shiftr chksum 16 + Z.land chksum 65535) in
  let chksum := u32 (chksum + Z.shiftr chksum 16) in
  let chksum := u16 (Z.lnot chksum) in
  if chksum =? 0 then 65535 else chksum.

(** [src_dst] is the 32 bytes of the source and destination addresses. *)
Definition ipv6_checksum (src_dst : list Z) (protocol : Z) (data : list Z) : Z :=
  let chksum := inchksum src_dst in
  let chksum := u32 (chksum + inchksum (pseudo_header protocol (u16 (Z.of_nat (length data))))) in
  let chksum := u32 (chksum + inchksum data) in
  finish_checksum chksum.

(** [hash_make]: the 248 key bytes, taken two by two. *)
Definition keyc_line : list Z :=
  [65;66;67;68;69;70;71;72;73;74;75;76;77;78;79;80;81;82;83;84;85;86;87;88;89;90;
   97;98;99;100;101;102;103;104;105;106;107;108;109;110;111;112;113;114;115;116;117;118;119;120;121;122;
   48;49;50;51;52;53;54;55;56;57].
Definition keyc : list Z := keyc_line ++ keyc_line ++ keyc_line ++ keyc_line.

Fixpoint words_of (bytes : list Z) : list Z :=
  match bytes with
  | b0 :: b1 :: bytes => le16_load b0 b1 :: words_of bytes
  | _ => []
  end.
Definition hash_key : list Z := words_of keyc.

(** The running sum; [None] when the message is longer than the key. *)
Fixpoint hash_sum (key msg : list Z) (sum : Z) : option Z :=
  match msg, key with
  | [], _ => Some sum
  | _ :: _, [] => None
  | m :: msg, k :: key => hash_sum key msg (u64 (sum + u64 (k * m)))
  end.

(** Two's complement reading of a 64-bit word. *)
Definition s64 (x : Z) : Z := if u64 x <? 2 ^ 63 then u64 x else u64 x - 2 ^ 64.

Definition hash_finish (sum : Z) : Z :=
  let stmp := s64 (Z.land sum 4294967295 - Z.shiftr sum 32 * 15) in
  let utmp := u64 (Z.land stmp 4294967295 - Z.shiftr stmp 32 * 15) in
  let ret := Z.land utmp 4294967295 in
  if 4294967295 <? utmp then u64 (ret - 15) else ret.

(** [msg] lists the 16-bit words of the message ([len/2] of them). *)
Definition hash_make (msg : list Z) : option Z := hash_finish <$> hash_sum hash_key msg 0.

(** * Facts *)

Definition is_byte (b : Z) : Prop := 0 <= b < 256.
Definition bytes (l : list Z) : Prop := Forall is_byte l.

Lemma word_sum_bound data : bytes data -> 0 <= word_sum data <= 65535 * Z.of_nat (length data).
Proof.
  revert data. fix IH 1. intros [|b0 [|b1 data]] H; simpl; [lia| |].
  - apply Forall_cons in H as [? _]. unfold is_byte in *. lia.
  - apply Forall_cons in H as [H0 [H1 H]%Forall_cons]. specialize (IH data H).
    unfold is_byte, le16_load in *. lia.
Qed.

Lemma land_65535 x : Z.land x 65535 = x mod 2 ^ 16.
Proof. change 65535 with (Z.ones 16). apply Z.land_ones. lia. Qed.

(** One carry round, in terms of division. *)
Lemma carry_round x : Z.land x 65535 + Z.shiftr x 16 = x mod 65536 + x / 65536.
Proof. rewrite land_65535, Z.shiftr_div_pow2 by lia. done. Qed.

Lemma fold_carries_mod fuel sum : fold_carries fuel sum mod 65535 = sum mod 65535.
Proof.
  revert sum; induction fuel as [|fuel IH]; intros sum; [done|]. cbn [fold_carries].
  destruct (_ =? 0); [done|]. rewrite IH, carry_round.
  rewrite (Z.div_mod sum 65536) at 3 by lia.
  replace (65536 * (sum / 65536) + sum mod 65536) with (sum mod 65536 + sum / 65536 + (sum / 65536) * 65535) by lia.
  by rewrite Z_mod_plus_full.
Qed.

Lemma fold_carries_pos fuel sum : 0 < sum -> 0 < fold_carries fuel sum.
Proof.
  revert sum; induction fuel as [|fuel IH]; intros sum Hs; [done|]. cbn [fold_carries].
  destruct (_ =? 0); [done|]. apply IH. rewrite carry_round.
  pose proof (Z.div_mod sum 65536). pose proof (Z.mod_pos_bound sum 65536).
  assert (0 <= sum / 65536) by (apply Z.div_pos; lia). lia.
Qed.

(** A bound [2^16 + k] goes down to [2^16 + k/2^16 + 1]. *)
Lemma carry_bound x b : 0 <= x <= b -> 0 <= x mod 65536 + x / 65536 <= 65535 + b / 65536.
Proof.
  intros Hx. pose proof (Z.mod_pos_bound x 65536). pose proof (Z.div_le_mono x b 65536).
  assert (0 <= x / 65536) by (apply Z.div_pos; lia). lia.
Qed.

(** The loop has finished after four rounds. *)
Lemma fold_carries_16 sum : 0 <= sum < 2 ^ 48 -> 0 <= fold_carries 4 sum < 2 ^ 16.
Proof.
  intros Hs. cbn [fold_carries]. rewrite !carry_round, !Z.shiftr_div_pow2 by lia. change (2 ^ 16) with 65536.
  set (x1 := sum mod 65536 + sum / 65536). set (x2 := x1 mod 65536 + x1 / 65536).
  set (x3 := x2 mod 65536 + x2 / 65536). set (x4 := x3 mod 65536 + x3 / 65536).
  assert (H1 : 0 <= x1 <= 4295032830) by (pose proof (carry_bound sum (2 ^ 48 - 1)); change ((2 ^ 48 - 1) / 65536) with 4294967295 in *; lia).
  assert (H2 : 0 <= x2 <= 131071) by (pose proof (carry_bound x1 4295032830); change (4295032830 / 65536) with 65536 in *; lia).
  assert (H3 : 0 <= x3 <= 65536) by (pose proof (carry_bound x2 131071); change (131071 / 65536) with 1 in *; lia).
  assert (small : forall x, 0 <= x -> x / 65536 = 0 -> x < 65536).
  { intros x ? Hx. pose proof (Z.div_mod x 65536). pose proof (Z.mod_pos_bound x 65536). lia. }
  repeat (match goal with |- context [?a =? 0] => destruct (Z.eqb_spec a 0) as [E|_] end;
    [split; [lia|apply small; [lia|exact E]]|]).
  unfold x4. clearbody x3. destruct (Z.eq_dec x3 65536) as [E|E].
  - rewrite E, Z_mod_same_full, Z_div_same_full by lia. lia.
  - rewrite Z.mod_small, Z.div_small; lia.
Qed.

(** The sum of the words, folded: congruent modulo 65535, and zero exactly for a zero sum. *)
Lemma inchksum_spec data :
  bytes data -> Z.of_nat (length data) < 2 ^ 32 ->
  0 <= inchksum data < 2 ^ 16 /\ inchksum data mod 65535 = word_sum data mod 65535 /\
  (0 < word_sum data -> 0 < inchksum data).
Proof.
  intros Hb Hl. pose proof (word_sum_bound _ Hb).
  assert (Hf : 0 <= fold_carries 4 (word_sum data) < 2 ^ 16) by (apply fold_carries_16; lia).
  unfold inchksum. rewrite u16_small by done. split_and!; [lia|lia|apply fold_carries_mod|apply fold_carries_pos].
Qed.

Lemma word_sum_app a b :
  Nat.Even (length a) -> word_sum (a ++ b) = word_sum a + word_sum b.
Proof.
  revert a. fix IH 1. intros [|b0 [|b1 a]] He; simpl; [lia| |].
  - destruct He as [k Hk]. simpl in Hk. lia.
  - rewrite IH; [lia|]. destruct He as [k Hk]. exists (k - 1)%nat. simpl in Hk. lia.
Qed.

Lemma word_sum_le16 x : 0 <= x < 2 ^ 16 -> word_sum (le16 x) = x.
Proof. intros Hx. simpl. rewrite le16_load_store by done. lia. Qed.

Lemma is_byte_mod x : is_byte (x mod 256).
Proof. apply Z.mod_pos_bound. lia. Qed.
Lemma bytes_le16 x : bytes (le16 x).
Proof. repeat constructor; apply is_byte_mod || apply Z.mod_pos_bound; lia. Qed.
Lemma bytes_app a b : bytes (a ++ b) <-> bytes a /\ bytes b.
Proof. apply Forall_app. Qed.
#[export] Hint Resolve is_byte_mod bytes_le16 : ecmh.

Lemma bytes_pseudo p n : bytes (pseudo_header p n).
Proof.
  apply bytes_app. split; [apply bytes_le16|]. repeat constructor; try done.
  all: unfold u8; apply is_byte_mod.
Qed.

(** The finished checksum is the complement of the folded sum, modulo 65535. *)
Lemma finish_checksum_spec s :
  0 <= s < 3 * 2 ^ 16 -> 0 < finish_checksum s < 2 ^ 16 /\ (finish_checksum s + s) mod 65535 = 0.
Proof.
  intros Hs. unfold finish_checksum. rewrite (Z.add_comm (Z.shiftr s 16)), carry_round.
  set (c1 := s mod 65536 + s / 65536).
  assert (Hc1 : 0 <= c1 <= 65537 /\ (s - c1) mod 65535 = 0).
  { subst c1. pose proof (Z.div_mod s 65536). pose proof (Z.mod_pos_bound s 65536).
    assert (0 <= s / 65536 < 3) by (split; [apply Z.div_pos|apply Z.div_lt_upper_bound]; lia).
    split; [lia|]. replace (s - _) with (s / 65536 * 65535) by lia. apply Z_mod_mult. }
  clearbody c1. destruct Hc1 as [Hc1 Hm]. rewrite (u32_small c1) by lia.
  rewrite Z.shiftr_div_pow2 by lia. change (2 ^ 16) with 65536.
  set (c2 := c1 + c1 / 65536). rewrite (u32_small c2)
    by (subst c2; assert (0 <= c1 / 65536 < 2) by (split; [apply Z.div_pos|apply Z.div_lt_upper_bound]; lia); lia).
  assert (Hc2 : exists d, 0 <= d < 65536 /\ u16 (Z.lnot c2) = 65535 - d /\ (c1 - d) mod 65535 = 0).
  { subst c2. unfold u16, Z.lnot. change (2 ^ 16) with 65536. destruct (Z.lt_ge_cases c1 65536).
    - exists c1. rewrite (Z.div_small c1) by lia. split_and!; [lia|lia| |by rewrite Z.sub_diag].
      replace (Z.pred (- (c1 + 0))) with (65535 - c1 + (-1) * 65536) by lia.
      rewrite Z_mod_plus_full. apply Z.mod_small. lia.
    - exists (c1 - 65535). assert (Hd : c1 / 65536 = 1) by (symmetry; apply (Z.div_unique _ _ _ (c1 - 65536)); lia).
      rewrite Hd. split_and!; [lia|lia| |].
      + replace (Z.pred (- (c1 + 1))) with (65535 - (c1 - 65535) + (-2) * 65536) by lia.
        rewrite Z_mod_plus_full. apply Z.mod_small. lia.
      + by replace (c1 - (c1 - 65535)) with 65535 by lia. }
  destruct Hc2 as (d & Hd & -> & Hcd). apply Z.mod_divide in Hm as [a Ha], Hcd as [b Hb]; try done.
  destruct (Z.eqb_spec (65535 - d) 0).
  - split; [lia|]. apply Z.mod_divide; [done|]. exists (2 + a + b). lia.
  - split; [lia|]. apply Z.mod_divide; [done|]. exists (1 + a + b). lia.
Qed.

(** A packet that carries the checksum of its own bytes (computed with the
    field zeroed) sums to zero modulo 65535 with its pseudo header. *)
Lemma ipv6_checksum_sum src_dst protocol pre post :
  bytes src_dst -> length src_dst = 32%nat -> bytes pre -> bytes post -> Nat.Even (length pre) ->
  Z.of_nat (length pre + 2 + length post) < 2 ^ 16 ->
  let ck := ipv6_checksum src_dst protocol (pre ++ [0; 0] ++ post) in
  let data := pre ++ le16 ck ++ post in
  0 < ck < 2 ^ 16 /\
  (word_sum src_dst + word_sum (pseudo_header protocol (Z.of_nat (length data))) + word_sum data) mod 65535 = 0.
Proof.
  intros Hsd Hlsd Hpre Hpost Hev Hlen ck data.
  assert (Hb0 : bytes (pre ++ [0; 0] ++ post)).
  { apply bytes_app. split; [done|]. by repeat constructor. }
  set (L := Z.of_nat (length (pre ++ [0; 0] ++ post))).
  assert (HL : forall x, Z.of_nat (length (pre ++ le16 x ++ post)) = L) by (intros x; unfold L; by rewrite !length_app).
  assert (HL16 : u16 L = L) by (apply u16_small; unfold L; rewrite !length_app; simpl; lia).
  destruct (inchksum_spec src_dst Hsd) as (R1 & M1 & _); [lia|].
  destruct (inchksum_spec (pseudo_header protocol L) (bytes_pseudo _ _)) as (R2 & M2 & _); [done|].
  destruct (inchksum_spec _ Hb0) as (R3 & M3 & _); [rewrite !length_app; simpl; lia|].
  subst ck data. unfold ipv6_checksum. fold L. rewrite HL16.
  rewrite (u32_small (inchksum src_dst + _)) by lia. rewrite u32_small by lia.
  set (s := inchksum src_dst + inchksum (pseudo_header protocol L) + inchksum (pre ++ [0; 0] ++ post)) in *.
  destruct (finish_checksum_spec s) as [Hr Hm]; [lia|]. split; [done|].
  rewrite HL, (word_sum_app pre), (word_sum_app (le16 _)), word_sum_le16 by (done || lia || by exists 1%nat).
  rewrite (word_sum_app pre), (word_sum_app [0; 0]) in M3 by (done || by exists 1%nat). simpl (word_sum [0; 0]) in M3.
  set (ck := finish_checksum s) in *. unfold s in Hm.
  apply Z.mod_divide in Hm as [k Hk]; [|done]. apply Z.mod_divide; [done|].
  set (i1 := inchksum src_dst) in *. set (i2 := inchksum (pseudo_header protocol L)) in *.
  set (i3 := inchksum (pre ++ [0; 0] ++ post)) in *.
  set (w1 := word_sum src_dst) in *. set (w2 := word_sum (pseudo_header protocol L)) in *.
  assert (D : forall x y, x mod 65535 = y mod 65535 -> exists q, y = x + q * 65535).
  { intros x y Hxy. exists (y / 65535 - x / 65535). pose proof (Z.div_mod x 65535). pose proof (Z.div_mod y 65535). lia. }
  destruct (D _ _ M1) as [q1 E1], (D _ _ M2) as [q2 E2], (D _ _ M3) as [q3 E3].
  exists (k + q1 + q2 + q3). change (le16_load 0 0) with 0 in E3. lia.
Qed.

(** The same with the sum folded to 16 bits. *)
Lemma ipv6_checksum_rfc1071 src_dst protocol pre post :
  bytes src_dst -> length src_dst = 32%nat -> bytes pre -> bytes post -> Nat.Even (length pre) ->
  Z.of_nat (length pre + 2 + length post) < 2 ^ 16 ->
  let ck := ipv6_checksum src_dst protocol (pre ++ [0; 0] ++ post) in
  let data := pre ++ le16 ck ++ post in
  0 < ck < 2 ^ 16 /\ inchksum (src_dst ++ pseudo_header protocol (Z.of_nat (length data)) ++ data) = 65535.
Proof.
  intros Hsd Hl Hpre Hpost Hev Hlen ck data.
  pose proof (ipv6_checksum_sum src_dst protocol pre post Hsd Hl Hpre Hpost Hev Hlen) as [Hck Hsum]. fold ck data in Hck, Hsum.
  split; [done|]. set (ph := pseudo_header protocol _) in *.
  assert (Hb : bytes (src_dst ++ ph ++ data)).
  { rewrite !bytes_app. split_and!; [done|apply bytes_pseudo|]. unfold data. rewrite !bytes_app. auto using bytes_le16. }
  assert (Hlb : Z.of_nat (length (src_dst ++ ph ++ data)) < 2 ^ 32).
  { unfold data, ph. rewrite !length_app. simpl length. lia. }
  destruct (inchksum_spec _ Hb Hlb) as (Hr & Hm & Hp).
  rewrite (word_sum_app src_dst), (word_sum_app ph) in Hm, Hp by (rewrite ?Hl; unfold ph; (by exists 16%nat) || (by exists 3%nat)).
  assert (Hd : word_sum data = word_sum pre + ck + word_sum post).
  { unfold data. rewrite (word_sum_app pre), (word_sum_app (le16 _)), word_sum_le16 by (done || lia || by exists 1%nat). lia. }
  pose proof (word_sum_bound _ Hsd). pose proof (word_sum_bound _ Hpre). pose proof (word_sum_bound _ Hpost).
  pose proof (word_sum_bound ph (bytes_pseudo _ _)). specialize (Hp ltac:(lia)).
  rewrite Z.add_assoc, Hsum in Hm. apply Z.mod_divide in Hm as [q Hq]; [lia|done].
Qed.

(** C40: The receiver's test of RFC 1071: a packet that carries the checksum [ipv6_checksum] gives for
    its own bytes (with the field zeroed) sums to 0xffff with its pseudo header. *)
Theorem ipv6_checksum_verifies src_dst protocol pre post :
  bytes src_dst -> length src_dst = 32%nat -> bytes pre -> bytes post -> Nat.Even (length pre) ->
  Z.of_nat (length pre + 2 + length post) < 2 ^ 16 ->
  let ck := ipv6_checksum src_dst protocol (pre ++ [0; 0] ++ post) in
  let data := pre ++ le16 ck ++ post in
  0 < ck < 2 ^ 16 /\ inchksum (src_dst ++ pseudo_header protocol (Z.of_nat (length data)) ++ data) = 65535.
Proof. apply ipv6_checksum_rfc1071. Qed.

(** ** The MMH hash *)

(** The prime of the MMH paper. *)
Definition mmh_prime : Z := 2 ^ 32 + 15.

(** The inner product the running sum accumulates, without truncation. *)
Fixpoint inner_product (key msg : list Z) : Z :=
  match msg, key with
  | m :: msg, k :: key => k * m + inner_product key msg
  | _, _ => 0
  end.

Definition word16 (x : Z) : Prop := 0 <= x < 2 ^ 16.

Lemma inner_product_bound key msg :
  Forall word16 key -> Forall word16 msg ->
  0 <= inner_product key msg <= 2 ^ 32 * Z.of_nat (length key).
Proof.
  intros Hk. revert msg. induction Hk as [|k key Hk _ IH]; intros [|m msg] Hm; simpl length; cbn [inner_product]; try lia.
  apply Forall_cons in Hm as [? Hm]. specialize (IH msg Hm). unfold word16 in *. nia.
Qed.

(** The 64-bit accumulator never wraps. *)
Lemma hash_sum_spec key msg : forall sum,
  Forall word16 key -> Forall word16 msg -> (length msg <= length key)%nat ->
  0 <= sum -> sum + 2 ^ 32 * Z.of_nat (length key) < 2 ^ 64 ->
  hash_sum key msg sum = Some (sum + inner_product key msg).
Proof.
  intros sum Hk. revert msg sum. induction Hk as [|k key Hk _ IH]; intros [|m msg] sum Hm Hl Hs Hb;
    cbn [hash_sum inner_product]; simpl length in *; try lia; try (f_equal; lia).
  apply Forall_cons in Hm as [Hm0 Hm]. assert (0 <= k * m < 2 ^ 32) by (unfold word16 in *; nia).
  rewrite (u64_small (k * m)), (u64_small (sum + _)) by lia. rewrite IH; [f_equal; lia|done|lia..].
Qed.

Lemma hash_finish_spec sum :
  0 <= sum < 2 ^ 64 ->
  hash_finish sum = (let m := sum mod mmh_prime in if m <? 2 ^ 32 then m else 2 ^ 64 + m - mmh_prime).
Proof.
  intros Hs. unfold hash_finish, mmh_prime.
  change 4294967295 with (Z.ones 32). rewrite !Z.land_ones, !Z.shiftr_div_pow2 by lia.
  set (hi := sum / 2 ^ 32). set (lo := sum mod 2 ^ 32).
  pose proof (Z.mod_pos_bound sum (2 ^ 32) eq_refl) as Hlo. pose proof (Z.div_mod sum (2 ^ 32)) as Hdm. fold hi lo in Hlo, Hdm.
  assert (Hhi : 0 <= hi < 2 ^ 32) by (split; [apply Z.div_pos|apply Z.div_lt_upper_bound]; lia).
  set (st := lo - hi * 15). assert (Hst : - (15 * 2 ^ 32) < st < 2 ^ 32) by lia.
  assert (Es : s64 st = st).
  { unfold s64, u64. destruct (Z.lt_ge_cases st 0).
    - rewrite <-(Z_mod_plus_full st 1), Z.mod_small by lia. destruct (Z.ltb_spec (st + 1 * 2 ^ 64) (2 ^ 63)); lia.
    - rewrite Z.mod_small by lia. destruct (Z.ltb_spec st (2 ^ 63)); lia. }
  rewrite Es. pose proof (Z.mod_pos_bound st (2 ^ 32) eq_refl) as Hl2. pose proof (Z.div_mod st (2 ^ 32)) as Hdm2.
  set (h2 := st / 2 ^ 32) in *. set (l2 := st mod 2 ^ 32) in *.
  assert (Hh2 : -15 <= h2 <= 0) by lia. set (ut := l2 - h2 * 15).
  rewrite (u64_small ut) by lia. change (Z.ones 32) with 4294967295.
  assert (Hut : exists q, sum = ut + q * (2 ^ 32 + 15)) by (exists (hi + h2); lia).
  assert (Hub : 0 <= ut < 2 ^ 32 + 225) by lia.
  destruct Hut as [q Hq]. clearbody ut. rewrite Hq, Z_mod_plus_full. clear Es Hdm Hdm2 Hq.
  destruct (Z.ltb_spec 4294967295 ut) as [Hbig|Hsmall].
  - replace (ut mod 2 ^ 32) with (ut - 2 ^ 32)
      by (rewrite <-(Z_mod_plus_full ut (-1)), Z.mod_small by lia; lia).
    destruct (Z.lt_ge_cases ut (2 ^ 32 + 15)).
    + rewrite (Z.mod_small ut) by lia. rewrite (proj2 (Z.ltb_ge ut (2 ^ 32))) by lia.
      unfold u64. rewrite <-(Z_mod_plus_full _ 1), Z.mod_small by lia. lia.
    + rewrite <-(Z_mod_plus_full ut (-1) (2 ^ 32 + 15)), (Z.mod_small (ut + _)) by lia.
      rewrite (proj2 (Z.ltb_lt _ (2 ^ 32))) by lia. rewrite u64_small by lia. lia.
  - rewrite !(Z.mod_small ut) by lia. by rewrite (proj2 (Z.ltb_lt ut (2 ^ 32))) by lia.
Qed.

(** For a message of at most 124 words, [hash_make] is the inner product modulo
    2^32 + 15, except that the fifteen residues from 2^32 up come out wrapped below 2^64. *)
Theorem hash_make_mmh msg :
  Forall word16 msg -> (length msg <= 124)%nat ->
  hash_make msg = Some (let m := inner_product hash_key msg mod mmh_prime in
                        if m <? 2 ^ 32 then m else 2 ^ 64 + m - mmh_prime).
Proof.
  intros Hm Hl.
  assert (Hk : Forall word16 hash_key) by (repeat constructor; by vm_compute).
  assert (Hlen : length hash_key = 124%nat) by done.
  unfold hash_make. rewrite hash_sum_spec by (rewrite ?Hlen; (done || lia)). simpl fmap. f_equal.
  rewrite Z.add_0_l. apply hash_finish_spec.
  pose proof (inner_product_bound hash_key msg Hk Hm). rewrite Hlen in *. lia.
Qed.

Lemma hash_make_mmh_witness : hash_make [16961; 17475] = Some 593051146.
Proof.
  rewrite (hash_make_mmh [16961; 17475]); [vm_compute; reflexivity | | simpl; lia].
  repeat constructor; vm_compute; congruence.
Defined.

Lemma ipv6_checksum_verifies_witness :
  let sd := replicate 32 1 in let ck := ipv6_checksum sd 58 ([143; 0] ++ [0; 0] ++ [1; 2; 3]) in
  let data := [143; 0] ++ le16 ck ++ [1; 2; 3] in
  0 < ck < 2 ^ 16 /\ inchksum (sd ++ pseudo_header 58 (Z.of_nat (length data)) ++ data) = 65535.
Proof.
  apply ipv6_checksum_verifies.
  - repeat constructor; vm_compute; congruence.
  - reflexivity.
  - repeat constructor; vm_compute; congruence.
  - repeat constructor; vm_compute; congruence.
  - by exists 1%nat.
  - reflexivity.
Defined.
