(* ===== verification/Msrc.v ===== *)
(** IPv6 addresses, the constants of [src/mld.h] and [src/mld2.h], sources
    ([src/msrc.c]) and membership records ([src/mrec.c]).

    A [struct in6_addr] is the list of its 16 bytes.  Every source list of the daemon
    is created with [cmp = msrc_cmp] and [copy = msrc_getcopy]: its elements are
    private copies, so a list of sources is a [list (option msrc)] of values. *)

From S2P Require Import Prelude LinkList.
From stdpp Require Import strings.
#[local] Open Scope Z_scope.

(** * IPv6 addresses *)

Abbreviation in6_addr := (list Z).

Definition s6_addr (a : in6_addr) (i : nat) : Z := default 0 (a !! i).

Definition in6addr_any : in6_addr := replicate 16 0.

Definition IN6_ARE_ADDR_EQUAL (a b : in6_addr) : bool := bool_decide (a = b).
Definition IN6_IS_ADDR_UNSPECIFIED (a : in6_addr) : bool := bool_decide (a = in6addr_any).
Definition IN6_IS_ADDR_LOOPBACK (a : in6_addr) : bool := bool_decide (a = replicate 15 0 ++ [1]).
Definition IN6_IS_ADDR_MULTICAST (a : in6_addr) : bool := s6_addr a 0 =? 255.
(** The first ten bits are [fe80::/10]. *)
Definition IN6_IS_ADDR_LINKLOCAL (a : in6_addr) : bool :=
  (s6_addr a 0 =? 254) && (Z.land (s6_addr a 1) 192 =? 128).
Definition IN6_IS_ADDR_MC_NODELOCAL (a : in6_addr) : bool :=
  IN6_IS_ADDR_MULTICAST a && (Z.land (s6_addr a 1) 15 =? 1).
Definition IN6_IS_ADDR_MC_LINKLOCAL (a : in6_addr) : bool :=
  IN6_IS_ADDR_MULTICAST a && (Z.land (s6_addr a 1) 15 =? 2).

(** * Protocol constants *)

Definition MLD_LISTENER_QUERY : Z := 130.
Definition MLD_LISTENER_REPORT : Z := 131.
Definition MLD_LISTENER_REDUCTION : Z := 132.
Definition ICMP6_V2_MEMBERSHIP_REPORT : Z := 143.
Definition ICMP6_V2_MEMBERSHIP_REPORT_EXP : Z := 206.
Definition ICMP6_ECHO_REQUEST : Z := 128.
Definition ICMP6_ECHO_REPLY : Z := 129.

Definition MLD2_MODE_IS_INCLUDE : Z := 1.
Definition MLD2_MODE_IS_EXCLUDE : Z := 2.
Definition MLD2_CHANGE_TO_INCLUDE : Z := 3.
Definition MLD2_CHANGE_TO_EXCLUDE : Z := 4.
Definition MLD2_ALLOW_NEW_SOURCES : Z := 5.
Definition MLD2_BLOCK_OLD_SOURCES : Z := 6.

Definition ECMH_SUBSCRIPTION_TIMEOUT : Z := 125.
Definition ECMH_ROBUSTNESS_FACTOR : Z := 2.
Definition QUERY_INTERVAL : Z := 10.
Definition MALI : Z := ECMH_SUBSCRIPTION_TIMEOUT * ECMH_ROBUSTNESS_FACTOR + QUERY_INTERVAL.
Definition LLQI : Z := 2.
#[global] Arguments MALI : simpl never.
#[global] Arguments LLQI : simpl never.

(** The exponential timer codes of [MLDV2_EXP] ([MLDV2_QQIC], [MLDV2_MRC]). *)
Definition MLDV2_MASK (value nb : Z) : Z :=
  if 32 <=? nb then value else Z.land (Z.shiftl 1 nb - 1) value.
Definition MLDV2_EXP (thresh nbmant nbexp value : Z) : Z :=
  if value <? thresh then value
  else Z.shiftl (Z.lor (MLDV2_MASK value nbmant) (Z.shiftl 1 (nbmant + nbexp)))
         (MLDV2_MASK (Z.shiftr value nbmant) nbexp + nbexp).
Definition MLDV2_QQIC (value : Z) : Z := MLDV2_EXP 128 4 3 value.
Definition MLDV2_MRC (value : Z) : Z := MLDV2_EXP 32768 12 3 value.

(** * Sources *)

Record msrc := Msrc { s_addr : in6_addr; s_timer : Z }.

#[export] Instance msrc_eq_dec : EqDecision msrc.
Proof. solve_decision. Defined.

Definition msrc_create (addr : in6_addr) (timer_value : Z) : msrc := Msrc addr timer_value.
Definition msrc_getcopy (src : msrc) : msrc := Msrc (s_addr src) (s_timer src).
Definition msrc_cmp (a b : msrc) : bool := IN6_ARE_ADDR_EQUAL (s_addr a) (s_addr b).

(** A list of sources, and the list operations at this type. *)
Abbreviation sources := (list (option msrc)).
Definition src_hasmember (l : sources) (a : in6_addr) : option nat := list_hasmember msrc_cmp l (Msrc a 0).

(** * Membership records *)

Record mrec := Mrec { m_mca : in6_addr; m_filter_mode : Z; m_source_list : sources }.

Definition mld_grec_mode (mode : Z) : string :=
  match mode with
  | 1 => "IS_IN" | 2 => "IS_EX" | 3 => "TO_IN" | 4 => "TO_EX" | 5 => "ALLOW" | 6 => "BLOCK"
  | _ => "UNKNOWN"
  end%string.

Definition mrec_create (mca : in6_addr) (mode : Z) : mrec := Mrec mca mode [].

(** [mrec_find]: mode 0 matches any mode. The position in the database is returned. *)
Definition mrec_find (memb_db : list mrec) (mca : in6_addr) (mode : Z) : option nat :=
  find_idx (fun m => IN6_ARE_ADDR_EQUAL mca (m_mca m) && ((mode =? 0) || (m_filter_mode m =? mode))) memb_db.

(** The result is the new record and the return value (1 when the source was added). *)
Definition mrec_add_source (m : mrec) (src : msrc) : mrec * Z :=
  if is_member msrc_cmp (m_source_list m) src then (m, 0)
  else (Mrec (m_mca m) (m_filter_mode m) (listnode_add (m_source_list m) (Some (msrc_getcopy src))), 1).

Definition mrec_add_source_addr (m : mrec) (addr : in6_addr) : mrec * Z :=
  let src := msrc_create addr 0 in
  let '(m, added) := mrec_add_source m src in
  (m, if added =? 0 then 0 else 1).

(** * Facts *)

(** The addresses a list of sources holds. *)
Abbreviation addrs := (keys s_addr).

#[export] Instance msrc_list_cmp : ListCmp s_addr msrc_cmp.
Proof. done. Qed.

(** The set lemmas of [LinkList], at the type of sources. *)
Definition elem_intersect := keys_intersect_elem s_addr msrc_cmp.
Definition elem_difference := keys_difference_elem s_addr msrc_cmp.
Definition elem_union := keys_union_elem s_addr msrc_cmp.
Definition elem_remove_all := keys_remove_all_elem s_addr msrc_cmp.
Definition nodup_intersect := keys_intersect_NoDup s_addr msrc_cmp.
Definition nodup_difference := keys_difference_NoDup s_addr msrc_cmp.
Definition nodup_union := keys_union_NoDup s_addr msrc_cmp.
Definition nodup_remove_all := keys_remove_all_NoDup s_addr msrc_cmp.
Definition member_addrs := is_member_keys s_addr msrc_cmp.
Definition add_all_spec := list_add_all_spec s_addr msrc_cmp.
#[export] Hint Resolve nodup_intersect nodup_difference nodup_union nodup_remove_all : ecmh.
#[export] Hint Rewrite elem_intersect elem_difference elem_union member_addrs : ecmh_rw.

Lemma addrs_live_Some (l : list msrc) : addrs (Some <$> l) = s_addr <$> l.
Proof. unfold keys. by rewrite live_Some. Qed.

(** A membership record holds each address once, in the order of first addition. *)
Definition mrec_sources_ok (m : mrec) : Prop := NoDup (addrs (m_source_list m)).

Lemma mrec_add_source_ok m src : mrec_sources_ok m -> mrec_sources_ok (mrec_add_source m src).1.
Proof.
  unfold mrec_sources_ok, mrec_add_source. rewrite member_addrs. case_bool_decide as H; simpl; [done|].
  intros Hn. unfold listnode_add. rewrite keys_snoc. apply NoDup_app. split_and!; [done| |apply NoDup_singleton].
  intros a Ha ->%list_elem_of_singleton. destruct src. done.
Qed.

(** Adding a list of addresses one after the other, as the report parser does. *)
Definition mrec_add_addrs (m : mrec) (l : list in6_addr) : mrec :=
  fold_left (fun m a => (mrec_add_source_addr m a).1) l m.

Lemma mrec_add_source_addr_fst m a : (mrec_add_source_addr m a).1 = (mrec_add_source m (Msrc a 0)).1.
Proof. unfold mrec_add_source_addr, msrc_create. by destruct (mrec_add_source m (Msrc a 0)). Qed.

Lemma mrec_add_addrs_ok m l : mrec_sources_ok m -> mrec_sources_ok (mrec_add_addrs m l).
Proof.
  revert m; induction l as [|a l IH]; intros m Hm; simpl; [done|].
  apply IH. rewrite mrec_add_source_addr_fst. by apply mrec_add_source_ok.
Qed.

Lemma mrec_add_addrs_elem m l a :
  a ∈ addrs (m_source_list (mrec_add_addrs m l)) <-> a ∈ addrs (m_source_list m) \/ a ∈ l.
Proof.
  revert m; induction l as [|b l IH]; intros m; simpl; [rewrite elem_of_nil; tauto|].
  rewrite IH, mrec_add_source_addr_fst, elem_of_cons. unfold mrec_add_source. rewrite member_addrs.
  case_bool_decide; simpl in *.
  - naive_solver.
  - unfold listnode_add. rewrite keys_snoc, elem_of_app, list_elem_of_singleton. simpl. tauto.
Qed.

Lemma mrec_add_addrs_mca m l :
  m_mca (mrec_add_addrs m l) = m_mca m /\ m_filter_mode (mrec_add_addrs m l) = m_filter_mode m.
Proof.
  revert m; induction l as [|b l IH]; intros m; simpl; [done|].
  destruct (IH (mrec_add_source_addr m b).1) as [-> ->]. rewrite mrec_add_source_addr_fst.
  unfold mrec_add_source. by destruct (is_member _ _ _).
Qed.
