(* ===== verification/Names.v ===== *)
(** The tables of names of [src/ecmh.c] and the search in them ([lookup], [icmpv6_code]), which
    the log messages of the receive path use. *)

From S2P Require Import Prelude Msrc.
From stdpp Require Import strings.
#[local] Open Scope Z_scope.

(** * Definitions *)

(** The values <netinet/icmp6.h> and [src/mld.h] give to the names the tables use. *)
Definition ICMP6_DST_UNREACH : Z := 1.
Definition ICMP6_PACKET_TOO_BIG : Z := 2.
Definition ICMP6_TIME_EXCEEDED : Z := 3.
Definition ICMP6_PARAM_PROB : Z := 4.
Definition ND_ROUTER_SOLICIT : Z := 133.
Definition ND_ROUTER_ADVERT : Z := 134.
Definition ND_NEIGHBOR_SOLICIT : Z := 135.
Definition ND_NEIGHBOR_ADVERT : Z := 136.
Definition ND_REDIRECT : Z := 137.
Definition ICMP6_ROUTER_RENUMBERING : Z := 138.
Definition ICMP6_NI_QUERY : Z := 139.
Definition ICMP6_NI_REPLY : Z := 140.
Definition MLD_MTRACE_RESP : Z := 200.
Definition MLD_MTRACE : Z := 201.

(** An entry of an array of [struct lookup]; [None] is a NULL description. *)
Record lookup_entry := Lookup { l_num : Z; l_desc : option string }.
Abbreviation entry num desc := (Lookup num (Some desc%string)).

Definition icmpv6_types : list lookup_entry := [
  entry ICMP6_DST_UNREACH "Destination Unreachable"; entry ICMP6_PACKET_TOO_BIG "Packet too big";
  entry ICMP6_TIME_EXCEEDED "Time Exceeded"; entry ICMP6_PARAM_PROB "Parameter Problem";
  entry ICMP6_ECHO_REQUEST "Echo Request"; entry ICMP6_ECHO_REPLY "Echo Reply";
  entry MLD_LISTENER_QUERY "Membership Query"; entry MLD_LISTENER_REPORT "Membership Report";
  entry MLD_LISTENER_REDUCTION "Membership Reduction"; entry ICMP6_V2_MEMBERSHIP_REPORT "Membership Report (V2)";
  entry ICMP6_V2_MEMBERSHIP_REPORT_EXP "Membership Report (V2) - Experimental";
  entry ND_ROUTER_SOLICIT "ND Router Solicitation"; entry ND_ROUTER_ADVERT "ND Router Advertisement";
  entry ND_NEIGHBOR_SOLICIT "ND Neighbour Solicitation"; entry ND_NEIGHBOR_ADVERT "ND Neighbour Advertisement";
  entry ND_REDIRECT "ND Redirect"; entry ICMP6_ROUTER_RENUMBERING "Router Renumbering";
  entry ICMP6_NI_QUERY "Node Information Query"; entry ICMP6_NI_REPLY "Node Information Reply";
  entry MLD_MTRACE_RESP "Mtrace Response"; entry MLD_MTRACE "Mtrace Message"; Lookup 0 None ].

Definition icmpv6_codes_unreach : list lookup_entry := [
  entry 0 "No route to destination"; entry 1 "Administratively prohibited"; entry 2 "Beyond scope of source address";
  entry 3 "Address Unreachable"; entry 4 "Port Unreachable" ].
Definition icmpv6_codes_ttl : list lookup_entry := [
  entry 0 "Time Exceeded during Transit"; entry 1 "Time Exceeded during Reassembly" ].
Definition icmpv6_codes_param : list lookup_entry := [
  entry 0 "Erroneous Header Field"; entry 1 "Unrecognized Next Header"; entry 2 "Unrecognized Option" ].
Definition icmpv6_codes_ni : list lookup_entry := [
  entry 0 "Node Information Successful Reply"; entry 1 "Node Information Request Is Refused"; entry 2 "Unknown Qtype" ].
Definition icmpv6_codes_renumber : list lookup_entry := [
  entry 0 "Router Renumbering Command"; entry 1 "Router Renumbering Result";
  entry 255 "Router Renumbering Sequence Number Reset" ].
Definition mld2_grec_types : list lookup_entry := [
  entry MLD2_MODE_IS_INCLUDE "MLDv2 Mode Is Include"; entry MLD2_MODE_IS_EXCLUDE "MLDv2 Mode Is Exclude";
  entry MLD2_CHANGE_TO_INCLUDE "MLDv2 Change to Include"; entry MLD2_CHANGE_TO_EXCLUDE "MLDv2 Change to Exclude";
  entry MLD2_ALLOW_NEW_SOURCES "MLDv2 Allow New Source"; entry MLD2_BLOCK_OLD_SOURCES "MLDv2 Block Old Sources" ].

(** The search from an entry on; [None]: it reads past the end of the array. *)
Fixpoint lookup_from (l : list lookup_entry) (num : Z) : option string :=
  match l with
  | [] => None
  | Lookup n desc :: l =>
    match desc with
    | None => Some "Unknown"%string
    | Some d => if negb (n =? num) then lookup_from l num else Some d
    end
  end.

(** [l] may be NULL. *)
Definition lookup (l : option (list lookup_entry)) (num : Z) : option string :=
  match l with None => Some "Unknown"%string | Some l => lookup_from l num end.

Definition icmpv6_type (type : Z) : option string := lookup (Some icmpv6_types) type.

Definition icmpv6_code (type code : Z) : option string :=
  let l :=
    if type =? ICMP6_DST_UNREACH then Some icmpv6_codes_unreach
    else if type =? ICMP6_TIME_EXCEEDED then Some icmpv6_codes_ttl
    else if type =? ICMP6_PARAM_PROB then Some icmpv6_codes_param
    else if (type =? ICMP6_NI_QUERY) || (type =? ICMP6_NI_REPLY) then Some icmpv6_codes_ni
    else if type =? ICMP6_ROUTER_RENUMBERING then Some icmpv6_codes_renumber
    else None in
  lookup l code.

(** * Facts *)

(** An array is searched within its bounds for every number when it has a terminating entry. *)
Definition terminated (l : list lookup_entry) : Prop := Exists (fun e => l_desc e = None) l.
#[export] Instance terminated_dec l : Decision (terminated l) := Exists_dec _ _.

Lemma lookup_from_terminated l num : terminated l -> is_Some (lookup_from l num).
Proof.
  induction 1 as [[n d] l Hd|[n d] l _ IH]; simpl in *.
  - rewrite Hd. by eauto.
  - destruct d; [|by eauto]. case_match; by eauto.
Qed.

(** Without one, exactly when it has an entry of that number. *)
Lemma lookup_from_open l num : ~ terminated l -> is_Some (lookup_from l num) <-> num ∈ l_num <$> l.
Proof.
  induction l as [|[n d] l IH]; intros Ht; simpl.
  - split; [by intros [? ?]|by intros ?%not_elem_of_nil].
  - destruct d as [d|]; [|destruct Ht; by left]. rewrite elem_of_cons.
    destruct (Z.eqb_spec n num) as [->|Hn]; simpl; [split; by eauto|].
    rewrite IH by (intros ?; apply Ht; by right). split; [by auto|]. intros [?|?]; [by subst|done].
Qed.

(** C37: The name of a message type is looked up within the bounds of its table for every type. The
    tables of codes and of record types lack a terminating entry: the search reads past the end
    of the table exactly for a code, or a record type, the table does not list, a value any host
    can put into a message. *)
Theorem lookup_bounds (type code grec_type : Z) :
  is_Some (icmpv6_type type) /\
  (is_Some (icmpv6_code ICMP6_DST_UNREACH code) <-> 0 <= code <= 4) /\
  (is_Some (icmpv6_code ICMP6_TIME_EXCEEDED code) <-> 0 <= code <= 1) /\
  (is_Some (icmpv6_code ICMP6_PARAM_PROB code) <-> 0 <= code <= 2) /\
  (is_Some (icmpv6_code ICMP6_NI_QUERY code) <-> 0 <= code <= 2) /\
  (is_Some (icmpv6_code ICMP6_ROUTER_RENUMBERING code) <-> code = 0 \/ code = 1 \/ code = 255) /\
  (is_Some (icmpv6_code ICMP6_ECHO_REQUEST code)) /\
  (is_Some (lookup (Some mld2_grec_types) grec_type) <-> 1 <= grec_type <= 6).
Proof.
  split; [apply lookup_from_terminated, (bool_decide_unpack _); by vm_compute|].
  pose proof (fun l num H => lookup_from_open l num (bool_decide_unpack (~ terminated l) H)) as Ho.
  split_and!; [etransitivity; [exact (Ho icmpv6_codes_unreach code I)|]
    |etransitivity; [exact (Ho icmpv6_codes_ttl code I)|]|etransitivity; [exact (Ho icmpv6_codes_param code I)|]
    |etransitivity; [exact (Ho icmpv6_codes_ni code I)|]|etransitivity; [exact (Ho icmpv6_codes_renumber code I)|]
    |by eexists|etransitivity; [exact (Ho mld2_grec_types grec_type I)|]];
    simpl; rewrite ?elem_of_cons, elem_of_nil;
    unfold MLD2_MODE_IS_INCLUDE, MLD2_MODE_IS_EXCLUDE, MLD2_CHANGE_TO_INCLUDE, MLD2_CHANGE_TO_EXCLUDE,
      MLD2_ALLOW_NEW_SOURCES, MLD2_BLOCK_OLD_SOURCES; lia.
Qed.
