(* ===== verification/World.v ===== *)
(** The state of the daemon and the effects of its code.

    - data: [struct intnode] ([src/interfaces.h]), [struct groupnode] ([src/groups.h]),
      [struct grpintnode] ([src/grpint.h]), [struct kernel_route6], and [struct conf]
      ([src/ecmh.h]) with the static variables of the other files, as record [world];
    - effects: a state monad with faults, [M].  The answers of the operating system
      (clock, allocator, sockets, ...) are an argument, record [OS], indexed by the number
      of system calls made so far; what the daemon asks of the system is a trace of events;
    - pointers: a [struct intnode *] is an index of the array [g_conf->ints]; a group is a
      position in [g_conf->groups] and a [struct grpintnode *] a pair of positions;
    - a small program logic: [spec m os w Q E], with one rule per construct. *)

From S2P Require Import Prelude Msrc.
From stdpp Require Import strings.
#[local] Open Scope Z_scope.

(** * Data *)

Record stats := Stats {
  packets_received : Z; packets_sent : Z; bytes_received : Z; bytes_sent : Z;
  icmp_received : Z; icmp_sent : Z }.
Definition stats_zero : stats := Stats 0 0 0 0 0 0.
Definition count_received (len : Z) (s : stats) : stats :=
  Stats (u64 (packets_received s + 1)) (packets_sent s) (u64 (bytes_received s + len)) (bytes_sent s) (icmp_received s) (icmp_sent s).
Definition count_sent (len : Z) (s : stats) : stats :=
  Stats (packets_received s) (u64 (packets_sent s + 1)) (bytes_received s) (u64 (bytes_sent s + len)) (icmp_received s) (icmp_sent s).
Definition count_icmp_received (s : stats) : stats :=
  Stats (packets_received s) (packets_sent s) (bytes_received s) (bytes_sent s) (u64 (icmp_received s + 1)) (icmp_sent s).
Definition count_icmp_sent (s : stats) : stats :=
  Stats (packets_received s) (packets_sent s) (bytes_received s) (bytes_sent s) (icmp_received s) (u64 (icmp_sent s + 1)).

Record intnode := Intnode {
  i_ifindex : Z; i_name : string; i_mtu : Z; i_mld_version : Z; i_mld_last_v1 : Z; i_hwfamily : Z;
  i_linklocal : in6_addr; i_global : in6_addr; i_stat : stats;
  i_upstream : bool; i_downstream : bool; i_upstream_socket : Z }.
Definition intnode_zero : intnode := Intnode 0 "" 0 0 0 0 in6addr_any in6addr_any stats_zero false false 0.

Definition set_mtu (v : Z) (n : intnode) : intnode :=
  Intnode (i_ifindex n) (i_name n) v (i_mld_version n) (i_mld_last_v1 n) (i_hwfamily n) (i_linklocal n) (i_global n)
    (i_stat n) (i_upstream n) (i_downstream n) (i_upstream_socket n).
Definition set_mld (version last_v1 : Z) (n : intnode) : intnode :=
  Intnode (i_ifindex n) (i_name n) (i_mtu n) version last_v1 (i_hwfamily n) (i_linklocal n) (i_global n)
    (i_stat n) (i_upstream n) (i_downstream n) (i_upstream_socket n).
Definition set_hwfamily (v : Z) (n : intnode) : intnode :=
  Intnode (i_ifindex n) (i_name n) (i_mtu n) (i_mld_version n) (i_mld_last_v1 n) v (i_linklocal n) (i_global n)
    (i_stat n) (i_upstream n) (i_downstream n) (i_upstream_socket n).
Definition set_linklocal (v : in6_addr) (n : intnode) : intnode :=
  Intnode (i_ifindex n) (i_name n) (i_mtu n) (i_mld_version n) (i_mld_last_v1 n) (i_hwfamily n) v (i_global n)
    (i_stat n) (i_upstream n) (i_downstream n) (i_upstream_socket n).
Definition set_global (v : in6_addr) (n : intnode) : intnode :=
  Intnode (i_ifindex n) (i_name n) (i_mtu n) (i_mld_version n) (i_mld_last_v1 n) (i_hwfamily n) (i_linklocal n) v
    (i_stat n) (i_upstream n) (i_downstream n) (i_upstream_socket n).
Definition set_int_stat (f : stats -> stats) (n : intnode) : intnode :=
  Intnode (i_ifindex n) (i_name n) (i_mtu n) (i_mld_version n) (i_mld_last_v1 n) (i_hwfamily n) (i_linklocal n) (i_global n)
    (f (i_stat n)) (i_upstream n) (i_downstream n) (i_upstream_socket n).
Definition set_role (up down : bool) (n : intnode) : intnode :=
  Intnode (i_ifindex n) (i_name n) (i_mtu n) (i_mld_version n) (i_mld_last_v1 n) (i_hwfamily n) (i_linklocal n) (i_global n)
    (i_stat n) up down (i_upstream_socket n).
Definition set_upstream_socket (v : Z) (n : intnode) : intnode :=
  Intnode (i_ifindex n) (i_name n) (i_mtu n) (i_mld_version n) (i_mld_last_v1 n) (i_hwfamily n) (i_linklocal n) (i_global n)
    (i_stat n) (i_upstream n) (i_downstream n) v.

Record grpintnode := Grpint {
  gi_ifindex : Z; gi_includes : sources; gi_excludes : sources; gi_filter_mode : Z; gi_filter_timer : Z }.
Definition set_includes (v : sources) (g : grpintnode) : grpintnode :=
  Grpint (gi_ifindex g) v (gi_excludes g) (gi_filter_mode g) (gi_filter_timer g).
Definition set_excludes (v : sources) (g : grpintnode) : grpintnode :=
  Grpint (gi_ifindex g) (gi_includes g) v (gi_filter_mode g) (gi_filter_timer g).
Definition set_filter_mode (v : Z) (g : grpintnode) : grpintnode :=
  Grpint (gi_ifindex g) (gi_includes g) (gi_excludes g) v (gi_filter_timer g).
(** [filter_timer] is an [unsigned int]. *)
Definition set_filter_timer (v : Z) (g : grpintnode) : grpintnode :=
  Grpint (gi_ifindex g) (gi_includes g) (gi_excludes g) (gi_filter_mode g) (u32 v).

Record groupnode := Group {
  g_mca : in6_addr; g_interfaces : list grpintnode; g_lastforward : Z; g_bytes : Z; g_packets : Z }.
Definition set_interfaces (v : list grpintnode) (g : groupnode) : groupnode :=
  Group (g_mca g) v (g_lastforward g) (g_bytes g) (g_packets g).
Definition set_lastforward (v : Z) (g : groupnode) : groupnode :=
  Group (g_mca g) (g_interfaces g) v (g_bytes g) (g_packets g).
Definition count_group (len : Z) (g : groupnode) : groupnode :=
  Group (g_mca g) (g_interfaces g) (g_lastforward g) (u64 (g_bytes g + len)) (u64 (g_packets g + 1)).

Record kernel_route6 := Route { r_src : in6_addr; r_grp : in6_addr; r_parent : Z }.

(** The part of [struct conf] the command line sets. *)
Record config := Config {
  c_upstream : option string; c_downstream : option string; c_daemonize : bool; c_verbose : bool;
  c_mld1only : bool; c_mld2only : bool; c_kernel : bool; c_promisc : bool; c_bufferlen : Z }.

(** A line of the statistics file: a text, a text with a name, with a number or with an
    address, or the uptime. *)
Inductive dump_line :=
| DumpText (s : string)
| DumpName (label : string) (s : string)
| DumpNum (label : string) (v : Z)
| DumpType (name : string) (v : Z)
| DumpAddr (label : string) (a : in6_addr)
| DumpTime (label : string) (t : Z)
| DumpUptime (d h m s : Z).

(** What the daemon asks of the operating system. *)
Inductive event :=
| EvSendto (ifindex hatype : Z) (dst_mac packet : list Z)
| EvSocket (fd : Z)
| EvClose (fd : Z)
| EvJoinGroup (fd ifindex : Z) (group : in6_addr)
| EvMsFilter (fd ifindex : Z) (group : in6_addr) (fmode : Z) (slist : list (option in6_addr))
| EvMfc (add : bool) (fd vif : Z) (src grp : in6_addr)
| EvMrouterInit (fd : Z)
| EvMif (add : bool) (fd mif pif : Z)
| EvPromisc (ifindex : Z)
| EvDump (lines : list dump_line).

(** [struct conf] and the static variables: [ints] (its length is
    [maxinterfaces]), [groups], [routes] of [kernel_routing.c] ([None] is the NULL pointer
    it starts as), [last_update] of [update_interfaces], [g_needs_timeout],
    [ecmh_timeout_offset], [stat_starttime]; [w_tick] counts system calls and [w_trace] lists
    events, most recent first. *)
Record world := World {
  w_cfg : config; w_ints : list intnode; w_groups : list groupnode; w_routes : option (list kernel_route6);
  w_upstream_id : Z; w_downstream_id : Z; w_mr6_fd : Z; w_stat : stats; w_hlim_exceeded : Z;
  w_last_update : Z; w_timeout_offset : Z; w_starttime : Z; w_needs_timeout : bool; w_quit : bool;
  w_buffer : list Z; w_tick : nat; w_trace : list event }.

Definition set_ints v (w : world) := World (w_cfg w) v (w_groups w) (w_routes w) (w_upstream_id w) (w_downstream_id w)
  (w_mr6_fd w) (w_stat w) (w_hlim_exceeded w) (w_last_update w) (w_timeout_offset w) (w_starttime w) (w_needs_timeout w) (w_quit w) (w_buffer w) (w_tick w) (w_trace w).
Definition set_groups v (w : world) := World (w_cfg w) (w_ints w) v (w_routes w) (w_upstream_id w) (w_downstream_id w)
  (w_mr6_fd w) (w_stat w) (w_hlim_exceeded w) (w_last_update w) (w_timeout_offset w) (w_starttime w) (w_needs_timeout w) (w_quit w) (w_buffer w) (w_tick w) (w_trace w).
Definition set_routes v (w : world) := World (w_cfg w) (w_ints w) (w_groups w) v (w_upstream_id w) (w_downstream_id w)
  (w_mr6_fd w) (w_stat w) (w_hlim_exceeded w) (w_last_update w) (w_timeout_offset w) (w_starttime w) (w_needs_timeout w) (w_quit w) (w_buffer w) (w_tick w) (w_trace w).
Definition set_upstream_id v (w : world) := World (w_cfg w) (w_ints w) (w_groups w) (w_routes w) v (w_downstream_id w)
  (w_mr6_fd w) (w_stat w) (w_hlim_exceeded w) (w_last_update w) (w_timeout_offset w) (w_starttime w) (w_needs_timeout w) (w_quit w) (w_buffer w) (w_tick w) (w_trace w).
Definition set_downstream_id v (w : world) := World (w_cfg w) (w_ints w) (w_groups w) (w_routes w) (w_upstream_id w) v
  (w_mr6_fd w) (w_stat w) (w_hlim_exceeded w) (w_last_update w) (w_timeout_offset w) (w_starttime w) (w_needs_timeout w) (w_quit w) (w_buffer w) (w_tick w) (w_trace w).
Definition set_mr6_fd v (w : world) := World (w_cfg w) (w_ints w) (w_groups w) (w_routes w) (w_upstream_id w) (w_downstream_id w)
  v (w_stat w) (w_hlim_exceeded w) (w_last_update w) (w_timeout_offset w) (w_starttime w) (w_needs_timeout w) (w_quit w) (w_buffer w) (w_tick w) (w_trace w).
Definition set_stat f (w : world) := World (w_cfg w) (w_ints w) (w_groups w) (w_routes w) (w_upstream_id w) (w_downstream_id w)
  (w_mr6_fd w) (f (w_stat w)) (w_hlim_exceeded w) (w_last_update w) (w_timeout_offset w) (w_starttime w) (w_needs_timeout w) (w_quit w) (w_buffer w) (w_tick w) (w_trace w).
Definition set_hlim_exceeded v (w : world) := World (w_cfg w) (w_ints w) (w_groups w) (w_routes w) (w_upstream_id w) (w_downstream_id w)
  (w_mr6_fd w) (w_stat w) v (w_last_update w) (w_timeout_offset w) (w_starttime w) (w_needs_timeout w) (w_quit w) (w_buffer w) (w_tick w) (w_trace w).
Definition set_last_update v (w : world) := World (w_cfg w) (w_ints w) (w_groups w) (w_routes w) (w_upstream_id w) (w_downstream_id w)
  (w_mr6_fd w) (w_stat w) (w_hlim_exceeded w) v (w_timeout_offset w) (w_starttime w) (w_needs_timeout w) (w_quit w) (w_buffer w) (w_tick w) (w_trace w).
Definition set_clocks offset starttime (w : world) := World (w_cfg w) (w_ints w) (w_groups w) (w_routes w) (w_upstream_id w) (w_downstream_id w)
  (w_mr6_fd w) (w_stat w) (w_hlim_exceeded w) (w_last_update w) offset starttime (w_needs_timeout w) (w_quit w) (w_buffer w) (w_tick w) (w_trace w).
Definition set_flags needs quit (w : world) := World (w_cfg w) (w_ints w) (w_groups w) (w_routes w) (w_upstream_id w) (w_downstream_id w)
  (w_mr6_fd w) (w_stat w) (w_hlim_exceeded w) (w_last_update w) (w_timeout_offset w) (w_starttime w) needs quit (w_buffer w) (w_tick w) (w_trace w).
Definition set_buffer v (w : world) := World (w_cfg w) (w_ints w) (w_groups w) (w_routes w) (w_upstream_id w) (w_downstream_id w)
  (w_mr6_fd w) (w_stat w) (w_hlim_exceeded w) (w_last_update w) (w_timeout_offset w) (w_starttime w) (w_needs_timeout w) (w_quit w) v (w_tick w) (w_trace w).
Definition set_os tick trace (w : world) := World (w_cfg w) (w_ints w) (w_groups w) (w_routes w) (w_upstream_id w) (w_downstream_id w)
  (w_mr6_fd w) (w_stat w) (w_hlim_exceeded w) (w_last_update w) (w_timeout_offset w) (w_starttime w) (w_needs_timeout w) (w_quit w) (w_buffer w) tick trace.

(** * The operating system *)

Inductive send_result := SendOk | SendENXIO | SendError.

(** One entry of [getifaddrs]: name, [sa_family], the 16 bytes read at the
    address, and the flags the code tests. *)
Record ifaddr := Ifaddr {
  ifa_name : string; ifa_ifindex : Z; ifa_family : Z; ifa_bytes : list Z;
  ifa_loopback : bool; ifa_up : bool; ifa_running : bool; ifa_has_addr : bool }.

(** A frame given by [recvfrom] on the raw socket. *)
Record frame := Frame {
  f_bytes : list Z; f_hatype : Z; f_pkttype : Z; f_ifindex : Z; f_protocol : Z }.

(** The answers to the n-th system call, by kind of call. *)
Record OS := {
  os_time : nat -> Z;                          (* time(NULL) *)
  os_malloc : nat -> bool;                     (* is a block given? *)
  os_garbage : nat -> Z;                       (* an uninitialised field *)
  os_sendto : nat -> send_result;
  os_socket : nat -> Z;                        (* a descriptor, or -1 *)
  os_setsockopt : nat -> Z;
  os_if_name : nat -> Z -> option string;      (* if_indextoname *)
  os_if_mtu : nat -> Z -> option Z;            (* SIOCGIFMTU *)
  os_if_hwfamily : nat -> Z -> option Z;       (* SIOCGIFHWADDR *)
  os_getifaddrs : nat -> option (list ifaddr);
  os_recvfrom : nat -> option frame;
  os_fork : nat -> Z;
  os_fopen : nat -> bool }.

(** * The monad *)

Inductive fault := NullDeref | OutOfBounds | DoubleFree | ProcExit.

Inductive outcome (A : Type) :=
| Ret (a : A) (w : world)
| Crash (f : fault) (w : world).
Arguments Ret {A} _ _.
Arguments Crash {A} _ _.

Definition M (A : Type) : Type := OS -> world -> outcome A.

#[export] Instance M_ret : MRet M := fun A a os w => Ret a w.
#[export] Instance M_bind : MBind M := fun A B k m os w =>
  match m os w with Ret a w => k a os w | Crash f w => Crash f w end.

Definition crash {A} (f : fault) : M A := fun os w => Crash f w.
(** A name a log message reads in a table; [None]: the search leaves the table. *)
Definition named {A} (name : option A) : M unit := match name with Some _ => mret tt | None => crash OutOfBounds end.
Definition get : M world := fun os w => Ret w w.
Definition modify (f : world -> world) : M unit := fun os w => Ret tt (f w).
(** A system call: one tick, and its answer. *)
Definition os_call {A} (f : OS -> nat -> A) : M A := fun os w => Ret (f os (w_tick w)) (set_os (S (w_tick w)) (w_trace w) w).
Definition emit (e : event) : M unit := modify (fun w => set_os (w_tick w) (e :: w_trace w) w).
Definition time : M Z := os_call os_time.
Definition when (b : bool) (m : M unit) : M unit := if b then m else mret tt.

(** [LIST_LOOP] with a body that never leaves the loop. *)
Fixpoint for_each {A} (l : list A) (body : A -> M unit) : M unit :=
  match l with
  | [] => mret tt
  | x :: l => _ ← body x; for_each l body
  end.

(** Access to the receive buffer; an access beyond its end faults. *)
Definition load (off len : Z) : M (list Z) :=
  w ← get;
  if (0 <=? off) && (0 <=? len) && (off + len <=? Z.of_nat (length (w_buffer w)))
  then mret (take (Z.to_nat len) (drop (Z.to_nat off) (w_buffer w)))
  else crash OutOfBounds.
Definition load8 (off : Z) : M Z := bs ← load off 1; mret (default 0 (head bs)).
(** [ntohs] of the 16-bit field at [off]. *)
Definition load16 (off : Z) : M Z :=
  bs ← load off 2; mret (match bs with [hi; lo] => 256 * hi + lo | _ => 0 end).
Definition store8 (off v : Z) : M unit :=
  _ ← load off 1; modify (fun w => set_buffer (<[Z.to_nat off := u8 v]> (w_buffer w)) w).

(** Access through a [struct intnode *]. *)
Definition int_at (i : nat) : M intnode :=
  w ← get; match w_ints w !! i with Some n => mret n | None => crash OutOfBounds end.
Definition upd_int (i : nat) (f : intnode -> intnode) : M unit :=
  _ ← int_at i; modify (fun w => set_ints (alter f i (w_ints w)) w).

(** Access through a [struct groupnode *] and a [struct grpintnode *]. *)
Definition group_at (g : nat) : M groupnode :=
  w ← get; match w_groups w !! g with Some n => mret n | None => crash OutOfBounds end.
Definition upd_group (g : nat) (f : groupnode -> groupnode) : M unit :=
  _ ← group_at g; modify (fun w => set_groups (alter f g (w_groups w)) w).
Definition grpint_at (p : nat * nat) : M grpintnode :=
  n ← group_at p.1; match g_interfaces n !! p.2 with Some gi => mret gi | None => crash OutOfBounds end.
Definition upd_grpint (p : nat * nat) (f : grpintnode -> grpintnode) : M unit :=
  _ ← grpint_at p; upd_group p.1 (fun n => set_interfaces (alter f p.2 (g_interfaces n)) n).

(** * Program logic *)

(** The outcome of [m] in state [w]: [Q] when it returns, [E] when it faults. *)
Definition spec {A} (m : M A) (os : OS) (w : world) (Q : A -> world -> Prop) (E : fault -> world -> Prop) : Prop :=
  match m os w with Ret a w' => Q a w' | Crash f w' => E f w' end.

(** [m] returns (it does not fault) and [Q] holds. *)
Abbreviation returns m os w Q := (spec m os w Q (fun _ _ => False)).

Section spec_rules.
Context {A B : Type}.
Implicit Types (m : M A) (os : OS) (w : world).

Lemma spec_ret (a : A) os w Q E : Q a w -> spec (mret a) os w Q E.
Proof. done. Qed.
Lemma spec_bind m (k : A -> M B) os w Q E :
  spec m os w (fun a w' => spec (k a) os w' Q E) E -> spec (m ≫= k) os w Q E.
Proof. unfold spec, mbind, M_bind. by destruct (m os w). Qed.
Lemma spec_mono m os w (Q Q' : A -> world -> Prop) (E E' : fault -> world -> Prop) :
  spec m os w Q E -> (forall a w', Q a w' -> Q' a w') -> (forall f w', E f w' -> E' f w') -> spec m os w Q' E'.
Proof. unfold spec. destruct (m os w); auto. Qed.
Lemma spec_conj m os w (Q Q' : A -> world -> Prop) (E E' : fault -> world -> Prop) :
  spec m os w Q E -> spec m os w Q' E' -> spec m os w (fun a w' => Q a w' /\ Q' a w') (fun f w' => E f w' /\ E' f w').
Proof. unfold spec. destruct (m os w); auto. Qed.
End spec_rules.

(** Two commands at the head of a body, taken together. *)
Lemma spec_bind_assoc {A B C} (k : B -> M C) (m1 : M A) (m2 : A -> M B) os w Q E :
  spec ((x ← m1; m2 x) ≫= k) os w Q E -> spec (x ← m1; y ← m2 x; k y) os w Q E.
Proof. unfold spec, mbind, M_bind. by destruct (m1 os w). Qed.

(** One rule per primitive. *)
Section spec_primitives.
Context (os : OS) (w : world) (E : fault -> world -> Prop).
Lemma spec_os_call {A} (f : OS -> nat -> A) Q :
  Q (f os (w_tick w)) (set_os (S (w_tick w)) (w_trace w) w) -> spec (os_call f) os w Q E.
Proof. done. Qed.
Lemma spec_modify f Q : Q tt (f w) -> spec (modify f) os w Q E.
Proof. done. Qed.
Lemma spec_emit e Q : Q tt (set_os (w_tick w) (e :: w_trace w) w) -> spec (emit e) os w Q E.
Proof. done. Qed.
Lemma spec_get Q : Q w w -> spec get os w Q E.
Proof. done. Qed.
Lemma spec_crash {A} f (Q : A -> world -> Prop) : E f w -> spec (crash f) os w Q E.
Proof. done. Qed.
Lemma spec_when (b : bool) m Q :
  (b = true -> spec m os w Q E) -> (b = false -> Q tt w) -> spec (when b m) os w Q E.
Proof. intros H1 H2. destruct b; [by apply H1|by apply H2]. Qed.
Lemma int_at_spec i n Q : w_ints w !! i = Some n -> Q n w -> spec (int_at i) os w Q E.
Proof. intros Hi HQ. apply spec_bind, spec_get. by rewrite Hi. Qed.
Lemma upd_int_spec i f n Q :
  w_ints w !! i = Some n -> Q tt (set_ints (alter f i (w_ints w)) w) -> spec (upd_int i f) os w Q E.
Proof. intros Hi HQ. unfold spec, upd_int, int_at, mbind, M_bind, get. by rewrite Hi. Qed.
Lemma group_at_spec g n Q : w_groups w !! g = Some n -> Q n w -> spec (group_at g) os w Q E.
Proof. intros Hi HQ. apply spec_bind, spec_get. by rewrite Hi. Qed.
Lemma upd_group_spec g f n Q :
  w_groups w !! g = Some n -> Q tt (set_groups (alter f g (w_groups w)) w) -> spec (upd_group g f) os w Q E.
Proof. intros Hi HQ. unfold spec, upd_group, group_at, mbind, M_bind, get. by rewrite Hi. Qed.
Lemma grpint_at_spec p n gi Q :
  w_groups w !! p.1 = Some n -> g_interfaces n !! p.2 = Some gi -> Q gi w -> spec (grpint_at p) os w Q E.
Proof. intros Hn Hi HQ. apply spec_bind. eapply group_at_spec; [exact Hn|]. by rewrite Hi. Qed.
Lemma upd_grpint_spec p f n gi Q :
  w_groups w !! p.1 = Some n -> g_interfaces n !! p.2 = Some gi ->
  Q tt (set_groups (alter (fun n => set_interfaces (alter f p.2 (g_interfaces n)) n) p.1 (w_groups w)) w) ->
  spec (upd_grpint p f) os w Q E.
Proof.
  intros Hn Hi HQ. apply spec_bind. eapply grpint_at_spec; [exact Hn|exact Hi|]. by eapply upd_group_spec.
Qed.
End spec_primitives.

(** Walk through a body whose lookups are known. *)
Ltac spec_step :=
  match goal with
  | |- spec (_ ≫= _) _ _ _ _ => apply spec_bind
  | |- spec (mret _) _ _ _ _ => apply spec_ret
  | |- spec (crash _) _ _ _ _ => apply spec_crash
  | |- spec get _ _ _ _ => apply spec_get
  | |- spec (modify _) _ _ _ _ => apply spec_modify
  | |- spec (emit _) _ _ _ _ => apply spec_emit
  | |- spec (os_call _) _ _ _ _ => apply spec_os_call
  | |- spec time _ _ _ _ => apply spec_os_call
  | |- spec (int_at _) _ _ _ _ => eapply int_at_spec; [eassumption|]
  | |- spec (upd_int _ _) _ _ _ _ => eapply upd_int_spec; [eassumption|]
  | |- spec (group_at _) _ _ _ _ => eapply group_at_spec; [eassumption|]
  | |- spec (upd_group _ _) _ _ _ _ => eapply upd_group_spec; [eassumption|]
  | |- spec (grpint_at _) _ _ _ _ => eapply grpint_at_spec; [eassumption|eassumption|]
  | |- spec (let _ := _ in _) _ _ _ _ => cbv zeta
  | |- spec (match ?x with _ => _ end) _ _ _ _ => destruct x eqn:?
  end.

(** [m] does not fault. *)
Definition safe {A} (m : M A) (os : OS) (w : world) : Prop := returns m os w (fun _ _ => True).

Section safe_rules.
Context {A B : Type}.
Lemma safe_ret (a : A) os w : safe (mret a) os w.
Proof. done. Qed.
Lemma safe_bind (m : M A) (k : A -> M B) os w :
  safe m os w -> (forall a w', m os w = Ret a w' -> safe (k a) os w') -> safe (m ≫= k) os w.
Proof. unfold safe, spec, mbind, M_bind. intros Hm Hk. destruct (m os w) eqn:E; [by apply Hk|done]. Qed.
Lemma safe_elim (m : M A) os w : safe m os w -> exists a w', m os w = Ret a w'.
Proof. unfold safe, spec. destruct (m os w); [eauto|done]. Qed.
End safe_rules.

(** A command whose result satisfies [P], whatever it does. *)
Definition gives {A} (P : A -> Prop) (m : M A) : Prop :=
  forall os w, spec m os w (fun a _ => P a) (fun _ _ => True).
Lemma gives_ret {A} (P : A -> Prop) a : P a -> gives P (mret a).
Proof. by intros H os w. Qed.
Lemma gives_bind {A B} (P : B -> Prop) (m : M A) (k : A -> M B) : (forall a, gives P (k a)) -> gives P (m ≫= k).
Proof.
  intros Hk os w. unfold spec, mbind, M_bind. destruct (m os w) as [a w'|] eqn:E; [|done]. apply (Hk a).
Qed.

(** ** Relations between the state before and after

    [rel R m]: every outcome of [m], a fault included, is related to its
    starting state by [R]. With [R w w' := I w -> I w'] this is the preservation of an
    invariant; with [R w w' := f w' = f w] the framing of a component. *)

Definition rel (R : world -> world -> Prop) {A} (m : M A) : Prop :=
  forall os w, spec m os w (fun _ w' => R w w') (fun _ w' => R w w').

Section rel_rules.
Context (R : world -> world -> Prop) `{!PreOrder R}.

Lemma rel_ret {A} (a : A) : rel R (mret a).
Proof. intros os w. change (R w w). reflexivity. Qed.
Lemma rel_crash {A} f : rel R (crash (A := A) f).
Proof. intros os w. change (R w w). reflexivity. Qed.
Lemma rel_named {A} (o : option A) : rel R (named o).
Proof. destruct o; [apply rel_ret|apply rel_crash]. Qed.
Lemma rel_get : rel R get.
Proof. intros os w. change (R w w). reflexivity. Qed.
Lemma rel_bind {A B} (m : M A) (k : A -> M B) : rel R m -> (forall a, rel R (k a)) -> rel R (m ≫= k).
Proof.
  intros Hm Hk os w. apply spec_bind. eapply spec_mono; [apply Hm| |done]. intros a w' Hw.
  eapply spec_mono; [apply Hk|..]; cbv beta; intros; (etrans; [exact Hw|done]).
Qed.
Lemma rel_when b m : rel R m -> rel R (when b m).
Proof. intros. destruct b; [done|]. apply rel_ret. Qed.
Lemma rel_for_each {A} (l : list A) body : (forall x, rel R (body x)) -> rel R (for_each l body).
Proof. intros Hb. induction l as [|x l IH]; simpl; [apply rel_ret|]. by apply rel_bind. Qed.
Lemma rel_load off len : rel R (load off len).
Proof. apply rel_bind; [apply rel_get|]. intros w. destruct (_ && _); [apply rel_ret|apply rel_crash]. Qed.
Lemma rel_load8 off : rel R (load8 off).
Proof. apply rel_bind; [apply rel_load|]. intros. apply rel_ret. Qed.
Lemma rel_load16 off : rel R (load16 off).
Proof. apply rel_bind; [apply rel_load|]. intros. apply rel_ret. Qed.
Lemma rel_int_at i : rel R (int_at i).
Proof. apply rel_bind; [apply rel_get|]. intros w. destruct (_ !! _); [apply rel_ret|apply rel_crash]. Qed.
Lemma rel_group_at g : rel R (group_at g).
Proof. apply rel_bind; [apply rel_get|]. intros w. destruct (_ !! _); [apply rel_ret|apply rel_crash]. Qed.
Lemma rel_grpint_at p : rel R (grpint_at p).
Proof. apply rel_bind; [apply rel_group_at|]. intros w. destruct (_ !! _); [apply rel_ret|apply rel_crash]. Qed.
End rel_rules.

Lemma rel_modify (R : world -> world -> Prop) f : (forall w, R w (f w)) -> rel R (modify f).
Proof. intros H os w. apply H. Qed.

(** A field the code does not write. *)
Definition frames {X} (f : world -> X) (w w' : world) : Prop := f w' = f w.
#[export] Instance frames_preorder {X} (f : world -> X) : PreOrder (frames f).
Proof. split; [done|]. intros ??? H1 H2. unfold frames in *. congruence. Qed.
(** An invariant the code keeps. *)
Definition keeps (I : world -> Prop) (w w' : world) : Prop := I w -> I w'.
#[export] Instance keeps_preorder I : PreOrder (keeps I).
Proof. split; [by intros ??|]. intros ??? H1 H2 ?. unfold keeps in *. auto. Qed.

Lemma rel_Ret R {A} (m : M A) os w a w' : rel R m -> m os w = Ret a w' -> R w w'.
Proof. intros H E. specialize (H os w). unfold spec in H. by rewrite E in H. Qed.
Lemma rel_spec R {A} (m : M A) os w : rel R m -> spec m os w (fun _ w' => R w w') (fun _ w' => R w w').
Proof. auto. Qed.

(** An invariant that only looks at a framed field. *)
Lemma rel_frames_keeps {A X} (f : world -> X) (I : X -> Prop) (m : M A) :
  rel (frames f) m -> rel (keeps (fun w => I (f w))) m.
Proof. intros H os w. eapply spec_mono; [apply H|..]; cbv beta; unfold frames, keeps; by intros ?? ->. Qed.

Create HintDb rel discriminated.
#[export] Hint Resolve rel_ret rel_crash rel_named rel_get rel_when rel_for_each rel_load rel_load8 rel_load16 rel_int_at rel_group_at rel_grpint_at : rel.
#[export] Hint Extern 0 (PreOrder _) => typeclasses eauto : rel.

(** Closing [R w w'] where [w'] only differs from [w] in fields [R] ignores. *)
Ltac rel_done := intros; unfold keeps, frames; simpl; first [reflexivity | tauto].
Lemma rel_os_call (R : world -> world -> Prop) {A} (f : OS -> nat -> A) :
  (forall n t w, R w (set_os n t w)) -> rel R (os_call f).
Proof. intros H os w. apply H. Qed.
Lemma rel_emit (R : world -> world -> Prop) e : (forall n t w, R w (set_os n t w)) -> rel R (emit e).
Proof. intros H. apply rel_modify. auto. Qed.
Lemma rel_tick (R : world -> world -> Prop) {A} (f : OS -> nat -> A) :
  (forall n w, R w (set_os n (w_trace w) w)) -> rel R (os_call f).
Proof. intros H os w. apply H. Qed.

Lemma rel_emit_one (R : world -> world -> Prop) e : (forall w, R w (set_os (w_tick w) (e :: w_trace w) w)) -> rel R (emit e).
Proof. intros H. apply rel_modify. auto. Qed.
#[export] Hint Extern 2 (rel _ (modify _)) => apply rel_modify; rel_done : rel.
#[export] Hint Extern 2 (rel _ (os_call _)) => apply rel_os_call; rel_done : rel.
#[export] Hint Extern 2 (rel _ time) => apply rel_os_call; rel_done : rel.
#[export] Hint Extern 2 (rel _ (emit _)) => apply rel_emit; rel_done : rel.

(** Walk through a body: binds, matches and local definitions, then the hints. *)
Ltac rel_step :=
  match goal with
  | |- rel _ (_ ≫= _) => apply rel_bind; [typeclasses eauto | | intros ?]
  | |- rel _ (when _ _) => apply rel_when; [typeclasses eauto|]
  | |- rel _ (match ?x with _ => _ end) => destruct x eqn:?
  | |- rel _ (let _ := _ in _) => cbv zeta
  end.
Ltac rel_auto := repeat first [rel_step | progress eauto 3 with rel].
