(* ===== verification/Interfaces.v ===== *)
(** [src/interfaces.c] (Linux build): the interface array, creation and
    destruction of interfaces, and the per-interface MLD version. *)

From S2P Require Import Prelude Msrc World.
From stdpp Require Import strings.
#[local] Open Scope Z_scope.

Definition ARPHRD_LOOPBACK : Z := 772.

(** C library string comparison: [strcmp(a,b) == 0] and [strcasecmp(a,b) == 0];
    both read through their arguments, and [NULL] faults. *)
Definition tolower (c : Ascii.ascii) : Ascii.ascii :=
  let n := Ascii.nat_of_ascii c in
  if (Nat.leb 65 n && Nat.leb n 90) then Ascii.ascii_of_nat (n + 32) else c.
Fixpoint lower (s : string) : string :=
  match s with
  | EmptyString => EmptyString
  | String c s => String (tolower c) (lower s)
  end.
Definition strcmp_eq (a : string) (b : option string) : M bool :=
  match b with Some b => mret (bool_decide (a = b)) | None => crash NullDeref end.
Definition strcasecmp_eq (a b : string) : bool := bool_decide (lower a = lower b).

(** ** Operations *)

(** [int_find]: NULL beyond the array or for a disabled ([mtu == 0]) entry. *)
Definition int_find (ifindex : Z) : M (option nat) :=
  w ← get;
  if Z.of_nat (length (w_ints w)) <=? ifindex then mret None
  else
    n ← int_at (Z.to_nat ifindex);
    mret (if i_mtu n =? 0 then None else Some (Z.to_nat ifindex)).

(** Resetting the MTU to zero disables the interface. *)
Definition int_destroy (intn : nat) : M unit := upd_int intn (set_mtu 0).

Definition int_set_mld_version (intn : nat) (newversion : Z) : M unit :=
  w ← get;
  if newversion =? 1 then
    if c_mld2only (w_cfg w) then mret tt
    else
      n ← int_at intn;
      if (i_mld_version n =? 0) && negb (i_mld_version n =? 1) then
        _ ← upd_int intn (fun n => set_mld 1 (i_mld_last_v1 n) n);
        now ← time;
        upd_int intn (fun n => set_mld (i_mld_version n) now n)
      else mret tt
  else
    n ← int_at intn;
    _ ← (if negb (i_mld_last_v1 n =? 0) then
           now ← time;
           when (i_mld_last_v1 n + ECMH_SUBSCRIPTION_TIMEOUT <? now) (upd_int intn (set_mld 0 0))
         else mret tt);
    if c_mld1only (w_cfg w) then mret tt
    else
      n ← int_at intn;
      when ((i_mld_version n =? 0) && negb (i_mld_version n =? 1) && negb (i_mld_version n =? 2))
        (upd_int intn (fun n => set_mld newversion (i_mld_last_v1 n) n)).

(** Growing [g_conf->ints] to [ifindex+1] cleared entries; [ifindex+1] is an
    [unsigned int].  The process exits when [realloc] fails. *)
Definition int_resize (ifindex : Z) : M unit :=
  w ← get;
  if Z.of_nat (length (w_ints w)) <? u32 (ifindex + 1) then
    ok ← os_call os_malloc;
    if negb ok then crash ProcExit
    else modify (fun w => set_ints (w_ints w ++ replicate (Z.to_nat (u32 (ifindex + 1)) - length (w_ints w)) intnode_zero) w)
  else mret tt.

(** The failure exits of [int_create]. *)
Definition int_create_fail (intn : nat) (sock : Z) : M (option nat) :=
  _ ← int_destroy intn; _ ← emit (EvClose sock); mret None.

(** The end of [int_create]: promiscuous mode, then upstream or downstream role. *)
Definition int_create_finish (intn : nat) (sock ifindex : Z) (name : string) : M (option nat) :=
  w ← get;
  _ ← when (c_promisc (w_cfg w))
        (err ← os_call os_setsockopt;
         when (err =? 0) (err ← os_call os_setsockopt; when (err =? 0) (emit (EvPromisc ifindex))));
  _ ← emit (EvClose sock);
  let up := match c_upstream (w_cfg w) with Some u => strcasecmp_eq name u | None => false end in
  let down := match c_downstream (w_cfg w) with Some d => strcasecmp_eq name d | None => false end in
  _ ← when up (modify (set_upstream_id ifindex));
  _ ← when down (modify (set_downstream_id ifindex));
  _ ← upd_int intn (set_role up down);
  mret (Some intn).

Definition int_create (ifindex : Z) : M (option nat) :=
  _ ← int_resize ifindex;
  let intn := Z.to_nat ifindex in
  sock ← os_call os_socket;
  if sock <? 0 then mret None
  else
    _ ← emit (EvSocket sock);
    _ ← upd_int intn (fun _ => intnode_zero);
    _ ← upd_int intn (fun n => Intnode ifindex (i_name n) (i_mtu n) 0 (i_mld_last_v1 n) (i_hwfamily n) (i_linklocal n)
                                 (i_global n) (i_stat n) (i_upstream n) (i_downstream n) (i_upstream_socket n));
    name ← os_call (fun os t => os_if_name os t ifindex);
    match name with
    | None => int_create_fail intn sock
    | Some name =>
      _ ← upd_int intn (fun n => Intnode (i_ifindex n) name (i_mtu n) (i_mld_version n) (i_mld_last_v1 n) (i_hwfamily n)
                                   (i_linklocal n) (i_global n) (i_stat n) (i_upstream n) (i_downstream n) (i_upstream_socket n));
      mtu ← os_call (fun os t => os_if_mtu os t ifindex);
      match mtu with
      | None => int_create_fail intn sock
      | Some mtu =>
        _ ← upd_int intn (set_mtu (u32 mtu));
        hw ← os_call (fun os t => os_if_hwfamily os t ifindex);
        match hw with
        | None => int_create_fail intn sock
        | Some family =>
          _ ← upd_int intn (set_hwfamily family);
          if family =? ARPHRD_LOOPBACK then int_create_fail intn sock
          else
            w ← get;
            is_up ← strcmp_eq name (c_upstream (w_cfg w));
            wanted ← (if (is_up : bool) then mret true else strcmp_eq name (c_downstream (w_cfg w)));
            if negb wanted then int_create_fail intn sock
            else int_create_finish intn sock ifindex name
        end
      end
    end.

(** ** Basic rules *)

Lemma int_find_spec ifindex os w :
  0 <= ifindex ->
  int_find ifindex os w =
  Ret (match w_ints w !! Z.to_nat ifindex with
       | Some n => if i_mtu n =? 0 then None else Some (Z.to_nat ifindex)
       | None => None
       end) w.
Proof.
  intros Hi. unfold int_find. unfold mbind at 1, M_bind at 1, get at 1. cbv beta iota.
  destruct (Z.leb_spec (Z.of_nat (length (w_ints w))) ifindex) as [Hl|Hl].
  - rewrite lookup_ge_None_2 by lia. done.
  - destruct (lookup_lt_is_Some_2 (w_ints w) (Z.to_nat ifindex)) as [n Hn]; [lia|].
    unfold int_at, mbind, M_bind, get. rewrite Hn. done.
Qed.

Lemma rel_upd_int_fun (R : world -> world -> Prop) `{!PreOrder R} i f :
  (forall w, R w (set_ints (alter f i (w_ints w)) w)) -> rel R (upd_int i f).
Proof. intros H. unfold upd_int. rel_auto. apply rel_modify. auto. Qed.

Section frames.
Context (R : world -> world -> Prop) `{!PreOrder R}.
Context (R_tick : forall n w, R w (set_os n (w_trace w) w)) (R_ints : forall i f w, R w (set_ints (alter f i (w_ints w)) w)).

Lemma rel_upd_int i f : rel R (upd_int i f).
Proof. apply rel_upd_int_fun; auto. Qed.
Lemma rel_int_find i : rel R (int_find i).
Proof. unfold int_find. rel_auto. Qed.
Lemma rel_int_destroy i : rel R (int_destroy i).
Proof. apply rel_upd_int. Qed.
Lemma rel_int_set_mld_version i v : rel R (int_set_mld_version i v).
Proof.
  pose proof rel_upd_int. assert (rel R time) by (apply rel_tick; auto).
  unfold int_set_mld_version. rel_auto; auto. 
Qed.
End frames.

(** ** Absence of faults *)

Definition int_ok (i : nat) (w : world) : Prop := (i < length (w_ints w))%nat.

Lemma safe_int_at i os w : int_ok i w -> safe (int_at i) os w.
Proof. intros [n Hn]%lookup_lt_is_Some_2. by eapply int_at_spec. Qed.
Lemma safe_upd_int i f os w : int_ok i w -> safe (upd_int i f) os w.
Proof. intros [n Hn]%lookup_lt_is_Some_2. by eapply upd_int_spec. Qed.

(** The number of interfaces, which only [int_create] changes. *)
Definition nints (w : world) : nat := length (w_ints w).
Lemma frames_nints_alter i f w : frames nints w (set_ints (alter f i (w_ints w)) w).
Proof. apply length_alter. Qed.
Lemma frames_int_ok i w w' : frames nints w w' -> int_ok i w -> int_ok i w'.
Proof. unfold frames, nints, int_ok. by intros ->. Qed.
#[export] Hint Resolve safe_int_at safe_upd_int : ecmh.

(** ** The MLD version of an interface *)

(** What [int_set_mld_version] leaves in ([mld_version], [mld_last_v1]) at time [now]. *)
Definition mld_step (cfg : config) (now newversion : Z) (n : intnode) : Z * Z :=
  if newversion =? 1 then
    if c_mld2only cfg || negb (i_mld_version n =? 0) then (i_mld_version n, i_mld_last_v1 n) else (1, now)
  else
    let '(version, last_v1) :=
      if negb (i_mld_last_v1 n =? 0) && (i_mld_last_v1 n + ECMH_SUBSCRIPTION_TIMEOUT <? now) then (0, 0)
      else (i_mld_version n, i_mld_last_v1 n) in
    if c_mld1only cfg || negb (version =? 0) then (version, last_v1) else (newversion, last_v1).

(** Interface [i] is now [n]; otherwise only the clock ticked. *)
Definition becomes (i : nat) (n : intnode) (w w' : world) : Prop :=
  exists t, w' = set_os t (w_trace w) (set_ints (<[i := n]> (w_ints w)) w).

Section becomes.
Context (i : nat) (w : world) (Hi : int_ok i w).
Lemma becomes_refl n : w_ints w !! i = Some n -> becomes i n w w.
Proof. intros Hn. exists (w_tick w). rewrite list_insert_id by done. by destruct w. Qed.
Lemma becomes_lookup n w' : becomes i n w w' -> w_ints w' !! i = Some n.
Proof. intros [t ->]. by apply list_lookup_insert_eq. Qed.
Lemma becomes_tick n w' t : becomes i n w w' -> becomes i n w (set_os t (w_trace w') w').
Proof. intros [t' ->]. by exists t. Qed.
Lemma becomes_upd f n w' : becomes i n w w' -> becomes i (f n) w (set_ints (alter f i (w_ints w')) w').
Proof.
  intros [t ->]. exists t. unfold set_os, set_ints. simpl. f_equal. apply list_eq. intros j.
  rewrite list_lookup_alter. case_decide; [subst j|by rewrite !list_lookup_insert_ne]. by rewrite !list_lookup_insert_eq.
Qed.
End becomes.

Lemma set_mld_id n : set_mld (i_mld_version n) (i_mld_last_v1 n) n = n.
Proof. by destruct n. Qed.

Lemma int_set_mld_version_spec i v n os w :
  w_ints w !! i = Some n ->
  returns (int_set_mld_version i v) os w (fun _ w' =>
    let s := mld_step (w_cfg w) (os_time os (w_tick w)) v n in becomes i (set_mld s.1 s.2 n) w w').
Proof.
  intros Hn. assert (Hi : int_ok i w) by (by eapply lookup_lt_Some). pose proof (becomes_refl i w Hi n Hn) as Hb.
  rewrite <-(set_mld_id n) in Hb at 1. unfold int_set_mld_version, mld_step. do 2 spec_step. destruct (v =? 1).
  - destruct (c_mld2only (w_cfg w)); simpl; [by spec_step|].
    do 2 spec_step. destruct (Z.eqb_spec (i_mld_version n) 0) as [E|E]; simpl; [|by spec_step]. rewrite E. simpl.
    do 2 spec_step. do 2 spec_step. eapply upd_int_spec; [simpl; by rewrite list_lookup_alter_eq, Hn|].
    apply (becomes_upd i w Hi (fun m => set_mld (i_mld_version m) _ m) (set_mld 1 (i_mld_last_v1 n) n)).
    apply becomes_tick. by apply (becomes_upd i w Hi (fun m => set_mld 1 (i_mld_last_v1 m) m) (set_mld (i_mld_version n) (i_mld_last_v1 n) n)).
  - do 2 spec_step. apply spec_bind.
    apply (spec_mono _ _ _ (fun _ w' => let s := if negb (i_mld_last_v1 n =? 0) && (i_mld_last_v1 n + ECMH_SUBSCRIPTION_TIMEOUT <? os_time os (w_tick w))
      then (0, 0) else (i_mld_version n, i_mld_last_v1 n) in becomes i (set_mld s.1 s.2 n) w w') _ (fun _ _ => False)); [| |done].
    + destruct (i_mld_last_v1 n =? 0); simpl; [by spec_step|]. do 2 spec_step.
      apply spec_when; intros E; rewrite E; [|by apply becomes_tick]. eapply upd_int_spec; [done|].
      apply (becomes_upd i w Hi (set_mld 0 0) (set_mld (i_mld_version n) (i_mld_last_v1 n) n)). by apply becomes_tick.
    + cbv beta zeta. intros _ w' Hw. destruct (if _ && _ then _ else _) as [version last]. simpl in *.
      destruct (c_mld1only (w_cfg w)); simpl; [by spec_step|]. spec_step.
      eapply int_at_spec; [by eapply becomes_lookup|]. simpl. apply spec_when; intros E.
      * assert (version = 0) as -> by lia. simpl. eapply upd_int_spec; [by eapply becomes_lookup|].
        by apply (becomes_upd i w Hi (fun m => set_mld v _ m) (set_mld 0 last n)).
      * destruct (Z.eqb_spec version 0) as [->|]; [done|exact Hw].
Qed.
