(* ===== verification/Send.v ===== *)
(** Packet construction and transmission of [src/ecmh.c] (Linux build with
    [ECMH_SUPPORT_MLD2]): [sendpacket6], [icmp6_send], the MLD queries and reports.
    A packet under construction is the list of the bytes of the C structure, in memory order. *)

From S2P Require Import Names Prelude Checksum LinkList Msrc World Interfaces.
#[local] Open Scope Z_scope.

Definition IPPROTO_HOPOPTS : Z := 0.
Definition IPPROTO_ICMPV6 : Z := 58.

(** * Definitions *)

(** The Ethernet address RFC 2464 gives to the IPv6 destination in the header [iph]. *)
Definition multicast_mac (iph : list Z) : list Z := [51; 51] ++ take 4 (drop 36 iph).

(** What follows the transmission: an interface that is gone is destroyed, a success is counted. *)
Definition after_send (intn : nat) (len : Z) (sent : send_result) : M unit :=
  match sent with
  | SendENXIO => int_destroy intn
  | SendError => mret tt
  | SendOk =>
    _ ← modify (set_stat (count_sent len));
    upd_int intn (set_int_stat (count_sent len))
  end.

(** [len] bytes at [iph] are sent; the Ethernet address is read in the header there, which may
    be longer than [len]. *)
Definition sendpacket6 (intn : nat) (iph : list Z) (len : Z) : M unit :=
  n ← int_at intn;
  _ ← emit (EvSendto (i_ifindex n) (i_hwfamily n) (multicast_mac iph) (take (Z.to_nat len) iph));
  sent ← os_call os_sendto;
  after_send intn len sent.

(** The statistics update after each ICMP transmission. *)
Definition count_icmp (intn : nat) : M unit :=
  _ ← modify (set_stat count_icmp_sent); upd_int intn (set_int_stat count_icmp_sent).

(** The 40 bytes of [struct ip6_hdr]. *)
Definition ip6_hdr (plen nxt hlim : Z) (src dst : in6_addr) : list Z :=
  [96; 0; 0; 0] ++ le16 (htons plen) ++ [nxt; hlim] ++ src ++ dst.

(** [struct ip6_hbh] and the router alert option with its padding. *)
Definition hbh_routeralert : list Z := [IPPROTO_ICMPV6; 0; 5; 2; 0; 0; 1; 0].

(** The names of a type and a code, for a log message. *)
Definition name_icmpv6 (type code : Z) : M unit := _ ← named (icmpv6_type type); named (icmpv6_code type code).

(** [icmp6_send]: an ICMPv6 message with [dlen] bytes of data, read at [data] in the
    receive buffer. The structure on the stack has room for 1500 bytes; the checksum and
    the transmission read [dlen] bytes whatever its value. *)
Definition icmp6_send (intn : nat) (src : in6_addr) (type code data dlen : Z) : M unit :=
  n ← int_at intn;
  d ← load data (if dlen <? 1500 then dlen else 1500);
  let hdr := ip6_hdr (u16 (dlen + 4)) IPPROTO_ICMPV6 64 (i_global n) src in
  let body := fun cksum => [u8 type; u8 code] ++ le16 cksum ++ d ++ replicate (1504 - length d) 0 in
  let clen := u16 (dlen + 4) in
  _ ← (if 1508 <? clen then crash OutOfBounds else mret tt);
  let cksum := ipv6_checksum (i_global n ++ src) IPPROTO_ICMPV6 (take (Z.to_nat clen) (body 0)) in
  let len := u16 (dlen + 44) in
  _ ← (if 1548 <? len then crash OutOfBounds else mret tt);
  _ ← name_icmpv6 type code;
  _ ← sendpacket6 intn (hdr ++ body cksum) len;
  count_icmp intn.

(** [struct mld1]. *)
Definition mld1_bytes (type mrc csum : Z) (mca : in6_addr) : list Z :=
  [type; 0] ++ le16 csum ++ le16 (htons mrc) ++ [0; 0] ++ mca.
(** The rest of [struct mld2_query], after the fields shared with [struct mld1],
    and the source; the bit field holds [qrv] in its low three bits. *)
Definition mld2_query_tail (suppression : bool) (src : option in6_addr) : list Z :=
  [ECMH_ROBUSTNESS_FACTOR + (if suppression then 8 else 0); ECMH_SUBSCRIPTION_TIMEOUT]
  ++ le16 (htons (if src then 1 else 0)) ++ default [] src.

(** [ff02::1] *)
Definition all_nodes : in6_addr := [255; 2] ++ replicate 13 0 ++ [1].

Definition mld_query_bytes (mld1only : bool) (csum : Z) (mca : in6_addr) (src : option in6_addr) (suppression : bool) : list Z :=
  mld1_bytes MLD_LISTENER_QUERY 2000 csum mca ++ (if mld1only then [] else mld2_query_tail suppression src).

Definition mld_query_packet (mld1only : bool) (linklocal mca : in6_addr) (src : option in6_addr) (suppression : bool) : list Z :=
  let data := mld_query_bytes mld1only 0 mca src suppression in
  let packetlen := 48 + Z.of_nat (length data) in
  let csum := ipv6_checksum (linklocal ++ all_nodes) IPPROTO_ICMPV6 data in
  ip6_hdr (packetlen - 40) IPPROTO_HOPOPTS 1 linklocal all_nodes ++ hbh_routeralert
  ++ mld_query_bytes mld1only csum mca src suppression.

Definition mld_send_query (intn : nat) (mca : in6_addr) (src : option in6_addr) (suppression : bool) : M unit :=
  n ← int_at intn;
  (* Don't send queries to upstreams *)
  if i_upstream n then mret tt
  else
    w ← get;
    let packet := mld_query_packet (c_mld1only (w_cfg w)) (i_linklocal n) mca src suppression in
    _ ← sendpacket6 intn packet (Z.of_nat (length packet));
    count_icmp intn.

(** One query per source. *)
Definition mld_send_mquery (intn : nat) (mca : in6_addr) (srcs : sources) (suppression : bool) : M unit :=
  for_each (live srcs) (fun src => mld_send_query intn mca (Some (s_addr src)) suppression).

Definition mld1_report_packet (linklocal mca : in6_addr) : list Z :=
  let csum := ipv6_checksum (linklocal ++ mca) IPPROTO_ICMPV6 (mld1_bytes MLD_LISTENER_REPORT 0 0 mca) in
  ip6_hdr 32 IPPROTO_HOPOPTS 1 linklocal mca ++ hbh_routeralert ++ mld1_bytes MLD_LISTENER_REPORT 0 csum mca.

Definition mld1_send_report (intn : nat) (mca : in6_addr) : M unit :=
  n ← int_at intn;
  let packet := mld1_report_packet (i_linklocal n) mca in
  _ ← sendpacket6 intn packet (Z.of_nat (length packet));
  count_icmp intn.

(** [mld2_send_report]: every statement that adds a group record to the packet is
    compiled out ([#if 0]), so [ngrec] is still 0 when it is tested after the loops. *)
Definition mld2_send_report (intn : nat) (mca : option in6_addr) : M unit :=
  n ← int_at intn;
  if i_mtu n <? 56 then mret tt
  else
    ok ← os_call os_malloc;
    if (ok : bool) then mret tt else crash ProcExit.

Definition mld_send_report (intn : nat) (mca : in6_addr) : M unit :=
  w ← get;
  n ← int_at intn;
  let cfg := w_cfg w in
  _ ← when (negb (c_mld2only cfg) &&
            (c_mld1only cfg || ((i_mld_version n =? 0) && negb (i_upstream n)) || (i_mld_version n =? 1)))
        (mld1_send_report intn mca);
  n ← int_at intn;
  when (negb (c_mld1only cfg) && (c_mld2only cfg || (i_mld_version n =? 0) || (i_mld_version n =? 2)))
    (mld2_send_report intn (Some mca)).

(** The indices of the interface array. *)
Definition all_ints : M (list nat) := w ← get; mret (seq 0 (length (w_ints w))).

Definition mld_send_report_all (interface : nat) (mca : in6_addr) : M unit :=
  ids ← all_ints;
  for_each ids (fun i =>
    intf ← int_at interface;
    n ← int_at i;
    when (negb ((i_mtu n =? 0) || (i_ifindex intf =? i_ifindex n))) (mld_send_report i mca)).

(** The periodic general query on every interface. *)
Definition send_mld_querys : M unit :=
  ids ← all_ints;
  for_each ids (fun i =>
    n ← int_at i;
    when (negb (i_mtu n =? 0)) (mld_send_query i in6addr_any None false)).

(** * Facts *)

Section frames.
Context (R : world -> world -> Prop) `{!PreOrder R}.
Context (R_os : forall n t w, R w (set_os n t w)) (R_ints : forall i f w, R w (set_ints (alter f i (w_ints w)) w))
  (R_stat : forall f w, R w (set_stat f w)).

Hint Extern 1 (rel R (upd_int _ _)) => apply rel_upd_int; assumption : core.
Hint Extern 1 (rel R (int_destroy _)) => apply rel_int_destroy; assumption : core.
Hint Extern 1 (rel R (modify _)) => apply rel_modify; intros; auto : core.
Hint Extern 1 (rel R (emit _)) => apply rel_emit; auto : core.
Hint Extern 1 (rel R (os_call _)) => apply rel_os_call; auto : core.

Lemma rel_sendpacket6 i p l : rel R (sendpacket6 i p l).
Proof. unfold sendpacket6, after_send. rel_auto; auto. Qed.
Lemma rel_count_icmp i : rel R (count_icmp i).
Proof. unfold count_icmp. rel_auto; auto. Qed.
Hint Resolve rel_sendpacket6 rel_count_icmp : core.
Lemma rel_icmp6_send i s t c d l : rel R (icmp6_send i s t c d l).
Proof. unfold icmp6_send, name_icmpv6. rel_auto; auto. Qed.
Lemma rel_mld_send_query i m s b : rel R (mld_send_query i m s b).
Proof. unfold mld_send_query. rel_auto; auto. Qed.
Lemma rel_mld_send_mquery i m s b : rel R (mld_send_mquery i m s b).
Proof. apply rel_for_each; [done|]. intros. apply rel_mld_send_query. Qed.
Lemma rel_mld1_send_report i m : rel R (mld1_send_report i m).
Proof. unfold mld1_send_report. rel_auto; auto. Qed.
Lemma rel_mld2_send_report i m : rel R (mld2_send_report i m).
Proof. unfold mld2_send_report. rel_auto; auto. Qed.
Hint Resolve rel_mld1_send_report rel_mld2_send_report rel_mld_send_query : core.
Lemma rel_mld_send_report i m : rel R (mld_send_report i m).
Proof. unfold mld_send_report. rel_auto; auto. Qed.
Hint Resolve rel_mld_send_report : core.
Lemma rel_mld_send_report_all i m : rel R (mld_send_report_all i m).
Proof. unfold mld_send_report_all, all_ints. rel_auto. apply rel_for_each; [done|]. intros. rel_auto; auto. Qed.
Lemma rel_send_mld_querys : rel R send_mld_querys.
Proof. unfold send_mld_querys, all_ints. rel_auto. apply rel_for_each; [done|]. intros. rel_auto; auto. Qed.
End frames.

(** ** Absence of faults *)

Lemma nints_sendpacket6 i p l : rel (frames nints) (sendpacket6 i p l).
Proof. apply rel_sendpacket6; [typeclasses eauto|done|apply frames_nints_alter|done]. Qed.
Lemma nints_mld_send_query i m s b : rel (frames nints) (mld_send_query i m s b).
Proof. apply rel_mld_send_query; [typeclasses eauto|done|apply frames_nints_alter|done]. Qed.

Lemma safe_sendpacket6 i p l os w : int_ok i w -> safe (sendpacket6 i p l) os w.
Proof.
  intros Hi. apply safe_bind; [by apply safe_int_at|]. intros n w1 E1.
  pose proof (rel_Ret _ _ _ _ _ _ (rel_int_at (frames nints) i) E1) as F1.
  apply safe_bind; [done|]. intros [] w2 [= <-]. apply safe_bind; [done|]. intros r w3 [= <- <-].
  assert (Hi' : int_ok i w1) by (by eapply frames_int_ok).
  destruct (os_sendto os _); [|by apply safe_upd_int|done].
  apply safe_bind; [done|]. intros [] w4 [= <-]. by apply safe_upd_int.
Qed.

Lemma safe_count_icmp i os w : int_ok i w -> safe (count_icmp i) os w.
Proof. intros Hi. apply safe_bind; [done|]. intros [] w' [= <-]. by apply safe_upd_int. Qed.

Lemma safe_mld_send_query i m s b os w : int_ok i w -> safe (mld_send_query i m s b) os w.
Proof.
  intros Hi. apply safe_bind; [by apply safe_int_at|]. intros n w1 E1.
  pose proof (rel_Ret _ _ _ _ _ _ (rel_int_at (frames nints) i) E1) as F1.
  destruct (i_upstream n); [done|]. apply safe_bind; [done|]. intros w' w2 [= -> <-].
  assert (Hi' : int_ok i w') by (by eapply frames_int_ok).
  apply safe_bind; [by apply safe_sendpacket6|]. intros [] w3 E3. apply safe_count_icmp.
  eapply frames_int_ok; [|done]. by eapply (rel_Ret _ _ _ _ _ _ (nints_sendpacket6 _ _ _)).
Qed.

Lemma safe_mld_send_mquery i m (srcs : sources) b os w : int_ok i w -> safe (mld_send_mquery i m srcs b) os w.
Proof.
  unfold mld_send_mquery. generalize (live srcs) as l. clear srcs. intros l; revert w.
  induction l as [|x l IH]; intros w Hi; [done|]. simpl. apply safe_bind; [by apply safe_mld_send_query|].
  intros [] w' E. apply IH. eapply frames_int_ok; [|done]. by eapply (rel_Ret _ _ _ _ _ _ (nints_mld_send_query _ _ _ _)).
Qed.

(** ** What a query puts on the wire *)

(** The fields of an interface that no transmission changes. *)
Definition int_like (n n' : intnode) : Prop :=
  i_ifindex n' = i_ifindex n /\ i_hwfamily n' = i_hwfamily n /\ i_linklocal n' = i_linklocal n /\
  i_global n' = i_global n /\ i_upstream n' = i_upstream n /\ i_upstream_socket n' = i_upstream_socket n.
#[export] Instance int_like_preorder : PreOrder int_like.
Proof.
  split; [done|]. intros n1 n2 n3 (?&?&?&?&?&?) (?&?&?&?&?&?). unfold int_like. split_and!; congruence.
Qed.

(** A transmission through interface [i] with events [evs]: it changes statistics, perhaps the
    MTU of the interface, the clock and the trace. *)
Definition sent (i : nat) (n : intnode) (evs : list event) (w w' : world) : Prop :=
  (exists n', w_ints w' !! i = Some n' /\ int_like n n') /\ (forall j, j ≠ i -> w_ints w' !! j = w_ints w !! j) /\
  w_trace w' = rev evs ++ w_trace w /\
  w_groups w' = w_groups w /\ w_cfg w' = w_cfg w /\ w_routes w' = w_routes w /\
  w_upstream_id w' = w_upstream_id w /\ w_downstream_id w' = w_downstream_id w.

Lemma sent_trans i n n' evs evs' w1 w2 w3 :
  int_like n n' -> sent i n evs w1 w2 -> sent i n' evs' w2 w3 -> sent i n (evs ++ evs') w1 w3.
Proof.
  intros Hl (_ & H2 & H3 & H4 & H5 & H6 & H7 & H8) ((m & Hm & Hm') & K2 & K3 & K4 & K5 & K6 & K7 & K8).
  split_and!; try congruence.
  - exists m. split; [done|by etrans].
  - intros j Hj. rewrite K2, H2; done.
  - by rewrite K3, H3, rev_app_distr, app_assoc.
Qed.

(** The transmission of [len] bytes at [iph], and of a packet that holds its header. *)
Definition send_at (n : intnode) (iph : list Z) (len : Z) : event :=
  EvSendto (i_ifindex n) (i_hwfamily n) (multicast_mac iph) (take (Z.to_nat len) iph).
Definition send_event (n : intnode) (packet : list Z) : event :=
  EvSendto (i_ifindex n) (i_hwfamily n) (multicast_mac packet) packet.

Lemma send_at_all n packet : send_at n packet (Z.of_nat (length packet)) = send_event n packet.
Proof. unfold send_at. by rewrite Nat2Z.id, firstn_all. Qed.
Lemma take_4_drop_36 k (l : list Z) : (40 <= k)%nat -> take 4 (drop 36 (take k l)) = take 4 (drop 36 l).
Proof. intros Hk. rewrite skipn_firstn_comm, take_take. f_equal. lia. Qed.
Lemma send_at_take n iph len : send_at n (take (Z.to_nat (Z.max len 40)) iph) len = send_at n iph len.
Proof. unfold send_at, multicast_mac. rewrite take_4_drop_36, take_take by lia. do 2 f_equal. lia. Qed.
Lemma send_at_header n iph len : 40 <= len -> send_at n iph len = send_event n (take (Z.to_nat len) iph).
Proof. intros Hlen. unfold send_at, send_event, multicast_mac. by rewrite take_4_drop_36 by lia. Qed.

Lemma sent_like i n n' evs w w' : int_like n n' -> sent i n' evs w w' -> sent i n evs w w'.
Proof. intros Hl ((m & ? & ?) & Hw). split; [exists m; split; [done|by etrans]|done]. Qed.

(** Altering the interface in ways that keep it alike. *)
Lemma sent_alter i n f evs w w' :
  (forall x, int_like x (f x)) -> sent i n evs w w' -> sent i n evs w (set_ints (alter f i (w_ints w')) w').
Proof.
  intros Hf ((m & Hm & Hl) & Hj' & Hw). split_and!; try apply Hw.
  - exists (f m). simpl. rewrite list_lookup_alter_eq, Hm. split; [done|by etrans].
  - intros j Hj. simpl. rewrite list_lookup_alter_ne by done. auto.
Qed.

Lemma sendpacket6_spec i n iph len os w :
  w_ints w !! i = Some n ->
  returns (sendpacket6 i iph len) os w (fun _ w' => sent i n [send_at n iph len] w w').
Proof.
  intros Hn. unfold sendpacket6, after_send. do 6 spec_step.
  assert (Hs : forall t, sent i n [send_at n iph len] w (set_os t (send_at n iph len :: w_trace w) w)).
  { intros t. split_and!; try done. by exists n. }
  destruct (os_sendto os _); unfold int_destroy; cbv zeta.
  - do 2 spec_step. eapply upd_int_spec; [done|]. apply sent_alter; [done|]. exact (Hs (S (w_tick w))).
  - eapply upd_int_spec; [done|]. apply sent_alter; [done|exact (Hs (S (w_tick w)))].
  - spec_step. exact (Hs (S (w_tick w))).
Qed.

Definition query_events (cfg : config) (n : intnode) (mca : in6_addr) (src : option in6_addr) : list event :=
  if i_upstream n then [] else [send_event n (mld_query_packet (c_mld1only cfg) (i_linklocal n) mca src false)].

Lemma query_events_like cfg n n' mca src : int_like n n' -> query_events cfg n' mca src = query_events cfg n mca src.
Proof. unfold query_events, send_event. by intros (-> & -> & -> & _ & -> & _). Qed.

(** A query goes out on the interface it is asked for, unless that is the upstream
    interface, and changes no group. *)
Theorem mld_send_query_spec i n mca src os w :
  w_ints w !! i = Some n ->
  returns (mld_send_query i mca src false) os w (fun _ w' => sent i n (query_events (w_cfg w) n mca src) w w').
Proof.
  intros Hn. unfold mld_send_query, query_events. do 2 spec_step. destruct (i_upstream n).
  { spec_step. split_and!; try done. by exists n. }
  do 2 spec_step. cbv zeta. rewrite <-send_at_all. spec_step. eapply spec_mono; [by apply sendpacket6_spec| |done]. intros [] w' Hs.
  unfold count_icmp. do 2 spec_step. destruct Hs as (Hex & Hrest). pose proof Hex as (n' & Hn' & _).
  eapply upd_int_spec; [exact Hn'|]. apply sent_alter; done.
Qed.

Lemma mld_send_mquery_spec i n mca (srcs : sources) os w :
  w_ints w !! i = Some n ->
  returns (mld_send_mquery i mca srcs false) os w
    (fun _ w' => sent i n (addrs srcs ≫= (fun a => query_events (w_cfg w) n mca (Some a))) w w').
Proof.
  unfold mld_send_mquery, keys. generalize (live srcs) as l. clear srcs. intros l. revert n w.
  induction l as [|s l IH]; intros n w Hn; csimpl; cbn [for_each]; [spec_step; split_and!; try done; by exists n|].
  spec_step. eapply spec_mono; [by apply mld_send_query_spec| |done]. intros [] w' Hs.
  pose proof Hs as ((n' & Hn' & Hl) & _ & _ & _ & Hc & _).
  eapply spec_mono; [by apply (IH n')| |done]. cbv beta. intros _ w'' Hs'.
  eapply sent_trans; [done|exact Hs|]. eapply (eq_rect _ (fun e => sent i n' e w' w'')); [exact Hs'|].
  rewrite Hc. apply list_bind_ext; [|done]. intros x. by apply query_events_like.
Qed.
