(* ===== verification/Groups.v ===== *)
(** [src/groups.c] and [src/grpint.c]: the groups, the interfaces joined to
    each, and [groupint_get].

    The abstract view of this state is a partial map from a group address and an
    interface index to a [struct grpintnode]: [view]. *)

From S2P Require Import Prelude LinkList Msrc World Interfaces.
#[local] Open Scope Z_scope.

(** * Definitions *)

(** The two allocations; [list_new] returning NULL is dereferenced at once. *)
Definition group_create (mca : in6_addr) : M (option groupnode) :=
  ok ← os_call os_malloc;
  if negb ok then mret None
  else
    ok ← os_call os_malloc;
    if negb ok then crash NullDeref else mret (Some (Group mca [] 0 0 0)).

Definition group_find (mca : in6_addr) : M (option nat) :=
  w ← get; mret (find_idx (fun g => IN6_ARE_ADDR_EQUAL mca (g_mca g)) (w_groups w)).

(** [malloc] does not clear the node: [filter_timer] starts with any value. *)
Definition grpint_create (interface : nat) : M (option grpintnode) :=
  ok ← os_call os_malloc;
  if negb ok then mret None
  else
    garbage ← os_call os_garbage;
    n ← int_at interface;
    ok1 ← os_call os_malloc;
    if negb ok1 then crash NullDeref
    else
      ok2 ← os_call os_malloc;
      if negb ok2 then crash NullDeref
      else mret (Some (Grpint (i_ifindex n) [] [] 1 (u32 garbage))).

Definition grpint_find (l : list grpintnode) (ifindex : Z) : option nat :=
  find_idx (fun g => gi_ifindex g =? ifindex) l.

(** [grpint_refresh] is a stub that returns NULL. *)
Definition grpint_refresh (p : nat * nat) (ipv6 : in6_addr) (mode : Z) : option unit := None.

(** Second half of [groupint_get]: the interface within the group. *)
Definition groupint_interface (g : nat) (interface : nat) (isnew : bool) : M (option (nat * nat) * bool) :=
  (* [if (isnew)] tests the pointer argument, which is never NULL *)
  now ← time;
  _ ← upd_group g (set_lastforward now);
  n ← int_at interface;
  groupn ← group_at g;
  match grpint_find (g_interfaces groupn) (i_ifindex n) with
  | Some i => mret (Some (g, i), isnew)
  | None =>
    created ← grpint_create interface;
    match created with
    | None => mret (None, isnew)
    | Some gi =>
      _ ← upd_group g (fun groupn => set_interfaces (g_interfaces groupn ++ [gi]) groupn);
      mret (Some (g, length (g_interfaces groupn)), isnew)
    end
  end.

Definition groupint_get (mca : in6_addr) (interface : nat) : M (option (nat * nat) * bool) :=
  found ← group_find mca;
  match found with
  | None =>
    created ← group_create mca;
    match created with
    | None => mret (None, false)
    | Some groupn =>
      w ← get;
      _ ← modify (fun w => set_groups (w_groups w ++ [groupn]) w);
      groupint_interface (length (w_groups w)) interface true
    end
  | Some g =>
    now ← time;
    groupn ← group_at g;
    if ECMH_SUBSCRIPTION_TIMEOUT <=? now - g_lastforward groupn then
      _ ← time; (* the argument of the log message *)
      groupint_interface g interface true
    else groupint_interface g interface false
  end.

(** * Invariant *)

Record grpint_wf (g : grpintnode) : Prop := {
  wf_mode : gi_filter_mode g = 1 \/ gi_filter_mode g = 2;
  wf_includes : NoDup (addrs (gi_includes g));
  wf_excludes : NoDup (addrs (gi_excludes g));
  wf_timer : 0 <= gi_filter_timer g < 2 ^ 32 }.

Record group_wf (g : groupnode) : Prop := {
  wf_ifindexes : NoDup (gi_ifindex <$> g_interfaces g);
  wf_grpints : Forall grpint_wf (g_interfaces g) }.

Record groups_wf (gs : list groupnode) : Prop := {
  wf_mcas : NoDup (g_mca <$> gs);
  wf_groups : Forall group_wf gs }.

(** * The abstract view *)

Abbreviation group_by := (find_by g_mca) (only parsing).
Abbreviation grpint_by := (find_by gi_ifindex) (only parsing).
Definition group_view (g : groupnode) (ifindex : Z) : option grpintnode := grpint_by ifindex (g_interfaces g).
Definition view (gs : list groupnode) (mca : in6_addr) (ifindex : Z) : option grpintnode :=
  g ← group_by mca gs; group_view g ifindex.

(** [p] points to the entry of [mca] and [ifindex], which holds [gi]. *)
Definition points_to (gs : list groupnode) (p : nat * nat) (mca : in6_addr) (ifindex : Z) (gi : grpintnode) : Prop :=
  exists groupn, gs !! p.1 = Some groupn /\ g_mca groupn = mca /\
    g_interfaces groupn !! p.2 = Some gi /\ gi_ifindex gi = ifindex.

Lemma group_find_key gs mca : find_idx (fun g => IN6_ARE_ADDR_EQUAL mca (g_mca g)) gs = find_key g_mca mca gs.
Proof. done. Qed.
Lemma grpint_find_key l ifindex : grpint_find l ifindex = find_key gi_ifindex ifindex l.
Proof.
  unfold grpint_find, find_key. induction l as [|g l IH]; [done|]. simpl. rewrite IH.
  by destruct (Z.eqb_spec (gi_ifindex g) ifindex); case_bool_decide.
Qed.

Lemma wf_group gs i g : groups_wf gs -> gs !! i = Some g -> group_wf g.
Proof. intros [_ H] Hi. by eapply Forall_lookup_1. Qed.
Lemma wf_grpint g i gi : group_wf g -> g_interfaces g !! i = Some gi -> grpint_wf gi.
Proof. intros [_ H] Hi. by eapply Forall_lookup_1. Qed.
#[export] Hint Resolve wf_group wf_grpint wf_mcas wf_ifindexes : ecmh.

(** In a well-formed state a pointer is the view of its keys. *)
Lemma points_to_view gs p mca ifx gi : groups_wf gs -> points_to gs p mca ifx gi -> view gs mca ifx = Some gi.
Proof.
  intros Hwf (g & Hg & <- & Hi & <-). unfold view. rewrite (find_by_NoDup _ _ p.1 g); [|eauto with ecmh..].
  simpl. eapply find_by_NoDup; eauto with ecmh.
Qed.
Lemma view_wf gs mca ifx gi : groups_wf gs -> view gs mca ifx = Some gi -> grpint_wf gi /\ gi_ifindex gi = ifx.
Proof.
  intros Hwf (g & [[i Hg]%list_elem_of_lookup _]%find_by_Some & [[j Hj]%list_elem_of_lookup ?]%find_by_Some)%bind_Some.
  split; [eauto with ecmh|done].
Qed.

(** The view after an update of one group, the creation and the removal of one. *)
Lemma view_alter_group gs i g f mca ifx :
  groups_wf gs -> gs !! i = Some g -> (forall g, g_mca (f g) = g_mca g) ->
  view (alter f i gs) mca ifx = if decide (mca = g_mca g) then group_view (f g) ifx else view gs mca ifx.
Proof.
  intros Hwf Hi Hf. unfold view. rewrite (find_by_alter _ _ _ _ _ g) by eauto with ecmh. by case_decide.
Qed.
Lemma view_group gs i g ifx : groups_wf gs -> gs !! i = Some g -> view gs (g_mca g) ifx = group_view g ifx.
Proof. intros. unfold view. by rewrite (find_by_NoDup _ _ i g) by eauto with ecmh. Qed.
Lemma view_snoc gs mca t b p mca' ifx :
  view (gs ++ [Group mca [] t b p]) mca' ifx = view gs mca' ifx.
Proof.
  unfold view. rewrite find_by_app. destruct (group_by mca' gs); [done|]. simpl. by case_decide.
Qed.
Lemma view_delete gs i g mca ifx :
  groups_wf gs -> gs !! i = Some g ->
  view (delete i gs) mca ifx = if decide (mca = g_mca g) then None else view gs mca ifx.
Proof. intros Hwf Hi. unfold view. rewrite (find_by_delete _ _ _ _ g) by eauto with ecmh. by case_decide. Qed.

Lemma group_view_alter g i gi f ifx :
  group_wf g -> g_interfaces g !! i = Some gi -> (forall x, gi_ifindex (f x) = gi_ifindex x) ->
  group_view (set_interfaces (alter f i (g_interfaces g)) g) ifx =
  if decide (ifx = gi_ifindex gi) then Some (f gi) else group_view g ifx.
Proof. intros. apply find_by_alter; eauto with ecmh. Qed.
Lemma group_view_snoc g gi ifx :
  group_view g (gi_ifindex gi) = None ->
  group_view (set_interfaces (g_interfaces g ++ [gi]) g) ifx = if decide (ifx = gi_ifindex gi) then Some gi else group_view g ifx.
Proof.
  unfold group_view. simpl. intros Hn. rewrite find_by_app. case_decide as E; [subst; by rewrite Hn; simpl; rewrite decide_True|].
  destruct (grpint_by ifx (g_interfaces g)); [done|]. simpl. by case_decide.
Qed.
Lemma group_view_delete g i gi ifx :
  group_wf g -> g_interfaces g !! i = Some gi ->
  group_view (set_interfaces (delete i (g_interfaces g)) g) ifx =
  if decide (ifx = gi_ifindex gi) then None else group_view g ifx.
Proof. intros. apply find_by_delete; eauto with ecmh. Qed.

(** ** Preservation of well-formedness by updates *)

Lemma groups_wf_alter gs i f :
  groups_wf gs -> (forall g, g_mca (f g) = g_mca g) -> (forall g, gs !! i = Some g -> group_wf g -> group_wf (f g)) ->
  groups_wf (alter f i gs).
Proof.
  intros [Hm Hg] Hf Hw. split; [by rewrite fmap_key_alter|].
  apply Forall_lookup_2. intros j g. rewrite list_lookup_alter. case_decide as Hij.
  - subst j. intros (g' & Hg' & ->)%fmap_Some. apply Hw; [done|]. by eapply Forall_lookup_1.
  - intros Hj. by eapply Forall_lookup_1.
Qed.

Lemma group_wf_alter g i f :
  group_wf g -> (forall x, gi_ifindex (f x) = gi_ifindex x) ->
  (forall x, g_interfaces g !! i = Some x -> grpint_wf x -> grpint_wf (f x)) ->
  group_wf (set_interfaces (alter f i (g_interfaces g)) g).
Proof.
  intros [Hi Hg] Hf Hw. split; simpl; [by rewrite fmap_key_alter|].
  apply Forall_lookup_2. intros j x. rewrite list_lookup_alter. case_decide as Hij.
  - subst j. intros (x' & Hx & ->)%fmap_Some. apply Hw; [done|]. by eapply Forall_lookup_1.
  - intros Hj. by eapply Forall_lookup_1.
Qed.

Lemma group_wf_same g g' : g_interfaces g' = g_interfaces g -> group_wf g -> group_wf g'.
Proof. intros E [H1 H2]. split; by rewrite E. Qed.

Lemma groups_wf_snoc gs mca t b p :
  groups_wf gs -> group_by mca gs = None -> groups_wf (gs ++ [Group mca [] t b p]).
Proof.
  intros [H1 H2] Hn. split; [apply NoDup_key_snoc; [done|]; by apply find_key_None, find_by_None|]. apply Forall_app. split; [done|].
  apply Forall_singleton. split; simpl; [apply NoDup_nil_2|apply Forall_nil_2].
Qed.

Lemma group_wf_snoc g gi :
  group_wf g -> group_view g (gi_ifindex gi) = None -> grpint_wf gi ->
  group_wf (set_interfaces (g_interfaces g ++ [gi]) g).
Proof.
  intros [H1 H2] Hn Hgi. split; simpl; [apply NoDup_key_snoc; [done|]; by apply find_key_None, find_by_None|]. apply Forall_app. split; [done|by apply Forall_singleton].
Qed.

Lemma group_wf_delete g i : group_wf g -> group_wf (set_interfaces (delete i (g_interfaces g)) g).
Proof. intros [H1 H2]. split; simpl; [by apply NoDup_key_delete|by apply Forall_delete]. Qed.
Lemma groups_wf_delete gs i : groups_wf gs -> groups_wf (delete i gs).
Proof. intros [H1 H2]. split; simpl; [by apply NoDup_key_delete|by apply Forall_delete]. Qed.

(** * [groupint_get] *)

(** What [grpint_create] gives: an INCLUDE entry with no sources. *)
Definition grpint_fresh (ifindex : Z) (gi : grpintnode) : Prop :=
  gi_ifindex gi = ifindex /\ gi_includes gi = [] /\ gi_excludes gi = [] /\ gi_filter_mode gi = 1 /\ 0 <= gi_filter_timer gi < 2 ^ 32.

Lemma grpint_fresh_wf ifx gi : grpint_fresh ifx gi -> grpint_wf gi.
Proof. intros (_ & Hi & He & Hm & Ht). split; [by left| | |done]; rewrite ?Hi, ?He; apply NoDup_nil_2. Qed.

(** The code found or created the entry of a key, and left the other entries alone. *)
Definition got_entry (gs : list groupnode) (mca : in6_addr) (ifx : Z) (r : option (nat * nat)) (gs' : list groupnode) : Prop :=
  groups_wf gs' /\
  (forall m i, m ≠ mca \/ i ≠ ifx -> view gs' m i = view gs m i) /\
  match r with
  | Some p => exists gi, points_to gs' p mca ifx gi /\
      (view gs mca ifx = Some gi \/ view gs mca ifx = None /\ grpint_fresh ifx gi)
  | None => view gs' mca ifx = view gs mca ifx
  end.

Definition out_of_memory (os : OS) : Prop := exists t, os_malloc os t = false.

Lemma grpint_create_spec interface n os w :
  w_ints w !! interface = Some n ->
  spec (grpint_create interface) os w
    (fun r w' => w_groups w' = w_groups w /\ w_ints w' = w_ints w /\
       match r with Some gi => grpint_fresh (i_ifindex n) gi | None => out_of_memory os end)
    (fun f w' => f = NullDeref /\ w_groups w' = w_groups w /\ out_of_memory os).
Proof.
  intros Hn. unfold grpint_create, out_of_memory. repeat spec_step; split_and!; try done; try (eexists; by apply negb_true_iff).
  unfold grpint_fresh. simpl. split_and!; try done; apply u32_range.
Qed.

Lemma groupint_interface_spec g interface isnew n mca groupn os w :
  groups_wf (w_groups w) -> w_ints w !! interface = Some n -> w_groups w !! g = Some groupn -> g_mca groupn = mca ->
  spec (groupint_interface g interface isnew) os w
    (fun r w' => got_entry (w_groups w) mca (i_ifindex n) r.1 (w_groups w') /\ w_ints w' = w_ints w /\
       r.2 = isnew /\ (r.1 = None -> out_of_memory os))
    (fun f w' => f = NullDeref /\ groups_wf (w_groups w') /\ out_of_memory os).
Proof.
  intros Hwf Hn Hg <-. unfold groupint_interface. do 2 spec_step.
  set (f := set_lastforward _).
  assert (Hwf' : groups_wf (alter f g (w_groups w))).
  { apply groups_wf_alter; [done..|]. intros x _. by apply group_wf_same. }
  assert (Hv : forall m i, view (alter f g (w_groups w)) m i = view (w_groups w) m i).
  { intros m i. rewrite (view_alter_group _ _ _ _ _ _ Hwf Hg) by done. case_decide as E; [subst|done].
    symmetry. by rewrite (view_group _ _ _ _ Hwf Hg). }
  assert (Hg' : alter f g (w_groups w) !! g = Some (f groupn)) by by rewrite list_lookup_alter_eq, Hg.
  spec_step. eapply upd_group_spec; [exact Hg|]. do 2 spec_step. spec_step. eapply group_at_spec; [exact Hg'|].
  rewrite grpint_find_key. destruct (find_key _ _ _) as [i|] eqn:Hi.
  - spec_step. split_and!; try done. split_and!; [done|by auto|].
    apply find_key_Some in Hi as (gi & Hi & Hk). exists gi.
    assert (Hp : points_to (alter f g (w_groups w)) (g, i) (g_mca groupn) (i_ifindex n) gi) by (by exists (f groupn)).
    split; [done|left]. rewrite <-Hv. by eapply points_to_view.
  - spec_step. eapply spec_mono; [by apply grpint_create_spec| |].
    2: { cbv beta. intros ? w' (-> & -> & ?). done. }
    cbv beta. intros [gi|] w' (E1 & E2 & Hr).
    2: { spec_step. rewrite E1. split_and!; [|done..]. split_and!; [done|by auto|]. apply Hv. }
    spec_step. eapply upd_group_spec; [by rewrite E1|]. spec_step. simpl. rewrite E1. simpl.
    set (f' := fun x => set_interfaces _ x).
    pose proof (grpint_fresh_wf _ _ Hr) as Hgi. pose proof Hr as (Ek & _).
    assert (Hnone : group_view (f groupn) (gi_ifindex gi) = None).
    { rewrite Ek. by apply find_by_None, find_key_None. }
    assert (Hfg : group_view (f' (f groupn)) (i_ifindex n) = Some gi).
    { unfold f'. rewrite group_view_snoc by done. by rewrite Ek, decide_True. }
    assert (Hwf2 : groups_wf (alter f' g (alter f g (w_groups w)))).
    { apply groups_wf_alter; [done|done|]. rewrite Hg'. intros ? [= <-] Hfw. by apply group_wf_snoc. }
    split_and!; try done. split_and!; [done| |].
    + intros m i Hne. rewrite (view_alter_group _ _ _ _ _ _ Hwf' Hg'), <-Hv by done.
      case_decide as E; [subst m|done]. rewrite (view_group _ _ _ _ Hwf' Hg'). unfold f'.
      rewrite group_view_snoc by done. rewrite decide_False; [done|]. rewrite Ek. naive_solver.
    + exists gi. split.
      * exists (f' (f groupn)). split_and!; [by rewrite list_lookup_alter_eq, Hg'|done| |done].
        simpl. by rewrite lookup_app_r, Nat.sub_diag by done.
      * right. split; [|done]. rewrite <-Hv, (view_group _ _ _ _ Hwf' Hg'). rewrite <-Ek. done.
Qed.

(** [groupint_get] returns the entry of the group on the interface, creating it
    when there is none; every other entry stays, and the state stays well formed.  It fails, or
    dereferences NULL, only when an allocation fails. *)
Theorem groupint_get_spec mca interface n os w :
  groups_wf (w_groups w) -> w_ints w !! interface = Some n ->
  spec (groupint_get mca interface) os w
    (fun r w' => got_entry (w_groups w) mca (i_ifindex n) r.1 (w_groups w') /\ w_ints w' = w_ints w /\
       (r.1 = None -> out_of_memory os))
    (fun f w' => f = NullDeref /\ groups_wf (w_groups w') /\ out_of_memory os).
Proof.
  intros Hwf Hn. unfold groupint_get, group_find. do 4 spec_step. rewrite group_find_key.
  destruct (find_key _ _ _) as [g|] eqn:Hg.
  - pose proof (find_key_Some _ _ _ _ Hg) as (groupn & Hl & Hm). do 2 spec_step. spec_step. eapply group_at_spec; [exact Hl|].
    case_match; [do 2 spec_step|]; (eapply spec_mono; [by eapply groupint_interface_spec|cbv beta; tauto|done]).
  - unfold group_create. apply find_key_None, find_by_None in Hg.
    assert (Hoom : forall t, negb (os_malloc os t) = true -> out_of_memory os) by (intros t ?%negb_true_iff; by exists t).
    do 2 spec_step. do 2 spec_step; [spec_step; split_and!; [|done|by eauto]; by split_and!|].
    do 2 spec_step. spec_step; [spec_step; split_and!; by eauto|]. do 5 spec_step. eapply spec_mono.
    { eapply (groupint_interface_spec _ _ _ n mca (Group mca [] 0 0 0)); simpl; [by apply groups_wf_snoc|done| |done].
      by rewrite lookup_app_r, Nat.sub_diag. }
    2: done.
    cbv beta. simpl. intros r w' ((Hw & Hv & Hr) & Hi & _ & Ho). split_and!; [|done..]. split_and!; [done| |].
    + intros m i Hne. rewrite Hv by done. apply view_snoc.
    + destruct r.1 as [p|]; rewrite view_snoc in Hr; done.
Qed.

(** ** Frames: the clock and the groups are all that changes *)

Section frames.
Context (R : world -> world -> Prop) `{!PreOrder R}.
Context (R_tick : forall n w, R w (set_os n (w_trace w) w)) (R_groups : forall f w, R w (set_groups (f (w_groups w)) w)).

Hint Extern 1 (rel R (os_call _)) => apply rel_tick; assumption : core.
Hint Extern 1 (rel R time) => apply rel_tick; assumption : core.

Lemma rel_upd_group g f : rel R (upd_group g f).
Proof.
  unfold upd_group. rel_auto. apply rel_modify. intros w. apply (R_groups (fun gs => alter f g gs)).
Qed.
Lemma rel_upd_grpint p f : rel R (upd_grpint p f).
Proof. unfold upd_grpint. rel_auto. apply rel_upd_group. Qed.
Lemma rel_groupint_get mca i : rel R (groupint_get mca i).
Proof.
  pose proof rel_upd_group. unfold groupint_get, groupint_interface, group_find, group_create, grpint_create.
  rel_auto; auto; apply rel_modify; intros w; apply (R_groups (fun gs => gs ++ [_])).
Qed.
End frames.
