(* ===== verification/Samples.v ===== *)
(** A small concrete system, on which the hypotheses of the theorems are shown to hold:
    an upstream interface [eth1], two downstream ones [eth2] and [eth3], and one group. *)

From S2P Require Import Prelude LinkList Msrc World Groups.
From stdpp Require Import strings.
#[local] Open Scope Z_scope.

(** A system that answers every request, its clock standing at 1000. *)
Definition sample_os : OS := {|
  os_time := fun _ => 1000; os_malloc := fun _ => true; os_garbage := fun _ => 7; os_sendto := fun _ => SendOk;
  os_socket := fun _ => 5; os_setsockopt := fun _ => 0;
  os_if_name := fun _ i => if i =? 1 then Some "eth1"%string else if i =? 2 then Some "eth2"%string else None;
  os_if_mtu := fun _ _ => Some 1500; os_if_hwfamily := fun _ _ => Some 1;
  os_getifaddrs := fun _ => None; os_recvfrom := fun _ => None;
  os_fork := fun _ => 0; os_fopen := fun _ => true |}.

Definition linklocal (i : Z) : in6_addr := [254; 128] ++ replicate 13 0 ++ [i].
Definition global (i : Z) : in6_addr := [32; 1; 13; 184] ++ replicate 11 0 ++ [i].
Definition sample_mca : in6_addr := [255; 62] ++ replicate 13 0 ++ [1].

Definition eth (i : Z) (name : string) (up : bool) : intnode :=
  Intnode i name 1500 0 0 1 (linklocal i) (global i) stats_zero up (negb up) 0.
Definition eth1 : intnode := eth 1 "eth1" true.
Definition eth2 : intnode := eth 2 "eth2" false.
Definition eth3 : intnode := eth 3 "eth3" false.

Definition src (i : Z) : in6_addr := global (100 + i).
(** INCLUDE of two sources, and EXCLUDE of one with another one requested. *)
Definition include_entry (i : Z) : grpintnode := Grpint i [Some (Msrc (src 1) 1100); Some (Msrc (src 2) 1100)] [] 1 0.
Definition exclude_entry (i : Z) : grpintnode := Grpint i [Some (Msrc (src 1) 1100)] [Some (Msrc (src 3) 0)] 2 1100.

Definition sample_cfg : config := Config (Some "eth1"%string) (Some "eth2"%string) false false false false true false 32768.
Definition sample_world (gis : list grpintnode) (routes : list kernel_route6) (buffer : list Z) : world :=
  World sample_cfg [intnode_zero; eth1; eth2; eth3] [Group sample_mca gis 1000 0 0] (Some routes)
    1 2 5 stats_zero 0 1000 0 900 false false buffer 0 [].

(** A proposition that computes to [true]. *)
Ltac by_compute := vm_compute; (reflexivity || (intros; congruence) || exact I).

Lemma include_entry_wf i : grpint_wf (include_entry i).
Proof. split; [by left| | |done]; apply (bool_decide_unpack _); by vm_compute. Qed.
Lemma exclude_entry_wf i : grpint_wf (exclude_entry i).
Proof. split; [by right| | |done]; apply (bool_decide_unpack _); by vm_compute. Qed.
#[export] Hint Resolve include_entry_wf exclude_entry_wf : ecmh.

Lemma sample_groups_wf gis routes buffer :
  NoDup (gi_ifindex <$> gis) -> Forall grpint_wf gis -> groups_wf (w_groups (sample_world gis routes buffer)).
Proof. intros. split; simpl; [apply NoDup_singleton|apply Forall_singleton; by split]. Qed.
