(* ===== verification/Routing.v ===== *)
(** The two kernel interfaces behind a change of subscription: multicast
    source filters on the upstream interface ([src/mcast_client.c] and
    [handle_upstream_subscription] of [src/mld2_logic.c]) and the multicast forwarding
    cache ([src/kernel_routing.c]). *)

From S2P Require Import Prelude LinkList Msrc World Interfaces Groups.
#[local] Open Scope Z_scope.

(** * [src/mcast_client.c] *)

(** Both failures return -1, which no caller looks at. *)
Definition setsourcefilter (s interface : Z) (group : in6_addr) (fmode : Z) (slist : list (option in6_addr)) : M unit :=
  ok ← os_call os_malloc;
  if negb ok then mret tt
  else
    _ ← emit (EvMsFilter s interface group fmode slist);
    _ ← os_call os_setsockopt;
    mret tt.

Definition mcast_socket_create6 : M Z :=
  fd ← os_call os_socket;
  if fd =? -1 then mret (-1) else _ ← emit (EvSocket fd); mret fd.

Definition mcast_join_group (socket ifindex : Z) (group : in6_addr) : M unit :=
  _ ← emit (EvJoinGroup socket ifindex group);
  _ ← os_call os_setsockopt;
  mret tt.

(** The array has a slot per list node; [i] advances for the non-NULL ones
    only, so the slots left over at the end keep their zero bytes. *)
Definition filter_slots (src_list : sources) : list (option in6_addr) :=
  (Some <$> (s_addr <$> live src_list)) ++ replicate (length src_list - length (live src_list)) None.

Definition mcast_set_filter (socket ifindex : Z) (mca : in6_addr) (filter_mode : Z) (src_list : sources) : M unit :=
  match src_list with
  | [] => mret tt
  | _ =>
    ok ← os_call os_malloc;
    if negb ok then mret tt
    else setsourcefilter socket ifindex mca filter_mode (filter_slots src_list)
  end.

(** * [src/kernel_routing.c] *)

(** The body of [check_route] for one interface of the group; [None] is [continue]. *)
Definition check_grpint (grpintn : grpintnode) (ifindex : Z) (src : in6_addr) : M (option bool) :=
  if negb (gi_ifindex grpintn =? ifindex) then mret None
  else if gi_filter_mode grpintn =? MLD2_MODE_IS_INCLUDE then
    if negb (list_isempty (gi_includes grpintn)) then
      mret (if src_hasmember (gi_includes grpintn) src then Some true else None)
    else mret (Some false)
  else
    now ← time;
    (* [now] is a [uint32_t] *)
    if gi_filter_timer grpintn <=? u32 now then mret (Some false)
    else if negb (list_isempty (gi_excludes grpintn)) && (if src_hasmember (gi_excludes grpintn) src then true else false)
    then mret (Some false)
    else mret (Some true).

Fixpoint check_grpints (l : list grpintnode) (ifindex : Z) (src : in6_addr) : M (option bool) :=
  match l with
  | [] => mret None
  | grpintn :: l =>
    r ← check_grpint grpintn ifindex src;
    match (r : option bool) with Some b => mret (Some b) | None => check_grpints l ifindex src end
  end.

Fixpoint check_groups (l : list groupnode) (ifindex : Z) (src grp : in6_addr) : M bool :=
  match l with
  | [] => mret false
  | groupn :: l =>
    if negb (IN6_ARE_ADDR_EQUAL grp (g_mca groupn)) then check_groups l ifindex src grp
    else
      r ← check_grpints (g_interfaces groupn) ifindex src;
      match (r : option bool) with Some b => mret b | None => check_groups l ifindex src grp end
  end.

Definition check_route (ifindex : Z) (src grp : in6_addr) : M bool :=
  w ← get; check_groups (w_groups w) ifindex src grp.

(** [MRT6_ADD_MFC] and [MRT6_DEL_MFC] for parent interface [vif]. *)
Definition mrouter6_changeroute (mrouter_s6 vif : Z) (src dst : in6_addr) (add : bool) : M Z :=
  _ ← emit (EvMfc add mrouter_s6 vif src dst); os_call os_setsockopt.
Definition mrouter6_add_route mrouter_s6 vif src dst : M Z := mrouter6_changeroute mrouter_s6 vif src dst true.
Definition mrouter6_del_route mrouter_s6 vif src dst : M Z := mrouter6_changeroute mrouter_s6 vif src dst false.

(** [routes] is NULL until [mrouter_init] has run. *)
Definition get_routes : M (list kernel_route6) :=
  w ← get; match w_routes w with Some l => mret l | None => crash NullDeref end.

Definition save_route (vif : Z) (src dst : in6_addr) : M unit :=
  ok ← os_call os_malloc;
  if negb ok then mret tt
  else
    l ← get_routes;
    ok ← os_call os_malloc; (* the node *)
    when ok (modify (set_routes (Some (l ++ [Route src dst vif])))).

Definition route_is (vif : Z) (src dst : in6_addr) (route : kernel_route6) : bool :=
  IN6_ARE_ADDR_EQUAL (r_src route) src && IN6_ARE_ADDR_EQUAL (r_grp route) dst && (r_parent route =? vif).
Definition have_route (vif : Z) (src dst : in6_addr) : M bool :=
  l ← get_routes; mret (existsb (route_is vif src dst) l).

(** After a deletion [ln] is the next node already, and the loop advances once
    more: the node that follows a deleted one is not looked at. *)
Fixpoint expire_loop (fd downstream_id : Z) (l : list kernel_route6) : M (list kernel_route6) :=
  match l with
  | [] => mret []
  | route :: l =>
    wanted ← check_route downstream_id (r_src route) (r_grp route);
    if (wanted : bool) then rest ← expire_loop fd downstream_id l; mret (route :: rest)
    else
      _ ← mrouter6_del_route fd 0 (r_src route) (r_grp route);
      match l with
      | [] => mret []
      | skipped :: l => rest ← expire_loop fd downstream_id l; mret (skipped :: rest)
      end
  end.

Definition expire_routes (fd : Z) : M unit :=
  w ← get;
  l ← get_routes;
  l' ← expire_loop fd (w_downstream_id w) l;
  modify (set_routes (Some l')).

(** The list is allocated before the socket is opened. When [MRT6_INIT] fails the list is
    freed and [routes] left dangling; like NULL, it then faults at the next use. *)
Definition mrouter_init : M Z :=
  ok ← os_call os_malloc;
  if negb ok then _ ← modify (set_routes None); mret (-1)
  else
    _ ← modify (set_routes (Some []));
    fd ← os_call os_socket;
    _ ← emit (EvMrouterInit fd);
    r ← os_call os_setsockopt;
    if r =? -1 then _ ← modify (set_routes None); mret (-1) else mret fd.

Definition mrouter6_addmif (mrouter_s6 mif pif : Z) : M Z :=
  _ ← emit (EvMif true mrouter_s6 mif pif); os_call os_setsockopt.
Definition mrouter6_delmif (mrouter_s6 mif : Z) : M Z :=
  _ ← emit (EvMif false mrouter_s6 mif 0); os_call os_setsockopt.

(** The fields of [struct mrt6msg] in the buffer [recvmsg] fills. *)
Definition upcall_mif (buf : list Z) : Z := le16_load (default 0 (buf !! 2%nat)) (default 0 (buf !! 3%nat)).
Definition upcall_src (buf : list Z) : in6_addr := take 16 (drop 8 buf).
Definition upcall_dst (buf : list Z) : in6_addr := take 16 (drop 24 buf).

Definition unroutable_mca (mca : in6_addr) : bool :=
  negb (IN6_IS_ADDR_MULTICAST mca) || IN6_IS_ADDR_MC_NODELOCAL mca || IN6_IS_ADDR_MC_LINKLOCAL mca.

Definition mrouter6_handlesocket (fd : Z) (buf : list Z) : M unit :=
  if negb (default 0 (head buf) =? 0) then mret tt
  else if unroutable_mca (upcall_dst buf) then mret tt
  else
    w ← get;
    wanted ← (if upcall_mif buf =? 0 then check_route (w_downstream_id w) (upcall_src buf) (upcall_dst buf) else mret false);
    when wanted
      (res ← mrouter6_add_route fd 0 (upcall_src buf) (upcall_dst buf);
       when (res =? 0)
         (have ← have_route 0 (upcall_src buf) (upcall_dst buf);
          when (negb have) (save_route 0 (upcall_src buf) (upcall_dst buf)))).

(** * [handle_upstream_subscription] *)

(** The body of the two loops: [sock] is the local [upstream_socket], zero while none was opened. *)
Definition upstream_grpint (intn : nat) (mca : in6_addr) (sock : Z) (grpintn : grpintnode) : M Z :=
  w ← get;
  n ← int_at intn;
  if negb (gi_ifindex grpintn =? i_ifindex n) then mret sock
  else
    let is_include := gi_filter_mode grpintn =? MLD2_MODE_IS_INCLUDE in
    let srcs := if is_include then gi_includes grpintn else gi_excludes grpintn in
    if (Nat.eqb (length srcs) 0) && is_include then mret sock
    else
      sock ← (if sock =? 0 then
                fd ← mcast_socket_create6;
                _ ← upd_int intn (set_upstream_socket fd);
                mret fd
              else mret sock);
      _ ← mcast_join_group sock (w_upstream_id w) mca;
      _ ← mcast_set_filter sock (w_upstream_id w) mca (gi_filter_mode grpintn) srcs;
      mret sock.

Fixpoint upstream_grpints (intn : nat) (mca : in6_addr) (sock : Z) (l : list grpintnode) : M Z :=
  match l with
  | [] => mret sock
  | grpintn :: l => sock ← upstream_grpint intn mca sock grpintn; upstream_grpints intn mca sock l
  end.

Fixpoint upstream_groups (intn : nat) (sock : Z) (l : list groupnode) : M Z :=
  match l with
  | [] => mret sock
  | groupn :: l => sock ← upstream_grpints intn (g_mca groupn) sock (g_interfaces groupn); upstream_groups intn sock l
  end.

(** [intn] is NULL when the [int_find] of the caller found nothing. *)
Definition handle_upstream_subscription (intn : option nat) : M unit :=
  match intn with
  | None => crash NullDeref
  | Some intn =>
    n ← int_at intn;
    let old_upstream_socket := i_upstream_socket n in
    _ ← upd_int intn (set_upstream_socket 0);
    w ← get;
    _ ← upstream_groups intn 0 (w_groups w);
    _ ← when (negb (old_upstream_socket =? 0)) (emit (EvClose old_upstream_socket));
    w ← get;
    expire_routes (w_mr6_fd w)
  end.

(** * What [check_route] decides *)

(** RFC 3810 forwarding for a router that has state [gi] for the group. *)
Definition wants (gi : option grpintnode) (now : Z) (src : in6_addr) : bool :=
  match gi with
  | None => false
  | Some gi =>
    if gi_filter_mode gi =? MLD2_MODE_IS_INCLUDE then bool_decide (src ∈ addrs (gi_includes gi))
    else (u32 now <? gi_filter_timer gi) && negb (bool_decide (src ∈ addrs (gi_excludes gi)))
  end.

Lemma hasmember_addrs (l : sources) src : (if src_hasmember l src then true else false) = bool_decide (src ∈ addrs l).
Proof.
  pose proof (member_addrs l (Msrc src 0)) as H. unfold is_member in H. simpl in H. rewrite <-H.
  unfold src_hasmember. by destruct (list_hasmember _ _ _).
Qed.
Lemma hasmember_not_nil (l : sources) src :
  negb (list_isempty l) && (if src_hasmember l src then true else false) = bool_decide (src ∈ addrs l).
Proof. rewrite hasmember_addrs. by destruct l. Qed.

(** Only the clock ticks. *)
Definition ticked (w w' : world) : Prop := exists n, w' = set_os n (w_trace w) w.
#[export] Instance ticked_preorder : PreOrder ticked.
Proof.
  split; [by intros w; exists (w_tick w); destruct w|]. intros w1 w2 w3 [n ->] [m ->]. by exists m.
Qed.

(** A check that answers [v]; a [false] answer may be left to the end of the search ([None]),
    which must be so when [v] is [None]. *)
Definition answers (w : world) (v : option bool) (r : option bool) (w' : world) : Prop :=
  ticked w w' /\ (r = None -> w' = w) /\ match v with Some b => default false r = b | None => r = None end.

Lemma check_grpint_spec gi ifx src os w :
  returns (check_grpint gi ifx src) os w
    (answers w (if decide (gi_ifindex gi = ifx) then Some (wants (Some gi) (os_time os (w_tick w)) src) else None)).
Proof.
  unfold check_grpint, wants, answers. destruct (Z.eqb_spec (gi_ifindex gi) ifx) as [Hi|Hi]; simpl; case_decide; try done.
  destruct (gi_filter_mode gi =? _).
  - rewrite <-hasmember_not_nil. destruct (negb _); [|by spec_step]. spec_step.
    split_and!; [done|done|]. simpl. by destruct (src_hasmember _ _).
  - do 2 spec_step. rewrite hasmember_not_nil. destruct (Z.leb_spec (gi_filter_timer gi) (u32 (os_time os (w_tick w)))) as [Hlt|Hlt].
    + spec_step. split_and!; [by eexists|done|]. simpl. by rewrite (proj2 (Z.ltb_ge _ _) Hlt).
    + rewrite (proj2 (Z.ltb_lt _ _) Hlt). simpl. spec_step; spec_step; (split_and!; [by eexists|done|done]).
Qed.

Lemma check_grpints_spec l ifx src os w :
  NoDup (gi_ifindex <$> l) ->
  returns (check_grpints l ifx src) os w
    (answers w (Some (wants (find_by gi_ifindex ifx l) (os_time os (w_tick w)) src))).
Proof.
  induction l as [|gi l IH]; csimpl; [done|]. intros [Hn Hnd]%NoDup_cons.
  spec_step. eapply spec_mono; [apply check_grpint_spec| |done]. intros r w' (Ht & He & Hr).
  case_decide as Hi.
  - destruct r as [b|]; [by spec_step|]. rewrite (He eq_refl).
    assert (find_by gi_ifindex ifx l = None) as Hnone by (apply find_by_None; by rewrite <-Hi).
    eapply spec_mono; [by apply IH| |done]. rewrite Hnone. intros r2 w2 (? & ? & Hr2). by split_and!; [..|rewrite Hr2].
  - subst r. rewrite (He eq_refl). by apply IH.
Qed.

Lemma check_groups_spec gs ifx src grp os w :
  groups_wf gs ->
  returns (check_groups gs ifx src grp) os w (fun b w' => ticked w w' /\
    b = wants (view gs grp ifx) (os_time os (w_tick w)) src).
Proof.
  intros [Hm Hg]. unfold view. induction gs as [|g gs IH]; csimpl in *; [done|].
  apply NoDup_cons in Hm as [Hn Hnd]. apply Forall_cons in Hg as [[Hi _] Hg].
  unfold IN6_ARE_ADDR_EQUAL. case_bool_decide as E; simpl.
  - rewrite decide_True by done. simpl. unfold group_view. spec_step.
    eapply spec_mono; [by apply check_grpints_spec| |done]. intros r w' (Ht & He & <-).
    destruct r as [b|]; [by spec_step|]. rewrite (He eq_refl).
    assert (find_by g_mca grp gs = None) as Hnone by (apply find_by_None; by rewrite E).
    eapply spec_mono; [by apply IH| |done]. cbv beta. rewrite Hnone. done.
  - rewrite decide_False by done. by apply IH.
Qed.

(** [check_route] tells whether the filter state of the group on the interface
    accepts the source at the time of the call. *)
Theorem check_route_spec ifx src grp os w :
  groups_wf (w_groups w) ->
  returns (check_route ifx src grp) os w (fun b w' => ticked w w' /\
    b = wants (view (w_groups w) grp ifx) (os_time os (w_tick w)) src).
Proof. intros H. unfold check_route. do 2 spec_step. by apply check_groups_spec. Qed.

(** * What [expire_routes] deletes *)

(** No two neighbours satisfy [f]. *)
Fixpoint isolated {A} (f : A -> bool) (l : list A) : Prop :=
  match l with
  | x :: ((y :: _) as l') => (f x = true -> f y = false) /\ isolated f l'
  | _ => True
  end.

Lemma isolated_ext {A} (f g : A -> bool) l : (forall x, g x = f x) -> isolated f l -> isolated g l.
Proof. intros E. induction l as [|x [|y l] IH]; [done|done|]. intros [H1 H2]. split; [rewrite !E; exact H1|by apply IH]. Qed.

Definition wants_route (w : world) (now : Z) (r : kernel_route6) : bool :=
  wants (view (w_groups w) (r_grp r) (w_downstream_id w)) now (r_src r).
(** The route is wanted at every time of the run. *)
Definition route_wanted (os : OS) (w : world) (r : kernel_route6) : Prop :=
  forall t, wants_route w (os_time os t) r = true.

Definition mfc_delete (e : event) : Prop := match e with EvMfc false _ _ _ _ => True | _ => False end.

(** Only the clock and the trace change, the trace by deletions of kernel routes. *)
Definition routed (w w' : world) : Prop := exists n t, w' = set_os n (t ++ w_trace w) w /\ Forall mfc_delete t.
#[export] Instance routed_preorder : PreOrder routed.
Proof.
  split; [by intros w; exists (w_tick w), []; destruct w|].
  intros ??? (n & t & -> & Ht) (n' & t' & -> & Ht'). exists n', (t' ++ t). rewrite <-app_assoc. split; [done|by apply Forall_app].
Qed.
Lemma ticked_routed w w' : ticked w w' -> routed w w'.
Proof. intros [n ->]. by exists n, []. Qed.

Lemma del_route_spec fd v s g os w (Q : Z -> world -> Prop) E :
  (forall r w', routed w w' -> Q r w') -> spec (mrouter6_del_route fd v s g) os w Q E.
Proof. intros HQ. unfold mrouter6_del_route, mrouter6_changeroute. do 3 spec_step. apply HQ.
  exists (S (w_tick w)), [EvMfc false fd v s g]. split; [done|by apply Forall_singleton].
Qed.

Section expire.
Context (os : OS) (fd : Z).

Lemma routed_eq w w' : routed w w' -> exists n t, w' = set_os n t w.
Proof. intros (n & t & -> & _). by exists n, (t ++ w_trace w). Qed.

(** The rule for one round: a wanted route is kept; an unwanted one is dropped and the next kept unseen. *)
Lemma expire_step r l w (Q : list kernel_route6 -> world -> Prop) :
  groups_wf (w_groups w) ->
  (forall w', routed w w' ->
    if wants (view (w_groups w) (r_grp r) (w_downstream_id w)) (os_time os (w_tick w)) (r_src r)
    then returns (expire_loop fd (w_downstream_id w) l) os w' (fun l' w'' => Q (r :: l') w'')
    else match l with
         | [] => Q [] w'
         | s :: l => returns (expire_loop fd (w_downstream_id w) l) os w' (fun l' w'' => Q (s :: l') w'')
         end) ->
  returns (expire_loop fd (w_downstream_id w) (r :: l)) os w Q.
Proof.
  intros Hwf H. cbn [expire_loop]. spec_step. eapply spec_mono; [by apply check_route_spec| |done].
  cbv beta. intros b w' [Ht%ticked_routed ->]. destruct (wants _ _ _).
  - spec_step. eapply spec_mono; [by apply H|by intros; spec_step|done].
  - spec_step. apply del_route_spec. intros _ w'' Hr. assert (Hr' : routed w w'') by by etrans.
    specialize (H w'' Hr'). destruct l as [|s l]; [by spec_step|].
    spec_step. eapply spec_mono; [exact H|by intros; spec_step|done].
Qed.

Lemma expire_loop_keeps n l w :
  (length l < n)%nat -> groups_wf (w_groups w) ->
  returns (expire_loop fd (w_downstream_id w) l) os w (fun l' w' =>
    routed w w' /\ l' `sublist_of` l /\ forall r, r ∈ l -> route_wanted os w r -> r ∈ l').
Proof.
  revert l w. induction n as [|n IH]; intros l w Hl Hwf; [lia|].
  destruct l as [|r l]; [cbn [expire_loop]; spec_step; by split_and!|]. simpl in Hl. apply expire_step; [done|]. intros w' Hr.
  destruct (wants _ _ _) eqn:Hw.
  - destruct (routed_eq _ _ Hr) as (t & tr & ->). eapply spec_mono; [by apply (IH l (set_os t tr w)); [lia|]| |done].
    cbv beta. intros l' w' (Hr' & Hs & Hk). split_and!.
    + by etrans.
    + by apply sublist_skip.
    + intros r'. rewrite !elem_of_cons. naive_solver.
  - destruct l as [|s l].
    + split_and!; [done|by apply sublist_nil_l|]. intros r' ->%list_elem_of_singleton Hr'. specialize (Hr' (w_tick w)). unfold wants_route in Hr'. congruence.
    + destruct (routed_eq _ _ Hr) as (t & tr & ->). simpl in Hl. eapply spec_mono; [by apply (IH l (set_os t tr w)); [lia|]| |done].
      cbv beta. intros l' w' (Hr' & Hs & Hk). split_and!.
      * by etrans.
      * by apply sublist_cons, sublist_skip.
      * intros r'. rewrite !elem_of_cons. intros [->|[->|?]] Hrw; [|by left|by right; apply Hk].
        specialize (Hrw (w_tick w)). unfold wants_route in Hrw. congruence.
Qed.

(** When the clock stands still and no two neighbours are unwanted, exactly the unwanted routes go. *)
Lemma expire_loop_exact now n l w :
  (forall t, os_time os t = now) -> (length l < n)%nat -> groups_wf (w_groups w) ->
  isolated (fun r => negb (wants_route w now r)) l ->
  returns (expire_loop fd (w_downstream_id w) l) os w (fun l' w' => routed w w' /\ l' = filter (wants_route w now) l).
Proof.
  intros Hnow. revert l w. induction n as [|n IH]; intros l w Hl Hwf Hiso; [lia|].
  destruct l as [|r l]; [cbn [expire_loop]; by spec_step|]. simpl in Hl. apply expire_step; [done|]. intros w' Hr. rewrite Hnow.
  rewrite filter_cons. change (wants _ _ _) with (wants_route w now r). destruct (wants_route w now r) eqn:Hw; simpl.
  - destruct (routed_eq _ _ Hr) as (t & tr & ->). eapply spec_mono; [apply (IH l (set_os t tr w)); [lia|done|]| |done].
    + by destruct l; [|apply Hiso].
    + cbv beta. intros l' w' [Hr' ->]. split; [|done]. by etrans.
  - destruct l as [|s l]; [done|]. destruct Hiso as [H1 H2].
    assert (Hs : wants_route w now s = true) by (apply negb_false_iff, H1; by rewrite Hw).
    destruct (routed_eq _ _ Hr) as (t & tr & ->). simpl in Hl. eapply spec_mono; [apply (IH l (set_os t tr w)); [lia|done|]| |done].
    + by destruct l; [|apply H2].
    + cbv beta. intros l' w' [Hr' ->]. rewrite filter_cons, Hs. split; [|done]. by etrans.
Qed.
End expire.

(** [expire_routes] keeps every route the downstream interface still wants and invents
    none; when the clock stands still and unwanted routes have no unwanted neighbour,
    exactly the unwanted ones are deleted. *)
Theorem expire_routes_spec fd l os w :
  groups_wf (w_groups w) -> w_routes w = Some l ->
  returns (expire_routes fd) os w (fun _ w' =>
    exists n t l', w' = set_routes (Some l') (set_os n (t ++ w_trace w) w) /\ Forall mfc_delete t /\ l' `sublist_of` l /\
      (forall r, r ∈ l -> route_wanted os w r -> r ∈ l') /\
      (forall now, (forall t, os_time os t = now) -> isolated (fun r => negb (wants_route w now r)) l ->
         l' = filter (wants_route w now) l)).
Proof.
  intros Hwf Hl. unfold expire_routes, get_routes. do 5 spec_step. rewrite Hl. do 2 spec_step.
  assert (H : returns (expire_loop fd (w_downstream_id w) l) os w (fun l' w' => routed w w' /\ l' `sublist_of` l /\
      (forall r, r ∈ l -> route_wanted os w r -> r ∈ l') /\
      (forall now, (forall t, os_time os t = now) -> isolated (fun r => negb (wants_route w now r)) l ->
         l' = filter (wants_route w now) l))).
  { pose proof (expire_loop_keeps os fd (S (length l)) l w ltac:(lia) Hwf) as H1.
    unfold spec in *. destruct (expire_loop _ _ _ _ _) as [l' w'|] eqn:E; [|done].
    destruct H1 as (? & ? & ?). split_and!; [done..|]. intros now Hnow Hiso.
    pose proof (expire_loop_exact os fd now (S (length l)) l w Hnow ltac:(lia) Hwf Hiso) as H2.
    unfold spec in H2. rewrite E in H2. apply H2. }
  eapply spec_mono; [exact H| |done]. cbv beta. intros l' w' ((n & t & -> & ?) & ? & ? & ?). spec_step. by exists n, t, l'.
Qed.

(** Each route that leaves the list is deleted from the kernel, once, in the order of the list; the others stay. *)
Definition route_deletion (fd : Z) (r : kernel_route6) : event := EvMfc false fd 0 (r_src r) (r_grp r).
Lemma expire_loop_events os fd n : forall l w, (length l < n)%nat -> groups_wf (w_groups w) ->
  returns (expire_loop fd (w_downstream_id w) l) os w (fun l' w' => exists gone, l ≡ₚ l' ++ gone /\
    w_trace w' = rev (route_deletion fd <$> gone) ++ w_trace w).
Proof.
  induction n as [|n IH]; intros l w Hl Hwf; [lia|]. destruct l as [|r l]; cbn [expire_loop]; [spec_step; by exists []|]. simpl in Hl.
  spec_step. eapply spec_mono; [by apply check_route_spec| |done]. cbv beta. intros b w' [[t ->] _]. destruct b.
  - spec_step. eapply spec_mono; [apply (IH l (set_os t (w_trace w) w)); [lia|done]| |done]. cbv beta. intros l' w' (gone & Hp & Ht).
    spec_step. exists gone. split; [by rewrite Hp|exact Ht].
  - unfold mrouter6_del_route, mrouter6_changeroute. do 4 spec_step. set (w1 := set_os _ _ _).
    destruct l as [|s l]; [spec_step; by exists [r]|]. simpl in Hl. spec_step.
    eapply spec_mono; [apply (IH l w1); [lia|done]| |done]. cbv beta. intros l' w' (gone & Hp & Ht). spec_step. exists (r :: gone). split.
    + rewrite Hp. by rewrite (Permutation_middle (s :: l') gone r).
    + rewrite Ht. csimpl. by rewrite <-app_assoc.
Qed.
Lemma expire_routes_events fd l os w :
  groups_wf (w_groups w) -> w_routes w = Some l ->
  returns (expire_routes fd) os w (fun _ w' => exists l' gone, w_routes w' = Some l' /\ l ≡ₚ l' ++ gone /\
    w_trace w' = rev (route_deletion fd <$> gone) ++ w_trace w).
Proof.
  intros Hwf Hl. unfold expire_routes, get_routes. do 5 spec_step. rewrite Hl. do 2 spec_step.
  eapply spec_mono; [by apply (expire_loop_events os fd (S (length l))); [lia|]| |done].
  cbv beta. intros l' w' (gone & Hp & Ht). spec_step. by exists l', gone.
Qed.

(** ** Frames *)

(** The events of this file are not packets. *)
Definition is_sendto (e : event) : bool := match e with EvSendto _ _ _ _ => true | _ => false end.

Section frames.
Context (R : world -> world -> Prop) `{!PreOrder R}.
Context (R_tick : forall n w, R w (set_os n (w_trace w) w))
  (R_emit : forall e w, is_sendto e = false -> R w (set_os (w_tick w) (e :: w_trace w) w)) (R_ints : forall i v w, R w (set_ints (alter (set_upstream_socket v) i (w_ints w)) w))
  (R_routes : forall l w, R w (set_routes (Some l) w)).

Hint Extern 1 (rel R (upd_int _ _)) => apply rel_upd_int_fun; [assumption|intros; apply R_ints] : core.
Hint Extern 1 (rel R (modify _)) => apply rel_modify; intros; auto : core.
Hint Extern 1 (rel R (emit _)) => apply rel_emit_one; intros; apply R_emit; reflexivity : core.
Hint Extern 1 (rel R (os_call _)) => apply rel_tick; auto : core.
Hint Extern 1 (rel R time) => apply rel_tick; auto : core.

Lemma rel_check_grpint gi ifx src : rel R (check_grpint gi ifx src).
Proof. unfold check_grpint. rel_auto; auto. Qed.
Lemma rel_check_route ifx src grp : rel R (check_route ifx src grp).
Proof.
  apply rel_bind; [done|auto with rel|]. intros w. generalize (w_groups w) as gs. intros gs.
  induction gs as [|g gs IH]; simpl; [auto with rel|]. destruct (negb _); [done|].
  apply rel_bind; [done| |intros []; auto with rel]. generalize (g_interfaces g) as l. intros l.
  induction l as [|gi l IHl]; simpl; [auto with rel|].
  apply rel_bind; [done|apply rel_check_grpint|intros []; auto with rel].
Qed.
Lemma rel_get_routes : rel R get_routes.
Proof. apply rel_bind; [done|auto with rel|]. intros w. destruct (w_routes w); auto with rel. Qed.
Lemma rel_changeroute fd v s d b : rel R (mrouter6_changeroute fd v s d b).
Proof. unfold mrouter6_changeroute. rel_auto; auto. Qed.
Lemma rel_expire_loop fd d n l : (length l < n)%nat -> rel R (expire_loop fd d l).
Proof.
  revert l; induction n as [|n IH]; intros l Hl; [lia|]. destruct l as [|r l]; simpl in *; [auto with rel|].
  apply rel_bind; [done|apply rel_check_route|]. intros b.
  destruct b; (apply rel_bind; [done| |intros]); [apply IH; lia|auto with rel|apply rel_changeroute|].
  destruct l as [|s l]; [auto with rel|]. simpl in Hl. apply rel_bind; [done|apply IH; lia|auto with rel].
Qed.
Lemma rel_expire_routes fd : rel R (expire_routes fd).
Proof.
  apply rel_bind; [done|auto with rel|intros w]. apply rel_bind; [done|apply rel_get_routes|intros l].
  apply rel_bind; [done|apply (rel_expire_loop _ _ (S (length l))); lia|]. intros. apply rel_modify. auto.
Qed.
Lemma rel_handlesocket fd buf : rel R (mrouter6_handlesocket fd buf).
Proof.
  pose proof rel_check_route. pose proof rel_changeroute. pose proof rel_get_routes.
  unfold mrouter6_handlesocket, have_route, save_route, mrouter6_add_route. rel_auto; auto.
Qed.
Lemma rel_upstream_grpint i m k gi : rel R (upstream_grpint i m k gi).
Proof.
  unfold upstream_grpint, mcast_set_filter, setsourcefilter, mcast_socket_create6, mcast_join_group. rel_auto; auto.
Qed.
Lemma rel_upstream_groups i k gs : rel R (upstream_groups i k gs).
Proof.
  revert k. induction gs as [|g gs IH]; intros k; simpl; [auto with rel|]. apply rel_bind; [done| |auto].
  generalize (g_interfaces g) as l. intros l. revert k.
  induction l as [|gi l IHl]; intros k; simpl; [auto with rel|]. apply rel_bind; [done|apply rel_upstream_grpint|auto].
Qed.
Lemma rel_handle_upstream i : rel R (handle_upstream_subscription i).
Proof.
  pose proof rel_upstream_groups. pose proof rel_expire_routes. unfold handle_upstream_subscription. rel_auto; auto.
Qed.
End frames.

(** * What [handle_upstream_subscription] asks of the kernel *)

(** The subscriptions of an interface: one per group with an entry for it, an
    INCLUDE entry without sources excepted. *)
Definition is_subscribed (ifx : Z) (x : in6_addr * grpintnode) : bool :=
  (gi_ifindex x.2 =? ifx) &&
  negb ((gi_filter_mode x.2 =? MLD2_MODE_IS_INCLUDE) && (Nat.eqb (length (gi_includes x.2)) 0)).
Definition entries (gs : list groupnode) : list (in6_addr * grpintnode) :=
  gs ≫= (fun g => (fun gi => (g_mca g, gi)) <$> g_interfaces g).
Definition subscriptions (gs : list groupnode) (ifx : Z) : list (in6_addr * grpintnode) :=
  List.filter (is_subscribed ifx) (entries gs).

Definition filter_sources (gi : grpintnode) : sources :=
  if gi_filter_mode gi =? MLD2_MODE_IS_INCLUDE then gi_includes gi else gi_excludes gi.
(** The events of one subscription, in order. *)
Definition subscribe_events (sock up : Z) (x : in6_addr * grpintnode) : list event :=
  EvJoinGroup sock up x.1 ::
  match filter_sources x.2 with
  | [] => []
  | l => [EvMsFilter sock up x.1 (gi_filter_mode x.2) (filter_slots l)]
  end.
Definition upstream_events (sock up : Z) (subs : list (in6_addr * grpintnode)) : list event :=
  match subs with
  | [] => []
  | _ => EvSocket sock :: (subs ≫= subscribe_events sock up)
  end.

Section upstream_events.
Context (os : OS) (Hmalloc : forall t, os_malloc os t = true) (Hsock : forall t, 0 < os_socket os t).
Context (i : nat) (ifx up : Z) (trace : list event).

(** The loop has handled the subscriptions [done]. *)
Definition upstream_inv (handled : list (in6_addr * grpintnode)) (sock : Z) (w : world) : Prop :=
  (exists n, w_ints w !! i = Some n /\ i_ifindex n = ifx /\ i_upstream_socket n = sock) /\ w_upstream_id w = up /\
  w_trace w = rev (upstream_events sock up handled) ++ trace /\ (sock = 0 <-> handled = []).

Lemma upstream_events_snoc sock handled x : handled ≠ [] -> upstream_events sock up (handled ++ [x]) = upstream_events sock up handled ++ subscribe_events sock up x.
Proof. destruct handled; [done|]. intros _. unfold upstream_events. csimpl. rewrite bind_app. csimpl. by rewrite app_nil_r, <-!app_assoc. Qed.

Lemma mcast_set_filter_spec sock mca gi w (Q : unit -> world -> Prop) :
  (forall n, Q tt (set_os n (rev (subscribe_events sock up (mca, gi)) ++ w_trace w) w)) ->
  returns (_ ← mcast_join_group sock up mca; mcast_set_filter sock up mca (gi_filter_mode gi) (filter_sources gi)) os w Q.
Proof.
  intros HQ. unfold mcast_join_group, mcast_set_filter, setsourcefilter. do 6 spec_step.
  unfold subscribe_events in HQ. cbn [fst snd] in HQ. destruct (filter_sources gi) as [|s l].
  - spec_step. apply HQ.
  - do 2 spec_step. rewrite Hmalloc. simpl negb. cbv iota. do 2 spec_step. rewrite Hmalloc. simpl negb. cbv iota.
    do 5 spec_step. apply HQ.
Qed.

Lemma upstream_grpint_spec handled sock mca gi w :
  upstream_inv handled sock w ->
  returns (upstream_grpint i mca sock gi) os w
    (upstream_inv (handled ++ (if is_subscribed ifx (mca, gi) then [(mca, gi)] else []))).
Proof.
  intros ((n & Hn & Hi & Hs) & Hup & Ht & Hz). unfold upstream_grpint, is_subscribed. do 2 spec_step. spec_step. spec_step.
  assert (Hskip : upstream_inv (handled ++ []) sock w) by (rewrite app_nil_r; split_and!; [by exists n|done..]).
  simpl. rewrite Hi. destruct (gi_ifindex gi =? ifx); simpl; [|by spec_step].
  change (if gi_filter_mode gi =? MLD2_MODE_IS_INCLUDE then gi_includes gi else gi_excludes gi) with (filter_sources gi).
  replace ((gi_filter_mode gi =? MLD2_MODE_IS_INCLUDE) && Nat.eqb (length (gi_includes gi)) 0)
    with (Nat.eqb (length (filter_sources gi)) 0 && (gi_filter_mode gi =? MLD2_MODE_IS_INCLUDE)).
  2: { unfold filter_sources. destruct (_ =? _); rewrite ?andb_true_r, ?andb_false_r; done. }
  destruct (_ && _); simpl; [by spec_step|]. rewrite Hup. spec_step.
  destruct (Z.eqb_spec sock 0) as [E|E].
  - unfold mcast_socket_create6. do 3 spec_step. pose proof (Hsock (w_tick w)) as Hfd.
    destruct (Z.eqb_spec (os_socket os (w_tick w)) (-1)); [lia|]. do 5 spec_step. spec_step.
    apply Hz in E as ->.
    apply (spec_bind_assoc (fun _ => mret (os_socket os (w_tick w)))), spec_bind, mcast_set_filter_spec.
    intros m. spec_step. split_and!; [|done| |].
    + exists (set_upstream_socket (os_socket os (w_tick w)) n). simpl. by rewrite list_lookup_alter_eq, Hn.
    + simpl. rewrite Ht. simpl. rewrite !app_nil_r. simpl. by rewrite <-!app_assoc.
    + split; [lia|done].
  - spec_step. apply (spec_bind_assoc (fun _ => mret sock)), spec_bind, mcast_set_filter_spec.
    intros m. spec_step. assert (handled ≠ []) by naive_solver. do 2 (split; [by eauto|]). split.
    + cbn [set_os w_trace]. by rewrite upstream_events_snoc, rev_app_distr, Ht, <-app_assoc by done.
    + split; [done|]. by intros [? ?]%app_nil.
Qed.

Lemma upstream_groups_spec gs : forall handled sock w,
  upstream_inv handled sock w ->
  returns (upstream_groups i sock gs) os w (upstream_inv (handled ++ subscriptions gs ifx)).
Proof.
  induction gs as [|g gs IH]; intros handled sock w Hinv; cbn [upstream_groups].
  { spec_step. unfold subscriptions. simpl. by rewrite app_nil_r. }
  unfold subscriptions, entries. csimpl. rewrite List.filter_app, app_assoc. spec_step.
  eapply (spec_mono _ _ _ (upstream_inv (handled ++ List.filter (is_subscribed ifx) ((fun gi => (g_mca g, gi)) <$> g_interfaces g))) _ (fun _ _ => False)).
  2: by intros sock' w' Hinv'; apply IH. 2: done.
  clear IH. generalize (g_interfaces g) as l. intros l. revert handled sock w Hinv.
  induction l as [|gi l IH]; intros handled sock w Hinv; cbn [upstream_grpints].
  { spec_step. csimpl. by rewrite app_nil_r. }
  spec_step. eapply spec_mono; [by apply upstream_grpint_spec| |done]. intros sock' w' Hinv'.
  csimpl. specialize (IH _ _ _ Hinv'). by destruct (is_subscribed _ _); csimpl in *; rewrite <-app_assoc in IH.
Qed.
End upstream_events.

(** C19: A refresh of the upstream subscriptions, with memory and sockets to be had and the list of kernel routes there, opens one new socket, when
    there is anything to subscribe to, and on it joins every group and sets every source filter the state holds for the interface; then it closes
    the previous socket and checks the kernel routes: every route that is not kept is deleted from the kernel, once; those the downstream
    interface wants throughout are kept; and when the clock stands still and no two neighbours in the list are unwanted, exactly the
    wanted ones are. *)
Theorem handle_upstream_events os i n l w :
  (forall t, os_malloc os t = true) -> (forall t, 0 < os_socket os t) ->
  groups_wf (w_groups w) -> w_ints w !! i = Some n -> w_routes w = Some l ->
  returns (handle_upstream_subscription (Some i)) os w (fun _ w' => exists sock l' gone,
    (exists n', w_ints w' !! i = Some n' /\ i_upstream_socket n' = sock) /\
    w_groups w' = w_groups w /\ w_routes w' = Some l' /\ l ≡ₚ l' ++ gone /\
    (forall r, r ∈ l -> route_wanted os w r -> r ∈ l') /\
    (forall now, (forall t, os_time os t = now) -> isolated (fun r => negb (wants_route w now r)) l -> l' = filter (wants_route w now) l) /\
    w_trace w' = rev (route_deletion (w_mr6_fd w) <$> gone) ++ (if i_upstream_socket n =? 0 then [] else [EvClose (i_upstream_socket n)])
      ++ rev (upstream_events sock (w_upstream_id w) (subscriptions (w_groups w) (i_ifindex n))) ++ w_trace w).
Proof.
  intros Hm Hs Hwf Hn Hl. unfold handle_upstream_subscription. spec_step. spec_step. spec_step. spec_step.
  do 3 spec_step. set (w1 := set_ints _ w).
  assert (Hinv : upstream_inv i (i_ifindex n) (w_upstream_id w) (w_trace w) [] 0 w1).
  { split_and!; try done. exists (set_upstream_socket 0 n). simpl. by rewrite list_lookup_alter_eq, Hn. }
  pose proof (upstream_groups_spec os Hm Hs i (i_ifindex n) (w_upstream_id w) (w_trace w) (w_groups w) _ _ _ Hinv) as H1.
  pose proof (rel_spec (frames (fun w => (w_groups w, w_routes w, w_downstream_id w, w_mr6_fd w))) (upstream_groups i 0 (w_groups w1)) os w1
    ltac:(by apply rel_upstream_groups; [typeclasses eauto|..])) as H2.
  eapply spec_mono; [exact (spec_conj _ _ _ _ _ _ _ H1 H2)| |by intros ?? [[] _]].
  unfold frames. cbv beta. intros sock w2 [((n' & Hn' & _ & Hs') & _ & Ht & _) Hg]. simpl in Hg. injection Hg as Hg Hr Hd Hfd.
  set (close := if i_upstream_socket n =? 0 then [] else [EvClose (i_upstream_socket n)]).
  assert (Hend : forall t pre, pre = close -> returns (expire_routes (w_mr6_fd w2)) os (set_os t (pre ++ w_trace w2) w2) (fun _ w' => exists sock l' gone,
    (exists n', w_ints w' !! i = Some n' /\ i_upstream_socket n' = sock) /\
    w_groups w' = w_groups w /\ w_routes w' = Some l' /\ l ≡ₚ l' ++ gone /\
    (forall r, r ∈ l -> route_wanted os w r -> r ∈ l') /\
    (forall now, (forall t, os_time os t = now) -> isolated (fun r => negb (wants_route w now r)) l -> l' = filter (wants_route w now) l) /\
    w_trace w' = rev (route_deletion (w_mr6_fd w) <$> gone) ++ close ++
      rev (upstream_events sock (w_upstream_id w) (subscriptions (w_groups w) (i_ifindex n))) ++ w_trace w)).
  { intros t pre ->. set (w3 := set_os _ _ w2).
    assert (Hw : forall now r, wants_route w3 now r = wants_route w now r).
    { intros now r. unfold wants_route. simpl. by rewrite Hg, Hd. }
    pose proof (expire_routes_spec (w_mr6_fd w2) l os w3 ltac:(simpl; congruence) ltac:(simpl; congruence)) as E1.
    pose proof (expire_routes_events (w_mr6_fd w2) l os w3 ltac:(simpl; congruence) ltac:(simpl; congruence)) as E2.
    eapply spec_mono; [exact (spec_conj _ _ _ _ _ _ _ E1 E2)| |by intros ?? [[] _]].
    cbv beta. intros _ w4 [(m & t' & l' & -> & _ & _ & Hk & Hx) (l2 & gone & [= <-] & Hp & Ht')]. simpl in Ht'.
    exists sock, l', gone. simpl. split_and!; [by exists n'|done|done|done| | |].
    - intros r Hr' Hwr. apply Hk; [done|]. intros t1. rewrite Hw. apply Hwr.
    - intros now Hnow Hiso. rewrite (Hx now Hnow).
      + apply list_filter_iff. intros r. by rewrite Hw.
      + eapply isolated_ext; [|exact Hiso]. intros r. by rewrite Hw.
    - rewrite Ht', Ht, Hfd. done. }
  spec_step. apply spec_when; intros Hold.
  - apply negb_true_iff in Hold. apply spec_emit. do 2 spec_step. apply (Hend (w_tick w2) [EvClose (i_upstream_socket n)]). unfold close. by rewrite Hold.
  - apply negb_false_iff in Hold. do 2 spec_step. specialize (Hend (w_tick w2) []). replace (set_os (w_tick w2) ([] ++ w_trace w2) w2) with w2 in Hend by (by destruct w2).
    apply Hend. unfold close. by rewrite Hold.
Qed.

(** ** Faults *)

Lemma upstream_grpint_safe i mca sock gi os w :
  int_ok i w -> returns (upstream_grpint i mca sock gi) os w (fun _ w' => int_ok i w').
Proof.
  intros Hi. pose proof Hi as [n Hn]%lookup_lt_is_Some_2.
  apply (spec_mono _ _ _ (fun _ w' => frames nints w w') _ (fun _ _ => False)).
  2: intros ? w' Hf; by eapply frames_int_ok. 2: done.
  unfold frames, nints, upstream_grpint, mcast_join_group, mcast_set_filter, setsourcefilter, mcast_socket_create6.
  repeat spec_step; simpl; by rewrite ?length_alter.
Qed.

Lemma upstream_groups_safe i gs : forall sock os w,
  int_ok i w -> returns (upstream_groups i sock gs) os w (fun _ w' => int_ok i w').
Proof.
  induction gs as [|g gs IH]; intros sock os w Hi; cbn [upstream_groups]; [done|]. spec_step.
  apply (spec_mono _ _ _ (fun _ w' => int_ok i w') _ (fun _ _ => False)).
  2: by intros; apply IH. 2: done.
  generalize (g_interfaces g) as l. intros l. clear IH. revert sock w Hi.
  induction l as [|gi l IHl]; intros sock w Hi; cbn [upstream_grpints]; [done|]. spec_step.
  eapply spec_mono; [by apply upstream_grpint_safe| |done]. intros. by apply IHl.
Qed.

(** A refresh dereferences NULL exactly when the interface was not found, or when the
    list of kernel routes was never created; it has no other fault. *)
Theorem handle_upstream_faults intn os w :
  groups_wf (w_groups w) -> (forall i, intn = Some i -> int_ok i w) ->
  spec (handle_upstream_subscription intn) os w
    (fun _ _ => is_Some intn /\ is_Some (w_routes w))
    (fun f _ => f = NullDeref /\ (intn = None \/ w_routes w = None)).
Proof.
  intros Hwf Hi. destruct intn as [i|]; [|by split; [|left]]. specialize (Hi i eq_refl).
  pose proof Hi as [n Hn]%lookup_lt_is_Some_2. unfold handle_upstream_subscription.
  do 4 spec_step. do 3 spec_step. set (w1 := set_ints _ w).
  assert (Hi1 : int_ok i w1) by (unfold int_ok; simpl; by rewrite length_alter).
  pose proof (upstream_groups_safe i (w_groups w1) 0 os w1 Hi1) as H1.
  pose proof (rel_spec (frames w_groups) (upstream_groups i 0 (w_groups w1)) os w1
    ltac:(by apply rel_upstream_groups; [typeclasses eauto|..])) as H2.
  pose proof (rel_spec (frames w_routes) (upstream_groups i 0 (w_groups w1)) os w1
    ltac:(by apply rel_upstream_groups; [typeclasses eauto|..])) as H3.
  eapply spec_mono; [exact (spec_conj _ _ _ _ _ _ _ (spec_conj _ _ _ _ _ _ _ H1 H2) H3)| |by intros ?? [[[] _] _]].
  unfold frames. cbv beta. intros sock w2 [[_ Hg] Hr]. simpl in Hg, Hr.
  spec_step. apply spec_when; intros _; try apply spec_emit; do 2 spec_step.
  all: destruct (w_routes w) as [l|] eqn:El.
  all: try (eapply spec_mono; [apply (expire_routes_spec _ l); simpl; congruence|by cbv beta|done]).
  all: unfold expire_routes, get_routes; do 5 spec_step; simpl; rewrite Hr; spec_step; by split; [|right].
Qed.
