(* ===== verification/RoutingFacts.v ===== *)
(** The properties of [groupint_get], of the kernel routes and of the upstream subscriptions, stated for a reader
    of the code; the rules behind them are in [Groups] and [Routing]. *)

From S2P Require Import Prelude LinkList Msrc World Interfaces Groups Samples Routing.
#[local] Open Scope Z_scope.

(** * [groupint_get] *)

(** The group is new, or was last reported 125 seconds ago or more. *)
Definition group_is_due (os : OS) (w : world) (mca : in6_addr) : bool :=
  match find_by g_mca mca (w_groups w) with
  | None => true
  | Some g => ECMH_SUBSCRIPTION_TIMEOUT <=? os_time os (w_tick w) - g_lastforward g
  end.

Lemma groupint_interface_flag g interface isnew : gives (fun r => r.2 = isnew) (groupint_interface g interface isnew).
Proof.
  unfold groupint_interface. do 4 (apply gives_bind; intros ?).
  case_match; [by apply gives_ret|]. apply gives_bind; intros [gi|]; [|by apply gives_ret].
  apply gives_bind; intros _. by apply gives_ret.
Qed.

Lemma groupint_get_flag mca interface os w :
  (forall t, os_malloc os t = true) ->
  spec (groupint_get mca interface) os w (fun r _ => r.2 = group_is_due os w mca) (fun _ _ => True).
Proof.
  intros Hm. unfold groupint_get, group_find, group_is_due. do 4 spec_step. rewrite group_find_key, find_by_idx.
  destruct (find_key g_mca mca (w_groups w)) as [j|] eqn:Ej.
  - apply find_key_Some in Ej as (g & Hg & _). do 2 spec_step. spec_step. eapply group_at_spec; [exact Hg|]. simpl. rewrite Hg.
    destruct (_ <=? _); [do 2 spec_step|]; apply groupint_interface_flag.
  - unfold group_create. do 3 spec_step. rewrite Hm. simpl negb. cbv iota. do 2 spec_step. rewrite Hm. simpl negb. cbv iota.
    do 5 spec_step. apply groupint_interface_flag.
Qed.

(** C22: With memory available, [groupint_get] returns the one entry of the group on the interface, an existing one as it
    is or a new one that includes nothing; all other entries stay; and the flag tells whether
    the group was due for a report. *)
Theorem groupint_get_returns mca interface n os w :
  groups_wf (w_groups w) -> w_ints w !! interface = Some n -> (forall t, os_malloc os t = true) ->
  returns (groupint_get mca interface) os w (fun r w' => groups_wf (w_groups w') /\ r.2 = group_is_due os w mca /\
    (exists p gi, r.1 = Some p /\ points_to (w_groups w') p mca (i_ifindex n) gi /\
       match view (w_groups w) mca (i_ifindex n) with Some gi0 => gi = gi0 | None => grpint_fresh (i_ifindex n) gi end) /\
    forall m i, m ≠ mca \/ i ≠ i_ifindex n -> view (w_groups w') m i = view (w_groups w) m i).
Proof.
  intros Hwf Hn Hm. pose proof (groupint_get_spec mca interface n os w Hwf Hn) as H1.
  pose proof (groupint_get_flag mca interface os w Hm) as H2.
  eapply spec_mono; [exact (spec_conj _ _ _ _ _ _ _ H1 H2)| |].
  - cbv beta. intros [[p|] isnew] w' [((Hwf' & Hother & Hent) & _ & Hoom) Hf]; simpl in *.
    + destruct Hent as (gi & Hp & Hgi). split_and!; try done. exists p, gi. split_and!; [done..|].
      destruct Hgi as [-> | [-> ?]]; done.
    + destruct (Hoom eq_refl) as [t Ht]. by rewrite Hm in Ht.
  - cbv beta. intros f w' [(_ & _ & t & Ht) _]. by rewrite Hm in Ht.
Qed.

(** * Kernel routes *)

(** C18: [check_route] answers for the filter state of the group on the interface at the time of the call: an INCLUDE
    entry lets its sources through, whatever their timers, an EXCLUDE entry while its filter timer
    runs all but the blocked ones; without an entry nothing passes. No state changes. *)
Theorem check_route_accepts ifx src grp os w :
  groups_wf (w_groups w) ->
  returns (check_route ifx src grp) os w (fun b w' => ticked w w' /\
    b = match view (w_groups w) grp ifx with
        | None => false
        | Some gi =>
          if gi_filter_mode gi =? MLD2_MODE_IS_INCLUDE then bool_decide (src ∈ addrs (gi_includes gi))
          else (u32 (os_time os (w_tick w)) <? gi_filter_timer gi) && negb (bool_decide (src ∈ addrs (gi_excludes gi)))
        end).
Proof. apply check_route_spec. Qed.

(** C21: [expire_routes] keeps every route the downstream interface still wants and invents none; when the clock stands
    still and no two neighbours in the list are unwanted, it deletes exactly the unwanted ones. *)
Theorem expire_routes_deletes fd l os w :
  groups_wf (w_groups w) -> w_routes w = Some l ->
  returns (expire_routes fd) os w (fun _ w' => exists l', w_routes w' = Some l' /\ l' `sublist_of` l /\
    (forall r, r ∈ l -> route_wanted os w r -> r ∈ l') /\
    (forall now, (forall t, os_time os t = now) -> isolated (fun r => negb (wants_route w now r)) l ->
       l' = filter (wants_route w now) l)).
Proof.
  intros Hwf Hl. eapply spec_mono; [by apply (expire_routes_spec fd l)| |done].
  cbv beta. intros _ w' (n & t & l' & -> & _ & ? & ? & ?). by exists l'.
Qed.

Definition stale_routes : list kernel_route6 := [Route (src 7) sample_mca 0; Route (src 8) sample_mca 0; Route (src 9) sample_mca 0].
(** Of three unwanted routes, the second survives the pass: after each deletion the walk skips a node. *)
Theorem expire_routes_skips :
  (forall r, r ∈ stale_routes -> wants_route (sample_world [] stale_routes []) 1000 r = false) /\
  exists w', expire_routes 5 sample_os (sample_world [] stale_routes []) = Ret tt w' /\ w_routes w' = Some [Route (src 8) sample_mca 0].
Proof.
  split; [|eexists; split; by vm_compute].
  intros r Hr. unfold stale_routes in Hr. rewrite !elem_of_cons, elem_of_nil in Hr. by destruct Hr as [-> | [-> | [-> | []]]].
Qed.

(** ** Upcalls *)

(** The upcall is about a routable group, from the upstream interface, and the downstream interface wants the source. *)
Definition upcall_wanted (os : OS) (w : world) (buf : list Z) : bool :=
  (default 0 (head buf) =? 0) && negb (unroutable_mca (upcall_dst buf)) && (upcall_mif buf =? 0) &&
  wants (view (w_groups w) (upcall_dst buf) (w_downstream_id w)) (os_time os (w_tick w)) (upcall_src buf).

(** An upcall of the kernel installs a route when the downstream interface wants the source, and does nothing otherwise; an
    installed route is remembered once. *)
Theorem mrouter6_handlesocket_installs fd buf l os w :
  groups_wf (w_groups w) -> w_routes w = Some l -> (forall t, os_malloc os t = true) -> (forall t, os_setsockopt os t = 0) ->
  returns (mrouter6_handlesocket fd buf) os w (fun _ w' => w_groups w' = w_groups w /\
    if upcall_wanted os w buf then
      w_trace w' = EvMfc true fd 0 (upcall_src buf) (upcall_dst buf) :: w_trace w /\
      w_routes w' = Some (if existsb (route_is 0 (upcall_src buf) (upcall_dst buf)) l then l
                          else l ++ [Route (upcall_src buf) (upcall_dst buf) 0])
    else w_trace w' = w_trace w /\ w_routes w' = w_routes w).
Proof.
  intros Hwf Hl Hm Hs. unfold mrouter6_handlesocket, upcall_wanted.
  destruct (default 0 (head buf) =? 0); simpl; [|by spec_step]. destruct (unroutable_mca _); simpl; [by spec_step|].
  do 3 spec_step. destruct (upcall_mif buf =? 0); simpl; [|by spec_step].
  eapply spec_mono; [by apply check_route_spec| |done]. cbv beta. intros b w1 [[t ->] ->].
  destruct (wants _ _ _); cbn [when]; [|by spec_step].
  unfold mrouter6_add_route, mrouter6_changeroute. do 4 spec_step. rewrite Hs. simpl Z.eqb. cbn [when].
  unfold have_route, get_routes. do 4 spec_step. simpl w_routes. rewrite Hl. do 2 spec_step.
  destruct (existsb _ _); cbn [negb when]; [by spec_step|].
  unfold save_route, get_routes. do 2 spec_step. rewrite Hm. simpl negb. cbv iota. do 3 spec_step. simpl w_routes. rewrite Hl. do 3 spec_step.
  rewrite Hm. cbn [when]. by spec_step.
Qed.

(** * Upstream subscriptions *)

(** C20: A refresh of the upstream subscriptions dereferences NULL exactly when the interface was not found or the list
    of kernel routes was never created, as it is when the daemon was not asked to control the kernel; else it returns. *)
Theorem upstream_refresh_faults intn os w :
  groups_wf (w_groups w) -> (forall i, intn = Some i -> int_ok i w) ->
  if decide (intn = None \/ w_routes w = None) then exists w', handle_upstream_subscription intn os w = Crash NullDeref w'
  else exists w', handle_upstream_subscription intn os w = Ret tt w'.
Proof.
  intros Hwf Hi. pose proof (handle_upstream_faults intn os w Hwf Hi) as H. unfold spec in H.
  destruct (handle_upstream_subscription intn os w) as [[] w'|f w'].
  - destruct H as [[? ->] [? ->]]. rewrite decide_False by naive_solver. by exists w'.
  - destruct H as [-> ?]. rewrite decide_True by done. by exists w'.
Qed.

(** * The theorems on the sample system *)

Definition route_world : world := sample_world [include_entry 2; exclude_entry 3] [Route (src 1) sample_mca 0; Route (src 9) sample_mca 0] [].
Lemma route_world_wf : groups_wf (w_groups route_world).
Proof. apply sample_groups_wf; [apply (bool_decide_unpack _); by vm_compute|auto with ecmh]. Qed.

Lemma groupint_get_returns_witness :
  returns (groupint_get sample_mca 2) sample_os route_world (fun r w' => groups_wf (w_groups w') /\ r.2 = false /\
    (exists p gi, r.1 = Some p /\ points_to (w_groups w') p sample_mca 2 gi /\ gi = include_entry 2) /\
    forall m i, m ≠ sample_mca \/ i ≠ 2 -> view (w_groups w') m i = view (w_groups route_world) m i).
Proof. apply (groupint_get_returns sample_mca 2 eth2 sample_os route_world); [apply route_world_wf|reflexivity|reflexivity]. Defined.

Lemma check_route_accepts_witness :
  returns (check_route 2 (src 1) sample_mca) sample_os route_world (fun b w' => ticked route_world w' /\ b = true).
Proof. apply (check_route_accepts 2 (src 1) sample_mca sample_os route_world). apply route_world_wf. Defined.

Lemma expire_routes_deletes_witness :
  returns (expire_routes 5) sample_os route_world (fun _ w' => exists l', w_routes w' = Some l' /\
    l' `sublist_of` [Route (src 1) sample_mca 0; Route (src 9) sample_mca 0] /\
    (forall r, r ∈ [Route (src 1) sample_mca 0; Route (src 9) sample_mca 0] -> route_wanted sample_os route_world r -> r ∈ l') /\
    (forall now, (forall t, os_time sample_os t = now) ->
       isolated (fun r => negb (wants_route route_world now r)) [Route (src 1) sample_mca 0; Route (src 9) sample_mca 0] ->
       l' = filter (wants_route route_world now) [Route (src 1) sample_mca 0; Route (src 9) sample_mca 0])).
Proof. apply (expire_routes_deletes 5 _ sample_os route_world); [apply route_world_wf|reflexivity]. Defined.

Definition sample_upcall : list Z := [0; 1; 0; 0; 0; 0; 0; 0] ++ src 2 ++ sample_mca.
Lemma mrouter6_handlesocket_installs_witness :
  returns (mrouter6_handlesocket 5 sample_upcall) sample_os route_world (fun _ w' => w_groups w' = w_groups route_world /\
    w_trace w' = [EvMfc true 5 0 (src 2) sample_mca] /\
    w_routes w' = Some [Route (src 1) sample_mca 0; Route (src 9) sample_mca 0; Route (src 2) sample_mca 0]).
Proof.
  apply (mrouter6_handlesocket_installs 5 sample_upcall [Route (src 1) sample_mca 0; Route (src 9) sample_mca 0] sample_os route_world);
    [apply route_world_wf|reflexivity..].
Defined.

(** [eth3] subscribes anew; the second route is not wanted and goes. *)
Lemma route_world_isolated : isolated (fun r => negb (wants_route route_world 1000 r)) [Route (src 1) sample_mca 0; Route (src 9) sample_mca 0].
Proof. split; [intros H; vm_compute in H; discriminate H|done]. Qed.
Lemma handle_upstream_events_witness :
  returns (handle_upstream_subscription (Some 3%nat)) sample_os route_world (fun _ w' => exists sock,
    (exists n', w_ints w' !! 3%nat = Some n' /\ i_upstream_socket n' = sock) /\
    w_groups w' = w_groups route_world /\ w_routes w' = Some [Route (src 1) sample_mca 0] /\ exists gone,
    [Route (src 1) sample_mca 0; Route (src 9) sample_mca 0] ≡ₚ [Route (src 1) sample_mca 0] ++ gone /\
    w_trace w' = rev (route_deletion (w_mr6_fd route_world) <$> gone) ++ [] ++ rev (upstream_events sock 1 [(sample_mca, exclude_entry 3)]) ++ []).
Proof.
  eapply spec_mono; [apply (handle_upstream_events sample_os 3 eth3 [Route (src 1) sample_mca 0; Route (src 9) sample_mca 0] route_world);
    [reflexivity|reflexivity|apply route_world_wf|reflexivity|reflexivity]| |done].
  cbv beta. intros _ w' (sock & l' & gone & Hs & Hg & Hr & Hp & _ & Hx & Ht).
  assert (El : l' = [Route (src 1) sample_mca 0]) by (rewrite (Hx 1000 (fun _ => eq_refl) route_world_isolated); by vm_compute).
  rewrite El in Hr, Hp. exists sock. exact (conj Hs (conj Hg (conj Hr (ex_intro _ gone (conj Hp Ht))))).
Defined.

Lemma upstream_refresh_faults_witness :
  (exists w', handle_upstream_subscription None sample_os route_world = Crash NullDeref w') /\
  (exists w', handle_upstream_subscription (Some 2%nat) sample_os route_world = Ret tt w').
Proof.
  split; [apply (upstream_refresh_faults None sample_os route_world); [apply route_world_wf|done]|].
  apply (upstream_refresh_faults (Some 2%nat) sample_os route_world); [apply route_world_wf|].
  intros i [= <-]. unfold int_ok. simpl. lia.
Defined.
