(* ===== verification/Blind.v ===== *)
(** Commands that neither read nor change the groups: they do the same whatever groups the state has.  Such a command of the daemon runs as
    it is beside the groups in memory ([MemoryRefine], [MemoryForward], [MemoryDaemon]). *)

From S2P Require Import Prelude World Interfaces Send Routing.
#[local] Open Scope Z_scope.

Definition blind {A} (m : M A) : Prop := forall os w G,
  m os (set_groups G w) = match m os w with Ret a w' => Ret a (set_groups G w') | Crash f w' => Crash f (set_groups G w') end.

Section rules.
Context {A B : Type}.
Lemma blind_ret (a : A) : blind (mret a).
Proof. done. Qed.
Lemma blind_crash f : blind (crash (A := A) f).
Proof. done. Qed.
Lemma blind_os_call (f : OS -> nat -> A) : blind (os_call f).
Proof. done. Qed.
Lemma blind_bind (m : M A) (k : A -> M B) : blind m -> (forall a, blind (k a)) -> blind (m ≫= k).
Proof. intros Hm Hk os w G. unfold mbind, M_bind. rewrite Hm. destruct (m os w); [apply Hk|done]. Qed.
Lemma blind_get (k : world -> M A) : (forall w G, k (set_groups G w) = k w) -> (forall w, blind (k w)) -> blind (get ≫= k).
Proof. intros He Hk os w G. unfold mbind, M_bind, get. rewrite He. apply Hk. Qed.
End rules.
Lemma blind_modify f : (forall w G, f (set_groups G w) = set_groups G (f w)) -> blind (modify f).
Proof. intros Hf os w G. unfold modify. by rewrite Hf. Qed.
Lemma blind_when b m : blind m -> blind (when b m).
Proof. by destruct b. Qed.
Lemma blind_for_each {A} (l : list A) body : (forall x, blind (body x)) -> blind (for_each l body).
Proof. intros Hb. induction l as [|x l IH]; [apply blind_ret|]. apply blind_bind; [apply Hb|by intros _]. Qed.
(** The state it leaves has the groups of the state it found. *)
Lemma blind_frames {A} (m : M A) os w a w' : blind m -> m os w = Ret a w' -> w_groups w' = w_groups w.
Proof.
  intros Hb E. pose proof (Hb os w (w_groups w)) as H. replace (set_groups (w_groups w) w) with w in H by (by destruct w).
  rewrite E in H. injection H as H. by rewrite H.
Qed.

Create HintDb blind discriminated.
#[export] Hint Resolve blind_ret blind_crash blind_os_call blind_when : blind.
#[export] Hint Extern 2 (blind (modify _)) => apply blind_modify; done : blind.
Ltac blind_step :=
  match goal with
  | |- blind (get ≫= _) => apply blind_get; [done|intros ?]
  | |- blind (_ ≫= _) => apply blind_bind; [|intros ?]
  | |- blind (when _ _) => apply blind_when
  | |- blind (for_each _ _) => apply blind_for_each; intros ?
  | |- blind (match ?x with _ => _ end) => destruct x
  | |- blind (let _ := _ in _) => cbv zeta
  end.
Ltac blind_auto := repeat first [blind_step | progress eauto 3 with blind].

Lemma blind_emit e : blind (emit e).
Proof. unfold emit. blind_auto. Qed.
Lemma blind_time : blind time.
Proof. done. Qed.
Lemma blind_load off len : blind (load off len).
Proof. unfold load. blind_auto. Qed.
Lemma blind_int_at i : blind (int_at i).
Proof. unfold int_at. blind_auto. Qed.
#[export] Hint Resolve blind_emit blind_time blind_load blind_int_at : blind.
Lemma blind_load8 off : blind (load8 off).
Proof. unfold load8. blind_auto. Qed.
Lemma blind_named {A} (o : option A) : blind (named o).
Proof. by destruct o. Qed.
#[export] Hint Resolve blind_named : blind.
Lemma blind_load16 off : blind (load16 off).
Proof. unfold load16. blind_auto. Qed.
Lemma blind_store8 off v : blind (store8 off v).
Proof. unfold store8. blind_auto. Qed.
Lemma blind_upd_int i f : blind (upd_int i f).
Proof. unfold upd_int. blind_auto. Qed.
Lemma blind_int_find ifx : blind (int_find ifx).
Proof. unfold int_find. blind_auto. Qed.
#[export] Hint Resolve blind_load8 blind_load16 blind_store8 blind_upd_int blind_int_find : blind.

(** * [src/interfaces.c] and the transmissions *)

Lemma blind_int_destroy i : blind (int_destroy i).
Proof. apply blind_upd_int. Qed.
Lemma blind_int_set_mld_version i v : blind (int_set_mld_version i v).
Proof. unfold int_set_mld_version. blind_auto. Qed.
Lemma blind_sendpacket6 i iph len : blind (sendpacket6 i iph len).
Proof. unfold sendpacket6, after_send, int_destroy. blind_auto. Qed.
#[export] Hint Resolve blind_int_destroy blind_int_set_mld_version blind_sendpacket6 : blind.
Lemma blind_icmp6_send i src type code data dlen : blind (icmp6_send i src type code data dlen).
Proof. unfold icmp6_send, name_icmpv6, count_icmp. blind_auto. Qed.
Lemma blind_mld_send_query i mca src b : blind (mld_send_query i mca src b).
Proof. unfold mld_send_query, count_icmp. blind_auto. Qed.
#[export] Hint Resolve blind_icmp6_send blind_mld_send_query : blind.
