(* ===== verification/Mld2Logic.v ===== *)
(** [src/mld2_logic.c]: the MLDv2 router state machine. *)

From S2P Require Import Prelude LinkList Msrc World Interfaces Send Groups Routing.
#[local] Open Scope Z_scope.

(** * Definitions *)

(** [timer_value] is an [unsigned int]; a NULL [which_list] selects every source. *)
Definition selected (which_list : option sources) (source : msrc) : bool :=
  match which_list with Some l => is_member msrc_cmp l source | None => true end.
Definition set_source_timers (srcs : sources) (which_list : option sources) (timer_value : Z) : sources :=
  (fun o => match o with
            | Some source => Some (if selected which_list source then Msrc (s_addr source) (u32 timer_value) else source)
            | None => None
            end) <$> srcs.

(** The result tells whether the group went as well. *)
Definition remove_grpintn (p : nat * nat) : M bool :=
  _ ← grpint_at p;
  _ ← upd_group p.1 (fun groupn => set_interfaces (delete p.2 (g_interfaces groupn)) groupn);
  groupn ← group_at p.1;
  match g_interfaces groupn with
  | [] => _ ← modify (fun w => set_groups (delete p.1 (w_groups w)) w); mret true
  | _ => mret false
  end.

(** [src] is the position of the source. The result is 0 when the entry stays, 1 when it was
    removed and 2 when its group was removed too; the code reads [grpintn->ifindex]
    from the removed node, which is not freed. *)
Definition expire_source (p : nat * nat) (src : nat) (now : Z) : M Z :=
  grpintn ← grpint_at p;
  match gi_includes grpintn !! src with
  | Some (Some s) =>
    if s_timer s <=? now then
      _ ← upd_grpint p (fun grpintn => set_includes (listnode_delete (gi_includes grpintn) src) grpintn);
      grpintn ← grpint_at p;
      if list_isempty (gi_includes grpintn) then
        lastgroup ← remove_grpintn p;
        intn ← int_find (gi_ifindex grpintn);
        _ ← handle_upstream_subscription intn;
        mret (if (lastgroup : bool) then 2 else 1)
      else mret 0
    else mret 0
  | _ => crash NullDeref
  end.

Definition mld2_switch_to_include (p : nat * nat) : M bool :=
  _ ← upd_grpint p (set_filter_mode MLD2_MODE_IS_INCLUDE);
  grpintn ← grpint_at p;
  intn ← int_find (gi_ifindex grpintn);
  _ ← handle_upstream_subscription intn;
  grpintn ← grpint_at p;
  if list_isempty (gi_includes grpintn) then remove_grpintn p else mret false.

(** The three nested loops of [expire_sources]. Each saves the current node before its body,
    which may take that node out of its list: the saved [next] pointer is the node with the same number [k]
    of nodes from it to the end, so [k] is what the loops count. *)
Fixpoint expire_loop_source (p : nat * nat) (k : nat) (now removed : Z) : M Z :=
  match k with
  | O => mret removed
  | S k' =>
    grpintn ← grpint_at p;
    let src := (length (gi_includes grpintn) - k)%nat in
    match gi_includes grpintn !! src with
    | Some (Some _) =>
      removed ← expire_source p src now;
      if removed =? 0 then expire_loop_source p k' now removed else mret removed
    | _ => expire_loop_source p k' now removed
    end
  end.

Fixpoint expire_loop_interface (g : nat) (k : nat) (now removed : Z) : M unit :=
  match k with
  | O => mret tt
  | S k' =>
    groupn ← group_at g;
    let p := (g, (length (g_interfaces groupn) - k)%nat) in
    grpintn ← grpint_at p;
    if gi_filter_mode grpintn =? MLD2_MODE_IS_INCLUDE then
      removed ← expire_loop_source p (length (gi_includes grpintn)) now removed;
      if removed =? 2 then mret tt else expire_loop_interface g k' now removed
    else if gi_filter_timer grpintn <=? now then
      lastgroup ← mld2_switch_to_include p;
      if (lastgroup : bool) then mret tt else expire_loop_interface g k' now removed
    else expire_loop_interface g k' now removed
  end.

Fixpoint expire_loop_group (k : nat) (now : Z) : M unit :=
  match k with
  | O => mret tt
  | S k' =>
    w ← get;
    let g := (length (w_groups w) - k)%nat in
    groupn ← group_at g;
    _ ← expire_loop_interface g (length (g_interfaces groupn)) now 0;
    expire_loop_group k' now
  end.

Definition expire_sources : M unit :=
  now ← time; w ← get; expire_loop_group (length (w_groups w)) now.

(** ** [handle_downstream_subscription], a definition per branch *)

Definition adds_sources (mode : Z) : bool :=
  (mode =? MLD2_MODE_IS_INCLUDE) || (mode =? MLD2_ALLOW_NEW_SOURCES) || (mode =? MLD2_CHANGE_TO_INCLUDE).
Definition sets_exclude (mode : Z) : bool :=
  (mode =? MLD2_MODE_IS_EXCLUDE) || (mode =? MLD2_CHANGE_TO_EXCLUDE).

Definition include_add (intn : nat) (p : nat * nat) (mca : in6_addr) (mode : Z) (B : sources) : M unit :=
  grpintn ← grpint_at p;
  let A := gi_includes grpintn in
  let tmp := list_union msrc_cmp A (Some B) in
  now ← time;
  let tmp := set_source_timers tmp (Some B) (now + MALI) in
  tmp ← (if mode =? MLD2_CHANGE_TO_INCLUDE then
           let AminusB := list_difference msrc_cmp A B in
           _ ← mld_send_mquery intn mca AminusB false;
           now ← time;
           mret (set_source_timers tmp (Some AminusB) (now + LLQI))
         else mret tmp);
  upd_grpint p (set_includes tmp).

Definition include_to_exclude (intn : nat) (p : nat * nat) (mca : in6_addr) (mode : Z) (B : sources) : M unit :=
  grpintn ← grpint_at p;
  let A := gi_includes grpintn in
  let AjoinB := list_intersect msrc_cmp A B in
  let BminusA := list_difference msrc_cmp B A in
  let AminusB := list_difference msrc_cmp A B in
  _ ← upd_grpint p (fun g => set_excludes (list_difference msrc_cmp BminusA AminusB)
                             (set_includes (list_difference msrc_cmp AjoinB AminusB) g));
  _ ← upd_grpint p (fun g => set_includes (set_source_timers (gi_includes g) (Some BminusA) 0) g);
  now ← time;
  _ ← upd_grpint p (set_filter_timer (now + MALI));
  _ ← when (mode =? MLD2_CHANGE_TO_EXCLUDE)
        (_ ← mld_send_mquery intn mca AjoinB false;
         upd_grpint p (fun g => set_includes (set_source_timers (gi_includes g) (Some AjoinB) (now + LLQI)) g));
  upd_grpint p (set_filter_mode MLD2_MODE_IS_EXCLUDE).

Definition include_block (intn : nat) (p : nat * nat) (mca : in6_addr) (B : sources) : M unit :=
  grpintn ← grpint_at p;
  let AintersectB := list_intersect msrc_cmp (gi_includes grpintn) B in
  _ ← mld_send_mquery intn mca AintersectB false;
  now ← time;
  upd_grpint p (fun g => set_includes (set_source_timers (gi_includes g) (Some AintersectB) (now + LLQI)) g).

Definition exclude_add (intn : nat) (p : nat * nat) (mca : in6_addr) (mode : Z) (A : sources) : M unit :=
  grpintn ← grpint_at p;
  let X := gi_includes grpintn in
  let XplusA := list_union msrc_cmp X (Some A) in
  let YminusA := list_intersect msrc_cmp (gi_excludes grpintn) A in
  now ← time;
  let XplusA := set_source_timers XplusA None (now + MALI) in
  XplusA ← (if mode =? MLD2_CHANGE_TO_INCLUDE then
              let XminusA := list_difference msrc_cmp X A in
              _ ← mld_send_mquery intn mca XminusA false;
              now ← time;
              let XplusA := set_source_timers XplusA (Some XminusA) (now + LLQI) in
              _ ← mld_send_query intn mca None false;
              now ← time;
              _ ← upd_grpint p (set_filter_timer (now + LLQI));
              mret XplusA
            else mret XplusA);
  upd_grpint p (fun g => set_excludes YminusA (set_includes XplusA g)).

(** [set_source_timers] on both lists of the entry. *)
Definition set_timers_xy (p : nat * nat) (which : sources) (timer : Z) : M unit :=
  upd_grpint p (fun g => set_excludes (set_source_timers (gi_excludes g) (Some which) timer)
                         (set_includes (set_source_timers (gi_includes g) (Some which) timer) g)).
(** Each of the two is given the clock at its own call. *)
Definition set_timers_xy_time (p : nat * nat) (which : sources) (delay : Z) : M unit :=
  now ← time;
  _ ← upd_grpint p (fun g => set_includes (set_source_timers (gi_includes g) (Some which) (now + delay)) g);
  now ← time;
  upd_grpint p (fun g => set_excludes (set_source_timers (gi_excludes g) (Some which) (now + delay)) g).

Definition remove_all_xy (p : nat * nat) (which : sources) : M unit :=
  upd_grpint p (fun g => set_excludes (list_remove_all msrc_cmp (gi_excludes g) which)
                         (set_includes (list_remove_all msrc_cmp (gi_includes g) which) g)).

Definition exclude_replace (intn : nat) (p : nat * nat) (mca : in6_addr) (mode : Z) (A : sources) : M unit :=
  grpintn ← grpint_at p;
  let AminusY := list_difference msrc_cmp A (gi_excludes grpintn) in
  let AminXminY := list_difference msrc_cmp AminusY (gi_includes grpintn) in
  let XminusA := list_difference msrc_cmp (gi_includes grpintn) A in
  _ ← remove_all_xy p XminusA;
  grpintn ← grpint_at p;
  let YminusA := list_difference msrc_cmp (gi_excludes grpintn) A in
  _ ← remove_all_xy p YminusA;
  _ ← (if mode =? MLD2_MODE_IS_EXCLUDE then set_timers_xy_time p AminXminY MALI
       else if mode =? MLD2_CHANGE_TO_EXCLUDE then
         grpintn ← grpint_at p;
         _ ← set_timers_xy p AminXminY (gi_filter_timer grpintn);
         _ ← mld_send_mquery intn mca AminusY false;
         set_timers_xy_time p AminusY LLQI
       else mret tt);
  now ← time;
  upd_grpint p (set_filter_timer (now + MALI)).

Definition exclude_block (intn : nat) (p : nat * nat) (mca : in6_addr) (A : sources) : M unit :=
  grpintn ← grpint_at p;
  let AminusY := list_difference msrc_cmp A (gi_excludes grpintn) in
  let AminXminY := list_difference msrc_cmp AminusY (gi_includes grpintn) in
  _ ← upd_grpint p (fun g => set_includes (list_add_all msrc_cmp (gi_includes g) AminusY) g);
  _ ← upd_grpint p (fun g => set_includes (set_source_timers (gi_includes g) (Some AminXminY) (gi_filter_timer g)) g);
  _ ← mld_send_mquery intn mca AminusY false;
  set_timers_xy_time p AminusY LLQI.

(** The result tells whether the record was destroyed (the [out:] exit). *)
Definition handle_downstream_subscription (intn : nat) (mrec : mrec) : M bool :=
  got ← groupint_get (m_mca mrec) intn;
  match got.1 with
  | None => mret true
  | Some p =>
    grpintn ← grpint_at p;
    let mode := m_filter_mode mrec in
    let srcs := m_source_list mrec in
    _ ← (if gi_filter_mode grpintn =? MLD2_MODE_IS_INCLUDE then
           if adds_sources mode then include_add intn p (m_mca mrec) mode srcs
           else if sets_exclude mode then include_to_exclude intn p (m_mca mrec) mode srcs
           else if mode =? MLD2_BLOCK_OLD_SOURCES then include_block intn p (m_mca mrec) srcs
           else mret tt
         else if gi_filter_mode grpintn =? MLD2_MODE_IS_EXCLUDE then
           if adds_sources mode then exclude_add intn p (m_mca mrec) mode srcs
           else if sets_exclude mode then exclude_replace intn p (m_mca mrec) mode srcs
           else if mode =? MLD2_BLOCK_OLD_SOURCES then exclude_block intn p (m_mca mrec) srcs
           else mret tt
         else mret tt);
    mret false
  end.

(** * Facts on the list operations *)

Definition retime (which : option sources) (t : Z) (s : msrc) : msrc :=
  if selected which s then Msrc (s_addr s) (u32 t) else s.
Lemma retime_addr which t s : s_addr (retime which t s) = s_addr s.
Proof. unfold retime. by destruct (selected _ _). Qed.
Lemma live_set_source_timers l which t : live (set_source_timers l which t) = retime which t <$> live l.
Proof.
  unfold set_source_timers. induction l as [|[s|] l IH]; [done| |]; csimpl.
  - rewrite !live_cons_Some. csimpl. by rewrite IH.
  - by rewrite !live_cons_None.
Qed.
Lemma addrs_set_source_timers l which t : addrs (set_source_timers l which t) = addrs l.
Proof.
  unfold keys. rewrite live_set_source_timers, <-list_fmap_compose. apply list_fmap_ext. intros _ s _. apply retime_addr.
Qed.

Lemma live_add_all a b : live (list_add_all msrc_cmp a b) = live a.
Proof.
  rewrite add_all_spec, live_app. generalize (length (filter (fun x => s_addr x ∉ addrs a) (live b))) as n. intros n.
  induction n as [|n IH]; [by rewrite app_nil_r|]. simpl. by rewrite live_cons_None.
Qed.

Lemma addrs_add_all a b : addrs (list_add_all msrc_cmp a b) = addrs a.
Proof. unfold keys. by rewrite live_add_all. Qed.

(** * Frames *)

Section frames.
Context (R : world -> world -> Prop) `{!PreOrder R}.
Context (R_tick : forall n w, R w (set_os n (w_trace w) w))
  (R_emit : forall e w, is_sendto e = false -> R w (set_os (w_tick w) (e :: w_trace w) w))
  (R_ints : forall i v w, R w (set_ints (alter (set_upstream_socket v) i (w_ints w)) w))
  (R_routes : forall l w, R w (set_routes (Some l) w)) (R_groups : forall f w, R w (set_groups (f (w_groups w)) w)).

Hint Extern 1 (rel R (upd_grpint _ _)) => apply rel_upd_grpint; assumption : core.
Hint Extern 1 (rel R (upd_group _ _)) => apply rel_upd_group; assumption : core.
Hint Extern 1 (rel R (int_find _)) => apply rel_int_find; assumption : core.
Hint Extern 1 (rel R (handle_upstream_subscription _)) => apply rel_handle_upstream; assumption : core.
Hint Extern 1 (rel R time) => apply rel_tick; assumption : core.

Lemma rel_remove_grpintn p : rel R (remove_grpintn p).
Proof.
  unfold remove_grpintn. rel_auto; auto. apply rel_modify. intros w. apply (R_groups (delete p.1)).
Qed.
Hint Resolve rel_remove_grpintn : core.
Lemma rel_expire_source p k now : rel R (expire_source p k now).
Proof. unfold expire_source. rel_auto; auto. Qed.
Lemma rel_switch p : rel R (mld2_switch_to_include p).
Proof. unfold mld2_switch_to_include. rel_auto; auto. Qed.
Hint Resolve rel_expire_source rel_switch : core.
Lemma rel_expire_loop_source p now k : forall removed, rel R (expire_loop_source p k now removed).
Proof. induction k as [|k IH]; intros removed; cbn [expire_loop_source]; rel_auto; auto. Qed.
Hint Resolve rel_expire_loop_source : core.
Lemma rel_expire_loop_interface g now k : forall removed, rel R (expire_loop_interface g k now removed).
Proof. induction k as [|k IH]; intros removed; cbn [expire_loop_interface]; rel_auto; auto. Qed.
Hint Resolve rel_expire_loop_interface : core.
Lemma rel_expire_loop_group now k : rel R (expire_loop_group k now).
Proof. induction k as [|k IH]; cbn [expire_loop_group]; rel_auto; auto. Qed.
Hint Resolve rel_expire_loop_group : core.
Lemma rel_expire_sources : rel R expire_sources.
Proof. unfold expire_sources. rel_auto; auto. Qed.
End frames.

Section frames_downstream.
Context (R : world -> world -> Prop) `{!PreOrder R}.
Context (R_os : forall n t w, R w (set_os n t w)) (R_ints : forall i f w, R w (set_ints (alter f i (w_ints w)) w))
  (R_stat : forall f w, R w (set_stat f w)) (R_groups : forall f w, R w (set_groups (f (w_groups w)) w)).

Hint Extern 1 (rel R (upd_grpint _ _)) => apply rel_upd_grpint; assumption : core.
Hint Extern 1 (rel R (mld_send_mquery _ _ _ _)) => apply rel_mld_send_mquery; assumption : core.
Hint Extern 1 (rel R (mld_send_query _ _ _ _)) => apply rel_mld_send_query; assumption : core.
Hint Extern 1 (rel R (groupint_get _ _)) => apply rel_groupint_get; auto : core.
Hint Extern 1 (rel R time) => apply rel_os_call; assumption : core.

Lemma rel_handle_downstream i m : rel R (handle_downstream_subscription i m).
Proof.
  unfold handle_downstream_subscription, include_add, include_to_exclude, include_block, exclude_add, exclude_replace,
    exclude_block, remove_all_xy, set_timers_xy, set_timers_xy_time.
  rel_auto; auto.
Qed.
End frames_downstream.
