(* ===== verification/ListFacts.v ===== *)
(** The linked list on a concrete heap, and the set operations on lists of sources. *)

From S2P Require Import Prelude LinkList Msrc Mld2Logic.
#[local] Open Scope Z_scope.

(** * The set operations, on lists of sources *)

(** Intersection, difference and removal keep the order and the timers of the first list; union appends what is new;
    all keep addresses unique. *)
Theorem source_list_operations (a b : sources) :
  NoDup (addrs a) -> NoDup (addrs b) ->
  live (list_intersect msrc_cmp a b) = filter (fun s => s_addr s ∈ addrs b) (live a) /\
  live (list_difference msrc_cmp a b) = filter (fun s => s_addr s ∉ addrs b) (live a) /\
  live (list_remove_all msrc_cmp a b) = filter (fun s => s_addr s ∉ addrs b) (live a) /\
  (exists new, live (list_union msrc_cmp a (Some b)) = live a ++ new /\ Forall (fun s => s ∈ live b /\ s_addr s ∉ addrs a) new) /\
  (forall k, k ∈ addrs (list_union msrc_cmp a (Some b)) <-> k ∈ addrs a \/ k ∈ addrs b) /\
  NoDup (addrs (list_union msrc_cmp a (Some b))) /\ NoDup (addrs (list_intersect msrc_cmp a b)) /\
  NoDup (addrs (list_difference msrc_cmp a b)) /\ NoDup (addrs (list_remove_all msrc_cmp a b)).
Proof.
  intros Ha Hb.
  split; [by rewrite (live_intersect s_addr msrc_cmp)|].
  split; [by rewrite (live_difference s_addr msrc_cmp)|].
  split; [by rewrite (live_remove_all s_addr msrc_cmp)|].
  split.
  { rewrite (live_union s_addr msrc_cmp). eexists. split; [reflexivity|].
    apply Forall_forall. intros s Hs. split.
    - clear Ha. revert Hs. generalize (addrs a) as seen. induction (live b) as [|x l IH]; intros seen; simpl; [done|].
      case_decide; rewrite ?elem_of_cons; intros Hs; [by right; eapply IH|]. destruct Hs; [by left|right; by eapply IH].
    - pose proof (fresh_elems_NoDup s_addr (addrs a) (live b) Ha) as [_ [Hd _]]%NoDup_app.
      intros Hin. apply (Hd (s_addr s) Hin). by apply list_elem_of_fmap_2. }
  split; [intros; apply elem_union|]. auto with ecmh.
Qed.

(** [list_add_all] adds no source: for each one that is missing it appends an empty node. *)
Theorem list_add_all_adds_nothing (a b : sources) :
  live (list_add_all msrc_cmp a b) = live a /\
  length (list_add_all msrc_cmp a b) = (length a + length (filter (fun s => s_addr s ∉ addrs a) (live b)))%nat.
Proof. split; [apply live_add_all|]. by rewrite add_all_spec, length_app, length_replicate. Qed.

(** * A concrete list *)

Import Heap HeapFacts.

Definition sample_heap : heap := <[10 := Node 20 0 7]> (<[20 := Node 30 10 8]> (<[30 := Node 0 20 7]> ∅)).
Definition sample_list : clist := CList 10 30 3 1 1 0.
Definition sample_nodes : list (Z * Z) := [(10, 7); (20, 8); (30, 7)].
Lemma sample_lrep : lrep sample_heap sample_list sample_nodes.
Proof. split_and!; try done. apply (bool_decide_unpack _). by vm_compute. Qed.

Lemma listnode_add_refines_witness :
  exists h' l', Heap.listnode_add (Some 40) 9 sample_heap sample_list = Some (h', l', 40) /\
    lrep h' l' (sample_nodes ++ [(40, 9)]) /\ frame sample_heap h' [40; 10; 20; 30].
Proof. apply (listnode_add_refines sample_heap sample_list sample_nodes 40 9); [apply sample_lrep|reflexivity|lia]. Defined.

Lemma listnode_delete_refines_witness :
  exists h' l', Heap.listnode_delete 7 sample_heap sample_list = Some (h', l') /\
    lrep h' l' [(20, 8); (30, 7)] /\ frame sample_heap h' [10; 20; 30].
Proof. apply (listnode_delete_refines sample_heap sample_list sample_nodes 7). apply sample_lrep. Defined.

Lemma list_movefront_node_refines_witness :
  exists h' l', list_movefront_node 20 sample_heap sample_list = Some (h', l') /\ lrep h' l' [(20, 8); (10, 7); (30, 7)].
Proof. apply (list_movefront_node_refines sample_heap sample_list [(10, 7)] 20 8 [(30, 7)]). apply sample_lrep. Defined.

Lemma list_delete_all_node_refines_witness :
  exists h' l', list_delete_all_node sample_heap sample_list = Some (h', l', [7; 8; 7]) /\
    lrep h' l' [] /\ (forall q, q ∈ [10; 20; 30] -> h' !! q = None) /\ frame sample_heap h' [10; 20; 30].
Proof. apply (list_delete_all_node_refines sample_heap sample_list sample_nodes). apply sample_lrep. Defined.

Lemma list_hasmember_refines_witness :
  Heap.list_hasmember (fun _ => Z.eqb) sample_list 8 sample_heap = Some 8.
Proof. exact (list_hasmember_refines (fun _ => Z.eqb) sample_heap sample_list sample_nodes 8 sample_lrep). Defined.

Lemma source_list_operations_witness :
  let a := [Some (Msrc [1] 5); Some (Msrc [2] 6)] in let b := [Some (Msrc [2] 0); Some (Msrc [3] 0)] in
  live (list_intersect msrc_cmp a b) = [Msrc [2] 6] /\ live (list_difference msrc_cmp a b) = [Msrc [1] 5].
Proof.
  assert (H : forall x y t u, x ≠ y -> NoDup (addrs [Some (Msrc x t); Some (Msrc y u)])).
  { intros x y t u Hxy. apply NoDup_cons. split; [by intros ?%list_elem_of_singleton|apply NoDup_singleton]. }
  destruct (source_list_operations [Some (Msrc [1] 5); Some (Msrc [2] 6)] [Some (Msrc [2] 0); Some (Msrc [3] 0)]
    ltac:(by apply H) ltac:(by apply H)) as (H1 & H2 & _).
  split; [exact H1|exact H2].
Defined.
