(* ===== verification/Subscr.v ===== *)
(** [src/subscr.c]: the subscription nodes.  No live code of the daemon calls these functions any
    more (the calls are compiled out); they are modelled on the heap of [LinkList.Heap], because
    [subscr_unsub] takes the address of a copy of a list node. *)

From S2P Require Import Prelude LinkList Msrc ListFacts.
Import Heap HeapFacts.
#[local] Open Scope Z_scope.

(** * Definitions *)

Record subscrnode := Subscrnode { ipv6 : in6_addr; refreshtime : Z }.

(** [None]: no memory. *)
Definition subscr_create (malloc_ok : bool) (addr : in6_addr) (now : Z) : option subscrnode :=
  if malloc_ok then Some (Subscrnode addr now) else None.

Definition subscr_find (l : list (option subscrnode)) (addr : in6_addr) : option nat :=
  find_idx (fun o => match o with Some s => IN6_ARE_ADDR_EQUAL addr (ipv6 s) | None => false end) l.

(** What becomes of a call of [subscr_unsub]: it returns false; it reads a pointer that is not
    valid; or it gives [free] the address of a local variable, having taken the node out of the chain
    ([h] and [l] are the heap and the list at that point). *)
Inductive unsub_result := NotFound | BadPointer | FreesLocal (h : heap) (l : clist).

(** [subscrs] holds the nodes the data pointers point to; [local] is the address of [copy_ln]. *)
Fixpoint unsub_loop (fuel : nat) (subscrs : gmap Z subscrnode) (local : Z) (addr : in6_addr) (h : heap) (l : clist) (ln : Z) : unsub_result :=
  match fuel with
  | O => BadPointer
  | S fuel =>
    if ln =? 0 then NotFound
    else
      match h !! ln with
      | None => BadPointer
      | Some copy_ln =>
        if data copy_ln =? 0 then unsub_loop fuel subscrs local addr h l (next copy_ln)
        else
          match subscrs !! data copy_ln with
          | None => BadPointer
          | Some s =>
            if IN6_ARE_ADDR_EQUAL addr (ipv6 s) then
              (* list_delete_node(list, &copy_ln) *)
              match unlink local (<[local := copy_ln]> h) l with
              | Some (h, l) => FreesLocal h l
              | None => BadPointer
              end
            else unsub_loop fuel subscrs local addr h l (next copy_ln)
          end
      end
  end.

Definition subscr_unsub (subscrs : gmap Z subscrnode) (local : Z) (addr : in6_addr) (h : heap) (l : clist) : unsub_result :=
  unsub_loop (S (size h)) subscrs local addr h l (head l).

(** * Facts *)

(** The nodes the list points to. *)
Definition subscribed (subscrs : gmap Z subscrnode) (xs : list (Z * Z)) : list in6_addr :=
  omap (fun x => if x.2 =? 0 then None else ipv6 <$> subscrs !! x.2) xs.
#[local] Arguments subscribed : simpl never.

Lemma subscribed_cons subscrs p d xs s :
  d <> 0 -> subscrs !! d = Some s -> subscribed subscrs ((p, d) :: xs) = ipv6 s :: subscribed subscrs xs.
Proof. intros Hd Hs. unfold subscribed. csimpl. rewrite (proj2 (Z.eqb_neq d 0) Hd). by rewrite Hs. Qed.

(** Taking a node out through a copy of it is possible: its neighbours are allocated. *)
Lemma unlink_copy h l a p d b local :
  lrep h l (a ++ (p, d) :: b) -> h !! local = None ->
  is_Some (unlink local (<[local := Node (hd_loc b 0) (last_loc 0 a) d]> h) l).
Proof.
  intros Hl Hloc. destruct Hl as (Hd & _ & _ & _ & _). apply dls_app in Hd as (Ha & _ & _ & Hb).
  assert (Hin : forall xs prv nxt q, dls h prv xs nxt -> q ∈ xs.*1 -> q <> local /\ is_Some (h !! q) /\ q <> 0).
  { intros xs prv nxt q Hx Hq. destruct (dls_lookup _ _ _ _ _ Hx Hq) as [[n Hn] ?]. split_and!; [congruence|by eexists|done]. }
  unfold unlink. rewrite lookup_insert_eq. simpl.
  assert (Hfirst : exists h1 l1, (if last_loc 0 a =? 0 then Some (<[local:=Node (hd_loc b 0) (last_loc 0 a) d]> h, set_ends (hd_loc b 0) (tail l) l)
     else h0 ← store (last_loc 0 a) (set_next (hd_loc b 0)) (<[local:=Node (hd_loc b 0) (last_loc 0 a) d]> h); Some (h0, l)) = Some (h1, l1) /\
     h1 !! local = Some (Node (hd_loc b 0) (last_loc 0 a) d) /\ (forall q, is_Some (h !! q) -> is_Some (h1 !! q))).
  { destruct (Z.eqb_spec (last_loc 0 a) 0) as [|Hne].
    - eexists _, _. split; [done|]. rewrite lookup_insert_eq. split; [done|]. intros q Hq.
      apply lookup_insert_is_Some. destruct (decide (local = q)); auto.
    - destruct a as [|x a']; [done|]. destruct (Hin _ _ _ _ Ha (last_loc_in 0 (x :: a') ltac:(done))) as (Hq & [n Hn] & _).
      unfold store. rewrite lookup_insert_ne by done. rewrite Hn. simpl. eexists _, _. split; [done|].
      rewrite lookup_insert_ne, lookup_insert_eq by done. split; [done|]. intros q Hs.
      apply lookup_insert_is_Some. destruct (decide (last_loc 0 (x :: a') = q)) as [|Hqq]; [by left|right; split; [done|]].
      apply lookup_insert_is_Some. destruct (decide (local = q)); auto. }
  destruct Hfirst as (h1 & l1 & E & Hl1 & Hs1). rewrite E. simpl. rewrite Hl1. simpl.
  destruct (Z.eqb_spec (hd_loc b 0) 0) as [|Hne]; [by eexists|].
  destruct b as [|x b']; [done|]. destruct (Hin _ _ _ _ Hb (hd_loc_in (x :: b') 0 ltac:(done))) as (_ & Hn & _).
  destruct (Hs1 _ Hn) as [n1 Hn1]. unfold store. rewrite Hn1. by eexists.
Qed.

(** Unsubscribing an address nobody is subscribed to returns false; for any other, [free] is called on the
    address of the function's own variable: the call never returns true. *)
Theorem subscr_unsub_frees_local subscrs local addr h l xs :
  lrep h l xs -> h !! local = None ->
  (forall x, x ∈ xs -> x.2 <> 0 -> is_Some (subscrs !! x.2)) ->
  (addr ∉ subscribed subscrs xs -> subscr_unsub subscrs local addr h l = NotFound) /\
  (addr ∈ subscribed subscrs xs -> exists h' l', subscr_unsub subscrs local addr h l = FreesLocal h' l').
Proof.
  intros Hl Hloc Hs. pose proof Hl as (Hd & Hhd & _ & _ & Hnd). unfold subscr_unsub. rewrite Hhd.
  assert (Hlen : (length xs < S (size h))%nat) by (pose proof (dls_size _ _ _ _ Hd Hnd); lia).
  clear Hnd Hhd Hd. revert Hl Hlen Hs. generalize (S (size h)) as fuel. intros fuel Hl Hlen Hs.
  enough (H : forall a ys fuel, xs = a ++ ys -> (length ys < fuel)%nat ->
    (addr ∉ subscribed subscrs ys -> unsub_loop fuel subscrs local addr h l (hd_loc ys 0) = NotFound) /\
    (addr ∈ subscribed subscrs ys -> exists h' l', unsub_loop fuel subscrs local addr h l (hd_loc ys 0) = FreesLocal h' l'))
    by by apply (H [] xs fuel).
  clear Hlen fuel. intros a ys. revert a. induction ys as [|[p d] ys IH]; intros a [|fuel] Hxs Hlen; simpl in *; try lia.
  { split; [done|]. by intros ?%not_elem_of_nil. }
  destruct Hl as (Hd & Hrest). pose proof Hd as Hd'. rewrite Hxs in Hd'. apply dls_app in Hd' as (_ & Hp0 & Hp & _).
  rewrite (proj2 (Z.eqb_neq p 0) Hp0), Hp. simpl.
  destruct (IH (a ++ [(p, d)]) fuel) as [IHn IHs]; [by rewrite Hxs, <-app_assoc|lia|].
  destruct (Z.eqb_spec d 0) as [->|Hd0]; [exact (conj IHn IHs)|].
  destruct (Hs (p, d)) as [s Hsd]; [rewrite Hxs; apply elem_of_app; right; left|done|].
  simpl in Hsd. rewrite (subscribed_cons _ _ _ _ s Hd0 Hsd), Hsd.
  unfold IN6_ARE_ADDR_EQUAL. case_bool_decide as He.
  - split; [intros Hn; destruct Hn; rewrite He; left|]. intros _.
    destruct (unlink_copy h l a p d ys local) as [[h' l'] Hu]; [rewrite <-Hxs; by split|done|]. rewrite Hu. by eexists _, _.
  - rewrite not_elem_of_cons, elem_of_cons. split; [intros [_ ?]; by apply IHn|intros [?|?]; [done|by apply IHs]].
Qed.

(** * The theorem on a sample *)

Definition sample_subscrs : gmap Z subscrnode := {[ 7 := Subscrnode in6addr_any 1000; 8 := Subscrnode (replicate 16 1) 1000 ]}.

Lemma subscr_unsub_frees_local_witness :
  exists h' l', subscr_unsub sample_subscrs 99 (replicate 16 1) sample_heap sample_list = FreesLocal h' l'.
Proof.
  apply (subscr_unsub_frees_local _ _ _ _ _ sample_nodes).
  - apply sample_lrep.
  - done.
  - intros x Hx _. repeat (apply elem_of_cons in Hx as [->|Hx]; [by eexists|]). by apply not_elem_of_nil in Hx.
  - apply (bool_decide_unpack _). by vm_compute.
Defined.
