(* ===== verification/MshipDb.v ===== *)
(** [src/mship_db.c]: the membership database of RFC 4605, which merges the subscriptions of
    several interfaces into one filter per group.  The file has record functions of its own,
    which do what those of [src/mrec.c] do ([own_record_functions]).

    The abstract view of a database maps a group address to the set of sources its filter lets
    through: [lets_through]. *)

From S2P Require Import Prelude LinkList Msrc.
#[local] Open Scope Z_scope.

(** * Definitions *)

Definition set_source_list (v : sources) (m : mrec) : mrec := Mrec (m_mca m) (m_filter_mode m) v.
Definition set_mode (mode : Z) (m : mrec) : mrec := Mrec (m_mca m) mode (m_source_list m).

(** The record functions of this file. *)
Definition mrec_create (mca : in6_addr) (mode : Z) : mrec := Mrec mca mode [].
Definition mrec_find (memb_db : list mrec) (mca : in6_addr) (mode : Z) : option nat :=
  find_idx (fun m => IN6_ARE_ADDR_EQUAL mca (m_mca m) && ((mode =? 0) || (m_filter_mode m =? mode))) memb_db.
Definition mrec_add_source (m : mrec) (src : msrc) : mrec * Z :=
  if is_member msrc_cmp (m_source_list m) src then (m, 0)
  else (Mrec (m_mca m) (m_filter_mode m) (listnode_add (m_source_list m) (Some (msrc_getcopy src))), 1).
Definition mrec_add_source_addr (m : mrec) (addr : in6_addr) : mrec * Z :=
  let src := msrc_create addr 0 in
  let '(m, added) := mrec_add_source m src in
  (m, if added =? 0 then 0 else 1).

(** [mdb_deepcopy]: the new database. *)
Definition mrec_deepcopy (m : mrec) : mrec :=
  fold_left (fun copy src => (mrec_add_source copy src).1) (live (m_source_list m)) (mrec_create (m_mca m) (m_filter_mode m)).
Definition mdb_deepcopy (old : list mrec) : list mrec :=
  fold_left (fun target m => target ++ [mrec_deepcopy m]) old [].

(** An INCLUDE subscription, when the group has no EXCLUDE record. *)
Definition subscribe_include (memb_db : list mrec) (mca : in6_addr) (mode : Z) (srcs : sources) : option (list mrec) :=
  let '(memb_db, record) :=
    match mrec_find memb_db mca 1 with
    | Some i => (memb_db, Some i)
    | None =>
      if negb (list_isempty srcs) then (memb_db ++ [mrec_create mca mode], Some (length memb_db))
      else (memb_db, None)
    end in
  if negb (list_isempty srcs) then
    match record with
    | Some i => Some (alter (fun m => set_source_list (list_union msrc_cmp (m_source_list m) (Some srcs)) m) i memb_db)
    | None => None
    end
  else Some memb_db.

(** An EXCLUDE subscription. *)
Definition subscribe_exclude (memb_db : list mrec) (mca : in6_addr) (mode : Z) (srcs : sources) : list mrec :=
  match mrec_find memb_db mca 1 with
  | Some i =>
    alter (fun m => set_source_list (list_difference msrc_cmp (m_source_list m) srcs) (set_mode 2 m)) i memb_db
  | None =>
    match mrec_find memb_db mca 2 with
    | None => memb_db ++ [set_source_list srcs (mrec_create mca mode)]
    | Some i => alter (fun m => set_source_list (list_intersect msrc_cmp (m_source_list m) srcs) m) i memb_db
    end
  end.

(** [None]: a NULL record is dereferenced.  The database takes a copy of the sources. *)
Definition mdb_subscribe (memb_db : list mrec) (mca : in6_addr) (mode : Z) (srcs : sources) : option (list mrec) :=
  let srcs := list_union msrc_cmp srcs None in
  if mode =? 1 then
    match mrec_find memb_db mca 2 with
    | Some i => Some (alter (fun m => set_source_list (list_difference msrc_cmp (m_source_list m) srcs) m) i memb_db)
    | None => subscribe_include memb_db mca mode srcs
    end
  else Some (subscribe_exclude memb_db mca mode srcs).

(** * Specification *)

(** One record per group; its mode is INCLUDE or EXCLUDE, its addresses are unique. *)
Record db_wf (memb_db : list mrec) : Prop := {
  wf_groups : NoDup (m_mca <$> memb_db);
  wf_records : Forall (fun m => (m_filter_mode m = 1 \/ m_filter_mode m = 2) /\ mrec_sources_ok m) memb_db }.

Definition record_for (memb_db : list mrec) (mca : in6_addr) : option mrec := find_by m_mca mca memb_db.

(** The sources a filter lets through. *)
Definition filter_accepts (mode : Z) (srcs : sources) (a : in6_addr) : Prop :=
  if mode =? 1 then a ∈ addrs srcs else a ∉ addrs srcs.
Definition lets_through (o : option mrec) (a : in6_addr) : Prop :=
  match o with None => False | Some m => filter_accepts (m_filter_mode m) (m_source_list m) a end.

(** The group's filter becomes [P]; the other groups keep theirs. *)
Definition refiltered (memb_db : list mrec) (mca : in6_addr) (P : in6_addr -> Prop) (memb_db' : list mrec) : Prop :=
  db_wf memb_db' /\ (forall a, lets_through (record_for memb_db' mca) a <-> P a) /\
  forall mca', mca' <> mca -> record_for memb_db' mca' = record_for memb_db mca'.

(** * Facts *)

Lemma own_record_functions :
  mrec_create = Msrc.mrec_create /\ mrec_find = Msrc.mrec_find /\ mrec_add_source = Msrc.mrec_add_source /\ mrec_add_source_addr = Msrc.mrec_add_source_addr.
Proof. done. Qed.

Lemma mrec_find_Some memb_db mca mode i :
  mrec_find memb_db mca mode = Some i ->
  exists m, memb_db !! i = Some m /\ m_mca m = mca /\ (mode <> 0 -> m_filter_mode m = mode).
Proof.
  intros (m & Hm & [Ha Hc]%andb_true_iff & _)%find_idx_Some. exists m. split; [done|].
  apply bool_decide_eq_true in Ha. split; [done|]. intros. apply orb_true_iff in Hc as [Hc|Hc]; lia.
Qed.

Lemma mrec_find_None memb_db mca mode m :
  mrec_find memb_db mca mode = None -> record_for memb_db mca = Some m -> m_filter_mode m <> mode.
Proof.
  intros Hn [Hin Hk]%find_by_Some Hc. pose proof (proj1 (find_idx_None _ _) Hn m Hin) as H. simpl in H.
  unfold IN6_ARE_ADDR_EQUAL in H. rewrite Hk, bool_decide_true, Hc, Z.eqb_refl, orb_true_r in H; done.
Qed.

Lemma record_at memb_db i m : db_wf memb_db -> memb_db !! i = Some m -> record_for memb_db (m_mca m) = Some m.
Proof. intros [Hn _] Hm. by apply (find_by_NoDup m_mca _ i). Qed.

(** Replacing a record; adding one. *)
Lemma update_record memb_db i m f (P : in6_addr -> Prop) :
  db_wf memb_db -> memb_db !! i = Some m -> (forall m, m_mca (f m) = m_mca m) ->
  (m_filter_mode (f m) = 1 \/ m_filter_mode (f m) = 2) -> mrec_sources_ok (f m) ->
  (forall a, filter_accepts (m_filter_mode (f m)) (m_source_list (f m)) a <-> P a) ->
  refiltered memb_db (m_mca m) P (alter f i memb_db).
Proof.
  intros [Hn Hr] Hm Hf Hmode Hok HP. split_and!.
  - split; [by rewrite (fmap_key_alter m_mca)|]. apply Forall_lookup. intros j x. rewrite list_lookup_alter.
    case_decide as Hj; [subst j; rewrite Hm; by intros [= <-]|]. intros Hx. exact (Forall_lookup_1 _ _ _ _ Hr Hx).
  - intros a. unfold record_for. rewrite (find_by_alter m_mca f _ _ i m) by done. rewrite decide_True by done. apply HP.
  - intros mca' Hne. unfold record_for. rewrite (find_by_alter m_mca f _ _ i m) by done. by rewrite decide_False.
Qed.

Lemma add_record memb_db m (P : in6_addr -> Prop) :
  db_wf memb_db -> record_for memb_db (m_mca m) = None -> (m_filter_mode m = 1 \/ m_filter_mode m = 2) -> mrec_sources_ok m ->
  (forall a, filter_accepts (m_filter_mode m) (m_source_list m) a <-> P a) -> refiltered memb_db (m_mca m) P (memb_db ++ [m]).
Proof.
  intros [Hn Hr] Hnone Hmode Hok HP. split_and!.
  - split; [|apply Forall_app; split; [done|apply Forall_singleton; done]]. apply (NoDup_key_snoc m_mca); [done|].
    apply (find_key_None m_mca). by apply (find_by_None m_mca).
  - intros a. unfold record_for. rewrite (find_by_app m_mca). unfold record_for in Hnone. rewrite Hnone. simpl. rewrite decide_True by done. apply HP.
  - intros mca' Hne. unfold record_for. rewrite (find_by_app m_mca). simpl. rewrite decide_False by done. by destruct (find_by _ _ _).
Qed.

Lemma copy_addrs (srcs : sources) : addrs (list_union msrc_cmp srcs None) = addrs srcs.
Proof. unfold keys. by rewrite (live_union_None msrc_cmp). Qed.

(** The copy the database takes has no empty nodes, so that its count tells whether it has sources. *)
Lemma copy_isempty (srcs : sources) a :
  list_isempty (list_union msrc_cmp srcs None) = true -> a ∉ addrs srcs.
Proof.
  rewrite <-copy_addrs. destruct (list_union msrc_cmp srcs None); [intros _; apply not_elem_of_nil|done].
Qed.

Lemma addrs_nil a : a ∈ addrs [] <-> False.
Proof. apply elem_of_nil. Qed.

Section subscribe.
Context (memb_db : list mrec) (mca : in6_addr) (srcs : sources).
Hypothesis Hwf : db_wf memb_db.
Hypothesis Hsrcs : NoDup (addrs srcs).

Let copy := list_union msrc_cmp srcs None.

Lemma copied_ok : NoDup (addrs copy).
Proof. unfold copy. by rewrite copy_addrs. Qed.

Lemma found_ok i m : memb_db !! i = Some m -> mrec_sources_ok m.
Proof. intros Hi. destruct Hwf as [_ Hr]. apply (Forall_lookup_1 _ _ _ _ Hr Hi). Qed.

(** An INCLUDE subscription meets an EXCLUDE record. *)
Lemma include_on_exclude i m :
  memb_db !! i = Some m -> m_filter_mode m = 2 ->
  refiltered memb_db (m_mca m) (fun a => a ∉ addrs (m_source_list m) \/ a ∈ addrs srcs)
    (alter (fun m => set_source_list (list_difference msrc_cmp (m_source_list m) copy) m) i memb_db).
Proof.
  intros Hi Hm. apply update_record; simpl; [done..|by right| |].
  - apply nodup_difference. by eapply found_ok.
  - intros a. rewrite Hm. unfold filter_accepts. simpl. rewrite elem_difference. unfold copy. rewrite copy_addrs.
    destruct (decide (a ∈ addrs srcs)); tauto.
Qed.

Lemma include_on_include i m :
  memb_db !! i = Some m -> m_filter_mode m = 1 ->
  refiltered memb_db (m_mca m) (fun a => a ∈ addrs (m_source_list m) \/ a ∈ addrs srcs)
    (alter (fun m => set_source_list (list_union msrc_cmp (m_source_list m) (Some copy)) m) i memb_db).
Proof.
  intros Hi Hm. apply update_record; simpl; [done..|by left| |].
  - apply nodup_union. by eapply found_ok.
  - intros a. rewrite Hm. unfold filter_accepts. simpl. rewrite elem_union. unfold copy. by rewrite copy_addrs.
Qed.

Lemma exclude_on_exclude i m :
  memb_db !! i = Some m -> m_filter_mode m = 2 ->
  refiltered memb_db (m_mca m) (fun a => a ∉ addrs (m_source_list m) \/ a ∉ addrs srcs)
    (alter (fun m => set_source_list (list_intersect msrc_cmp (m_source_list m) copy) m) i memb_db).
Proof.
  intros Hi Hm. apply update_record; simpl; [done..|by right| |].
  - apply nodup_intersect. by eapply found_ok.
  - intros a. rewrite Hm. unfold filter_accepts. simpl. rewrite elem_intersect. unfold copy. rewrite copy_addrs.
    destruct (decide (a ∈ addrs srcs)); tauto.
Qed.

(** An EXCLUDE subscription meets an INCLUDE record: the record's sources are subtracted the wrong way round. *)
Lemma exclude_on_include i m :
  memb_db !! i = Some m -> m_filter_mode m = 1 ->
  refiltered memb_db (m_mca m) (fun a => a ∉ addrs (m_source_list m) \/ a ∈ addrs srcs)
    (alter (fun m => set_source_list (list_difference msrc_cmp (m_source_list m) copy) (set_mode 2 m)) i memb_db).
Proof.
  intros Hi Hm. apply update_record; simpl; [done..|by right| |].
  - apply nodup_difference. by eapply found_ok.
  - intros a. unfold filter_accepts. simpl. rewrite elem_difference. unfold copy. rewrite copy_addrs.
    destruct (decide (a ∈ addrs srcs)); tauto.
Qed.
End subscribe.

(** The group has neither kind of record. *)
Lemma no_record memb_db mca :
  db_wf memb_db -> mrec_find memb_db mca 1 = None -> mrec_find memb_db mca 2 = None -> record_for memb_db mca = None.
Proof.
  intros [_ Hr] H1 H2. destruct (record_for memb_db mca) as [m|] eqn:Hm; [|done].
  pose proof (mrec_find_None _ _ _ _ H1 Hm). pose proof (mrec_find_None _ _ _ _ H2 Hm).
  apply find_by_Some in Hm as [Hin _]. rewrite Forall_forall in Hr. destruct (Hr m Hin) as [[? | ?] _]; done.
Qed.

Lemma refiltered_same memb_db mca (P : in6_addr -> Prop) :
  db_wf memb_db -> (forall a, lets_through (record_for memb_db mca) a <-> P a) -> refiltered memb_db mca P memb_db.
Proof. intros ? H. split; [done|]. split; [exact H|done]. Qed.

Lemma refiltered_iff memb_db mca (P Q : in6_addr -> Prop) memb_db' :
  (forall a, P a <-> Q a) -> refiltered memb_db mca P memb_db' -> refiltered memb_db mca Q memb_db'.
Proof. intros HPQ (? & HP & ?). split; [done|]. split; [|done]. intros a. by rewrite HP. Qed.

Lemma refiltered_trans memb_db mca P Q memb_db1 memb_db2 :
  refiltered memb_db mca P memb_db1 -> refiltered memb_db1 mca Q memb_db2 -> refiltered memb_db mca Q memb_db2.
Proof. intros (_ & _ & H1) (? & ? & H2). split; [done|]. split; [done|]. intros mca' Hne. by rewrite H2, H1. Qed.

(** An INCLUDE subscription where there is no EXCLUDE record. *)
Lemma subscribe_include_merges memb_db mca (srcs : sources) :
  db_wf memb_db -> NoDup (addrs srcs) -> mrec_find memb_db mca 2 = None ->
  exists memb_db', subscribe_include memb_db mca 1 (list_union msrc_cmp srcs None) = Some memb_db' /\
    refiltered memb_db mca (fun a => lets_through (record_for memb_db mca) a \/ a ∈ addrs srcs) memb_db'.
Proof.
  intros Hwf Hs H2. unfold subscribe_include.
  destruct (list_isempty (list_union msrc_cmp srcs None)) eqn:He; simpl.
  { exists memb_db. split; [by destruct (mrec_find memb_db mca 1)|]. apply refiltered_same; [done|].
    intros a. pose proof (copy_isempty srcs a He). tauto. }
  destruct (mrec_find memb_db mca 1) as [i|] eqn:H1.
  - apply mrec_find_Some in H1 as (m & Hi & <- & Hm). eexists. split; [done|].
    rewrite (record_at _ i m) by done. simpl. unfold filter_accepts. rewrite (Hm ltac:(lia)). simpl.
    apply include_on_include; auto.
  - pose proof (no_record _ _ Hwf H1 H2) as Hnone. eexists. split; [done|]. rewrite Hnone. simpl.
    assert (Hadd : refiltered memb_db mca (fun _ => False) (memb_db ++ [mrec_create mca 1])).
    { apply (add_record _ (mrec_create mca 1)); simpl; [done..|by left|by constructor|].
      apply addrs_nil. }
    apply (refiltered_trans _ _ _ _ _ _ Hadd). destruct Hadd as (Hwf1 & _ & _).
    apply (refiltered_iff _ _ (fun a => a ∈ addrs (m_source_list (mrec_create mca 1)) \/ a ∈ addrs srcs)).
    + intros a. simpl. by rewrite addrs_nil.
    + apply (include_on_include _ _ Hwf1 (length memb_db) (mrec_create mca 1)); [|done].
      by rewrite lookup_app_r, Nat.sub_diag by lia.
Qed.

(** * Properties *)

(** What a subscription asks for. *)
Abbreviation requested mode srcs := (filter_accepts mode srcs).

(** C33: RFC 4605, section 4.1: a subscription adds the sources it asks for to those the filter of its group
    lets through, and touches no other group, whichever of the two is an INCLUDE or an EXCLUDE filter,
    unless an EXCLUDE subscription meets an INCLUDE record; no NULL record is dereferenced, and the
    database stays well formed. *)
Theorem mdb_subscribe_merges memb_db mca mode (srcs : sources) :
  db_wf memb_db -> NoDup (addrs srcs) -> mode = 1 \/ mode = 2 ->
  (mode = 2 -> forall m, record_for memb_db mca = Some m -> m_filter_mode m = 2) ->
  exists memb_db', mdb_subscribe memb_db mca mode srcs = Some memb_db' /\
    refiltered memb_db mca (fun a => lets_through (record_for memb_db mca) a \/ requested mode srcs a) memb_db'.
Proof.
  intros Hwf Hs Hmode Hex. unfold mdb_subscribe. destruct Hmode as [->| ->]; simpl.
  - destruct (mrec_find memb_db mca 2) as [i|] eqn:H2.
    + apply mrec_find_Some in H2 as (m & Hi & <- & Hm). eexists. split; [done|].
      rewrite (record_at _ i m) by done. simpl. rewrite (Hm ltac:(lia)). by apply include_on_exclude; auto.
    + by apply subscribe_include_merges.
  - eexists. split; [done|]. unfold subscribe_exclude. destruct (mrec_find memb_db mca 1) as [i|] eqn:H1.
    { apply mrec_find_Some in H1 as (m & Hi & <- & Hm). exfalso.
      specialize (Hex eq_refl m (record_at _ _ _ Hwf Hi)). specialize (Hm ltac:(lia)). lia. }
    destruct (mrec_find memb_db mca 2) as [i|] eqn:H2.
    + apply mrec_find_Some in H2 as (m & Hi & <- & Hm).
      rewrite (record_at _ i m) by done. simpl. rewrite (Hm ltac:(lia)). by apply exclude_on_exclude; auto.
    + rewrite (no_record memb_db mca) by done. apply (add_record _ (set_source_list _ (mrec_create mca 2))); simpl.
      * done.
      * by apply no_record.
      * by right.
      * by apply copied_ok.
      * intros a. unfold filter_accepts. simpl. rewrite copy_addrs. tauto.
Qed.

(** An EXCLUDE subscription for a group with an INCLUDE record leaves an EXCLUDE record of the sources
    that were included and are not excluded: they are blocked, although one interface asked for them and
    no other refuses them.  The filter is the one RFC 4605 asks for if and only if the sources that are
    included are exactly those that are excluded. *)
Theorem mdb_subscribe_reverses memb_db mca m (srcs : sources) :
  db_wf memb_db -> NoDup (addrs srcs) -> record_for memb_db mca = Some m -> m_filter_mode m = 1 ->
  exists memb_db', mdb_subscribe memb_db mca 2 srcs = Some memb_db' /\
    refiltered memb_db mca (fun a => a ∉ addrs (m_source_list m) \/ a ∈ addrs srcs) memb_db' /\
    ((forall a, lets_through (record_for memb_db' mca) a <-> lets_through (Some m) a \/ requested 2 srcs a) <->
     (forall a, a ∈ addrs (m_source_list m) <-> a ∈ addrs srcs)).
Proof.
  intros Hwf Hs Hr Hm. eexists. split; [done|]. unfold subscribe_exclude.
  destruct (mrec_find memb_db mca 1) as [i|] eqn:H1; [|by destruct (mrec_find_None _ _ _ _ H1 Hr)].
  apply mrec_find_Some in H1 as (m' & Hi & <- & _). rewrite (record_at _ i m') in Hr by done. injection Hr as ->.
  pose proof (exclude_on_include memb_db srcs Hwf i m Hi Hm) as Hx. split; [exact Hx|].
  destruct Hx as (_ & Hx & _). setoid_rewrite Hx. simpl. unfold filter_accepts. rewrite Hm. simpl. split.
  - intros H a. specialize (H a). destruct (decide (a ∈ addrs (m_source_list m))), (decide (a ∈ addrs srcs)); tauto.
  - intros H a. specialize (H a). destruct (decide (a ∈ addrs srcs)); tauto.
Qed.

(** The sources of a record are copied in order, each with its timer. *)
Lemma add_sources_fresh m (l : list msrc) :
  NoDup (addrs (m_source_list m) ++ (s_addr <$> l)) ->
  fold_left (fun copy src => (mrec_add_source copy src).1) l m = set_source_list (m_source_list m ++ (Some <$> l)) m.
Proof.
  revert m. induction l as [|x l IH]; intros m Hn; csimpl in *; [by destruct m; rewrite app_nil_r|].
  unfold mrec_add_source at 2. rewrite member_addrs.
  rewrite bool_decide_false by (intros Hx; apply NoDup_app in Hn as (_ & Hd & _); by apply (Hd _ Hx); left). simpl.
  rewrite IH; simpl; unfold listnode_add, msrc_getcopy; rewrite ?keys_snoc, <-?app_assoc; destruct x, m; done.
Qed.

Lemma mrec_deepcopy_live m : mrec_sources_ok m -> mrec_deepcopy m = set_source_list (Some <$> live (m_source_list m)) m.
Proof. intros Hm. unfold mrec_deepcopy. rewrite add_sources_fresh; [by destruct m|]. exact Hm. Qed.

(** A deep copy of a database whose records hold unique addresses has the same records, modes, sources
    and timers, in the same order; only nodes without data are dropped. *)
Theorem mdb_deepcopy_same (old : list mrec) :
  Forall mrec_sources_ok old ->
  mdb_deepcopy old = (fun m => set_source_list (Some <$> live (m_source_list m)) m) <$> old /\
  (Forall (fun m => Forall is_Some (m_source_list m)) old -> mdb_deepcopy old = old).
Proof.
  intros Hok. assert (H : mdb_deepcopy old = (fun m => set_source_list (Some <$> live (m_source_list m)) m) <$> old).
  { unfold mdb_deepcopy. enough (Hacc : forall acc, fold_left (fun target m => target ++ [mrec_deepcopy m]) old acc =
      acc ++ ((fun m => set_source_list (Some <$> live (m_source_list m)) m) <$> old)) by apply Hacc.
    induction Hok as [|m old Hm _ IH]; intros acc; csimpl; [by rewrite app_nil_r|].
    by rewrite IH, (mrec_deepcopy_live m Hm), <-app_assoc. }
  split; [exact H|]. intros Hl. rewrite H. clear H Hok. induction Hl as [|m old Hm _ IH]; csimpl; [done|]. rewrite IH. f_equal.
  destruct m as [mca mode l]. unfold set_source_list. simpl in *. f_equal.
  induction Hm as [|? l [x ->] _ IHl]; [done|]. rewrite live_cons_Some. csimpl. by rewrite IHl.
Qed.

(** * The theorems on a sample *)

Definition sample_group : in6_addr := [255; 62] ++ replicate 13 0 ++ [7].
Definition sample_source (i : Z) : in6_addr := [32; 1] ++ replicate 13 0 ++ [i].
Definition sample_srcs (l : list Z) : sources := (fun i => Some (Msrc (sample_source i) i)) <$> l.
Definition sample_db (mode : Z) : list mrec := [Mrec sample_group mode (sample_srcs [1; 2])].

Lemma sample_db_wf mode : mode = 1 \/ mode = 2 -> db_wf (sample_db mode).
Proof.
  intros Hm. split; [apply NoDup_singleton|]. apply Forall_singleton. split; [exact Hm|].
  apply (bool_decide_unpack _). by vm_compute.
Qed.

Lemma mdb_subscribe_merges_witness :
  exists memb_db', mdb_subscribe (sample_db 2) sample_group 1 (sample_srcs [2; 3]) = Some memb_db' /\
    refiltered (sample_db 2) sample_group
      (fun a => lets_through (record_for (sample_db 2) sample_group) a \/ requested 1 (sample_srcs [2; 3]) a) memb_db'.
Proof.
  apply mdb_subscribe_merges; [apply sample_db_wf; by right|apply (bool_decide_unpack _); by vm_compute|by left|done].
Defined.

Lemma mdb_subscribe_reverses_witness :
  exists memb_db', mdb_subscribe (sample_db 1) sample_group 2 (sample_srcs [2; 3]) = Some memb_db' /\
    ~ (forall a, lets_through (record_for memb_db' sample_group) a <->
         lets_through (record_for (sample_db 1) sample_group) a \/ requested 2 (sample_srcs [2; 3]) a).
Proof.
  assert (Hs : NoDup (addrs (sample_srcs [2; 3]))) by (apply (bool_decide_unpack _); by vm_compute).
  destruct (mdb_subscribe_reverses (sample_db 1) sample_group (Mrec sample_group 1 (sample_srcs [1; 2])) (sample_srcs [2; 3])
    (sample_db_wf 1 (or_introl eq_refl)) Hs eq_refl eq_refl) as (db' & Hdb & _ & Hiff).
  exists db'. split; [exact Hdb|]. intros H. pose proof (proj1 Hiff H (sample_source 3)) as [_ H3].
  assert (Hn : sample_source 3 ∉ addrs (sample_srcs [1; 2])) by (apply (bool_decide_unpack _); by vm_compute).
  apply Hn, H3. apply (bool_decide_unpack _). by vm_compute.
Defined.

Lemma mdb_deepcopy_same_witness : mdb_deepcopy (sample_db 2) = sample_db 2.
Proof.
  apply mdb_deepcopy_same; apply Forall_singleton; [apply (bool_decide_unpack _); by vm_compute|]. repeat constructor; by eexists.
Defined.
