(* ===== verification/Masks.v ===== *)
(** The netmask macros of [src/trace.h], which [mtrace6] includes and does not use: [MASK_TO_VAL], [VAL_TO_MASK] and
    [MASKLEN_TO_MASK6]. *)

From S2P Require Import Prelude.
#[local] Open Scope Z_scope.

(** * Definitions *)

(** [htonl] and [ntohl] reverse the four bytes of a value. *)
Definition htonl (x : Z) : Z :=
  Z.lor (Z.shiftl (Z.land x 0xff) 24)
    (Z.lor (Z.shiftl (Z.land (Z.shiftr x 8) 0xff) 16)
      (Z.lor (Z.shiftl (Z.land (Z.shiftr x 16) 0xff) 8) (Z.land (Z.shiftr x 24) 0xff))).
Abbreviation ntohl := htonl (only parsing).

(** [while ((_x) <<= 1) (i)++;]: each shift drops the highest bit of 32, so 32 rounds are enough. *)
Fixpoint mask_loop (fuel : nat) (x i : Z) : option Z :=
  match fuel with
  | O => None
  | S fuel => let x := u32 (Z.shiftl x 1) in if x =? 0 then Some i else mask_loop fuel x (i + 1)
  end.
Definition MASK_TO_VAL (x : Z) : option Z := mask_loop 32 (ntohl x) 1.

(** [htonl(~((1 << (32 - (i))) - 1))] on [int]s: the result of the shift has to be a positive [int]. *)
Definition VAL_TO_MASK (i : Z) : option Z :=
  let n := 32 - i in
  if (0 <=? n) && (n <=? 30) then Some (htonl (u32 (Z.lnot (Z.shiftl 1 n - 1)))) else None.

(** The 16 bytes of [mask6]; [None]: a byte written outside them, or an element read outside [maskarray]. *)
Definition maskarray : list Z := [0x80; 0xc0; 0xe0; 0xf0; 0xf8; 0xfc; 0xfe; 0xff].
Definition set_byte (i : nat) (v : Z) (mask : list Z) : option (list Z) :=
  if (i <? length mask)%nat then Some (<[i := v]> mask) else None.
Fixpoint fill (bytelen : nat) (mask : list Z) : option (list Z) :=
  match bytelen with O => Some mask | S n => mask ← fill n mask; set_byte n 0xff mask end.
Definition MASKLEN_TO_MASK6 (masklen : Z) : option (list Z) :=
  let bytelen := Z.quot masklen 8 in
  let bitlen := Z.rem masklen 8 in
  mask6 ← fill (Z.to_nat bytelen) (replicate 16 0);
  if bitlen =? 0 then Some mask6
  else if bitlen <? 0 then None
  else v ← maskarray !! Z.to_nat (bitlen - 1); set_byte (Z.to_nat bytelen) v mask6.

(** * The 32-bit masks *)

(** Bit [j] of an address in memory order: the highest bit of the first byte comes first. *)
Definition address_bit (a : list Z) (j : nat) : bool := Z.testbit (default 0 (a !! (j / 8)%nat)) (7 - Z.of_nat (j mod 8)).

(** A decision procedure for finitely many lengths. *)
Lemma all_below (f : nat -> bool) n : forallb f (seq 0 n) = true -> forall i, (i < n)%nat -> f i = true.
Proof. intros H i Hi. rewrite forallb_forall in H. apply H, in_seq. lia. Qed.

(** The loop ends on every value: after 32 rounds nothing is left. *)
Lemma mask_loop_ends fuel : forall x i, (1 <= fuel <= 32)%nat -> (2 ^ (32 - Z.of_nat fuel) | x) ->
  exists v, mask_loop fuel x i = Some v /\ i <= v < i + Z.of_nat fuel.
Proof.
  induction fuel as [|fuel IH]; intros x i Hf Hx; [lia|]. cbn [mask_loop]. cbv zeta.
  destruct (u32 (Z.shiftl x 1) =? 0) eqn:E; [exists i; split; [done|lia]|]. zify_bool.
  assert (Hd : (2 ^ (32 - Z.of_nat fuel) | u32 (Z.shiftl x 1))).
  { destruct Hx as [c ->]. unfold u32. rewrite Z.shiftl_mul_pow2 by lia.
    replace (32 - Z.of_nat fuel) with (Z.succ (32 - Z.of_nat (S fuel))) by lia. rewrite Z.pow_succ_r by lia.
    replace (c * 2 ^ (32 - Z.of_nat (S fuel)) * 2 ^ 1) with (c * (2 * 2 ^ (32 - Z.of_nat (S fuel)))) by lia.
    rewrite <-Z.pow_succ_r by lia. set (k := Z.succ _). replace (2 ^ 32) with (2 ^ (32 - k) * 2 ^ k) by (rewrite <-Z.pow_add_r by lia; f_equal; lia).
    rewrite Z.mul_mod_distr_r by (apply Z.pow_nonzero; lia). by eexists. }
  destruct (decide (fuel = 0%nat)) as [->|Hne].
  - destruct E. destruct Hd as [c Hc]. pose proof (u32_range (Z.shiftl x 1)). change (2 ^ (32 - Z.of_nat 0)) with (2 ^ 32) in Hc. lia.
  - destruct (IH _ (i + 1) ltac:(lia) Hd) as (v & -> & Hv). exists v. split; [done|lia].
Qed.

(** [MASK_TO_VAL] gives a length between 1 and 32 for every value, 1 also for the mask of length 0. *)
Theorem MASK_TO_VAL_bounds x : exists v, MASK_TO_VAL x = Some v /\ 1 <= v <= 32.
Proof.
  destruct (mask_loop_ends 32 (ntohl x) 1 ltac:(lia)) as (v & Hv & ?); [apply Z.divide_1_l|]. exists v. split; [done|lia].
Qed.
Example MASK_TO_VAL_0 : MASK_TO_VAL 0 = Some 1.
Proof. reflexivity. Qed.

(** [VAL_TO_MASK] has a value for the lengths 2 to 32, and [MASK_TO_VAL] inverts it. *)
Theorem VAL_TO_MASK_roundtrip i m : VAL_TO_MASK i = Some m -> 2 <= i <= 32 /\ MASK_TO_VAL m = Some i.
Proof.
  intros Hm. assert (Hi : 2 <= i <= 32).
  { unfold VAL_TO_MASK in Hm. destruct ((0 <=? 32 - i) && (32 - i <=? 30)) eqn:E; [|done]. zify_bool. lia. }
  split; [done|]. rewrite <-(Z2Nat.id i) in Hm |- * by lia.
  pose proof (all_below (fun n => match VAL_TO_MASK (Z.of_nat n) with Some m => bool_decide (MASK_TO_VAL m = Some (Z.of_nat n)) | None => (n <? 2)%nat end)
    33 ltac:(by vm_compute) (Z.to_nat i) ltac:(lia)) as H.
  cbv beta in H. rewrite Hm in H. by apply bool_decide_eq_true in H.
Qed.

(** * The 128-bit masks *)

Lemma fill_None n mask : (length mask < n)%nat -> fill n mask = None.
Proof.
  induction n as [|n IH]; [lia|]. intros Hn. cbn [fill]. destruct (decide (length mask < n)%nat); [by rewrite IH|].
  destruct (fill n mask) as [mask'|] eqn:E; [|done]. simpl.
  assert (Hl : length mask' = length mask).
  { clear IH Hn n0. revert mask' E. induction n as [|n IH]; simpl; [by intros ? [= ->]|]. intros mask' E.
    destruct (fill n mask) as [m|]; [|done]. simpl in E. unfold set_byte in E. destruct (_ <? _)%nat; [|done]. injection E as <-.
    by rewrite length_insert, (IH m). }
  unfold set_byte. rewrite Hl. by rewrite (proj2 (Nat.ltb_ge _ _)) by lia.
Qed.

(** Up to length 128 [MASKLEN_TO_MASK6] sets exactly the first [masklen] bits; beyond it writes outside the address. *)
Theorem MASKLEN_TO_MASK6_bits masklen : 0 <= masklen ->
  if masklen <=? 128 then exists a, MASKLEN_TO_MASK6 masklen = Some a /\ length a = 16%nat /\
    forall j, (j < 128)%nat -> address_bit a j = (Z.of_nat j <? masklen)
  else MASKLEN_TO_MASK6 masklen = None.
Proof.
  intros H0. destruct (Z.leb_spec masklen 128) as [H|H].
  - pose proof (all_below (fun n => match MASKLEN_TO_MASK6 (Z.of_nat n) with
      | Some a => (length a =? 16)%nat && forallb (fun j => Bool.eqb (address_bit a j) (Z.of_nat j <? Z.of_nat n)) (seq 0 128)
      | None => false end) 129 ltac:(by vm_compute) (Z.to_nat masklen) ltac:(lia)) as E. cbv beta in E. rewrite Z2Nat.id in E by done.
    destruct (MASKLEN_TO_MASK6 masklen) as [a|]; [|done]. apply andb_prop in E as [El Eb]. exists a. split_and!; [done|by apply Nat.eqb_eq|].
    intros j Hj. apply eqb_prop. by apply (all_below _ _ Eb).
  - unfold MASKLEN_TO_MASK6. rewrite Z.quot_div_nonneg, Z.rem_mod_nonneg by lia.
    assert (Hq : 16 <= masklen / 8) by (apply Z.div_le_lower_bound; lia). destruct (decide (masklen / 8 = 16)) as [E|E].
    + rewrite E. change (Z.to_nat 16) with 16%nat. assert (Hr : 0 < masklen mod 8 < 8).
      { pose proof (Z.mod_pos_bound masklen 8). pose proof (Z.div_mod masklen 8). lia. }
      rewrite (proj2 (Z.eqb_neq _ _)), (proj2 (Z.ltb_ge _ _)) by lia. simpl. by destruct (maskarray !! _).
    + rewrite fill_None; [done|]. rewrite length_replicate. lia.
Qed.
