(* ===== verification/Mtrace.v ===== *)
(** [tools/mtrace6/mtrace6.c] and [src/trace.h]: the multicast traceroute client, from its
    options to the query packet and from the response to what is printed.

    The resolver, the list of interface addresses and the sockets are an argument, record [Host];
    a socket address is the list of the bytes of a [struct sockaddr_storage]. *)

From S2P Require Import Prelude Msrc Names.
From stdpp Require Import strings.
#[local] Open Scope Z_scope.

(** * Definitions *)

(** The program goes on, ends with a message, or accesses memory it must not. *)
Inductive res (A : Type) := Done (a : A) | Exits | Faults.
Arguments Done {A} _.
Arguments Exits {A}.
Arguments Faults {A}.
#[export] Instance res_ret : MRet res := fun A a => Done a.
#[export] Instance res_bind : MBind res := fun A B k m => match m with Done a => k a | Exits => Exits | Faults => Faults end.
Definition require (b : bool) : res unit := if b then Done tt else Exits.
Definition answer {A} (o : option A) : res A := match o with Some a => Done a | None => Exits end.

(** ** Options *)

Record settings := Settings {
  gateway : option string; intface : option string; receiver : option string; destination : option string;
  linkstr : option string; hops : Z; maxhops : Z; waittime : Z; opt_n : bool }.
Definition settings_default : settings := Settings None None None None None 64 127 3 false.

(** What [getopt] answers, with the number [atoi] reads. *)
Inductive mopt :=
| MDestination (s : string) | MGateway (s : string) | MHops (n : Z) | MInterface (s : string) | MLink (s : string)
| MMaxhops (n : Z) | MNumeric | MReceiver (s : string) | MWait (n : Z) | MUnknown.

Definition byte_range (n : Z) : bool := negb ((n <? 0) || (255 <? n)).

Definition mopt_step (c : settings) (o : mopt) : res settings :=
  match o with
  | MDestination s => Done (Settings (gateway c) (intface c) (receiver c) (Some s) (linkstr c) (hops c) (maxhops c) (waittime c) (opt_n c))
  | MGateway s => Done (Settings (Some s) (intface c) (receiver c) (destination c) (linkstr c) (hops c) (maxhops c) (waittime c) (opt_n c))
  | MHops n =>
    _ ← require (byte_range n);
    Done (Settings (gateway c) (intface c) (receiver c) (destination c) (linkstr c) n (maxhops c) (waittime c) (opt_n c))
  | MInterface s => Done (Settings (gateway c) (Some s) (receiver c) (destination c) (linkstr c) (hops c) (maxhops c) (waittime c) (opt_n c))
  | MLink s => Done (Settings (gateway c) (intface c) (receiver c) (destination c) (Some s) (hops c) (maxhops c) (waittime c) (opt_n c))
  | MMaxhops n =>
    _ ← require (byte_range n);
    Done (Settings (gateway c) (intface c) (receiver c) (destination c) (linkstr c) (hops c) n (waittime c) (opt_n c))
  | MNumeric => Done (Settings (gateway c) (intface c) (receiver c) (destination c) (linkstr c) (hops c) (maxhops c) (waittime c) true)
  | MReceiver s => Done (Settings (gateway c) (intface c) (Some s) (destination c) (linkstr c) (hops c) (maxhops c) (waittime c) (opt_n c))
  | MWait n => Done (Settings (gateway c) (intface c) (receiver c) (destination c) (linkstr c) (hops c) (maxhops c) n (opt_n c))
  | MUnknown => Exits
  end.

Fixpoint mopts (c : settings) (l : list mopt) : res settings :=
  match l with [] => Done c | o :: l => c ← mopt_step c o; mopts c l end.

(** ** The host *)

Record Host := {
  h_getaddrinfo : string -> option (list Z);          (* the bytes at ai_addr *)
  h_getifaddrs : option (list (option (list Z)));     (* ifa_addr, which may be NULL *)
  h_nametoindex : string -> Z;
  h_socket : bool;
  h_setsockopt : bool;
  h_random : Z;
  h_sendto : bool;
  h_reply : option (list Z);                          (* None: select times out *)
  h_recvfrom : bool;
  h_from_family : Z }.

Definition AF_INET6 : Z := 10.
Definition sizeof_sockaddr_storage : nat := 128.
Definition sizeof_pointer : nat := 8.
Definition sockaddr_zero : list Z := replicate 128 0.
Definition sa_family (sa : list Z) : Z := le16_load (default 0 (sa !! 0%nat)) (default 0 (sa !! 1%nat)).
Definition sin6_addr (sa : list Z) : in6_addr := take 16 (drop 8 sa).

Definition IN6_IS_ADDR_SITELOCAL (a : in6_addr) : bool := (s6_addr a 0 =? 254) && (Z.land (s6_addr a 1) 192 =? 192).

Definition memcpy (dst src : list Z) (n : nat) : list Z := take n src ++ drop n dst.

(** [set_sockaddr]: the [l] bytes are copied whatever the length of the address the resolver gave;
    those behind it are whatever memory holds ([behind]). *)
Definition set_sockaddr (h : Host) (behind : list Z) (addrname : string) : res (list Z) :=
  ai_addr ← answer (h_getaddrinfo h addrname);
  _ ← require (Nat.leb (length ai_addr) sizeof_sockaddr_storage);
  Done (take sizeof_sockaddr_storage (ai_addr ++ behind)).

Definition is_multicast (sa : list Z) : bool := (sa_family sa =? AF_INET6) && IN6_IS_ADDR_MULTICAST (sin6_addr sa).

Definition all_routers_str (link : option string) (family : Z) : res string :=
  if family =? AF_INET6 then
    Done (match link with Some l => String.append "ff02::1%" l | None => "ff02::1"%string end)
  else Exits.

Definition ip6_validaddr (sa : list Z) : bool :=
  negb (IN6_IS_ADDR_LOOPBACK (sin6_addr sa) || IN6_IS_ADDR_LINKLOCAL (sin6_addr sa) || IN6_IS_ADDR_SITELOCAL (sin6_addr sa)).

(** The first address of the family that is valid; the result of the search is not tested by the callers. *)
Fixpoint my_sockaddr (l : list (option (list Z))) (family : Z) : res (option (list Z)) :=
  match l with
  | [] => Done None
  | None :: _ => Faults
  | Some sa :: l =>
    if negb (sa_family sa =? family) then my_sockaddr l family
    else if (family =? AF_INET6) && ip6_validaddr sa then Done (Some sa)
    else my_sockaddr l family
  end.
Definition get_my_sockaddr (h : Host) (family : Z) (addrp : list Z) (sa_len : nat) : res (list Z) :=
  ifap ← answer (h_getifaddrs h);
  found ← my_sockaddr ifap family;
  Done (match found with Some sa => memcpy addrp sa sa_len | None => addrp end).

(** ** [open_socket] *)

Record socks := Socks { grp_sock : list Z; src_sock : list Z; gw_sock : list Z; dst_sock : list Z; rcv_sock : list Z }.

Definition set_hlim (h : Host) (addr : list Z) : res unit :=
  if sa_family addr =? AF_INET6 then require (h_setsockopt h) else Done tt.
Definition set_filter (h : Host) (family : Z) : res unit :=
  if family =? AF_INET6 then require (h_setsockopt h) else Done tt.
Definition set_join (h : Host) (ifname : option string) (grp : list Z) : res unit :=
  if sa_family grp =? AF_INET6 then
    match ifname with
    | None => Faults
    | Some name => _ ← require (negb (h_nametoindex h name =? 0)); require (h_setsockopt h)
    end
  else Done tt.

(** The last argument of [get_my_sockaddr] is the size of a pointer. *)
Definition open_socket (h : Host) (behind : list Z) (c : settings) (source group : string) : res socks :=
  grp ← set_sockaddr h behind group;
  _ ← require (is_multicast grp);
  src ← set_sockaddr h behind source;
  _ ← require (negb (is_multicast src));
  gw ← match gateway c with
       | Some g => set_sockaddr h behind g
       | None => r ← all_routers_str (linkstr c) (sa_family grp); set_sockaddr h behind r
       end;
  dst ← match destination c with
        | Some d => dst ← set_sockaddr h behind d; _ ← require (negb (is_multicast dst)); Done dst
        | None => get_my_sockaddr h (sa_family grp) sockaddr_zero sizeof_pointer
        end;
  rcv ← match receiver c with
        | Some r =>
          rcv ← set_sockaddr h behind r;
          _ ← require (negb (is_multicast rcv && match intface c with None => true | Some _ => false end));
          Done rcv
        | None => get_my_sockaddr h (sa_family grp) sockaddr_zero sizeof_pointer
        end;
  _ ← require (h_socket h);
  _ ← (if negb (hops c =? 0) then set_hlim h gw else Done tt);
  _ ← (if match receiver c with Some _ => is_multicast rcv | None => false end then set_join h (intface c) rcv else Done tt);
  _ ← set_filter h (sa_family grp);
  Done (Socks grp src gw dst rcv).

(** ** The query *)

Definition sizeof_mld1 : nat := 24.
Definition sizeof_tr6_query : nat := 52.
Definition sizeof_tr6_resp : nat := 60.

(** [struct mld1] and [struct tr6_query]; the query identifier, 24 bits, is set by [setqid]. *)
Definition mld1_header (type code : Z) (mca : in6_addr) : list Z := [type; code; 0; 0; 0; 0; 0; 0] ++ mca.
Definition le24 (x : Z) : list Z := [x mod 256; x / 256 mod 256; x / 65536 mod 256].
Definition tr6_query (tr_src tr_dst tr_raddr : in6_addr) (tr_qid tr_rhlim : Z) : list Z :=
  tr_src ++ tr_dst ++ tr_raddr ++ le24 tr_qid ++ [tr_rhlim].

Definition make_ip6_packet (c : settings) (s : socks) : list Z :=
  mld1_header MLD_MTRACE (Z.land (maxhops c) 255) (sin6_addr (grp_sock s))
  ++ tr6_query (sin6_addr (src_sock s)) (sin6_addr (dst_sock s)) (sin6_addr (rcv_sock s)) 0 (Z.land 255 (hops c)).

Definition make_packet (c : settings) (s : socks) : res (list Z) :=
  if sa_family (grp_sock s) =? AF_INET6 then Done (make_ip6_packet c s) else Exits.

Definition setqid (family random : Z) (query : list Z) : list Z :=
  if family =? AF_INET6 then take 72 query ++ le24 random ++ drop 75 query else query.

(** ** The response *)

Inductive proto_name := ProtoName (s : string) | ProtoUnknown (code : Z).

Definition PROTO_DVMRP : Z := 1.
Definition PROTO_MOSPF : Z := 2.
Definition PROTO_PIM : Z := 3.
Definition PROTO_CBT : Z := 4.
Definition PROTO_PIM_SPECIAL : Z := 5.
Definition PROTO_PIM_STATIC : Z := 6.
Definition PROTO_DVMRP_STATIC : Z := 7.
Definition PROTO_MLD : Z := 8.

Definition proto_type (type : Z) : proto_name :=
  if type =? PROTO_DVMRP then ProtoName "DVMRP" else if type =? PROTO_MOSPF then ProtoName "MOSPF"
  else if type =? PROTO_PIM then ProtoName "PIM" else if type =? PROTO_CBT then ProtoName "CBT"
  else if type =? PROTO_PIM_SPECIAL then ProtoName "PIM/Special" else if type =? PROTO_PIM_STATIC then ProtoName "PIM/Static"
  else if type =? PROTO_DVMRP_STATIC then ProtoName "DVMRP/Static" else if type =? 0 then ProtoName "None"
  else ProtoUnknown type.

Definition fwd_code : list string :=
  ["NOERR"; "WRONGIF"; "SPRUNE"; "RPRUNE"; "SCOPED"; "NORT"; "WRONGLH"; "NOFWD"; "RP"; "RPFIF"; "NOMC"; "HIDDEN"]%string.
Definition fwd_errcode : list string := [""; "NOSPC"; "OLD"; "ADMIN"]%string.

(** [flag] is an [unsigned int]; [None]: the table is read out of its bounds. *)
Definition str_rflags (flag : Z) : option string :=
  if negb (Z.land 128 flag =? 0) then
    let flag := Z.ldiff flag 128 in
    if (Z.of_nat (length fwd_errcode) <=? flag) || (flag =? 0) then Some "UNKNOWN"%string
    else fwd_errcode !! Z.to_nat flag
  else if Z.of_nat (length fwd_code) <=? flag then Some "UNKNOWN"%string
  else fwd_code !! Z.to_nat flag.

(** Bytes of a buffer; [ntohl] of a field, and its value as the [int] that is printed. *)
Definition field (buf : list Z) (off n : nat) : res (list Z) :=
  if Nat.leb (off + n) (length buf) then Done (take n (drop off buf)) else Faults.
Definition be32_load (l : list Z) : Z :=
  match l with [a; b; c; d] => ((a * 256 + b) * 256 + c) * 256 + d | _ => 0 end.
Definition s32 (x : Z) : Z := if u32 x <? 2 ^ 31 then u32 x else u32 x - 2 ^ 32.

(** A line of the output. *)
Record shown := Shown {
  sh_index : Z; sh_lcladdr : in6_addr; sh_rmtaddr : in6_addr; sh_inifid : Z; sh_outifid : Z;
  sh_proto : proto_name; sh_rflags : string }.

(** A hop of the response: [rp] is the offset of a [struct tr6_resp]. *)
Definition show_hop (frombuf : list Z) (i : Z) (rp : nat) : res shown :=
  inifid ← field frombuf (rp + 4) 4;
  outifid ← field frombuf (rp + 8) 4;
  lcladdr ← field frombuf (rp + 12) 16;
  rmtaddr ← field frombuf (rp + 28) 16;
  rproto ← field frombuf (rp + 56) 1;
  rflags ← field frombuf (rp + 59) 1;
  name ← match str_rflags (Z.land (default 0 (head rflags)) 255) with Some s => Done s | None => Faults end;
  Done (Shown (- i) lcladdr rmtaddr (s32 (be32_load inifid)) (s32 (be32_load outifid))
         (proto_type (default 0 (head rproto))) name).

(** The loop up to [rp_end]; the fuel is the number of bytes left. *)
Fixpoint show_hops (fuel : nat) (frombuf : list Z) (i : Z) (rp rp_end : nat) : res (list shown) :=
  match fuel with
  | O => Done []
  | S fuel =>
    if Nat.ltb rp rp_end then
      hop ← show_hop frombuf i rp;
      hops ← show_hops fuel frombuf (i + 1) (rp + sizeof_tr6_resp) rp_end;
      Done (hop :: hops)
    else Done []
  end.

Inductive display := IsShort | Incomplete | OtherQuery | InvalidType | Trace (l : list shown).

(** The two packets are compared in the query identifier, the source and the destination. *)
Definition show_ip6_result (querypacket frombuf : list Z) (datalen : nat) : res display :=
  if Nat.ltb datalen (sizeof_mld1 + sizeof_tr6_query + sizeof_tr6_resp) then Done IsShort
  else
    type ← field frombuf 0 1;
    if default 0 (head type) =? MLD_MTRACE_RESP then
      if negb (Nat.eqb ((datalen - sizeof_mld1 - sizeof_tr6_query) mod sizeof_tr6_resp) 0) then Done Incomplete
      else
        qid ← field querypacket 72 3; rqid ← field frombuf 72 3;
        src ← field querypacket 24 16; rsrc ← field frombuf 24 16;
        dst ← field querypacket 40 16; rdst ← field frombuf 40 16;
        if negb (bool_decide (qid = rqid)) || negb (IN6_ARE_ADDR_EQUAL src rsrc) || negb (IN6_ARE_ADDR_EQUAL dst rdst)
        then Done OtherQuery
        else
          hops ← show_hops datalen frombuf 0 (sizeof_mld1 + sizeof_tr6_query) datalen;
          Done (Trace hops)
    else Done InvalidType.

Definition show_result (family : Z) (querypacket frombuf : list Z) (datalen : nat) : res display :=
  if family =? AF_INET6 then show_ip6_result querypacket frombuf datalen else Exits.

(** ** [mtrace_loop] and [main] *)

(** [frombuf] is a static array of 1024 bytes; the kernel stores at most that many. *)
Definition receive (reply : list Z) : list Z * nat :=
  let got := take 1024 reply in (got ++ replicate (1024 - length got) 0, length got).

Inductive ended := TimedOut | Displayed (d : display).

(** The loop ends in its first round. *)
Definition mtrace_loop (h : Host) (gw : list Z) (querypacket : list Z) : res ended :=
  let querypacket := setqid (sa_family gw) (h_random h) querypacket in
  _ ← require (h_sendto h);
  match h_reply h with
  | None => Done TimedOut
  | Some reply =>
    _ ← require (h_recvfrom h);
    let '(frombuf, rcvcc) := receive reply in
    d ← show_result (h_from_family h) querypacket frombuf rcvcc;
    Done (Displayed d)
  end.

Definition main (h : Host) (behind : list Z) (opts : list mopt) (argv : list string) : res ended :=
  c ← mopts settings_default opts;
  match argv with
  | source :: group :: _ =>
    _ ← require (negb (match gateway c, linkstr c with Some _, Some _ => true | _, _ => false end));
    s ← open_socket h behind c source group;
    querypacket ← make_packet c s;
    mtrace_loop h (gw_sock s) querypacket
  | _ => Exits
  end.
