(* ===== verification/MtraceFacts.v ===== *)
(** The traceroute client [mtrace6]: it prints the hops a response encodes, stays within its
    buffers, and never puts its own address into a query. *)

From S2P Require Import Prelude Msrc Names Mtrace.
From stdpp Require Import strings.
#[local] Open Scope Z_scope.

(** * The tables *)

Lemma str_rflags_total flag : 0 <= flag < 256 -> is_Some (str_rflags flag).
Proof.
  intros Hf. assert (H : Forall (fun n => is_Some (str_rflags (Z.of_nat n))) (seq 0 256))
    by (apply (bool_decide_unpack _); by vm_compute).
  rewrite Forall_seq in H. specialize (H (Z.to_nat flag)). rewrite Z2Nat.id in H by lia. apply H. lia.
Qed.

(** The client names every routing protocol of [trace.h] but the last, the one [ecmh] itself reports: for
    [PROTO_MLD], as for every larger code, it prints an unknown code. *)
Theorem proto_type_unknown code : 0 <= code -> (proto_type code = ProtoUnknown code <-> PROTO_MLD <= code).
Proof.
  intros Hc. unfold proto_type, PROTO_DVMRP, PROTO_MOSPF, PROTO_PIM, PROTO_CBT, PROTO_PIM_SPECIAL, PROTO_PIM_STATIC,
    PROTO_DVMRP_STATIC, PROTO_MLD. repeat (case_match; [zify_bool; split; [done|lia]|]). zify_bool. split; [lia|done].
Qed.

(** * The buffers *)

Lemma field_Done buf off n : (off + n <= length buf)%nat -> field buf off n = Done (take n (drop off buf)).
Proof. intros H. unfold field. by rewrite (proj2 (Nat.leb_le _ _) H). Qed.

Lemma show_hop_Done frombuf i rp :
  (rp + 60 <= length frombuf)%nat -> exists s, show_hop frombuf i rp = Done s /\ sh_index s = - i.
Proof.
  intros H. unfold show_hop. rewrite !field_Done by lia. simpl.
  destruct (str_rflags_total (Z.land (default 0 (head (take 1 (drop (rp + 59) frombuf)))) 255)) as [s Hs].
  { change 255 with (Z.ones 8). rewrite Z.land_ones by lia. apply Z.mod_pos_bound. lia. }
  rewrite Hs. eexists. by split.
Qed.

Lemma show_hops_Done frombuf n : forall fuel i rp rp_end,
  rp_end = (rp + n * 60)%nat -> (rp_end <= length frombuf)%nat -> (n < fuel)%nat ->
  exists l, show_hops fuel frombuf i rp rp_end = Done l /\ length l = n.
Proof.
  induction n as [|n IH]; intros [|fuel] i rp rp_end -> Hlen Hf; try lia; cbn [show_hops].
  { rewrite (proj2 (Nat.ltb_ge _ _)) by lia. by exists []. }
  rewrite (proj2 (Nat.ltb_lt _ _)) by lia. destruct (show_hop_Done frombuf i rp) as (s & -> & _); [lia|].
  destruct (IH fuel (i + 1) (rp + sizeof_tr6_resp)%nat (rp + S n * 60)%nat) as (l & Hl & Hn); unfold sizeof_tr6_resp in *; [lia..|].
  exists (s :: l). cbn [mbind res_bind]. rewrite Hl. split; [done|simpl; lia].
Qed.

(** Whatever the response holds, no read leaves the receive buffer or a table. *)
Lemma show_ip6_result_Done query frombuf datalen :
  length query = 76%nat -> (datalen <= length frombuf)%nat ->
  exists d, show_ip6_result query frombuf datalen = Done d /\
    match d with Trace l => datalen = (76 + 60 * length l)%nat /\ (0 < length l)%nat | _ => True end.
Proof.
  intros Hq Hlen. unfold show_ip6_result, sizeof_mld1, sizeof_tr6_query, sizeof_tr6_resp.
  destruct (Nat.ltb_spec datalen (24 + 52 + 60)) as [|Hge]; [by exists IsShort|].
  rewrite !field_Done by lia. cbn [mbind res_bind].
  case_match; [|by exists InvalidType].
  destruct (Nat.eqb_spec ((datalen - 24 - 52) mod 60) 0) as [Hmod|]; [|by exists Incomplete]. simpl negb. cbv iota.
  apply Nat.Div0.div_exact in Hmod. set (n := ((datalen - 24 - 52) / 60)%nat) in *.
  case_match; [by exists OtherQuery|].
  destruct (show_hops_Done frombuf n datalen 0 (24 + 52) datalen) as (l & Hl & Hn); [lia..|].
  rewrite Hl. exists (Trace l). split; [done|]. lia.
Qed.

(** * The query *)

Lemma length_sin6_addr sa : (24 <= length sa)%nat -> length (sin6_addr sa) = 16%nat.
Proof. intros H. unfold sin6_addr. rewrite length_take, length_drop. lia. Qed.

Lemma res_bind_Done {A B} (m : res A) (k : A -> res B) b :
  (m ≫= k) = Done b -> exists a, m = Done a /\ k a = Done b.
Proof. destruct m as [a| |]; [by exists a|done|done]. Qed.
Lemma res_bind_faults {A B} (m : res A) (k : A -> res B) :
  m <> Faults -> (forall a, m = Done a -> k a <> Faults) -> (m ≫= k) <> Faults.
Proof. destruct m as [a| |]; simpl; auto. Qed.
Lemma require_faults b : require b <> Faults.
Proof. by destruct b. Qed.
Lemma answer_faults {A} (o : option A) : answer o <> Faults.
Proof. by destruct o. Qed.
Lemma Done_faults {A} (a : A) : Done a <> Faults.
Proof. done. Qed.

Create HintDb mtrace.
#[export] Hint Resolve require_faults answer_faults Done_faults : mtrace.

(** One step through a body that must not fault. *)
Ltac no_fault :=
  repeat match goal with
  | |- (_ ≫= _) <> Faults => apply res_bind_faults; [auto with mtrace|intros ? ?]
  | |- (if ?b then _ else _) <> Faults => destruct b eqn:?
  | |- (match ?o with _ => _ end) <> Faults => destruct o eqn:?
  | |- Done _ <> Faults => discriminate
  | |- Exits <> Faults => discriminate
  end; auto with mtrace.

Lemma make_ip6_packet_length c s :
  length (sin6_addr (grp_sock s)) = 16%nat -> length (sin6_addr (src_sock s)) = 16%nat ->
  length (sin6_addr (dst_sock s)) = 16%nat -> length (sin6_addr (rcv_sock s)) = 16%nat -> length (make_ip6_packet c s) = 76%nat.
Proof. intros. unfold make_ip6_packet, mld1_header, tr6_query, le24. rewrite !length_app. simpl. lia. Qed.

Lemma setqid_length family random q : length q = 76%nat -> length (setqid family random q) = 76%nat.
Proof.
  intros H. unfold setqid. case_match; [|done]. rewrite !length_app, length_take, length_drop, H. done.
Qed.

Lemma mtrace_loop_faults h gw q : length q = 76%nat -> mtrace_loop h gw q <> Faults.
Proof.
  intros Hq. unfold mtrace_loop, receive. no_fault.
  unfold show_result. no_fault.
  destruct (show_ip6_result_Done (setqid (sa_family gw) (h_random h) q)
    (take 1024 l ++ replicate (1024 - length (take 1024 l)) 0) (length (take 1024 l))) as (d & -> & _);
    [by apply setqid_length|rewrite length_app, length_take, length_replicate; lia|done].
Qed.
Section safe.
Context (h : Host) (behind : list Z).
(** Every interface has an address, with at least the 16 bytes of a [struct sockaddr]. *)
Hypothesis Hifa : forall l, h_getifaddrs h = Some l -> Forall (fun o => exists sa, o = Some sa /\ (16 <= length sa)%nat) l.
(** The resolver's blocks lie in readable memory. *)
Hypothesis Hbehind : (128 <= length behind)%nat.

Lemma set_sockaddr_faults name : set_sockaddr h behind name <> Faults.
Proof. unfold set_sockaddr. no_fault. Qed.
Lemma set_sockaddr_length name sa : set_sockaddr h behind name = Done sa -> length sa = 128%nat.
Proof.
  intros (ai & _ & (u & _ & [= <-])%res_bind_Done)%res_bind_Done. unfold sizeof_sockaddr_storage.
  rewrite length_take, length_app. lia.
Qed.

Lemma my_sockaddr_found l family :
  Forall (fun o => exists sa, o = Some sa /\ (16 <= length sa)%nat) l ->
  exists o, my_sockaddr l family = Done o /\ match o with Some sa => (16 <= length sa)%nat | None => True end.
Proof.
  induction 1 as [|o l (sa & -> & Hsa) _ IH]; simpl; [by exists None|]. repeat case_match; eauto.
Qed.

Lemma get_my_sockaddr_zero family sa :
  get_my_sockaddr h family sockaddr_zero sizeof_pointer = Done sa -> length sa = 128%nat /\ sin6_addr sa = in6addr_any.
Proof.
  unfold get_my_sockaddr. destruct (h_getifaddrs h) as [l|] eqn:Hl; [|done]. simpl.
  destruct (my_sockaddr_found l family (Hifa l eq_refl)) as ([my|] & -> & Hmy); simpl; intros [= <-]; [|done].
  unfold memcpy, sizeof_pointer. split; [rewrite length_app, length_take, length_drop; unfold sockaddr_zero; rewrite length_replicate; lia|].
  unfold sin6_addr. rewrite drop_app_ge by (rewrite length_take; lia). rewrite length_take.
  rewrite Nat.min_l by lia. done.
Qed.

Lemma get_my_sockaddr_faults family : get_my_sockaddr h family sockaddr_zero sizeof_pointer <> Faults.
Proof.
  unfold get_my_sockaddr. destruct (h_getifaddrs h) as [l|] eqn:Hl; [|done]. simpl.
  by destruct (my_sockaddr_found l family (Hifa l eq_refl)) as (o & -> & _).
Qed.

Lemma all_routers_faults link family : all_routers_str link family <> Faults.
Proof. unfold all_routers_str. no_fault. Qed.
Lemma mopts_faults l : forall c, mopts c l <> Faults.
Proof.
  induction l as [|o l IH]; intros c; simpl; [done|]. apply res_bind_faults; [|by auto].
  destruct o; simpl; no_fault.
Qed.
#[local] Hint Resolve set_sockaddr_faults get_my_sockaddr_faults all_routers_faults mopts_faults : mtrace.

Lemma open_socket_faults c source group : open_socket h behind c source group <> Faults.
Proof.
  unfold open_socket, set_hlim, set_filter. no_fault. unfold set_join. no_fault.
  destruct (receiver c); [|done].
  match goal with H : (set_sockaddr h behind _ ≫= _) = Done a5 |- _ =>
    apply res_bind_Done in H as (? & _ & (? & Hreq & [= ->])%res_bind_Done) end.
  rewrite andb_true_r in Hreq. destruct (is_multicast a5); discriminate.
Qed.

(** What [open_socket] leaves in the five addresses. *)
Lemma open_socket_addresses c source group s :
  open_socket h behind c source group = Done s ->
  length (sin6_addr (grp_sock s)) = 16%nat /\ length (sin6_addr (src_sock s)) = 16%nat /\
  length (sin6_addr (dst_sock s)) = 16%nat /\ length (sin6_addr (rcv_sock s)) = 16%nat /\
  (destination c = None -> sin6_addr (dst_sock s) = in6addr_any) /\
  (receiver c = None -> sin6_addr (rcv_sock s) = in6addr_any).
Proof.
  intros (grp & Hg & (? & _ & (src & Hs & (? & _ & (gw & _ & (dst & Hd & (rcv & Hr & (? & _ & (? & _ & (? & _ & (? & _ & [= <-])
    %res_bind_Done)%res_bind_Done)%res_bind_Done)%res_bind_Done)%res_bind_Done)%res_bind_Done)%res_bind_Done)%res_bind_Done)
    %res_bind_Done)%res_bind_Done)%res_bind_Done. simpl.
  apply set_sockaddr_length in Hg, Hs.
  assert (Hdst : length dst = 128%nat /\ (destination c = None -> sin6_addr dst = in6addr_any)).
  { destruct (destination c); [|by apply get_my_sockaddr_zero in Hd as [? ?]].
    apply res_bind_Done in Hd as (? & Hd%set_sockaddr_length & (? & _ & [= <-])%res_bind_Done). done. }
  assert (Hrcv : length rcv = 128%nat /\ (receiver c = None -> sin6_addr rcv = in6addr_any)).
  { destruct (receiver c); [|by apply get_my_sockaddr_zero in Hr as [? ?]].
    apply res_bind_Done in Hr as (? & Hr%set_sockaddr_length & (? & _ & [= <-])%res_bind_Done). done. }
  destruct Hdst, Hrcv. split_and!; [apply length_sin6_addr; lia..|done|done].
Qed.

End safe.

(** * Properties *)

(** C36: Whatever the options, the resolver and the sockets answer, and whatever bytes the response holds, the
    client reads and writes within its buffers and dereferences no NULL pointer, provided that every
    interface of the host has an address and that the memory after an address the resolver gives, which
    the client copies too, can be read. *)
Theorem main_in_bounds h behind opts argv :
  (forall l, h_getifaddrs h = Some l -> Forall (fun o => exists sa, o = Some sa /\ (16 <= length sa)%nat) l) ->
  (128 <= length behind)%nat ->
  main h behind opts argv <> Faults.
Proof.
  intros Hifa Hb. unfold main. apply res_bind_faults; [apply mopts_faults|]. intros c _. no_fault.
  - by apply open_socket_faults.
  - unfold make_packet. no_fault.
  - match goal with H : open_socket _ _ _ _ _ = Done _ |- _ => apply open_socket_addresses in H as (? & ? & ? & ? & _); [|done..] end.
    apply (mtrace_loop_faults h). match goal with H : make_packet _ _ = Done _ |- _ => revert H end.
    unfold make_packet. destruct (_ =? _); [|intros; discriminate]. intros [= <-]. by apply make_ip6_packet_length.
Qed.

(** A query never carries the address of the host: without [-d] the destination, and without [-r] the
    address the response is to be sent to, are the unspecified address, whatever addresses the host has.
    The code means to take the first global one, but copies as many bytes as a pointer has. *)
Theorem query_without_own_address h behind c source group s q :
  (forall l, h_getifaddrs h = Some l -> Forall (fun o => exists sa, o = Some sa /\ (16 <= length sa)%nat) l) ->
  (128 <= length behind)%nat ->
  open_socket h behind c source group = Done s -> make_packet c s = Done q ->
  q = mld1_header MLD_MTRACE (Z.land (maxhops c) 255) (sin6_addr (grp_sock s))
      ++ tr6_query (sin6_addr (src_sock s))
           (match destination c with Some _ => sin6_addr (dst_sock s) | None => in6addr_any end)
           (match receiver c with Some _ => sin6_addr (rcv_sock s) | None => in6addr_any end) 0 (Z.land 255 (hops c)).
Proof.
  intros Hifa Hb Ho Hq. apply open_socket_addresses in Ho as (_ & _ & _ & _ & Hdst & Hrcv); [|done..].
  unfold make_packet in Hq. case_match; [|done]. injection Hq as <-. unfold make_ip6_packet.
  destruct (destination c); [|rewrite Hdst by done]; (destruct (receiver c); [|rewrite Hrcv by done]); done.
Qed.

(** ** The response *)

(** A hop as a router fills it in, and its 60 bytes in the packet. *)
Record hop := Hop {
  hp_qarr : list Z; hp_inifid : list Z; hp_outifid : list Z; hp_lcladdr : in6_addr; hp_rmtaddr : in6_addr;
  hp_counts : list Z; hp_rproto : Z; hp_flags : Z; hp_plen : Z; hp_rflags : Z }.
Definition hop_bytes (p : hop) : list Z :=
  hp_qarr p ++ hp_inifid p ++ hp_outifid p ++ hp_lcladdr p ++ hp_rmtaddr p ++ hp_counts p
  ++ [hp_rproto p; hp_flags p; hp_plen p; hp_rflags p].
Record hop_ok (p : hop) : Prop := {
  ok_qarr : length (hp_qarr p) = 4%nat; ok_inifid : length (hp_inifid p) = 4%nat; ok_outifid : length (hp_outifid p) = 4%nat;
  ok_lcladdr : length (hp_lcladdr p) = 16%nat; ok_rmtaddr : length (hp_rmtaddr p) = 16%nat;
  ok_counts : length (hp_counts p) = 12%nat; ok_rflags : 0 <= hp_rflags p < 256 }.

(** What is printed for the hop number [i]. *)
Definition shown_hop (i : Z) (p : hop) : shown :=
  Shown (- i) (hp_lcladdr p) (hp_rmtaddr p) (s32 (be32_load (hp_inifid p))) (s32 (be32_load (hp_outifid p)))
    (proto_type (hp_rproto p)) (default ""%string (str_rflags (hp_rflags p))).
Fixpoint shown_hops (i : Z) (l : list hop) : list shown :=
  match l with [] => [] | p :: l => shown_hop i p :: shown_hops (i + 1) l end.

Lemma length_hop_bytes p : hop_ok p -> length (hop_bytes p) = 60%nat.
Proof. intros []. unfold hop_bytes. rewrite !length_app. simpl. lia. Qed.

(** A field between two parts of a buffer. *)
Lemma field_at a b c off n : length a = off -> length b = n -> field (a ++ b ++ c) off n = Done b.
Proof.
  intros Ha Hb. rewrite field_Done by (rewrite !length_app; lia).
  rewrite drop_app_length' by done. by rewrite take_app_length' by done.
Qed.

Ltac at_field a b c off n :=
  match goal with H : forall _ _ _ _ _, _ -> _ -> _ -> field _ _ _ = _ |- _ =>
    rewrite (H a b c off n) by (rewrite ?length_app, <-?app_assoc; simpl; done || lia) end.

Lemma show_hop_encodes pre p post i :
  hop_ok p -> show_hop (pre ++ hop_bytes p ++ post) i (length pre) = Done (shown_hop i p).
Proof.
  intros [H1 H2 H3 H4 H5 H6 Hf]. unfold show_hop, hop_bytes. destruct p as [q inif outif lcl rmt cnt proto fl pl rf]. simpl in *.
  rewrite <-!app_assoc. simpl.
  assert (Hfield : forall a b c off n, pre ++ q ++ inif ++ outif ++ lcl ++ rmt ++ cnt ++ proto :: fl :: pl :: rf :: post = a ++ b ++ c ->
    length a = off -> length b = n ->
    field (pre ++ q ++ inif ++ outif ++ lcl ++ rmt ++ cnt ++ proto :: fl :: pl :: rf :: post) off n = Done b)
    by (intros a b c off n ->; apply field_at).
  at_field (pre ++ q) inif (outif ++ lcl ++ rmt ++ cnt ++ proto :: fl :: pl :: rf :: post) (length pre + 4)%nat 4%nat.
  at_field (pre ++ q ++ inif) outif (lcl ++ rmt ++ cnt ++ proto :: fl :: pl :: rf :: post) (length pre + 8)%nat 4%nat.
  at_field (pre ++ q ++ inif ++ outif) lcl (rmt ++ cnt ++ proto :: fl :: pl :: rf :: post) (length pre + 12)%nat 16%nat.
  at_field (pre ++ q ++ inif ++ outif ++ lcl) rmt (cnt ++ proto :: fl :: pl :: rf :: post) (length pre + 28)%nat 16%nat.
  at_field (pre ++ q ++ inif ++ outif ++ lcl ++ rmt ++ cnt) [proto] (fl :: pl :: rf :: post) (length pre + 56)%nat 1%nat.
  at_field (pre ++ q ++ inif ++ outif ++ lcl ++ rmt ++ cnt ++ [proto; fl; pl]) [rf] (post) (length pre + 59)%nat 1%nat.
  simpl. change 255 with (Z.ones 8). rewrite Z.land_ones by lia. change (2 ^ 8) with 256. rewrite (Z.mod_small rf) by done.
  destruct (str_rflags_total rf Hf) as [s Hs]. unfold shown_hop. simpl. rewrite Hs. done.
Qed.

Lemma show_hops_encodes l : forall pre post fuel i,
  Forall hop_ok l -> (length l < fuel)%nat ->
  show_hops fuel (pre ++ concat (hop_bytes <$> l) ++ post) i (length pre) (length pre + length (concat (hop_bytes <$> l))) = Done (shown_hops i l).
Proof.
  induction l as [|p l IH]; intros pre post [|fuel] i Hl Hf; csimpl in *; try lia; cbn [show_hops].
  { simpl. by rewrite Nat.add_0_r, Nat.ltb_irrefl. }
  apply Forall_cons in Hl as [Hp Hl]. pose proof (length_hop_bytes p Hp) as Hlen. rewrite length_app, Hlen.
  rewrite (proj2 (Nat.ltb_lt _ _)) by lia. rewrite <-app_assoc, show_hop_encodes by done. cbn [mbind res_bind].
  replace (length pre + sizeof_tr6_resp)%nat with (length (pre ++ hop_bytes p)) by (rewrite length_app, Hlen; done).
  replace (length pre + (60 + length (concat (hop_bytes <$> l))))%nat with (length (pre ++ hop_bytes p) + length (concat (hop_bytes <$> l)))%nat
    by (rewrite length_app, Hlen; lia).
  rewrite (app_assoc pre), IH by (done || lia). done.
Qed.

(** A query or a response up to its hops, and the three fields that are compared. *)
Lemma query_fields type code mca src dst raddr qid rhlim rest :
  length mca = 16%nat -> length src = 16%nat -> length dst = 16%nat -> length raddr = 16%nat ->
  let packet := mld1_header type code mca ++ tr6_query src dst raddr qid rhlim ++ rest in
  field packet 0 1 = Done [type] /\ field packet 72 3 = Done (le24 qid) /\
  field packet 24 16 = Done src /\ field packet 40 16 = Done dst /\ length packet = (76 + length rest)%nat.
Proof.
  intros Hm Hs Hd Hr packet. unfold packet, mld1_header, tr6_query.
  assert (Hfield : forall a b c off n, packet = a ++ b ++ c -> length a = off -> length b = n -> field packet off n = Done b)
    by (intros a b c off n ->; apply field_at).
  unfold packet, mld1_header, tr6_query in Hfield. rewrite <-!app_assoc in *. split_and!.
  - by apply (Hfield [] [type] ([code; 0; 0; 0; 0; 0; 0] ++ mca ++ src ++ dst ++ raddr ++ le24 qid ++ [rhlim] ++ rest)).
  - apply (Hfield ([type; code; 0; 0; 0; 0; 0; 0] ++ mca ++ src ++ dst ++ raddr) (le24 qid) ([rhlim] ++ rest)); [by rewrite <-!app_assoc| |done].
    rewrite !length_app. simpl. lia.
  - apply (Hfield ([type; code; 0; 0; 0; 0; 0; 0] ++ mca) src (dst ++ raddr ++ le24 qid ++ [rhlim] ++ rest)); [by rewrite <-!app_assoc| |done].
    rewrite !length_app. simpl. lia.
  - apply (Hfield ([type; code; 0; 0; 0; 0; 0; 0] ++ mca ++ src) dst (raddr ++ le24 qid ++ [rhlim] ++ rest)); [by rewrite <-!app_assoc| |done].
    rewrite !length_app. simpl. lia.
  - rewrite !length_app. simpl. lia.
Qed.

(** C35: A response that carries the identifier, the source and the destination of the query is printed
    hop by hop, in order, as the routers filled the hops in; one that differs in any of the three is
    ignored.  The receive buffer has room for fifteen hops. *)
Theorem show_ip6_result_decodes code mca src dst raddr qid rhlim code' mca' src' dst' raddr' qid' rhlim' (l : list hop) :
  length mca = 16%nat -> length src = 16%nat -> length dst = 16%nat -> length raddr = 16%nat ->
  length mca' = 16%nat -> length src' = 16%nat -> length dst' = 16%nat -> length raddr' = 16%nat ->
  Forall hop_ok l -> (1 <= length l <= 15)%nat ->
  let query := mld1_header MLD_MTRACE code mca ++ tr6_query src dst raddr qid rhlim in
  let response := mld1_header MLD_MTRACE_RESP code' mca' ++ tr6_query src' dst' raddr' qid' rhlim' ++ concat (hop_bytes <$> l) in
  show_ip6_result query (receive response).1 (receive response).2 =
  Done (if bool_decide (le24 qid = le24 qid' /\ src = src' /\ dst = dst') then Trace (shown_hops 0 l) else OtherQuery).
Proof.
  intros Hm Hs Hd Hr Hm' Hs' Hd' Hr' Hl Hn query response.
  assert (Hlen : length (concat (hop_bytes <$> l)) = (60 * length l)%nat).
  { clear -Hl. induction Hl as [|p l Hp _ IH]; csimpl; [done|]. rewrite length_app, IH, length_hop_bytes by done. lia. }
  destruct (query_fields MLD_MTRACE code mca src dst raddr qid rhlim []) as (_ & Q1 & Q2 & Q3 & _); [done..|].
  rewrite app_nil_r in Q1, Q2, Q3. fold query in Q1, Q2, Q3.
  destruct (query_fields MLD_MTRACE_RESP code' mca' src' dst' raddr' qid' rhlim' (concat (hop_bytes <$> l)))
    as (_ & _ & _ & _ & Hresp); [done..|]. fold response in Hresp.
  unfold receive. rewrite take_ge by lia. cbn [fst snd]. set (pad := replicate (1024 - length response) 0).
  destruct (query_fields MLD_MTRACE_RESP code' mca' src' dst' raddr' qid' rhlim' (concat (hop_bytes <$> l) ++ pad))
    as (R0 & R1 & R2 & R3 & _); [done..|].
  assert (Hpad : response ++ pad = mld1_header MLD_MTRACE_RESP code' mca' ++ tr6_query src' dst' raddr' qid' rhlim' ++ concat (hop_bytes <$> l) ++ pad)
    by (unfold response; by rewrite <-!app_assoc).
  rewrite <-Hpad in R0, R1, R2, R3. unfold show_ip6_result, sizeof_mld1, sizeof_tr6_query, sizeof_tr6_resp.
  rewrite (proj2 (Nat.ltb_ge _ _)) by lia. rewrite R0. cbn [mbind res_bind head default]. rewrite Z.eqb_refl.
  rewrite Hresp, Hlen. replace (76 + 60 * length l - 24 - 52)%nat with (length l * 60)%nat by lia.
  rewrite Nat.Div0.mod_mul. simpl negb. cbv iota. rewrite Q1, Q2, Q3, R1, R2, R3. cbn [mbind res_bind].
  assert (Ht : negb (bool_decide (le24 qid = le24 qid')) || negb (IN6_ARE_ADDR_EQUAL src src') || negb (IN6_ARE_ADDR_EQUAL dst dst') =
               negb (bool_decide (le24 qid = le24 qid' /\ src = src' /\ dst = dst'))).
  { unfold IN6_ARE_ADDR_EQUAL. repeat case_bool_decide; simpl; tauto || (exfalso; tauto). }
  rewrite Ht. clear Ht. case_bool_decide; [|done]. simpl negb. cbv iota.
  assert (Hpre : length (mld1_header MLD_MTRACE_RESP code' mca' ++ tr6_query src' dst' raddr' qid' rhlim') = 76%nat)
    by (unfold mld1_header, tr6_query; rewrite !length_app; simpl; lia).
  rewrite Hpad, app_assoc. replace (24 + 52)%nat with 76%nat by lia.
  replace (76 + 60 * length l)%nat with (76 + length (concat (hop_bytes <$> l)))%nat by lia. rewrite <-Hpre at 2 3.
  rewrite show_hops_encodes; [done|done|lia].
Qed.

(** * The theorems on a sample *)

Definition sockaddr_in6 (a : in6_addr) : list Z := [10; 0; 0; 0; 0; 0; 0; 0] ++ a ++ [0; 0; 0; 0].
Definition unicast (i : Z) : in6_addr := [32; 1; 13; 184] ++ replicate 11 0 ++ [i].
Definition some_group : in6_addr := [255; 62] ++ replicate 13 0 ++ [1].
Definition sample_hop : hop := Hop [0; 0; 0; 9] [0; 0; 0; 2] [255; 255; 255; 255] (unicast 5) (unicast 6) (replicate 12 0) PROTO_MLD 0 128 0.
Definition sample_response : list Z :=
  mld1_header MLD_MTRACE_RESP 0 some_group ++ tr6_query (unicast 1) in6addr_any in6addr_any 77 64 ++ concat (hop_bytes <$> [sample_hop]).
Definition sample_host : Host := {|
  h_getaddrinfo := fun s => Some (sockaddr_in6 (if String.eqb s "group" then some_group else if String.eqb s "source" then unicast 1 else [255; 2] ++ replicate 13 0 ++ [1]));
  h_getifaddrs := Some [Some (sockaddr_in6 (unicast 9))]; h_nametoindex := fun _ => 1; h_socket := true; h_setsockopt := true;
  h_random := 77; h_sendto := true; h_reply := Some sample_response; h_recvfrom := true; h_from_family := AF_INET6 |}.

Lemma sample_ifaddrs l :
  h_getifaddrs sample_host = Some l -> Forall (fun o => exists sa, o = Some sa /\ (16 <= length sa)%nat) l.
Proof. intros [= <-]. apply Forall_singleton. eexists. split; [done|]. simpl. lia. Qed.

Lemma proto_type_unknown_witness : proto_type PROTO_MLD = ProtoUnknown 8.
Proof. apply proto_type_unknown; unfold PROTO_MLD; lia. Defined.

Lemma main_in_bounds_witness : main sample_host (replicate 128 0) [MNumeric; MHops 32] ["source"; "group"]%string <> Faults.
Proof. apply main_in_bounds; [apply sample_ifaddrs|by rewrite length_replicate]. Defined.

Definition sample_socks : socks :=
  match open_socket sample_host (replicate 128 0) settings_default "source" "group" with
  | Done s => s | _ => Socks [] [] [] [] []
  end.
Lemma query_without_own_address_witness :
  make_ip6_packet settings_default sample_socks =
  mld1_header MLD_MTRACE (Z.land 127 255) (sin6_addr (grp_sock sample_socks))
  ++ tr6_query (sin6_addr (src_sock sample_socks)) in6addr_any in6addr_any 0 (Z.land 255 64).
Proof.
  apply (query_without_own_address sample_host (replicate 128 0) settings_default "source" "group");
    [apply sample_ifaddrs|by rewrite length_replicate|vm_compute; reflexivity|vm_compute; reflexivity].
Defined.

Lemma show_ip6_result_decodes_witness :
  show_ip6_result (mld1_header MLD_MTRACE 127 some_group ++ tr6_query (unicast 1) in6addr_any in6addr_any 77 64)
    (receive sample_response).1 (receive sample_response).2 =
  Done (Trace [Shown 0 (unicast 5) (unicast 6) 2 (-1) (ProtoUnknown 8) "NOERR"]).
Proof.
  apply (show_ip6_result_decodes 127 some_group (unicast 1) in6addr_any in6addr_any 77 64 0 some_group (unicast 1) in6addr_any in6addr_any 77 64 [sample_hop]);
    try done; [apply Forall_singleton; by split|simpl; lia].
Defined.
