(* ===== verification/Rfc3810.v ===== *)
(** The specification [src/mld2_logic.c] is written against: the tables of RFC 3810, section 7.4.1 for Current State Records (IS_IN, IS_EX)
    and 7.4.2 for Filter Mode Change and Source List Change Records, for a router's filter state of one multicast
    address on one link, with what section 7.6.3 says of the timers when a query is sent.  Timers are absolute expiry times; [X] and the
    INCLUDE list are finite maps from sources to timers, [Y] a set. *)

From S2P Require Import Prelude Msrc.
#[local] Open Scope Z_scope.

Abbreviation timers := (gmap in6_addr Z).
Abbreviation addr_set := (gset in6_addr).

Inductive rfc_state :=
| RInclude (A : timers)
| RExclude (X : timers) (Y : addr_set) (filter_timer : Z).

(** A query: for one set of sources, or the general query of the address. *)
Inductive rfc_query := QSources (S : addr_set) | QGroup.

(** Lower the timers of the sources [S] to [t], where they are larger (section 7.6.3.2); restrict a map to sources. *)
Definition lower_timers (S : addr_set) (t : Z) (m : timers) : timers :=
  map_imap (fun a v => Some (if decide (a ∈ S) then Z.min v t else v)) m.
Definition restrict (m : timers) (S : addr_set) : timers := filter (fun kv => kv.1 ∈ S) m.
(** [m + S], the sources of [S] running for [t]. *)
Definition add_timers (m : timers) (S : addr_set) (t : Z) : timers := gset_to_gmap t S ∪ m.
(** [m + S], only the new sources getting the timer [t]. *)
Definition add_new_timers (m : timers) (S : addr_set) (t : Z) : timers := m ∪ gset_to_gmap t S.

(** The Last Listener Query Time: the Last Listener Query Interval, by default one second, times the Last Listener Query Count, by default the
    Robustness Variable.  The [LLQI] of the code is the same number of seconds. *)
Definition LLQT : Z := 1 * ECMH_ROBUSTNESS_FACTOR.
Lemma LLQT_is_LLQI : LLQT = LLQI.
Proof. done. Qed.

Section rfc.
(** The time and the two delays: Multicast Address Listening Interval and
    Last Listener Query Time.  [Send Q(MA)] lowers the filter timer (section 7.6.3.1), [Send Q(MA,S)] the source timers of [S]. *)
Context (now mali llqt : Z).

Definition rfc_include (A : timers) (mode : Z) (B : addr_set) : rfc_state * list rfc_query :=
  match mode with
  | 1 (* IS_IN *) | 5 (* ALLOW *) => (RInclude (add_timers A B (now + mali)), [])
  | 3 (* TO_IN *) =>
    let q := dom A ∖ B in
    (RInclude (lower_timers q (now + llqt) (add_timers A B (now + mali))), [QSources q])
  | 2 (* IS_EX *) => (RExclude (restrict A B) (B ∖ dom A) (now + mali), [])
  | 4 (* TO_EX *) =>
    let q := dom A ∩ B in
    (RExclude (lower_timers q (now + llqt) (restrict A B)) (B ∖ dom A) (now + mali), [QSources q])
  | 6 (* BLOCK *) =>
    let q := dom A ∩ B in (RInclude (lower_timers q (now + llqt) A), [QSources q])
  | _ => (RInclude A, [])
  end.

Definition rfc_exclude (X : timers) (Y : addr_set) (ft : Z) (mode : Z) (A : addr_set) : rfc_state * list rfc_query :=
  match mode with
  | 1 | 5 => (RExclude (add_timers X A (now + mali)) (Y ∖ A) ft, [])
  | 3 =>
    let q := dom X ∖ A in
    (RExclude (lower_timers q (now + llqt) (add_timers X A (now + mali))) (Y ∖ A) (Z.min ft (now + llqt)), [QSources q; QGroup])
  | 2 => (RExclude (add_new_timers (restrict X (A ∖ Y)) (A ∖ dom X ∖ Y) (now + mali)) (Y ∩ A) (now + mali), [])
  | 4 =>
    let q := A ∖ Y in
    (RExclude (lower_timers q (now + llqt) (add_new_timers (restrict X (A ∖ Y)) (A ∖ dom X ∖ Y) ft)) (Y ∩ A) (now + mali), [QSources q])
  | 6 =>
    let q := A ∖ Y in
    (RExclude (lower_timers q (now + llqt) (add_new_timers X (A ∖ dom X ∖ Y) ft)) Y ft, [QSources q])
  | _ => (RExclude X Y ft, [])
  end.

Definition rfc_step (s : rfc_state) (mode : Z) (B : addr_set) : rfc_state * list rfc_query :=
  match s with
  | RInclude A => rfc_include A mode B
  | RExclude X Y ft => rfc_exclude X Y ft mode B
  end.
End rfc.

(** Lookups in the operations on timers. *)
Lemma lookup_lower_timers S t m a : lower_timers S t m !! a = (fun v => if decide (a ∈ S) then Z.min v t else v) <$> m !! a.
Proof. unfold lower_timers. rewrite map_lookup_imap. by destruct (m !! a). Qed.
Lemma lookup_restrict m S a : restrict m S !! a = if decide (a ∈ S) then m !! a else None.
Proof.
  unfold restrict. rewrite map_lookup_filter. destruct (m !! a) as [v|] eqn:E; simpl; [|by case_decide].
  case_decide; simpl; [by rewrite option_guard_True|by rewrite option_guard_False].
Qed.
Lemma lookup_add_timers m S t a : add_timers m S t !! a = if decide (a ∈ S) then Some t else m !! a.
Proof.
  unfold add_timers. rewrite lookup_union, lookup_gset_to_gmap. case_decide.
  - rewrite option_guard_True by done. simpl. by destruct (m !! a).
  - rewrite option_guard_False by done. by destruct (m !! a).
Qed.
Lemma lookup_add_new_timers m S t a :
  add_new_timers m S t !! a = match m !! a with Some v => Some v | None => if decide (a ∈ S) then Some t else None end.
Proof.
  unfold add_new_timers. rewrite lookup_union, lookup_gset_to_gmap.
  destruct (m !! a) as [v|]; case_decide; rewrite ?option_guard_True, ?option_guard_False by done; done.
Qed.
Lemma lookup_const_timers (S : addr_set) (t : Z) a : gset_to_gmap t S !! a = if decide (a ∈ S) then Some t else None.
Proof. rewrite lookup_gset_to_gmap. case_decide; [by rewrite option_guard_True|by rewrite option_guard_False]. Qed.
#[export] Hint Rewrite lookup_const_timers lookup_lower_timers lookup_restrict lookup_add_timers lookup_add_new_timers : timers.
