(* ===== verification/Mld2Refine.v ===== *)
(** [handle_downstream_subscription] against the tables of RFC 3810: the abstraction of
    an entry, what each branch of the code does to it, and where the two agree. *)

From S2P Require Import Prelude LinkList Msrc World Interfaces Send Groups Rfc3810 Routing Mld2Logic.
#[local] Open Scope Z_scope.

(** * Abstraction *)

Definition timers_of (l : sources) : timers := list_to_map ((fun s => (s_addr s, s_timer s)) <$> live l).
Definition addr_set_of (l : sources) : addr_set := list_to_set (addrs l).

Definition abs (gi : grpintnode) : rfc_state :=
  if gi_filter_mode gi =? MLD2_MODE_IS_INCLUDE then RInclude (timers_of (gi_includes gi))
  else RExclude (timers_of (gi_includes gi)) (addr_set_of (gi_excludes gi)) (gi_filter_timer gi).

(** No entry means INCLUDE of nothing. *)
Definition abs_view (o : option grpintnode) : rfc_state :=
  match o with Some gi => abs gi | None => RInclude ∅ end.

Lemma lookup_timers_of l a : timers_of l !! a = s_timer <$> find_by s_addr a (live l).
Proof.
  unfold timers_of. induction (live l) as [|s k IH]; csimpl; [done|].
  case_decide as E; [rewrite <-E; by rewrite lookup_insert_eq|]. by rewrite lookup_insert_ne.
Qed.
Lemma elem_addr_set_of l a : a ∈ addr_set_of l <-> a ∈ addrs l.
Proof. unfold addr_set_of. by rewrite elem_of_list_to_set. Qed.
Lemma dom_timers_of l : dom (timers_of l) = addr_set_of l.
Proof.
  apply set_eq. intros a. rewrite elem_of_dom, elem_addr_set_of, lookup_timers_of, fmap_is_Some.
  unfold keys. destruct (find_by s_addr a (live l)) as [s|] eqn:E.
  - split; [intros _|by eexists]. apply find_by_Some in E as [Hs <-]. by apply list_elem_of_fmap_2.
  - apply find_by_None in E. split; [by intros []|done].
Qed.

Section find_by_filter.
Context {A K : Type} `{EqDecision K} (key : A -> K).
Lemma find_by_filter (P : K -> Prop) `{!forall k, Decision (P k)} (Q : A -> Prop) `{!forall x, Decision (Q x)} k l :
  (forall x, Q x <-> P (key x)) ->
  find_by key k (filter Q l) = if decide (P k) then find_by key k l else None.
Proof.
  intros HQ. induction l as [|x l IH]; [by case_decide|]. rewrite filter_cons. cbn [find_by].
  destruct (decide (key x = k)) as [<-|Hk].
  - destruct (decide (Q x)) as [Hx|Hx]; rewrite HQ in Hx; cbn [find_by].
    + by rewrite !decide_True.
    + by rewrite IH, !decide_False.
  - destruct (decide (Q x)); cbn [find_by]; [by rewrite decide_False|done].
Qed.
Lemma find_by_fresh k (seen : list K) l :
  find_by key k (fresh_elems key seen l) = if decide (k ∈ seen) then None else find_by key k l.
Proof.
  revert seen. induction l as [|x l IH]; intros seen; simpl; [by case_decide|]. case_decide as Hx; simpl.
  - rewrite IH. repeat case_decide; try done. congruence.
  - rewrite IH. case_decide as E; [subst; by rewrite decide_False|]. 
    destruct (decide (k ∈ seen)) as [H|H]; [apply decide_True; apply elem_of_app; by left|].
    apply decide_False. rewrite elem_of_app, list_elem_of_singleton. naive_solver.
Qed.
Lemma find_by_fmap (f : A -> A) k l : (forall x, key (f x) = key x) -> find_by key k (f <$> l) = f <$> find_by key k l.
Proof. intros Hf. induction l as [|x l IH]; csimpl; [done|]. rewrite Hf. by case_decide. Qed.
End find_by_filter.

(** ** The list operations on timers *)

Lemma timers_difference a b k : timers_of (list_difference msrc_cmp a b) !! k = if decide (k ∈ addrs b) then None else timers_of a !! k.
Proof.
  rewrite !lookup_timers_of, (live_difference s_addr msrc_cmp).
  rewrite (find_by_filter s_addr (fun x => x ∉ addrs b)) by done. by repeat case_decide.
Qed.
Lemma timers_intersect a b : timers_of (list_intersect msrc_cmp a b) = restrict (timers_of a) (addr_set_of b).
Proof.
  apply map_eq. intros k. rewrite lookup_restrict, !lookup_timers_of, (live_intersect s_addr msrc_cmp).
  rewrite (find_by_filter s_addr (fun x => x ∈ addrs b)) by done. repeat case_decide; try done; by rewrite elem_addr_set_of in *.
Qed.
Lemma timers_union a b k :
  timers_of (list_union msrc_cmp a (Some b)) !! k = match timers_of a !! k with Some t => Some t | None => timers_of b !! k end.
Proof.
  rewrite !lookup_timers_of, (live_union s_addr msrc_cmp), find_by_app, find_by_fresh.
  destruct (find_by s_addr k (live a)) as [s|] eqn:E; simpl; [done|]. apply find_by_None in E. by rewrite decide_False.
Qed.
Lemma timers_remove_all a b k :
  NoDup (addrs a) ->
  timers_of (list_remove_all msrc_cmp a b) !! k = if decide (k ∈ addrs b) then None else timers_of a !! k.
Proof.
  intros. rewrite !lookup_timers_of, (live_remove_all s_addr msrc_cmp) by done.
  rewrite (find_by_filter s_addr (fun x => x ∉ addrs b)) by done. by repeat case_decide.
Qed.
Lemma timers_set_source_timers l which t k :
  timers_of (set_source_timers l (Some which) t) !! k =
  (fun v => if decide (k ∈ addrs which) then u32 t else v) <$> timers_of l !! k.
Proof.
  rewrite !lookup_timers_of, live_set_source_timers, find_by_fmap by (intros; apply retime_addr).
  destruct (find_by s_addr k (live l)) as [s|] eqn:E; simpl; [|done]. apply find_by_Some in E as [_ <-].
  unfold retime, selected. rewrite member_addrs. by case_bool_decide; case_decide.
Qed.
Lemma timers_set_all l t k : timers_of (set_source_timers l None t) !! k = (fun _ => u32 t) <$> timers_of l !! k.
Proof.
  rewrite !lookup_timers_of, live_set_source_timers, find_by_fmap by done. by destruct (find_by s_addr k (live l)).
Qed.
Lemma timers_add_all a b : timers_of (list_add_all msrc_cmp a b) = timers_of a.
Proof. unfold timers_of. by rewrite live_add_all. Qed.
(** * Following one entry through a branch *)

(** The queries sent, [None] for the general one, against those of the tables. *)
Fixpoint queries_match (qs : list (option in6_addr)) (q : list rfc_query) : Prop :=
  match q with
  | [] => qs = []
  | QSources srcs :: q => exists l rest, qs = (Some <$> l) ++ rest /\ list_to_set l = srcs /\ queries_match rest q
  | QGroup :: q => exists rest, qs = None :: rest /\ queries_match rest q
  end.
Lemma queries_match_one l srcs : list_to_set l = srcs -> queries_match (Some <$> l) [QSources srcs].
Proof. intros ?. exists l, []. by rewrite app_nil_r. Qed.

(** The group list with the entry at [p] replaced. *)
Definition put (p : nat * nat) (gi : grpintnode) (gs : list groupnode) : list groupnode :=
  alter (fun g => set_interfaces (<[p.2 := gi]> (g_interfaces g)) g) p.1 gs.

(** The entry at [p] is now [gi], and the queries [qs] were sent; otherwise the state is as in [w0]. *)
Record tracked (intn : nat) (n : intnode) (p : nat * nat) (mca : in6_addr) (w0 : world)
    (gi : grpintnode) (qs : list (option in6_addr)) (w : world) : Prop := {
  tr_groups : w_groups w = put p gi (w_groups w0);
  tr_sent : sent intn n (qs ≫= query_events (w_cfg w0) n mca) (set_groups (w_groups w) w0) w }.

Section tracked.
Context (os : OS) (now : Z) (Hnow : forall t, os_time os t = now).
Context (intn : nat) (n : intnode) (p : nat * nat) (mca : in6_addr) (w0 : world) (g0 : groupnode) (gi0 : grpintnode).
Context (Hg0 : w_groups w0 !! p.1 = Some g0) (Hgi0 : g_interfaces g0 !! p.2 = Some gi0).
Abbreviation tracked := (tracked intn n p mca w0).

Lemma tracked_init : w_ints w0 !! intn = Some n -> tracked gi0 [] w0.
Proof.
  intros Hn. split.
  - unfold put. symmetry. apply list_eq. intros j. rewrite list_lookup_alter. case_decide; [subst j|done].
    rewrite Hg0. simpl. destruct g0. by rewrite list_insert_id.
  - destruct w0. split_and!; try done. by exists n.
Qed.

Lemma lookup_put gi gs : gs = put p gi (w_groups w0) ->
  exists g, gs !! p.1 = Some g /\ g_interfaces g !! p.2 = Some gi.
Proof.
  intros ->. unfold put. rewrite list_lookup_alter_eq, Hg0. eexists. split; [done|]. simpl.
  apply list_lookup_insert_eq. by eapply lookup_lt_Some.
Qed.

Lemma tracked_grpint_at gi qs w (Q : grpintnode -> world -> Prop) E :
  tracked gi qs w -> Q gi w -> spec (grpint_at p) os w Q E.
Proof. intros [Hp _] HQ. destruct (lookup_put _ _ Hp) as (g & ? & ?). by eapply grpint_at_spec. Qed.

Lemma put_put gi gi' : alter (fun n => set_interfaces (<[p.2 := gi']> (g_interfaces n)) n) p.1 (put p gi (w_groups w0)) = put p gi' (w_groups w0).
Proof.
  unfold put. apply list_eq. intros j. rewrite !list_lookup_alter. destruct (decide (p.1 = j)) as [<-|Hj]; rewrite ?decide_True, ?decide_False by done; [|done].
  rewrite Hg0. simpl. unfold set_interfaces. simpl. by rewrite list_insert_insert_eq.
Qed.

Lemma alter_put f gi : alter (fun n => set_interfaces (alter f p.2 (g_interfaces n)) n) p.1 (put p gi (w_groups w0)) = put p (f gi) (w_groups w0).
Proof.
  rewrite <-(put_put gi (f gi)). destruct (lookup_put gi _ eq_refl) as (g & Hg & Hgi).
  apply list_eq. intros j. rewrite !(list_lookup_alter _ (put _ _ _)). destruct (decide (p.1 = j)) as [<-|Hj]; rewrite ?decide_True, ?decide_False by done; [|done].
  rewrite Hg. simpl. do 2 f_equal. apply list_eq. intros k. rewrite list_lookup_alter. destruct (decide (p.2 = k)) as [<-|].
  - rewrite Hgi, list_lookup_insert_eq; [done|by eapply lookup_lt_Some].
  - by rewrite list_lookup_insert_ne.
Qed.

Lemma tracked_upd f gi qs w (Q : unit -> world -> Prop) E :
  tracked gi qs w -> (forall w', tracked (f gi) qs w' -> Q tt w') -> spec (upd_grpint p f) os w Q E.
Proof.
  intros [Hp Hs] HQ. destruct (lookup_put _ _ Hp) as (g & ? & ?). eapply upd_grpint_spec; [done..|].
  apply HQ. split; simpl; [by rewrite Hp, alter_put|].
  destruct Hs as (? & ? & ? & _ & Hr). split_and!; try done; apply Hr.
Qed.

Lemma tracked_time gi qs w (Q : Z -> world -> Prop) E :
  tracked gi qs w -> (forall w', tracked gi qs w' -> Q now w') -> spec time os w Q E.
Proof. intros [Hp Hs] HQ. apply spec_os_call. rewrite Hnow. apply HQ. by split. Qed.

Lemma tracked_sent gi qs qs' w w' n' :
  tracked gi qs w -> int_like n n' -> sent intn n' (qs' ≫= query_events (w_cfg w0) n mca) w w' -> tracked gi (qs ++ qs') w'.
Proof.
  intros [Hp Hs] Hl Hs'. pose proof Hs' as (_ & _ & _ & Hg & _). split; [congruence|].
  rewrite bind_app, Hg. by eapply sent_trans.
Qed.

Lemma tracked_mquery gi qs w l (Q : unit -> world -> Prop) E :
  tracked gi qs w -> (forall w', tracked gi (qs ++ (Some <$> addrs l)) w' -> Q tt w') ->
  spec (mld_send_mquery intn mca l false) os w Q E.
Proof.
  intros Ht HQ. pose proof Ht as [_ ((n' & Hn' & Hl) & _ & _ & _ & Hc & _)]. simpl in Hc.
  eapply spec_mono; [by eapply mld_send_mquery_spec| |done]. cbv beta. intros [] w' Hs. apply HQ.
  eapply tracked_sent; [done..|]. rewrite Hc in Hs. rewrite list_fmap_bind.
  eapply (eq_rect _ (fun e => sent intn n' e w w')); [exact Hs|]. apply list_bind_ext; [|done].
  intros a. by apply query_events_like.
Qed.
Lemma tracked_query gi qs w (Q : unit -> world -> Prop) E :
  tracked gi qs w -> (forall w', tracked gi (qs ++ [None]) w' -> Q tt w') ->
  spec (mld_send_query intn mca None false) os w Q E.
Proof.
  intros Ht HQ. pose proof Ht as [_ ((n' & Hn' & Hl) & _ & _ & _ & Hc & _)]. simpl in Hc.
  eapply spec_mono; [by eapply mld_send_query_spec| |done]. cbv beta. intros [] w' Hs. apply HQ.
  eapply tracked_sent; [done..|]. rewrite Hc, (query_events_like _ _ _ _ _ Hl) in Hs. csimpl. by rewrite app_nil_r.
Qed.
End tracked.

(** One step of a tracked body. *)
Ltac tr_step :=
  match goal with
  | |- spec (_ ≫= _) _ _ _ _ => apply spec_bind
  | |- spec (mret _) _ _ _ _ => apply spec_ret
  | |- spec (let _ := _ in _) _ _ _ _ => cbv zeta
  | H : tracked _ _ _ _ _ _ _ ?w |- spec (grpint_at _) _ ?w _ _ => eapply tracked_grpint_at; [eassumption..|]
  | H : tracked _ _ _ _ _ _ _ ?w |- spec (upd_grpint _ _) _ ?w _ _ =>
    eapply tracked_upd; [eassumption..|]; clear H; let w' := fresh "w" in intros w' H
  | H : tracked _ _ _ _ _ _ _ ?w |- spec time _ ?w _ _ =>
    eapply tracked_time; [eassumption..|]; clear H; let w' := fresh "w" in intros w' H
  | H : tracked _ _ _ _ _ _ _ ?w |- spec (mld_send_mquery _ _ _ _) _ ?w _ _ =>
    eapply tracked_mquery; [eassumption..|]; clear H; let w' := fresh "w" in intros w' H
  | H : tracked _ _ _ _ _ _ _ ?w |- spec (mld_send_query _ _ _ _) _ ?w _ _ =>
    eapply tracked_query; [eassumption..|]; clear H; let w' := fresh "w" in intros w' H
  end.

(** * The branches of the code on the abstract state *)

(** The sources [S] get the timer [t], whatever it was before. *)
Definition set_timers (S : addr_set) (t : Z) (m : timers) : timers :=
  map_imap (fun a v => Some (if decide (a ∈ S) then t else v)) m.
Lemma lookup_set_timers S t m a : set_timers S t m !! a = (fun v => if decide (a ∈ S) then t else v) <$> m !! a.
Proof. unfold set_timers. rewrite map_lookup_imap. by destruct (m !! a). Qed.
#[export] Hint Rewrite lookup_set_timers : timers.

(** What the code does to an INCLUDE entry and to an EXCLUDE entry, in the form of the tables, with its delay [llqi]. *)
Definition ecmh_include (now mali llqi : Z) (A : timers) (mode : Z) (B : addr_set) : rfc_state * list rfc_query :=
  match mode with
  | 1 | 5 => (RInclude (add_timers A B (now + mali)), [])
  | 3 => let q := dom A ∖ B in (RInclude (set_timers q (now + llqi) (add_timers A B (now + mali))), [QSources q])
  | 2 => (RExclude (restrict A B) (B ∖ dom A) (now + mali), [])
  | 4 => let q := dom A ∩ B in (RExclude (set_timers q (now + llqi) (restrict A B)) (B ∖ dom A) (now + mali), [QSources q])
  | 6 => let q := dom A ∩ B in (RInclude (set_timers q (now + llqi) A), [QSources q])
  | _ => (RInclude A, [])
  end.
Definition ecmh_exclude (now mali llqi : Z) (X : timers) (Y : addr_set) (ft : Z) (mode : Z) (A : addr_set) : rfc_state * list rfc_query :=
  match mode with
  | 1 | 5 => (RExclude (gset_to_gmap (now + mali) (dom X ∪ A)) (Y ∩ A) ft, [])
  | 3 =>
    let q := dom X ∖ A in
    (RExclude (set_timers q (now + llqi) (gset_to_gmap (now + mali) (dom X ∪ A))) (Y ∩ A) (now + llqi), [QSources q; QGroup])
  | 2 => (RExclude (restrict X A) (Y ∩ A) (now + mali), [])
  | 4 => let q := A ∖ Y in (RExclude (set_timers q (now + llqi) (restrict X A)) (Y ∩ A) (now + mali), [QSources q])
  | 6 => let q := A ∖ Y in (RExclude (set_timers q (now + llqi) X) Y ft, [QSources q])
  | _ => (RExclude X Y ft, [])
  end.

Definition ecmh_step (now mali llqi : Z) (s : rfc_state) (mode : Z) (B : addr_set) : rfc_state * list rfc_query :=
  match s with
  | RInclude A => ecmh_include now mali llqi A mode B
  | RExclude X Y ft => ecmh_exclude now mali llqi X Y ft mode B
  end.

Definition stepped intn n p mca w0 (gi : grpintnode) (r : rfc_state * list rfc_query) (w : world) : Prop :=
  exists gi' qs, tracked intn n p mca w0 gi' qs w /\ grpint_wf gi' /\ gi_ifindex gi' = gi_ifindex gi /\
    abs gi' = r.1 /\ queries_match qs r.2.

Lemma in_addrs_timers l k : k ∈ addrs l <-> is_Some (timers_of l !! k).
Proof. by rewrite <-elem_of_dom, dom_timers_of, elem_addr_set_of. Qed.
Lemma list_to_set_addrs l : list_to_set (addrs l) = addr_set_of l.
Proof. done. Qed.

#[export] Hint Rewrite timers_difference timers_intersect timers_union timers_set_source_timers timers_set_all timers_add_all : timers.
Lemma in_difference (X Y : addr_set) k : k ∈ X ∖ Y <-> k ∈ X /\ k ∉ Y.
Proof. apply elem_of_difference. Qed.
Lemma in_intersection (X Y : addr_set) k : k ∈ X ∩ Y <-> k ∈ X /\ k ∈ Y.
Proof. apply elem_of_intersection. Qed.
Lemma in_union (X Y : addr_set) k : k ∈ X ∪ Y <-> k ∈ X \/ k ∈ Y.
Proof. apply elem_of_union. Qed.
Lemma in_list_to_set (l : list in6_addr) k : k ∈ (list_to_set l : addr_set) <-> k ∈ l.
Proof. apply elem_of_list_to_set. Qed.
#[export] Hint Rewrite in_list_to_set in_difference in_intersection in_union dom_timers_of elem_addr_set_of
  elem_difference elem_intersect elem_union addrs_set_source_timers addrs_add_all : timer_sets.
#[export] Hint Rewrite in_addrs_timers : timer_members.

(** Equality of two maps of timers, by cases on membership. *)
Ltac timers_cases :=
  repeat match goal with H : u32 ?x = _ |- context [u32 ?x] => rewrite H end;
  repeat case_decide; autorewrite with timer_sets in *; autorewrite with timer_members in *;
  repeat match goal with |- context [timers_of ?l !! ?a] => destruct (timers_of l !! a) eqn:? end;
  simpl; try done; unfold is_Some in *; naive_solver.
Ltac timers_eq := apply map_eq; intros k; autorewrite with timers; timers_cases.
(** Equality of two sets of addresses. *)
Ltac addrs_eq := apply set_eq; intros k; autorewrite with timer_sets; naive_solver.

Lemma adds_sources_cases mode : adds_sources mode = true -> mode = 1 \/ mode = 5 \/ mode = 3.
Proof. unfold adds_sources. rewrite !orb_true_iff, !Z.eqb_eq. unfold MLD2_MODE_IS_INCLUDE, MLD2_ALLOW_NEW_SOURCES, MLD2_CHANGE_TO_INCLUDE. lia. Qed.
Lemma sets_exclude_cases mode : sets_exclude mode = true -> mode = 2 \/ mode = 4.
Proof. unfold sets_exclude. rewrite !orb_true_iff, !Z.eqb_eq. unfold MLD2_MODE_IS_EXCLUDE, MLD2_CHANGE_TO_EXCLUDE. lia. Qed.

(** The two removals of [exclude_replace]. *)
Lemma replaced_lists (X Y A : sources) :
  NoDup (addrs X) -> NoDup (addrs Y) ->
  let XminusA := list_difference msrc_cmp X A in
  let Y1 := list_remove_all msrc_cmp Y XminusA in
  let YminusA := list_difference msrc_cmp Y1 A in
  let X2 := list_remove_all msrc_cmp (list_remove_all msrc_cmp X XminusA) YminusA in
  let Y2 := list_remove_all msrc_cmp Y1 YminusA in
  NoDup (addrs X2) /\ NoDup (addrs Y2) /\ timers_of X2 = restrict (timers_of X) (addr_set_of A) /\
  forall k, k ∈ addrs Y2 <-> k ∈ addrs Y /\ k ∈ addrs A.
Proof.
  intros HX HY XminusA Y1 YminusA X2 Y2.
  assert (HX1 : NoDup (addrs (list_remove_all msrc_cmp X XminusA))) by auto with ecmh.
  assert (HY1 : NoDup (addrs Y1)) by (unfold Y1; auto with ecmh).
  split_and!; [unfold X2; auto with ecmh|unfold Y2; auto with ecmh| |].
  - apply map_eq. intros k. unfold X2. rewrite !timers_remove_all, lookup_restrict by done.
    unfold YminusA. rewrite (decide_ext _ _ _ _ (elem_addr_set_of A k)).
    destruct (timers_of X !! k) as [t|] eqn:Hk; [|by repeat case_decide].
    assert (k ∈ addrs X) by (apply in_addrs_timers; eauto).
    unfold XminusA. repeat case_decide; autorewrite with timer_sets in *; try done; tauto.
  - intros k. unfold Y2. rewrite (elem_remove_all Y1 YminusA k HY1). unfold YminusA, Y1. autorewrite with timer_sets.
    rewrite (elem_remove_all Y XminusA k HY). unfold XminusA. autorewrite with timer_sets. 
    destruct (decide (k ∈ addrs A)); tauto.
Qed.

Section branches.
Context (os : OS) (now : Z) (Hnow : forall t, os_time os t = now) (Htime : 0 <= now /\ now + MALI < 2 ^ 32).
Context (intn : nat) (n : intnode) (p : nat * nat) (mca : in6_addr) (w0 : world) (g0 : groupnode) (gi0 : grpintnode).
Context (Hg0 : w_groups w0 !! p.1 = Some g0) (Hgi0 : g_interfaces g0 !! p.2 = Some gi0) (Hwf : grpint_wf gi0).
Context (B : sources) (HB : NoDup (addrs B)).
Abbreviation tracked := (tracked intn n p mca w0).
Abbreviation stepped := (stepped intn n p mca w0 gi0).

Let u32_mali : u32 (now + MALI) = now + MALI.
Proof. apply u32_small. assert (MALI = 260) by done. lia. Qed.
Let u32_llqi : u32 (now + LLQI) = now + LLQI.
Proof. apply u32_small. assert (MALI = 260 /\ LLQI = 2) by done. lia. Qed.

Lemma abs_include (gi : grpintnode) : gi_filter_mode gi = 1 -> abs gi = RInclude (timers_of (gi_includes gi)).
Proof. unfold abs. by intros ->. Qed.
Lemma abs_exclude (gi : grpintnode) : gi_filter_mode gi = 2 -> abs gi = RExclude (timers_of (gi_includes gi)) (addr_set_of (gi_excludes gi)) (gi_filter_timer gi).
Proof. unfold abs. by intros ->. Qed.

Lemma include_add_spec mode w :
  gi_filter_mode gi0 = 1 -> adds_sources mode = true -> tracked gi0 [] w ->
  returns (include_add intn p mca mode B) os w (fun _ =>
    stepped (ecmh_include now MALI LLQI (timers_of (gi_includes gi0)) mode (addr_set_of B))).
Proof.
  intros Hm Hmode H. unfold include_add. repeat tr_step.
  assert (Hw : forall l, NoDup (addrs l) -> grpint_wf (set_includes l gi0)) by (intros; destruct Hwf; by split).
  assert (Hu : NoDup (addrs (list_union msrc_cmp (gi_includes gi0) (Some B)))) by (destruct Hwf; auto with ecmh).
  apply adds_sources_cases in Hmode as [-> | [-> | ->]]; simpl Z.eqb; cbv iota; repeat tr_step; do 2 eexists.
  all: split_and!; [done|apply Hw; by rewrite !addrs_set_source_timers|done| |].
  all: try (rewrite abs_include by done; simpl; f_equal; timers_eq); try done.
  simpl. apply queries_match_one. addrs_eq.
Qed.

(** Updating the fields of the entry keeps it well formed. *)
Let wf_xy X Y m t : m = 1 \/ m = 2 -> NoDup (addrs X) -> NoDup (addrs Y) -> 0 <= t < 2 ^ 32 ->
  grpint_wf (Grpint (gi_ifindex gi0) X Y m t).
Proof. intros. by split. Qed.
Let timer_ok : 0 <= gi_filter_timer gi0 < 2 ^ 32.
Proof. apply Hwf. Qed.

Lemma include_block_spec w :
  gi_filter_mode gi0 = 1 -> tracked gi0 [] w ->
  returns (include_block intn p mca B) os w (fun _ =>
    stepped (ecmh_include now MALI LLQI (timers_of (gi_includes gi0)) MLD2_BLOCK_OLD_SOURCES (addr_set_of B))).
Proof.
  intros Hm H. unfold include_block. repeat tr_step. do 2 eexists. split_and!; [done| |done| |].
  - apply wf_xy; [by left| |apply Hwf|done]. simpl. rewrite addrs_set_source_timers. apply Hwf.
  - rewrite abs_include by done. simpl. f_equal. timers_eq.
  - simpl. apply queries_match_one. addrs_eq.
Qed.

Lemma include_to_exclude_spec mode w :
  gi_filter_mode gi0 = 1 -> sets_exclude mode = true -> tracked gi0 [] w ->
  returns (include_to_exclude intn p mca mode B) os w (fun _ =>
    stepped (ecmh_include now MALI LLQI (timers_of (gi_includes gi0)) mode (addr_set_of B))).
Proof.
  intros Hm Hmode H. unfold include_to_exclude, when. repeat tr_step. destruct Hwf as [_ Hi He _].
  assert (Hnd : forall l, NoDup (addrs l) -> forall k t, NoDup (addrs (set_source_timers l k t)))
    by (intros; by rewrite addrs_set_source_timers).
  apply sets_exclude_cases in Hmode as [-> | ->]; simpl Z.eqb; cbv iota; repeat tr_step; do 2 eexists.
  all: split_and!; [done|apply wf_xy; simpl; auto 10 using u32_range with ecmh|done| |].
  all: try (rewrite abs_exclude by done; simpl; f_equal; [timers_eq|addrs_eq|done..]); try done.
  simpl. apply queries_match_one. addrs_eq.
Qed.

Lemma exclude_add_spec mode w :
  gi_filter_mode gi0 = 2 -> adds_sources mode = true -> tracked gi0 [] w ->
  returns (exclude_add intn p mca mode B) os w (fun _ =>
    stepped (ecmh_exclude now MALI LLQI (timers_of (gi_includes gi0)) (addr_set_of (gi_excludes gi0)) (gi_filter_timer gi0)
      mode (addr_set_of B))).
Proof.
  intros Hm Hmode H. unfold exclude_add. repeat tr_step. destruct Hwf as [_ Hi He _].
  assert (Hnd : forall l, NoDup (addrs l) -> forall k t, NoDup (addrs (set_source_timers l k t)))
    by (intros; by rewrite addrs_set_source_timers).
  apply adds_sources_cases in Hmode as [-> | [-> | ->]]; simpl Z.eqb; cbv iota; repeat tr_step; do 2 eexists.
  all: split_and!; [done|apply wf_xy; simpl; auto 10 using u32_range with ecmh|done| |].
  all: try (rewrite abs_exclude by done; simpl; f_equal; [timers_eq|addrs_eq|done..]); try done.
  simpl. eexists _, [None]. split_and!; [done| |by exists []]. addrs_eq.
Qed.

Lemma exclude_replace_spec mode w :
  gi_filter_mode gi0 = 2 -> sets_exclude mode = true -> tracked gi0 [] w ->
  returns (exclude_replace intn p mca mode B) os w (fun _ =>
    stepped (ecmh_exclude now MALI LLQI (timers_of (gi_includes gi0)) (addr_set_of (gi_excludes gi0)) (gi_filter_timer gi0)
      mode (addr_set_of B))).
Proof.
  intros Hm Hmode H. unfold exclude_replace, remove_all_xy, set_timers_xy_time, set_timers_xy. repeat tr_step.
  destruct Hwf as [_ Hi He _]. simpl gi_includes in *. simpl gi_excludes in *.
  destruct (replaced_lists _ _ B Hi He) as (HX2 & HY2 & HtX2 & HaY2).
  revert HX2 HY2 HtX2 HaY2 H.
  set (X2 := list_remove_all _ (list_remove_all _ (gi_includes gi0) _) _).
  set (Y2 := list_remove_all _ (list_remove_all _ (gi_excludes gi0) _) _).
  generalize X2 Y2. clear X2 Y2. intros X2 Y2 HX2 HY2 HtX2 HaY2 H.
  assert (Hnd : forall l, NoDup (addrs l) -> forall k t, NoDup (addrs (set_source_timers l k t)))
    by (intros; by rewrite addrs_set_source_timers).
  apply sets_exclude_cases in Hmode as [-> | ->]; simpl Z.eqb; cbv iota; repeat tr_step; do 2 eexists.
  all: split_and!; [done|apply wf_xy; simpl; auto 10 using u32_range with ecmh|done| |].
  all: try (rewrite abs_exclude by done; simpl; f_equal;
    [apply map_eq; intros k; autorewrite with timers; rewrite HtX2; autorewrite with timers; timers_cases
    |apply set_eq; intros k; autorewrite with timer_sets; apply HaY2|done..]); try done.
  simpl. apply queries_match_one. addrs_eq.
Qed.

Lemma exclude_block_spec w :
  gi_filter_mode gi0 = 2 -> tracked gi0 [] w ->
  returns (exclude_block intn p mca B) os w (fun _ =>
    stepped (ecmh_exclude now MALI LLQI (timers_of (gi_includes gi0)) (addr_set_of (gi_excludes gi0)) (gi_filter_timer gi0)
      MLD2_BLOCK_OLD_SOURCES (addr_set_of B))).
Proof.
  intros Hm H. unfold exclude_block, set_timers_xy_time. repeat tr_step.
  destruct Hwf as [_ Hi He _].
  assert (Hnd : forall l, NoDup (addrs l) -> forall k t, NoDup (addrs (set_source_timers l k t)))
    by (intros; by rewrite addrs_set_source_timers).
  assert (Hadd : forall a b, NoDup (addrs a) -> NoDup (addrs (list_add_all msrc_cmp a b)))
    by (intros; by rewrite addrs_add_all).
  do 2 eexists. split_and!; [done|apply wf_xy; simpl; auto 10 using u32_range with ecmh|done| |].
  - rewrite abs_exclude by done; simpl; f_equal; [timers_eq|addrs_eq|done..].
  - simpl. apply queries_match_one. addrs_eq.
Qed.
End branches.

(** * The whole handler *)

(** The handler, given the record [m] on interface [n], takes [step]: the entry of the group on
    the interface becomes [step.1], the queries [step.2] go out on the interface, and the other
    entries stay. *)
Definition took (step : rfc_state * list rfc_query) (intn : nat) (n : intnode) (m : mrec) (w w' : world) : Prop :=
  groups_wf (w_groups w') /\
  (exists gi', view (w_groups w') (m_mca m) (i_ifindex n) = Some gi' /\ abs gi' = step.1) /\
  (forall mca ifx, mca ≠ m_mca m \/ ifx ≠ i_ifindex n -> view (w_groups w') mca ifx = view (w_groups w) mca ifx) /\
  (exists qs, queries_match qs step.2 /\
    w_trace w' = rev (qs ≫= query_events (w_cfg w) n (m_mca m)) ++ w_trace w) /\
  (exists n', w_ints w' !! intn = Some n' /\ int_like n n') /\
  w_routes w' = w_routes w.

(** Here the step is the one of [ecmh_step], the clock standing still at [now]. *)
Definition handled (now : Z) (intn : nat) (n : intnode) (m : mrec) (w w' : world) : Prop :=
  took (ecmh_step now MALI LLQI (abs_view (view (w_groups w) (m_mca m) (i_ifindex n)))
          (m_filter_mode m) (addr_set_of (m_source_list m))) intn n m w w'.

Lemma put_view p gi g g0 gs mca ifx :
  groups_wf gs -> gs !! p.1 = Some g -> g_interfaces g !! p.2 = Some g0 -> gi_ifindex gi = gi_ifindex g0 -> grpint_wf gi ->
  groups_wf (put p gi gs) /\
  view (put p gi gs) mca ifx = if decide (mca = g_mca g /\ ifx = gi_ifindex g0) then Some gi else view gs mca ifx.
Proof.
  intros Hwf Hg Hg0 Hi Hgi.
  assert (Hgwf : group_wf g) by eauto with ecmh.
  assert (E : <[p.2 := gi]> (g_interfaces g) = alter (fun x => if decide (gi_ifindex x = gi_ifindex gi) then gi else x) p.2 (g_interfaces g)).
  { apply list_eq. intros j. rewrite list_lookup_alter. destruct (decide (p.2 = j)) as [<-|].
    - rewrite Hg0. simpl. rewrite decide_True by done. apply list_lookup_insert_eq. by eapply lookup_lt_Some.
    - by rewrite list_lookup_insert_ne. }
  assert (Hkey : forall x, gi_ifindex (if decide (gi_ifindex x = gi_ifindex gi) then gi else x) = gi_ifindex x)
    by (intros; by case_decide).
  split.
  - apply groups_wf_alter; [done|done|]. intros x Hx Hw. replace x with g by congruence. rewrite E.
    apply group_wf_alter; [done|done|]. intros y Hy _. replace y with g0 by congruence. by rewrite decide_True.
  - unfold put. rewrite (view_alter_group _ _ _ _ _ _ Hwf Hg) by done.
    destruct (decide (mca = g_mca g)) as [->|Hm]; [|rewrite decide_False; naive_solver].
    rewrite E, (group_view_alter _ _ g0) by done. rewrite (decide_True _ _ (eq_sym Hi)).
    rewrite (view_group _ _ _ _ Hwf Hg). repeat case_decide; naive_solver.
Qed.

(** A branch that makes the step on the entry found or created in [w1] handles the record. *)
Lemma stepped_handled now intn n m p g gi w w1 w2 st :
  groups_wf (w_groups w1) -> w_groups w1 !! p.1 = Some g -> g_mca g = m_mca m ->
  g_interfaces g !! p.2 = Some gi -> gi_ifindex gi = i_ifindex n ->
  (forall mca ifx, mca ≠ m_mca m \/ ifx ≠ i_ifindex n -> view (w_groups w1) mca ifx = view (w_groups w) mca ifx) ->
  w_trace w1 = w_trace w -> w_routes w1 = w_routes w -> w_cfg w1 = w_cfg w ->
  st = ecmh_step now MALI LLQI (abs_view (view (w_groups w) (m_mca m) (i_ifindex n))) (m_filter_mode m) (addr_set_of (m_source_list m)) ->
  stepped intn n p (m_mca m) w1 gi st w2 -> handled now intn n m w w2.
Proof.
  intros Hwf1 Hg Hgm Hgi Hgk Hother Ht Hr Hc -> (gi2 & qs & [Hg2 Hs2] & Hw2 & Hi2 & Ha2 & Hq2).
  assert (Hv : forall mca ifx, groups_wf (w_groups w2) /\ view (w_groups w2) mca ifx =
    if decide (mca = m_mca m /\ ifx = i_ifindex n) then Some gi2 else view (w_groups w1) mca ifx).
  { intros mca ifx. rewrite Hg2, <-Hgk, <-Hgm. by apply put_view. }
  unfold handled, took. split_and!.
  - by apply (Hv (m_mca m) 0).
  - exists gi2. split; [|done]. by rewrite (proj2 (Hv _ _)), decide_True.
  - intros mca ifx Hne. rewrite (proj2 (Hv _ _)), decide_False by naive_solver. by apply Hother.
  - exists qs. split; [done|]. destruct Hs2 as (_ & _ & Ht2 & _). simpl in Ht2. congruence.
  - by destruct Hs2 as (? & _).
  - destruct Hs2 as (_ & _ & _ & _ & _ & Hr2 & _). simpl in Hr2. congruence.
Qed.

(** A record on a group the state knows, or not: the code finds or creates the entry
    and applies one branch. *)
Theorem handle_downstream_steps now intn n m os w :
  (forall t, os_time os t = now) -> 0 <= now -> now + MALI < 2 ^ 32 -> (forall t, os_malloc os t = true) ->
  groups_wf (w_groups w) -> w_ints w !! intn = Some n ->
  1 <= m_filter_mode m <= 6 -> mrec_sources_ok m ->
  returns (handle_downstream_subscription intn m) os w (fun destroyed w' => destroyed = false /\ handled now intn n m w w').
Proof.
  intros Hnow Hn0 Hn1 Hmal Hwf Hn Hmode Hsrc. unfold handle_downstream_subscription.
  apply spec_bind.
  pose proof (groupint_get_spec (m_mca m) intn n os w Hwf Hn) as H1.
  assert (Hfr : forall X (f : world -> X), (forall n w, f (set_os n (w_trace w) w) = f w) -> (forall gs w, f (set_groups gs w) = f w) ->
    rel (frames f) (groupint_get (m_mca m) intn)).
  { intros X f Hf1 Hf2. apply rel_groupint_get; [typeclasses eauto|..]; unfold frames; auto. }
  pose proof (rel_spec _ _ os w (Hfr _ w_trace ltac:(done) ltac:(done))) as H2.
  pose proof (rel_spec _ _ os w (Hfr _ w_cfg ltac:(done) ltac:(done))) as H3.
  pose proof (rel_spec _ _ os w (Hfr _ w_routes ltac:(done) ltac:(done))) as H4.
  eapply spec_mono; [exact (spec_conj _ _ _ _ _ _ _ (spec_conj _ _ _ _ _ _ _ H1 H2) (spec_conj _ _ _ _ _ _ _ H3 H4))| |].
  2: { intros f w' [[(_ & _ & t & Ht) _] _]. by rewrite Hmal in Ht. }
  unfold frames. cbv beta. intros [[p|] isnew] w1 [[((Hwf1 & Hother & Hent) & Hi1 & Hoom) Ht] [Hc Hr]]; simpl in *.
  2: { destruct (Hoom eq_refl) as [t Hm]. by rewrite Hmal in Hm. }
  destruct Hent as (gi & Hp & Hgi). pose proof Hp as (g & Hg & Hgm & Hgi' & Hgk).
  assert (Hwgi : grpint_wf gi) by eauto with ecmh.
  assert (Hn1' : w_ints w1 !! intn = Some n) by congruence.
  pose proof (tracked_init intn n p (m_mca m) w1 g gi Hg Hgi' Hn1') as Htr.
  assert (Habs : abs_view (view (w_groups w) (m_mca m) (i_ifindex n)) = abs gi).
  { destruct Hgi as [-> | [-> Hf]]; [done|]. destruct Hf as (_ & Hinc & _ & Hm1 & _). simpl. rewrite abs_include by done. by rewrite Hinc. }
  spec_step. eapply grpint_at_spec; [done..|].
  assert (Hstep : forall k : unit -> M bool, (forall u, k u = mret false) -> forall b : M unit,
    returns b os w1 (fun _ => stepped intn n p (m_mca m) w1 gi (ecmh_step now MALI LLQI (abs gi) (m_filter_mode m) (addr_set_of (m_source_list m)))) ->
    returns (b ≫= k) os w1 (fun destroyed w' => destroyed = false /\ handled now intn n m w w')).
  { intros k Hk b Hb. spec_step. eapply spec_mono; [exact Hb| |done]. cbv beta. intros u w2 Hst.
    rewrite Hk. spec_step. split; [done|]. eapply stepped_handled; [done|exact Hg|done|exact Hgi'|done|exact Hother|done..|by rewrite Habs|exact Hst]. }
  assert (Hts : 0 <= now /\ now + MALI < 2 ^ 32) by done.
  assert (Hsplit : adds_sources (m_filter_mode m) = true \/ sets_exclude (m_filter_mode m) = true \/ m_filter_mode m = 6).
  { assert (m_filter_mode m = 1 \/ m_filter_mode m = 2 \/ m_filter_mode m = 3 \/ m_filter_mode m = 4 \/
      m_filter_mode m = 5 \/ m_filter_mode m = 6) as Hc6 by lia.
    destruct Hc6 as [-> | [-> | [-> | [-> | [-> | ->]]]]]; auto. }
  apply Hstep; [done|]. unfold ecmh_step.
  destruct (wf_mode _ Hwgi) as [Hm | Hm]; [rewrite abs_include by done|rewrite abs_exclude by done]; rewrite Hm; simpl Z.eqb; cbv iota.
  - destruct (adds_sources _) eqn:Ea; [by eapply include_add_spec|].
    destruct (sets_exclude _) eqn:Ee; [by eapply include_to_exclude_spec|].
    destruct Hsplit as [? | [? | Hm6]]; [done..|]. rewrite Hm6. simpl Z.eqb. cbv iota. by eapply include_block_spec.
  - destruct (adds_sources _) eqn:Ea; [by eapply exclude_add_spec|].
    destruct (sets_exclude _) eqn:Ee; [by eapply exclude_replace_spec|].
    destruct Hsplit as [? | [? | Hm6]]; [done..|]. rewrite Hm6. simpl Z.eqb. cbv iota. by eapply exclude_block_spec.
Qed.
