(* ===== verification/Mld2Expire.v ===== *)
(** [expire_sources] and [expire_source] of [src/mld2_logic.c]: the walk over the three
    nested lists, which deletes nodes of the lists it walks, computes a map over the state. *)

From S2P Require Import Prelude LinkList Msrc World Interfaces Groups Samples Routing Mld2Logic.
#[local] Open Scope Z_scope.

(** * What one pass does *)

Definition source_alive (now : Z) (o : option msrc) : Prop :=
  match o with Some s => now < s_timer s | None => True end.
#[export] Instance source_alive_dec now o : Decision (source_alive now o).
Proof. destruct o; simpl; apply _. Defined.

(** An INCLUDE entry loses its expired sources, and goes with its last source; an EXCLUDE entry
    whose filter timer has run out switches to INCLUDE, and goes when it has no source. *)
Definition expire_entry (now : Z) (gi : grpintnode) : option grpintnode :=
  if gi_filter_mode gi =? MLD2_MODE_IS_INCLUDE then
    let l := filter (source_alive now) (gi_includes gi) in
    if bool_decide (l = []) && negb (bool_decide (gi_includes gi = [])) then None else Some (set_includes l gi)
  else if gi_filter_timer gi <=? now then
    if bool_decide (gi_includes gi = []) then None else Some (set_filter_mode MLD2_MODE_IS_INCLUDE gi)
  else Some gi.

Lemma expire_include now gi :
  gi_filter_mode gi = 1 ->
  expire_entry now gi = let l := filter (source_alive now) (gi_includes gi) in
    if decide (l = [] /\ gi_includes gi ≠ []) then None else Some (set_includes l gi).
Proof. intros Hm. unfold expire_entry. rewrite Hm. simpl. repeat case_bool_decide; case_decide; simpl; naive_solver. Qed.

(** A group goes with its last entry. *)
Definition expire_group (now : Z) (g : groupnode) : option groupnode :=
  let l := omap (expire_entry now) (g_interfaces g) in
  if bool_decide (l = []) && negb (bool_decide (g_interfaces g = [])) then None else Some (set_interfaces l g).

(** * The refresh of the upstream subscriptions, seen from here *)

(** [U] are the indices of interfaces that are found, at every time of the walk. *)
Definition refresh_ok (U : Z -> Prop) (w : world) : Prop :=
  is_Some (w_routes w) /\
  forall ifx, U ifx -> 0 <= ifx /\ exists n, w_ints w !! Z.to_nat ifx = Some n /\ i_mtu n ≠ 0.

Definition inv (U : Z -> Prop) (w : world) : Prop := groups_wf (w_groups w) /\ refresh_ok U w.

Lemma keeps_refresh_ok U i : rel (keeps (refresh_ok U)) (handle_upstream_subscription i).
Proof.
  apply rel_handle_upstream; [typeclasses eauto| | | |].
  - intros n w H. exact H.
  - intros e w _ H. exact H.
  - intros j v w [Hr Hu]. split; [done|]. intros ifx H. destruct (Hu ifx H) as (H0 & n & Hn & Hm). split; [done|].
    simpl. rewrite list_lookup_alter. case_decide; [subst j|by eauto]. rewrite Hn. by exists (set_upstream_socket v n).
  - intros l w [Hr Hu]. split; [by eexists|done].
Qed.

Lemma refresh_spec U ifx os w :
  inv U w -> U ifx ->
  returns (intn ← int_find ifx; handle_upstream_subscription intn) os w (fun _ w' => inv U w' /\ w_groups w' = w_groups w).
Proof.
  intros [Hwf Hok] Hu. pose proof Hok as [[l Hl] Hint]. destruct (Hint ifx Hu) as (H0 & n & Hn & Hm).
  apply spec_bind. unfold spec at 1. rewrite int_find_spec, Hn by done. destruct (Z.eqb_spec (i_mtu n) 0); [done|].
  assert (H1 := handle_upstream_faults (Some (Z.to_nat ifx)) os w Hwf).
  specialize (H1 ltac:(intros ? [= <-]; by eapply lookup_lt_Some)).
  pose proof (rel_spec _ _ os w (keeps_refresh_ok U (Some (Z.to_nat ifx)))) as H2.
  pose proof (rel_spec (frames w_groups) (handle_upstream_subscription (Some (Z.to_nat ifx))) os w
    ltac:(by apply rel_handle_upstream; [typeclasses eauto|..])) as H3.
  eapply spec_mono; [exact (spec_conj _ _ _ _ _ _ _ H1 (spec_conj _ _ _ _ _ _ _ H2 H3))|..].
  - unfold frames, keeps, inv. cbv beta. intros _ w' (_ & Hk & Hg). rewrite Hg. auto.
  - cbv beta. intros f w' ((_ & [?|?]) & _); congruence.
Qed.

(** * Working in the middle of the lists *)

Definition mk (G1 : list groupnode) (g : groupnode) (I : list grpintnode) (G2 : list groupnode) : list groupnode :=
  G1 ++ set_interfaces I g :: G2.

Lemma alter_middle {A} (f : A -> A) l1 x l2 : alter f (length l1) (l1 ++ x :: l2) = l1 ++ f x :: l2.
Proof. induction l1 as [|y l1 IH]; [done|]. simpl. f_equal. apply IH. Qed.
Lemma lookup_mid {A} l1 (x : A) l2 : (l1 ++ x :: l2) !! length l1 = Some x.
Proof. by apply list_lookup_middle. Qed.

Section middle.
Context (os : OS) (w : world) (G1 G2 : list groupnode) (g : groupnode) (I1 I2 : list grpintnode) (gi : grpintnode).
Context (Hw : w_groups w = mk G1 g (I1 ++ gi :: I2) G2) (E : fault -> world -> Prop).

Lemma mk_group_at (Q : groupnode -> world -> Prop) :
  Q (set_interfaces (I1 ++ gi :: I2) g) w -> spec (group_at (length G1)) os w Q E.
Proof. intros HQ. eapply group_at_spec; [|exact HQ]. rewrite Hw. apply lookup_mid. Qed.
Lemma mk_grpint_at (Q : grpintnode -> world -> Prop) : Q gi w -> spec (grpint_at (length G1, length I1)) os w Q E.
Proof. intros HQ. eapply grpint_at_spec; [| |exact HQ]; simpl; [rewrite Hw; apply lookup_mid|]. apply lookup_mid. Qed.
Lemma mk_upd f (Q : unit -> world -> Prop) :
  Q tt (set_groups (mk G1 g (I1 ++ f gi :: I2) G2) w) -> spec (upd_grpint (length G1, length I1) f) os w Q E.
Proof.
  intros HQ. eapply upd_grpint_spec; [simpl; rewrite Hw; apply lookup_mid|apply lookup_mid|].
  simpl. rewrite Hw. unfold mk. rewrite alter_middle. simpl. by rewrite alter_middle.
Qed.
Definition removed_groups : list groupnode := if bool_decide (I1 ++ I2 = []) then G1 ++ G2 else mk G1 g (I1 ++ I2) G2.
Lemma mk_remove (Q : bool -> world -> Prop) :
  Q (bool_decide (I1 ++ I2 = [])) (set_groups removed_groups w) -> spec (remove_grpintn (length G1, length I1)) os w Q E.
Proof.
  intros HQ. unfold removed_groups in HQ. unfold remove_grpintn. spec_step. apply mk_grpint_at. spec_step.
  eapply upd_group_spec; [simpl; rewrite Hw; apply lookup_mid|]. simpl. rewrite Hw. unfold mk. rewrite alter_middle. simpl.
  rewrite delete_middle. spec_step. eapply group_at_spec; [apply lookup_mid|]. simpl.
  destruct (I1 ++ I2) as [|y I] eqn:EI; simpl in *; [|spec_step; exact HQ].
  do 3 spec_step. simpl. rewrite delete_middle. exact HQ.
Qed.

Lemma mk_wf : groups_wf (w_groups w) -> group_wf (set_interfaces (I1 ++ gi :: I2) g) /\ grpint_wf gi.
Proof.
  rewrite Hw. intros Hwf. assert (Hg : group_wf (set_interfaces (I1 ++ gi :: I2) g)) by (eapply wf_group; [done|apply lookup_mid]).
  split; [done|]. eapply wf_grpint; [done|apply lookup_mid].
Qed.
Lemma mk_upd_wf gi' :
  groups_wf (w_groups w) -> gi_ifindex gi' = gi_ifindex gi -> grpint_wf gi' -> groups_wf (mk G1 g (I1 ++ gi' :: I2) G2).
Proof.
  intros Hwf Hk Hgi'. destruct (mk_wf Hwf) as [[Hn HF] _]. rewrite Hw in Hwf. destruct Hwf as [Hm Hg]. unfold mk in *.
  split; [by rewrite fmap_app in *|]. apply Forall_app in Hg as [? [_ ?]%Forall_cons]. apply Forall_app. split; [done|].
  apply Forall_cons. split; [|done]. split; simpl in *.
  - rewrite fmap_app in *. csimpl in *. by rewrite Hk.
  - apply Forall_app in HF as [? [_ ?]%Forall_cons]. apply Forall_app. split; [done|]. by apply Forall_cons.
Qed.
Lemma mk_remove_wf : groups_wf (w_groups w) -> groups_wf removed_groups.
Proof.
  intros Hwf. destruct (mk_wf Hwf) as [Hg _]. rewrite Hw in Hwf. unfold removed_groups, mk in *. case_bool_decide.
  - rewrite <-(delete_middle G1 G2 (set_interfaces (I1 ++ gi :: I2) g)). by apply groups_wf_delete.
  - pose proof (groups_wf_alter _ (length G1) (fun x => set_interfaces (delete (length I1) (g_interfaces x)) x) Hwf) as H2.
    rewrite alter_middle in H2. simpl in H2. rewrite delete_middle in H2. apply H2; [done|].
    intros x Hx Hxw. by apply group_wf_delete.
Qed.
End middle.

Lemma set_includes_wf (l : sources) gi : NoDup (addrs l) -> grpint_wf gi -> grpint_wf (set_includes l gi).
Proof. intros ? []. by split. Qed.

(** * The loops *)

Section loops.
Context (U : Z -> Prop) (os : OS) (now : Z).

Lemma inv_set_groups gs w : groups_wf gs -> inv U w -> inv U (set_groups gs w).
Proof. intros Hgs [_ H]. split; [done|exact H]. Qed.

(** A refresh at the end of a branch; it is two commands of the body. *)
Lemma refresh_bind {A} (k : M A) ifx w Q :
  inv U w -> U ifx -> (forall w', inv U w' -> w_groups w' = w_groups w -> returns k os w' Q) ->
  returns (intn ← int_find ifx; _ ← handle_upstream_subscription intn; k) os w Q.
Proof.
  intros Hi Hu Hk. apply (spec_bind_assoc (fun _ => k)), spec_bind.
  eapply spec_mono; [by apply (refresh_spec U ifx)| |done]. cbv beta. intros _ w' [? ?]. auto.
Qed.

Lemma expire_source_spec G1 G2 g I1 I2 gi pre s suf w :
  inv U w -> U (gi_ifindex gi) -> w_groups w = mk G1 g (I1 ++ gi :: I2) G2 -> gi_includes gi = pre ++ Some s :: suf ->
  returns (expire_source (length G1, length I1) (length pre) now) os w (fun r w' => inv U w' /\
    if decide (now < s_timer s) then r = 0 /\ w_groups w' = w_groups w
    else if decide (pre ++ suf = []) then
      r = (if bool_decide (I1 ++ I2 = []) then 2 else 1) /\ w_groups w' = removed_groups G1 G2 g I1 I2
    else r = 0 /\ w_groups w' = mk G1 g (I1 ++ set_includes (pre ++ suf) gi :: I2) G2).
Proof.
  intros Hinv Hu Hw Hi. unfold expire_source. spec_step. eapply mk_grpint_at; [done|].
  rewrite Hi, lookup_mid. destruct (Z.leb_spec (s_timer s) now) as [Hle|Hlt]; case_decide; try lia; [|by spec_step].
  assert (Hdel : listnode_delete (gi_includes gi) (length pre) = pre ++ suf) by (unfold listnode_delete; by rewrite Hi, delete_middle).
  spec_step. eapply mk_upd; [done|]. simpl. rewrite Hdel.
  set (gi' := set_includes (pre ++ suf) gi).
  assert (Hgi' : grpint_wf gi').
  { destruct (mk_wf _ _ _ _ _ _ _ Hw (proj1 Hinv)) as [_ Hgi]. apply set_includes_wf; [|done]. rewrite <-Hdel. unfold listnode_delete.
    eapply sublist_NoDup; [apply (wf_includes _ Hgi)|]. apply fmap_sublist, live_delete_sublist. }
  set (w1 := set_groups _ w). assert (Hw1 : w_groups w1 = mk G1 g (I1 ++ gi' :: I2) G2) by done.
  assert (Hinv1 : inv U w1) by (apply inv_set_groups; [|done]; by eapply mk_upd_wf; [exact Hw|apply Hinv|..]).
  spec_step. eapply mk_grpint_at; [exact Hw1|]. change (gi_includes gi') with (pre ++ suf).
  destruct (pre ++ suf) as [|y l] eqn:El; simpl; [|by spec_step].
  spec_step. eapply mk_remove; [exact Hw1|].
  apply refresh_bind; [apply inv_set_groups; [|done]; by eapply mk_remove_wf; [exact Hw1|apply Hinv1]|done|].
  intros w' Hinv' Hg'. spec_step. split; [done|]. split; [done|exact Hg'].
Qed.

(** The sources of an INCLUDE entry, from [suf] on. *)
Lemma expire_loop_source_spec G1 G2 g I1 I2 gi suf : forall pre removed w,
  inv U w -> U (gi_ifindex gi) -> removed ≠ 2 ->
  w_groups w = mk G1 g (I1 ++ set_includes (pre ++ suf) gi :: I2) G2 ->
  returns (expire_loop_source (length G1, length I1) (length suf) now removed) os w (fun r w' => inv U w' /\
    let l := pre ++ filter (source_alive now) suf in
    if decide (l = [] /\ suf ≠ []) then
      r = (if bool_decide (I1 ++ I2 = []) then 2 else 1) /\ w_groups w' = removed_groups G1 G2 g I1 I2
    else r ≠ 2 /\ w_groups w' = mk G1 g (I1 ++ set_includes l gi :: I2) G2).
Proof.
  induction suf as [|o suf IH]; intros pre removed w Hinv Hu Hr Hw.
  { simpl. spec_step. rewrite decide_False by tauto. split; [done|]. by rewrite Hw. }
  cbn [length expire_loop_source]. spec_step. eapply mk_grpint_at; [exact Hw|]. cbv zeta.
  change (gi_includes _) with (pre ++ o :: suf).
  replace (length (pre ++ o :: suf) - S (length suf))%nat with (length pre) by (rewrite length_app; simpl; lia).
  rewrite lookup_mid. rewrite filter_cons.
  assert (Hkeep : forall removed w, inv U w -> removed ≠ 2 -> w_groups w = mk G1 g (I1 ++ set_includes (pre ++ o :: suf) gi :: I2) G2 ->
    source_alive now o ->
    returns (expire_loop_source (length G1, length I1) (length suf) now removed) os w (fun r w' => inv U w' /\
      let l := pre ++ o :: filter (source_alive now) suf in
      if decide (l = [] /\ o :: suf ≠ []) then
        r = (if bool_decide (I1 ++ I2 = []) then 2 else 1) /\ w_groups w' = removed_groups G1 G2 g I1 I2
      else r ≠ 2 /\ w_groups w' = mk G1 g (I1 ++ set_includes l gi :: I2) G2)).
  { intros removed' w' Hi' Hr' Hw' _. rewrite (cons_middle o pre suf), (app_assoc pre) in Hw'.
    eapply spec_mono; [by apply (IH (pre ++ [o]) removed')| |done]. cbv zeta beta. intros r w'' [? Hif]. split; [done|].
    rewrite <-!app_assoc in Hif. simpl in Hif.
    assert (Hne : pre ++ o :: filter (source_alive now) suf ≠ []) by (by destruct pre).
    repeat case_decide; naive_solver. }
  destruct o as [s|]; [|rewrite decide_True by done; by apply Hkeep].
  spec_step. eapply spec_mono; [by apply (expire_source_spec G1 G2 g I1 I2 (set_includes (pre ++ Some s :: suf) gi) pre s suf)| |done].
  cbv beta. intros r w' [Hinv' Hif]. simpl in Hif. change (source_alive now (Some s)) with (now < s_timer s).
  destruct (decide (now < s_timer s)) as [Hal|Hdead].
  - destruct Hif as [-> Hg]. simpl Z.eqb. cbv iota. apply Hkeep; [done|done|congruence|done].
  - destruct (decide (pre ++ suf = [])) as [Hnil|Hnn].
    + destruct Hif as [-> Hg]. apply app_nil in Hnil as [-> ->].
      destruct (bool_decide (I1 ++ I2 = [])) eqn:EI; simpl Z.eqb; cbv iota; spec_step;
        (split; [done|]; cbv zeta; rewrite decide_True by done; by rewrite ?EI).
    + destruct Hif as [-> Hg]. simpl Z.eqb. cbv iota. eapply spec_mono; [by apply (IH pre 0)| |done].
      cbv zeta beta. intros r w'' [? Hif]. split; [done|].
      assert (pre ++ filter (source_alive now) suf = [] -> suf ≠ []) by (intros [-> _]%app_nil ->; done).
      repeat case_decide; naive_solver.
Qed.

Lemma mld2_switch_spec G1 G2 g I1 I2 gi w :
  inv U w -> U (gi_ifindex gi) -> w_groups w = mk G1 g (I1 ++ gi :: I2) G2 ->
  returns (mld2_switch_to_include (length G1, length I1)) os w (fun b w' => inv U w' /\
    if decide (gi_includes gi = []) then b = bool_decide (I1 ++ I2 = []) /\ w_groups w' = removed_groups G1 G2 g I1 I2
    else b = false /\ w_groups w' = mk G1 g (I1 ++ set_filter_mode MLD2_MODE_IS_INCLUDE gi :: I2) G2).
Proof.
  intros Hinv Hu Hw. unfold mld2_switch_to_include. spec_step. eapply mk_upd; [done|].
  set (gi' := set_filter_mode _ gi).
  assert (Hgi' : grpint_wf gi').
  { destruct (mk_wf _ _ _ _ _ _ _ Hw (proj1 Hinv)) as [_ []]. split; [by left|done..]. }
  set (w1 := set_groups _ w). assert (Hw1 : w_groups w1 = mk G1 g (I1 ++ gi' :: I2) G2) by done.
  assert (Hinv1 : inv U w1) by (apply inv_set_groups; [|done]; by eapply mk_upd_wf; [exact Hw|apply Hinv|..]).
  spec_step. eapply mk_grpint_at; [exact Hw1|]. apply refresh_bind; [done|done|]. intros w' Hinv' Hg'. rewrite Hw1 in Hg'.
  spec_step. eapply mk_grpint_at; [exact Hg'|]. change (gi_includes gi') with (gi_includes gi).
  destruct (gi_includes gi) as [|y l]; simpl; [|by spec_step].
  eapply mk_remove; [exact Hg'|]. split; [|done]. apply inv_set_groups; [|done].
  eapply mk_remove_wf; [exact Hg'|apply Hinv'].
Qed.

(** One entry, with the rest of the loop as a parameter. *)
Section interface_round.
Context (G1 G2 : list groupnode) (g : groupnode) (I1 suf : list grpintnode) (gi : grpintnode) (w : world).
Context (continue : Z -> M unit).
Let after (w' : world) : Prop :=
  inv U w' /\
  let l := I1 ++ omap (expire_entry now) (gi :: suf) in
  w_groups w' = if decide (l = [] /\ gi :: suf ≠ []) then G1 ++ G2 else mk G1 g l G2.
Let goes (m : M unit) (w : world) : Prop := returns m os w (fun _ => after).
Context (Hinv : inv U w) (Hu : U (gi_ifindex gi)) (Hw : w_groups w = mk G1 g (I1 ++ gi :: suf) G2).
Context (IH : forall I1' removed w, inv U w -> removed ≠ 2 -> w_groups w = mk G1 g (I1' ++ suf) G2 ->
  returns (continue removed) os w (fun _ w' => inv U w' /\
    let l := I1' ++ omap (expire_entry now) suf in
    w_groups w' = if decide (l = [] /\ suf ≠ []) then G1 ++ G2 else mk G1 g l G2)).

(** The entry is gone and the group stays, the group is gone, or the entry became [gi']. *)
Lemma round_gone removed w' :
  inv U w' -> removed ≠ 2 -> expire_entry now gi = None -> I1 ++ suf ≠ [] -> w_groups w' = removed_groups G1 G2 g I1 suf ->
  goes (continue removed) w'.
Proof.
  intros Hi' Hr' He Hne Hg'. unfold removed_groups in Hg'. rewrite bool_decide_false in Hg' by done.
  eapply spec_mono; [by apply (IH I1 removed)| |done]. unfold after. cbv zeta beta. csimpl. rewrite He. intros _ w'' [? ->]. split; [done|].
  assert (I1 ++ omap (expire_entry now) suf = [] -> suf ≠ []) by (intros [-> _]%app_nil ->; done).
  repeat case_decide; naive_solver.
Qed.
Lemma round_stay removed w' gi' :
  inv U w' -> removed ≠ 2 -> expire_entry now gi = Some gi' -> w_groups w' = mk G1 g (I1 ++ gi' :: suf) G2 ->
  goes (continue removed) w'.
Proof.
  intros Hi' Hr' He Hg'. rewrite (cons_middle gi' I1 suf), (app_assoc I1) in Hg'.
  eapply spec_mono; [by apply (IH (I1 ++ [gi']) removed)| |done]. unfold after. cbv zeta beta. csimpl. rewrite He.
  intros _ w'' [? ->]. split; [done|]. rewrite <-app_assoc. simpl.
  assert (I1 ++ gi' :: omap (expire_entry now) suf ≠ []) by (by destruct I1).
  repeat case_decide; naive_solver.
Qed.
Lemma round_end w' :
  inv U w' -> expire_entry now gi = None -> I1 ++ suf = [] -> w_groups w' = removed_groups G1 G2 g I1 suf -> after w'.
Proof.
  intros Hi' He Hnil Hg'. unfold removed_groups in Hg'. rewrite bool_decide_true in Hg' by done. split; [done|].
  apply app_nil in Hnil as [-> ->]. csimpl. rewrite He. by rewrite decide_True.
Qed.

Lemma include_entry_round removed :
  removed ≠ 2 -> gi_filter_mode gi = MLD2_MODE_IS_INCLUDE ->
  goes (removed ← expire_loop_source (length G1, length I1) (length (gi_includes gi)) now removed;
        if removed =? 2 then mret tt else continue removed) w.
Proof.
  intros Hr Em. unfold goes. spec_step. pose proof (expire_include now gi Em) as Ee. cbv zeta in Ee.
  assert (Hw0 : w_groups w = mk G1 g (I1 ++ set_includes ([] ++ gi_includes gi) gi :: suf) G2) by (rewrite Hw; by destruct gi).
  eapply spec_mono; [by apply (expire_loop_source_spec G1 G2 g I1 suf gi (gi_includes gi) [] removed w)| |done].
  cbv zeta beta. simpl app. intros r w' [Hinv' Hif].
  destruct (decide (filter (source_alive now) (gi_includes gi) = [] /\ gi_includes gi ≠ [])) as [Hl|Hl].
  - destruct Hif as [-> Hg']. destruct (bool_decide (I1 ++ suf = [])) eqn:EI; cbv iota; simpl Z.eqb; cbv iota.
    + apply bool_decide_eq_true in EI. spec_step. by apply round_end.
    + apply bool_decide_eq_false in EI. by apply round_gone.
  - destruct Hif as [Hr2 Hg']. rewrite (proj2 (Z.eqb_neq r 2)) by done. by eapply round_stay.
Qed.

Lemma exclude_entry_round removed :
  removed ≠ 2 -> gi_filter_mode gi ≠ MLD2_MODE_IS_INCLUDE ->
  goes (if gi_filter_timer gi <=? now then
          lastgroup ← mld2_switch_to_include (length G1, length I1);
          if (lastgroup : bool) then mret tt else continue removed
        else continue removed) w.
Proof.
  intros Hr Em. unfold goes.
  assert (Ee : expire_entry now gi = if gi_filter_timer gi <=? now then
      if bool_decide (gi_includes gi = []) then None else Some (set_filter_mode MLD2_MODE_IS_INCLUDE gi) else Some gi).
  { unfold expire_entry. by rewrite (proj2 (Z.eqb_neq _ _) Em). }
  destruct (gi_filter_timer gi <=? now) eqn:Et; [|by eapply round_stay].
  spec_step. eapply spec_mono; [by apply (mld2_switch_spec G1 G2 g I1 suf gi)| |done]. cbv beta. intros b w' [Hinv' Hif].
  destruct (decide (gi_includes gi = [])) as [Hi|Hi].
  - rewrite bool_decide_true in Ee by done. destruct Hif as [-> Hg'].
    destruct (bool_decide (I1 ++ suf = [])) eqn:EI; cbv iota.
    + apply bool_decide_eq_true in EI. spec_step. by apply round_end.
    + apply bool_decide_eq_false in EI. by apply round_gone.
  - rewrite bool_decide_false in Ee by done. destruct Hif as [-> Hg']. cbv iota. by eapply round_stay.
Qed.
End interface_round.

(** The entries of a group, from [suf] on. *)
Lemma expire_loop_interface_spec G1 G2 g suf : forall I1 removed w,
  inv U w -> Forall (fun gi => U (gi_ifindex gi)) suf -> removed ≠ 2 -> w_groups w = mk G1 g (I1 ++ suf) G2 ->
  returns (expire_loop_interface (length G1) (length suf) now removed) os w (fun _ w' => inv U w' /\
    let l := I1 ++ omap (expire_entry now) suf in
    w_groups w' = if decide (l = [] /\ suf ≠ []) then G1 ++ G2 else mk G1 g l G2).
Proof.
  induction suf as [|gi suf IH]; intros I1 removed w Hinv HU Hr Hw.
  { simpl. spec_step. rewrite decide_False by tauto. split; [done|]. by rewrite Hw. }
  apply Forall_cons in HU as [Hu HU]. cbn [length expire_loop_interface]. spec_step. eapply mk_group_at; [exact Hw|].
  cbv zeta. change (g_interfaces (set_interfaces _ _)) with (I1 ++ gi :: suf).
  replace (length (I1 ++ gi :: suf) - S (length suf))%nat with (length I1) by (rewrite length_app; simpl; lia).
  spec_step. eapply mk_grpint_at; [exact Hw|].
  destruct (Z.eqb_spec (gi_filter_mode gi) MLD2_MODE_IS_INCLUDE) as [Em|Em];
    [eapply (include_entry_round G1 G2 g I1 suf gi w (expire_loop_interface (length G1) (length suf) now))
    |eapply (exclude_entry_round G1 G2 g I1 suf gi w (expire_loop_interface (length G1) (length suf) now))]; auto.
Qed.

Lemma expire_loop_group_spec suf : forall G1 w,
  inv U w -> Forall (fun g => Forall (fun gi => U (gi_ifindex gi)) (g_interfaces g)) suf -> w_groups w = G1 ++ suf ->
  returns (expire_loop_group (length suf) now) os w (fun _ w' => inv U w' /\
    w_groups w' = G1 ++ omap (expire_group now) suf).
Proof.
  induction suf as [|g suf IH]; intros G1 w Hinv HU Hw; [by simpl; spec_step|].
  apply Forall_cons in HU as [Hu HU]. cbn [length expire_loop_group]. do 2 spec_step. cbv zeta. rewrite Hw.
  replace (length (G1 ++ g :: suf) - S (length suf))%nat with (length G1) by (rewrite length_app; simpl; lia).
  spec_step. eapply group_at_spec; [rewrite Hw; apply lookup_mid|].
  spec_step. eapply spec_mono; [apply (expire_loop_interface_spec G1 suf g (g_interfaces g) [] 0 w); try done| |done].
  { rewrite Hw. unfold mk. by destruct g. }
  cbv zeta beta. simpl. intros _ w' [Hinv' Hg']. csimpl. unfold expire_group at 1.
  destruct (decide (omap (expire_entry now) (g_interfaces g) = [] /\ g_interfaces g ≠ [])) as [[H1 H2]|Hn].
  - rewrite bool_decide_true, bool_decide_false by done. simpl. by apply IH.
  - unfold mk in Hg'. rewrite (cons_middle _ G1 suf), app_assoc in Hg'.
    replace (_ && _) with false.
    + simpl. rewrite (cons_middle _ G1), app_assoc. by apply IH.
    + symmetry. apply andb_false_iff. rewrite negb_false_iff, bool_decide_eq_false, bool_decide_eq_true.
      destruct (decide (g_interfaces g = [])); [by right|left]. naive_solver.
Qed.
End loops.

(** Every interface an entry names is found by [int_find]. *)
Definition entries_found (w : world) : Prop :=
  Forall (fun g => Forall (fun gi => 0 <= gi_ifindex gi /\
    exists n, w_ints w !! Z.to_nat (gi_ifindex gi) = Some n /\ i_mtu n ≠ 0) (g_interfaces g)) (w_groups w).

Lemma expire_entry_key now gi gi' : expire_entry now gi = Some gi' -> gi_ifindex gi' = gi_ifindex gi.
Proof. unfold expire_entry. repeat case_match; naive_solver. Qed.
Lemma expire_group_key now g g' : expire_group now g = Some g' -> g_mca g' = g_mca g.
Proof. unfold expire_group. case_match; naive_solver. Qed.

Lemma view_expire now gs mca ifx :
  groups_wf gs -> view (omap (expire_group now) gs) mca ifx = view gs mca ifx ≫= expire_entry now.
Proof.
  intros Hwf. unfold view. rewrite find_by_omap; [|apply expire_group_key|apply Hwf].
  destruct (find_by g_mca mca gs) as [g|] eqn:Eg; [|done]. apply find_by_Some in Eg as [[j Hg]%list_elem_of_lookup _]. simpl.
  assert (Hgw : group_wf g) by eauto with ecmh.
  assert (E : find_by gi_ifindex ifx (omap (expire_entry now) (g_interfaces g)) = group_view g ifx ≫= expire_entry now).
  { apply find_by_omap; [apply expire_entry_key|apply Hgw]. }
  unfold expire_group. case_match eqn:Eb; simpl; [|exact E].
  apply andb_true_iff in Eb as [Hnil%bool_decide_eq_true _]. by rewrite <-E, Hnil.
Qed.

Lemma expire_pass os w :
  groups_wf (w_groups w) -> is_Some (w_routes w) -> entries_found w ->
  returns expire_sources os w (fun _ w' => groups_wf (w_groups w') /\
    w_groups w' = omap (expire_group (os_time os (w_tick w))) (w_groups w) /\
    forall mca ifx, view (w_groups w') mca ifx = view (w_groups w) mca ifx ≫= expire_entry (os_time os (w_tick w))).
Proof.
  intros Hwf Hr Hf. unfold expire_sources. do 4 spec_step. simpl.
  set (U := fun ifx => 0 <= ifx /\ exists n, w_ints w !! Z.to_nat ifx = Some n /\ i_mtu n ≠ 0).
  eapply spec_mono; [apply (expire_loop_group_spec U os _ (w_groups w) []); [|exact Hf|done]| |done].
  - split; [done|]. split; [done|]. intros ifx Hu. exact Hu.
  - cbv beta. simpl. intros _ w' [[Hwf' _] Hg]. split; [done|]. split; [done|]. intros. rewrite Hg. by apply view_expire.
Qed.

(** C4: The timer pass, deletions during the walk included: when the list of kernel routes is there, as with [--kernel], and every entry's interface is
    still there and enabled, it returns, and applies [expire_entry] to every entry of the state, at the time it started; the groups stay well
    formed.  (Without the routes or the interface, the first entry that goes or changes its mode makes it dereference NULL:
    [RoutingFacts.upstream_refresh_faults].) *)
Theorem expire_sources_spec os w :
  groups_wf (w_groups w) -> is_Some (w_routes w) -> entries_found w ->
  returns expire_sources os w (fun _ w' => groups_wf (w_groups w') /\
    w_groups w' = omap (expire_group (os_time os (w_tick w))) (w_groups w) /\
    forall mca ifx, view (w_groups w') mca ifx = view (w_groups w) mca ifx ≫= expire_entry (os_time os (w_tick w))).
Proof. apply expire_pass. Qed.

(** A source that has run out, a filter timer that has, and an entry that stays: see [expire_sources_spec]. *)
Definition expiring_world : world :=
  sample_world [Grpint 1 [Some (Msrc (src 1) 900)] [] 1 0; Grpint 2 [Some (Msrc (src 1) 900); Some (Msrc (src 2) 1100)] [] 1 0;
                Grpint 3 [Some (Msrc (src 1) 1100)] [Some (Msrc (src 3) 0)] 2 900] [] [].
Lemma expiring_world_wf : groups_wf (w_groups expiring_world).
Proof.
  apply sample_groups_wf; [apply (bool_decide_unpack _); by vm_compute|].
  repeat (apply Forall_cons_2; [split; [by (left + right)| | |simpl; lia]; apply (bool_decide_unpack _); by vm_compute|]). apply Forall_nil_2.
Qed.
Lemma expiring_world_found : entries_found expiring_world.
Proof.
  apply Forall_singleton. repeat (apply Forall_cons_2; [split; [simpl; lia|eexists; split; [reflexivity|done]]|]). apply Forall_nil_2.
Qed.
Lemma expire_sources_spec_witness :
  returns expire_sources sample_os expiring_world (fun _ w' => groups_wf (w_groups w') /\
    w_groups w' = [Group sample_mca [Grpint 2 [Some (Msrc (src 2) 1100)] [] 1 0;
                                     Grpint 3 [Some (Msrc (src 1) 1100)] [Some (Msrc (src 3) 0)] 1 900] 1000 0 0] /\
    forall mca ifx, view (w_groups w') mca ifx = view (w_groups expiring_world) mca ifx ≫= expire_entry 1000).
Proof.
  apply (expire_sources_spec sample_os expiring_world expiring_world_wf); [by eexists|exact expiring_world_found].
Defined.
