(* ===== verification/DownstreamFacts.v ===== *)
(** The properties of [handle_downstream_subscription]: which steps of RFC 3810 it takes, and
    which it does not. *)

From S2P Require Import Prelude LinkList Msrc World Groups Samples Routing Rfc3810 Mld2Logic Mld2Refine.
#[local] Open Scope Z_scope.

(** * Conditions shared by the theorems *)

(** A record the report parser builds. *)
Definition record_ok (m : mrec) : Prop := 1 <= m_filter_mode m <= 6 /\ mrec_sources_ok m.
(** The clock stands still at [now], a time whose timers fit 32 bits, and memory is given. *)
Definition still (os : OS) (now : Z) : Prop :=
  (forall t, os_time os t = now) /\ 0 <= now /\ now + MALI < 2 ^ 32 /\ forall t, os_malloc os t = true.

Definition state_of (w : world) (m : mrec) (n : intnode) : rfc_state :=
  abs_view (view (w_groups w) (m_mca m) (i_ifindex n)).
Definition requested (m : mrec) : addr_set := addr_set_of (m_source_list m).

Section downstream.
Context (os : OS) (now : Z) (w : world) (intn : nat) (n : intnode) (m : mrec).
Context (Hos : still os now) (Hwf : groups_wf (w_groups w)) (Hn : w_ints w !! intn = Some n) (Hm : record_ok m).

Lemma downstream_took step :
  ecmh_step now MALI LLQI (state_of w m n) (m_filter_mode m) (requested m) = step ->
  returns (handle_downstream_subscription intn m) os w (fun destroyed w' => destroyed = false /\ took step intn n m w w').
Proof. intros <-. destruct Hos as (?&?&?&?), Hm. by apply handle_downstream_steps. Qed.

Lemma took_state step w' : took step intn n m w w' -> state_of w' m n = step.1.
Proof. intros (_ & (gi & Hv & Ha) & _). unfold state_of. by rewrite Hv. Qed.

(** C3: An EXCLUDE state takes exactly the step of [ecmh_exclude]. *)
Theorem exclude_steps X Y ft :
  state_of w m n = RExclude X Y ft ->
  returns (handle_downstream_subscription intn m) os w (fun destroyed w' => destroyed = false /\
    took (ecmh_exclude now MALI LLQI X Y ft (m_filter_mode m) (requested m)) intn n m w w').
Proof. intros HA. apply downstream_took. by rewrite HA. Qed.

End downstream.

(** * Where the steps of the code and of RFC 3810 agree *)

(** No source of [q] runs out before the queries are over: nothing is there to be prolonged. *)
Definition long_lived (now llqt : Z) (q : addr_set) (m : timers) : Prop := forall a t, a ∈ q -> m !! a = Some t -> now + llqt <= t.

Lemma long_lived_map (now llqt : Z) (q : addr_set) (m : timers) : map_Forall (fun (a : in6_addr) (t : Z) => a ∈ q -> now + llqt <= t) m -> long_lived now llqt q m.
Proof. intros H a t Ha Hm. by apply (H a t). Qed.

(** [ecmh_include] and [ecmh_exclude] agree with the tables of RFC 3810 under these conditions, and only then. *)
Definition include_conforming (now llqt : Z) (A : timers) (B : addr_set) (mode : Z) : Prop :=
  match mode with
  | 3 => long_lived now llqt (dom A ∖ B) A
  | 4 | 6 => long_lived now llqt B A
  | _ => True
  end.
Definition exclude_conforming (now mali llqt : Z) (X : timers) (Y A : addr_set) (ft mode : Z) : Prop :=
  match mode with
  | 1 | 5 => Y = ∅ /\ forall a t, X !! a = Some t -> a ∈ A \/ t = now + mali
  | 3 => Y = ∅ /\ long_lived now llqt (dom X ∖ A) X /\ now + llqt <= ft
  | 2 => A ⊆ dom X ∪ Y
  | 4 | 6 => A ⊆ dom X ∪ Y /\ long_lived now llqt A X
  | _ => True
  end.
Section conform.
Context (now mali llqt : Z) (X : timers) (Y A : addr_set) (ft : Z).

Lemma no_new_timers (m : timers) (S : addr_set) (t : Z) : add_new_timers m S t = m <-> S ⊆ dom m.
Proof.
  split.
  - intros E a Ha. apply elem_of_dom. rewrite <-E, lookup_add_new_timers, decide_True by done. by destruct (m !! a).
  - intros HS. apply map_eq. intros a. rewrite lookup_add_new_timers. destruct (m !! a) eqn:E; [done|].
    case_decide as Ha; [|done]. apply HS, elem_of_dom in Ha. rewrite E in Ha. by destruct Ha.
Qed.
Lemma dom_restrict (m : timers) (S : addr_set) : dom (restrict m S) = dom m ∩ S.
Proof.
  apply set_eq. intros a. rewrite elem_of_intersection, !elem_of_dom, lookup_restrict.
  case_decide; split; try tauto; by intros [].
Qed.
Lemma dom_set_timers (S : addr_set) (t : Z) (m : timers) : dom (set_timers S t m) = dom m.
Proof. apply set_eq. intros a. by rewrite !elem_of_dom, lookup_set_timers, fmap_is_Some. Qed.
Lemma dom_lower_timers (S : addr_set) (t : Z) (m : timers) : dom (lower_timers S t m) = dom m.
Proof. apply set_eq. intros a. by rewrite !elem_of_dom, lookup_lower_timers, fmap_is_Some. Qed.
(** Setting a timer and lowering it come to the same exactly for a timer that is not below. *)
Lemma lower_is_set (S : addr_set) (m : timers) : lower_timers S (now + llqt) m = set_timers S (now + llqt) m <-> long_lived now llqt S m.
Proof.
  split.
  - intros E a t Ha Hm. pose proof (f_equal (.!! a) E) as Ea. simpl in Ea. rewrite lookup_lower_timers, lookup_set_timers, Hm in Ea. simpl in Ea.
    rewrite !decide_True in Ea by done. injection Ea as Ea. lia.
  - intros H. apply map_eq. intros a. rewrite lookup_lower_timers, lookup_set_timers. destruct (m !! a) as [t|] eqn:Hm; [|done]. simpl.
    case_decide as Ha; [|done]. specialize (H a t Ha Hm). f_equal. lia.
Qed.
Lemma dom_add_new_timers (S : addr_set) (t : Z) (m : timers) : dom (add_new_timers m S t) = dom m ∪ S.
Proof.
  apply set_eq. intros a. rewrite elem_of_union, !elem_of_dom, lookup_add_new_timers.
  destruct (m !! a) eqn:E; [split; [by left|by eauto]|]. case_decide; split; try (by eauto); by intros [[]|].
Qed.
Lemma restrict_disjoint : dom X ## Y -> restrict X (A ∖ Y) = restrict X A.
Proof.
  intros Hd. apply map_eq. intros a. rewrite !lookup_restrict. destruct (X !! a) eqn:E; [|by repeat case_decide].
  assert (a ∉ Y) by (apply elem_of_dom_2 in E; set_solver). repeat case_decide; set_solver.
Qed.
Lemma minus_inter_empty : Y ∩ A = Y ∖ A <-> Y = ∅.
Proof.
  split; [|set_solver]. intros E. apply set_eq. intros a. split; [|set_solver]. intros Ha.
  destruct (decide (a ∈ A)); [assert (a ∈ Y ∖ A) by (rewrite <-E; set_solver)|assert (a ∈ Y ∩ A) by (rewrite E; set_solver)]; set_solver.
Qed.

(** The three ways in which the tables can differ. *)
Lemma same_exclude_add :
  add_timers X A (now + mali) = gset_to_gmap (now + mali) (dom X ∪ A) <-> forall a t, X !! a = Some t -> a ∈ A \/ t = now + mali.
Proof.
  split.
  - intros E a t Ha. destruct (decide (a ∈ A)) as [|Hn]; [by left|right].
    assert (H : add_timers X A (now + mali) !! a = Some t) by by rewrite lookup_add_timers, decide_False.
    rewrite E, lookup_const_timers, decide_True in H; [congruence|]. apply elem_of_dom_2 in Ha. set_solver.
  - intros H. apply map_eq. intros a. rewrite lookup_add_timers, lookup_const_timers.
    destruct (X !! a) as [t|] eqn:Ha.
    + apply elem_of_dom_2 in Ha as Hd. destruct (H a t Ha) as [?| ->]; repeat case_decide; set_solver.
    + apply not_elem_of_dom_2 in Ha. repeat case_decide; set_solver.
Qed.
Lemma same_exclude_to_include :
  set_timers (dom X ∖ A) (now + llqt) (add_timers X A (now + mali)) =
  set_timers (dom X ∖ A) (now + llqt) (gset_to_gmap (now + mali) (dom X ∪ A)).
Proof.
  apply map_eq. intros a. rewrite !lookup_set_timers, lookup_add_timers, lookup_const_timers.
  destruct (X !! a) as [t|] eqn:Ha; [apply elem_of_dom_2 in Ha|apply not_elem_of_dom_2 in Ha]; repeat case_decide; simpl; set_solver.
Qed.
Lemma same_exclude_new (m : timers) (t : Z) : A ⊆ dom X ∪ Y -> add_new_timers m (A ∖ dom X ∖ Y) t = m.
Proof. intros HA. apply no_new_timers. set_solver. Qed.
Lemma new_timers_dom (m : timers) (t : Z) :
  dom m ⊆ dom X -> dom (add_new_timers m (A ∖ dom X ∖ Y) t) = dom m -> A ⊆ dom X ∪ Y.
Proof.
  rewrite dom_add_new_timers. intros Hm E a Ha. destruct (decide (a ∈ dom X ∪ Y)); [done|].
  assert (a ∈ dom m) by (rewrite <-E; set_solver). set_solver.
Qed.

Lemma new_and_lower (q : addr_set) (m : timers) (t : Z) : dom m ⊆ dom X ->
  lower_timers q (now + llqt) (add_new_timers m (A ∖ dom X ∖ Y) t) = set_timers q (now + llqt) m <-> A ⊆ dom X ∪ Y /\ long_lived now llqt q m.
Proof.
  intros Hm. split.
  - intros E. assert (HA : A ⊆ dom X ∪ Y).
    { apply (f_equal dom) in E. rewrite dom_lower_timers, dom_set_timers in E. by apply (new_timers_dom m t). }
    split; [done|]. apply lower_is_set. by rewrite same_exclude_new in E.
  - intros [HA Hl]. rewrite same_exclude_new by done. by apply lower_is_set.
Qed.

(** Sources of which the table says nothing do not matter. *)
Lemma long_lived_iff (S S' : addr_set) (m m' : timers) :
  (forall a t, a ∈ S /\ m !! a = Some t <-> a ∈ S' /\ m' !! a = Some t) -> long_lived now llqt S m <-> long_lived now llqt S' m'.
Proof. intros H. split; intros Hl a t Ha Hm; destruct (H a t) as [H1 H2]; apply (Hl a t); naive_solver. Qed.
Ltac long_lived_eq :=
  apply long_lived_iff; intros a t; rewrite ?lookup_restrict, ?lookup_add_timers, ?elem_of_difference, ?elem_of_intersection;
  pose proof (elem_of_dom_2 (D := addr_set) X a t); repeat case_decide; set_solver.

Lemma exclude_agrees mode :
  1 <= mode <= 6 -> dom X ## Y ->
  (rfc_exclude now mali llqt X Y ft mode A).1 = (ecmh_exclude now mali llqt X Y ft mode A).1 <->
  exclude_conforming now mali llqt X Y A ft mode.
Proof.
  intros Hmode Hd.
  assert (mode = 1 \/ mode = 5 \/ mode = 3 \/ mode = 2 \/ mode = 4 \/ mode = 6) as Hc by lia.
  destruct Hc as [-> | [-> | [-> | [-> | [-> | ->]]]]]; cbn [rfc_exclude ecmh_exclude fst exclude_conforming];
    rewrite ?restrict_disjoint by done.
  1,2: rewrite <-minus_inter_empty, <-same_exclude_add; split; [by intros [= -> ->]|by intros [-> ->]].
  - rewrite <-minus_inter_empty, <-same_exclude_to_include.
    assert (El : long_lived now llqt (dom X ∖ A) (add_timers X A (now + mali)) <-> long_lived now llqt (dom X ∖ A) X) by long_lived_eq.
    rewrite <-El, <-lower_is_set. split; [intros [= -> -> ?]; split_and!; [done|done|lia]|]. intros (-> & -> & ?). f_equal. lia.
  - split; [|by intros; rewrite same_exclude_new]. intros [= E%(f_equal dom)].
    apply (new_timers_dom (restrict X A) (now + mali)); [rewrite dom_restrict; set_solver|done].
  - assert (El : long_lived now llqt (A ∖ Y) (restrict X A) <-> long_lived now llqt A X) by long_lived_eq.
    rewrite <-El, <-(new_and_lower _ _ ft) by (rewrite dom_restrict; set_solver). split; [by intros [= ->]|by intros ->].
  - assert (El : long_lived now llqt (A ∖ Y) X <-> long_lived now llqt A X) by long_lived_eq.
    rewrite <-El, <-(new_and_lower _ _ ft) by done. split; [by intros [= ->]|by intros ->].
Qed.
Lemma include_agrees mode :
  1 <= mode <= 6 -> (rfc_include now mali llqt X mode A).1 = (ecmh_include now mali llqt X mode A).1 <-> include_conforming now llqt X A mode.
Proof.
  intros Hmode. assert (mode = 1 \/ mode = 5 \/ mode = 2 \/ mode = 3 \/ mode = 4 \/ mode = 6) as Hc by lia.
  destruct Hc as [-> | [-> | [-> | [-> | [-> | ->]]]]]; cbn [rfc_include ecmh_include fst include_conforming]; try done.
  - assert (El : long_lived now llqt (dom X ∖ A) (add_timers X A (now + mali)) <-> long_lived now llqt (dom X ∖ A) X) by long_lived_eq.
    rewrite <-El, <-lower_is_set. split; [by intros [= ->]|by intros ->].
  - assert (El : long_lived now llqt (dom X ∩ A) (restrict X A) <-> long_lived now llqt A X) by long_lived_eq.
    rewrite <-El, <-lower_is_set. split; [by intros [= ->]|by intros ->].
  - assert (El : long_lived now llqt (dom X ∩ A) X <-> long_lived now llqt A X) by long_lived_eq.
    rewrite <-El, <-lower_is_set. split; [by intros [= ->]|by intros ->].
Qed.

Lemma same_queries mode :
  (rfc_exclude now mali llqt X Y ft mode A).2 = (ecmh_exclude now mali llqt X Y ft mode A).2 /\
  (rfc_include now mali llqt X mode A).2 = (ecmh_include now mali llqt X mode A).2.
Proof. split; unfold rfc_exclude, ecmh_exclude, rfc_include, ecmh_include; by repeat case_match. Qed.
End conform.

(** A step taken is another one exactly when both lead to the same state and send the same queries. *)
Lemma took_iff step step' intn n m w w' P :
  took step intn n m w w' -> step'.2 = step.2 -> (step'.1 = step.1 <-> P) -> took step' intn n m w w' <-> P.
Proof.
  intros Ht Hq <-. split.
  - intros Hr%took_state. apply took_state in Ht. congruence.
  - intros E. by rewrite (surjective_pairing step'), E, Hq, <-surjective_pairing.
Qed.

Section include.
Context (os : OS) (now : Z) (w : world) (intn : nat) (n : intnode) (m : mrec) (A : timers).
Context (Hos : still os now) (Hwf : groups_wf (w_groups w)) (Hn : w_ints w !! intn = Some n) (Hm : record_ok m).
Context (Hst : state_of w m n = RInclude A).

(** C1: An INCLUDE state, or no state at all, takes the step of [ecmh_include]: the sources, the blocked sources, the filter mode, the filter timer
    and the queries are those of RFC 3810's tables; the timers of the queried sources become the time plus [LLQI], where the RFC only lowers those
    that are larger.  It is therefore the step of the RFC if and only if the record is [include_conforming]: it queries nothing (IS_IN, ALLOW,
    IS_EX), or no source it queries, a known one that TO_IN leaves out or that TO_EX or BLOCK names, runs out before the time plus
    [LLQT]; otherwise a source that was about to run out is prolonged. *)
Theorem include_conforms_iff :
  returns (handle_downstream_subscription intn m) os w (fun destroyed w' => destroyed = false /\
    took (ecmh_include now MALI LLQI A (m_filter_mode m) (requested m)) intn n m w w' /\
    (took (rfc_include now MALI LLQT A (m_filter_mode m) (requested m)) intn n m w w' <->
     include_conforming now LLQT A (requested m) (m_filter_mode m))).
Proof.
  eapply spec_mono; [by apply (downstream_took os now w intn n m Hos Hwf Hn Hm _ eq_refl)| |done].
  cbv beta. rewrite Hst. intros d w' [-> Ht]. split; [done|]. split; [done|]. rewrite LLQT_is_LLQI.
  apply (took_iff _ _ _ _ _ _ _ _ Ht).
  - apply (same_queries now MALI LLQI A ∅ (requested m) 0).
  - by apply include_agrees, Hm.
Qed.
End include.

Section exclude.
Context (os : OS) (now : Z) (w : world) (intn : nat) (n : intnode) (m : mrec) (X : timers) (Y : addr_set) (ft : Z).
Context (Hos : still os now) (Hwf : groups_wf (w_groups w)) (Hn : w_ints w !! intn = Some n) (Hm : record_ok m).
Context (Hst : state_of w m n = RExclude X Y ft).
Abbreviation mode := (m_filter_mode m).
Abbreviation A := (requested m).

Lemma exclude_took :
  returns (handle_downstream_subscription intn m) os w (fun destroyed w' =>
    took (ecmh_exclude now MALI LLQI X Y ft mode A) intn n m w w').
Proof.
  eapply spec_mono; [by apply (downstream_took os now w intn n m Hos Hwf Hn Hm _ eq_refl)| |done].
  cbv beta. rewrite Hst. by intros ? ? [_ ?].
Qed.


(** After a record that adds sources, the filter lets through exactly the sources that were not
    both blocked and requested, while the filter timer runs: a blocked source stays blocked when a
    listener asks for it, and is unblocked when none does. RFC 3810 has the opposite. *)
Theorem exclude_add_keeps_blocked :
  adds_sources mode = true ->
  returns (handle_downstream_subscription intn m) os w (fun _ w' => exists X' ft',
    state_of w' m n = RExclude X' (Y ∩ A) ft' /\
    forall t a, u32 t < ft' -> wants (view (w_groups w') (m_mca m) (i_ifindex n)) t a = negb (bool_decide (a ∈ Y ∩ A))).
Proof.
  intros Ha. eapply spec_mono; [apply exclude_took| |done]. cbv beta. intros _ w' Ht.
  pose proof (took_state _ _ _ _ _ _ Ht) as Hs.
  assert (exists X' ft', (ecmh_exclude now MALI LLQI X Y ft mode A).1 = RExclude X' (Y ∩ A) ft') as (X' & ft' & E).
  { apply adds_sources_cases in Ha as [-> | [-> | ->]]; by do 2 eexists. }
  exists X', ft'. split; [congruence|]. intros t a Hta. destruct Ht as (_ & (gi & Hv & Ha') & _).
  rewrite E in Ha'. simpl in Ha'. rewrite Hv. unfold abs, wants in *.
  destruct (gi_filter_mode gi =? _); [done|]. injection Ha' as _ <- <-. rewrite (proj2 (Z.ltb_lt _ _) Hta). simpl.
  f_equal. apply bool_decide_ext. by rewrite elem_addr_set_of.
Qed.

(** C23: A record that sets or extends the blocked sources never makes the router learn a source:
    the requested and the blocked sources afterwards are among those before. *)
Theorem exclude_block_adds_nothing :
  adds_sources mode = false ->
  returns (handle_downstream_subscription intn m) os w (fun _ w' => exists X' Y' ft',
    state_of w' m n = RExclude X' Y' ft' /\ dom X' ⊆ dom X /\ Y' ⊆ Y).
Proof.
  intros Ha. eapply spec_mono; [apply exclude_took| |done]. cbv beta. intros _ w' Ht%took_state.
  assert (mode = 2 \/ mode = 4 \/ mode = 6) as Hc.
  { destruct Hm as [Hm1 _]. assert (mode ≠ 1 /\ mode ≠ 3 /\ mode ≠ 5) by (split_and!; intros E; by rewrite E in Ha). lia. }
  rewrite Ht. destruct Hc as [-> | [-> | ->]]; cbn [ecmh_exclude fst]; do 3 eexists; (split; [done|]);
    rewrite ?dom_set_timers, ?dom_restrict; set_solver.
Qed.
End exclude.

(** * The theorems on the sample system *)

Lemma sample_still : still sample_os 1000.
Proof. split_and!; done. Qed.
(** A record of the sample group. *)
Definition sample_record (mode : Z) (srcs : list in6_addr) : mrec := mrec_add_addrs (mrec_create sample_mca mode) srcs.
Lemma sample_record_ok mode srcs : 1 <= mode <= 6 -> record_ok (sample_record mode srcs).
Proof.
  intros. unfold sample_record. split; [by rewrite (proj2 (mrec_add_addrs_mca _ _))|]. apply mrec_add_addrs_ok. apply NoDup_nil_2.
Qed.

Definition include_world : world := sample_world [include_entry 2] [] [].
Definition exclude_world : world := sample_world [exclude_entry 2] [] [].
Lemma include_world_wf : groups_wf (w_groups include_world).
Proof. apply sample_groups_wf; [apply NoDup_singleton|auto with ecmh]. Qed.
Lemma exclude_world_wf : groups_wf (w_groups exclude_world).
Proof. apply sample_groups_wf; [apply NoDup_singleton|auto with ecmh]. Qed.

Definition sample_timers : timers := timers_of (gi_includes (include_entry 2)).
Lemma include_conforms_iff_witness :
  let m := sample_record MLD2_CHANGE_TO_INCLUDE [src 2; src 4] in
  include_conforming 1000 LLQT sample_timers (requested m) 3 /\
  returns (handle_downstream_subscription 2 m) sample_os include_world (fun destroyed w' => destroyed = false /\
    took (ecmh_include 1000 MALI LLQI sample_timers 3 (requested m)) 2 eth2 m include_world w' /\
    (took (rfc_include 1000 MALI LLQT sample_timers 3 (requested m)) 2 eth2 m include_world w' <->
     include_conforming 1000 LLQT sample_timers (requested m) 3)).
Proof.
  split; [apply long_lived_map, (bool_decide_unpack _); by vm_compute|].
  apply (include_conforms_iff sample_os 1000 include_world 2 eth2); [apply sample_still|apply include_world_wf|done|by apply sample_record_ok|].
  reflexivity.
Defined.

Lemma exclude_steps_witness :
  let m := sample_record MLD2_CHANGE_TO_EXCLUDE [src 1; src 3] in
  let gi := exclude_entry 2 in
  returns (handle_downstream_subscription 2 m) sample_os exclude_world (fun destroyed w' => destroyed = false /\
    took (ecmh_exclude 1000 MALI LLQI (timers_of (gi_includes gi)) (addr_set_of (gi_excludes gi)) 1100 4 (requested m)) 2 eth2 m exclude_world w').
Proof.
  apply (exclude_steps sample_os 1000 exclude_world 2 eth2); [apply sample_still|apply exclude_world_wf|done|by apply sample_record_ok|].
  reflexivity.
Defined.


Lemma exclude_add_keeps_blocked_witness :
  let m := sample_record MLD2_ALLOW_NEW_SOURCES [src 3] in
  let Y := addr_set_of (gi_excludes (exclude_entry 2)) in
  src 3 ∈ Y ∩ requested m /\
  returns (handle_downstream_subscription 2 m) sample_os exclude_world (fun _ w' => exists X' ft',
    state_of w' m eth2 = RExclude X' (Y ∩ requested m) ft' /\
    forall t a, u32 t < ft' -> wants (view (w_groups w') (m_mca m) 2) t a = negb (bool_decide (a ∈ Y ∩ requested m))).
Proof.
  split; [apply (bool_decide_unpack _); by vm_compute|].
  apply (exclude_add_keeps_blocked sample_os 1000 exclude_world 2 eth2 _ (timers_of (gi_includes (exclude_entry 2))) _ 1100);
    [apply sample_still|apply exclude_world_wf|done|by apply sample_record_ok|reflexivity|reflexivity].
Defined.

Lemma exclude_block_adds_nothing_witness :
  let m := sample_record MLD2_BLOCK_OLD_SOURCES [src 4] in
  let X := timers_of (gi_includes (exclude_entry 2)) in let Y := addr_set_of (gi_excludes (exclude_entry 2)) in
  returns (handle_downstream_subscription 2 m) sample_os exclude_world (fun _ w' => exists X' Y' ft',
    state_of w' m eth2 = RExclude X' Y' ft' /\ dom X' ⊆ dom X /\ Y' ⊆ Y).
Proof.
  apply (exclude_block_adds_nothing sample_os 1000 exclude_world 2 eth2 _ _ _ 1100);
    [apply sample_still|apply exclude_world_wf|done|by apply sample_record_ok|reflexivity|reflexivity].
Defined.
