(* ===== verification/Memory.v ===== *)
(** The memory of the daemon: the objects [malloc] gives, the list operations of [src/linklist.c] and
    the state machine of [src/mld2_logic.c] on pointers to them, and the functions that free.

    [Mld2Logic] has the source lists of an entry as values.  Here a list is an object with the data pointers of
    its nodes (which [LinkList.HeapFacts] justifies), a source is an object of its own, and every
    allocation and every [free] of the code is a step; an access to memory that is not
    allocated faults, and so does freeing it. *)

From S2P Require Import Prelude LinkList Msrc World Interfaces Send Groups Mld2Logic.
#[local] Open Scope Z_scope.

(** * Objects, and the monad of commands on them *)

Inductive obj :=
| OSrc (s : msrc)
| OList (data : list Z)
| OMrec (mca : in6_addr) (filter_mode source_list : Z)
| OGrpint (ifindex filter_mode filter_timer includes excludes : Z)
| OGroup (mca : in6_addr) (interfaces lastforward bytes packets : Z).
Abbreviation heap := (gmap Z obj).

(** [malloc] answers an address that is not in use; it does not fail. *)
Class Malloc := {
  alloc : heap -> Z;
  alloc_nonzero h : alloc h ≠ 0;
  alloc_fresh h : h !! alloc h = None }.

Definition P (A : Type) : Type := heap -> M (A * heap).
#[export] Instance P_ret : MRet P := fun A a h => mret (a, h).
#[export] Instance P_bind : MBind P := fun A B k m h => r ← m h; k r.1 r.2.
Definition pcrash {A} (f : fault) : P A := fun h => crash f.
(** A command of the rest of the daemon. *)
Definition lift {A} (m : M A) : P A := fun h => a ← m; mret (a, h).

Section memory.
Context `{Malloc}.

Definition malloc (o : obj) : P Z := fun h => mret (alloc h, <[alloc h := o]> h).
Definition obj_at (p : Z) : P obj := fun h => match h !! p with Some o => mret (o, h) | None => crash NullDeref end.
Definition set_obj (p : Z) (o : obj) : P unit := fun h => match h !! p with Some _ => mret (tt, <[p := o]> h) | None => crash NullDeref end.
Definition free (p : Z) : P unit := fun h =>
  if p =? 0 then mret (tt, h) else match h !! p with Some _ => mret (tt, delete p h) | None => crash DoubleFree end.

Definition src_at (p : Z) : P msrc := o ← obj_at p; match o with OSrc s => mret s | _ => pcrash NullDeref end.
Definition list_at (l : Z) : P (list Z) := o ← obj_at l; match o with OList data => mret data | _ => pcrash NullDeref end.

(** * [src/msrc.c], [src/linklist.c] *)

Definition msrc_free (src : Z) : P unit := free src.
Definition msrc_getcopy (src : Z) : P Z := s ← src_at src; malloc (OSrc s).

Definition msrc_create (addr : in6_addr) (timer_value : Z) : P Z := malloc (OSrc (Msrc.msrc_create addr timer_value)).

Definition list_new : P Z := malloc (OList []).
Definition list_free (l : Z) : P unit := free l.
Definition listnode_add (l val : Z) : P unit := data ← list_at l; set_obj l (OList (data ++ [val])).

(** The first node with this data pointer. *)
Fixpoint remove_data (val : Z) (data : list Z) : list Z :=
  match data with
  | [] => []
  | d :: data => if d =? val then data else d :: remove_data val data
  end.
Definition listnode_delete (l val : Z) : P unit := data ← list_at l; set_obj l (OList (remove_data val data)).

(** [LIST_LOOP] over nodes that the body does not change. *)
Fixpoint loop_data (data : list Z) (body : Z -> P unit) : P unit :=
  match data with
  | [] => mret tt
  | d :: data => _ ← (if d =? 0 then mret tt else body d); loop_data data body
  end.
Definition list_loop (l : Z) (body : Z -> P unit) : P unit := data ← list_at l; loop_data data body.

(** [cmp] is [msrc_cmp] for every list of sources; 0 is the NULL of "no such element". *)
Fixpoint hasmember_loop (data : list Z) (needle : Z) : P Z :=
  match data with
  | [] => mret 0
  | d :: data =>
    if d =? 0 then hasmember_loop data needle
    else
      a ← src_at d;
      b ← src_at needle;
      if msrc_cmp a b then mret d else hasmember_loop data needle
  end.
Definition list_hasmember (l needle : Z) : P Z := data ← list_at l; hasmember_loop data needle.

(** [element = a->copy(element); listnode_add(result, element);] *)
Definition add_copy (result element : Z) : P unit := copy ← msrc_getcopy element; listnode_add result copy.

Definition list_intersect (a b : Z) : P Z :=
  result ← list_new;
  _ ← list_loop a (fun element =>
        found ← list_hasmember b element;
        if found =? 0 then mret tt else add_copy result element);
  _ ← list_loop b (fun element =>
        found ← list_hasmember a element;
        if found =? 0 then mret tt
        else
          found ← list_hasmember result element;
          if found =? 0 then add_copy result element else mret tt);
  mret result.

(** [b] is NULL for a copy of [a]. *)
Definition list_union (a b : Z) : P Z :=
  result ← list_new;
  _ ← list_loop a (add_copy result);
  _ ← (if b =? 0 then mret tt
       else list_loop b (fun elem =>
              found ← list_hasmember result elem;
              if found =? 0 then add_copy result elem else mret tt));
  mret result.

Definition list_difference (a b : Z) : P Z :=
  result ← list_new;
  _ ← list_loop a (fun element =>
        found ← list_hasmember b element;
        if found =? 0 then add_copy result element else mret tt);
  mret result.

(** The node goes, the source it pointed to is not freed. *)
Definition list_remove_all (a b : Z) : P unit :=
  list_loop b (fun element =>
    element ← list_hasmember a element;
    if element =? 0 then mret tt else listnode_delete a element).

(** [element] is the NULL of the search when it is added. *)
Definition list_add_all (a b : Z) : P unit :=
  list_loop b (fun element =>
    element ← list_hasmember a element;
    if element =? 0 then listnode_add a element else mret tt).

(** The nodes without data are given to [del] too. *)
Fixpoint delete_data (del : Z -> P unit) (data : list Z) : P unit :=
  match data with
  | [] => mret tt
  | d :: data => _ ← del d; delete_data del data
  end.
Definition list_delete (del : Z -> P unit) (l : Z) : P unit :=
  data ← list_at l; _ ← delete_data del data; list_free l.
Definition list_delete_all_node (del : Z -> P unit) (l : Z) : P unit :=
  data ← list_at l; _ ← delete_data del data; set_obj l (OList []).

(** * [src/mrec.c] *)

Definition mrec_create (mca : in6_addr) (mode : Z) : P Z :=
  mrec ← malloc (OMrec mca mode 0);
  source_list ← list_new;
  _ ← set_obj mrec (OMrec mca mode source_list);
  mret mrec.

Definition source_list_of (mrec : Z) : P Z := o ← obj_at mrec; match o with OMrec _ _ l => mret l | _ => pcrash NullDeref end.
Definition mrec_add_source (mrec src : Z) : P Z :=
  if mrec =? 0 then mret 0
  else
    source_list ← source_list_of mrec;
    found ← list_hasmember source_list src;
    if found =? 0 then
      newsrc ← msrc_getcopy src;
      _ ← listnode_add source_list newsrc;
      mret 1
    else mret 0.
(** [src] is given back only when it was not added: the list has a copy of it. *)
Definition mrec_add_source_addr (mrec : Z) (addr : in6_addr) : P Z :=
  src ← msrc_create addr 0;
  added ← mrec_add_source mrec src;
  if added =? 0 then _ ← msrc_free src; mret 0 else mret 1.

(** * The functions that free a structure *)

Definition mrec_destroy (mrec : Z) : P unit :=
  o ← obj_at mrec;
  match o with
  | OMrec _ _ source_list => _ ← list_delete msrc_free source_list; free mrec
  | _ => pcrash NullDeref
  end.
Definition grpint_destroy (grpintn : Z) : P unit :=
  if grpintn =? 0 then mret tt
  else
    o ← obj_at grpintn;
    match o with
    | OGrpint _ _ _ includes excludes =>
      _ ← list_delete msrc_free includes; _ ← list_delete msrc_free excludes; free grpintn
    | _ => pcrash NullDeref
    end.
Definition group_destroy (groupn : Z) : P unit :=
  if groupn =? 0 then mret tt
  else
    o ← obj_at groupn;
    match o with
    | OGroup _ interfaces _ _ _ => _ ← list_delete grpint_destroy interfaces; free groupn
    | _ => pcrash NullDeref
    end.
(** [main] at its end, for the list of groups. *)
Definition groups_delete (groups : Z) : P unit := list_delete_all_node group_destroy groups.

(** * [src/mld2_logic.c] *)

(** A NULL [which_list] selects every source. *)
Definition set_source_timers (sources which_list timer_value : Z) : P unit :=
  list_loop sources (fun source =>
    found ← (if which_list =? 0 then mret source else list_hasmember which_list source);
    if found =? 0 then mret tt
    else s ← src_at source; set_obj source (OSrc (Msrc (s_addr s) (u32 timer_value)))).

(** [mld_send_mquery] of [src/ecmh.c]. *)
Definition send_mquery (intn : nat) (mca : in6_addr) (srcs : Z) (suppression : bool) : P unit :=
  list_loop srcs (fun src => s ← src_at src; lift (mld_send_query intn mca (Some (s_addr s)) suppression)).

(** The fields of the entry. *)
Record pentry := PEntry { e_ifindex : Z; e_mode : Z; e_timer : Z; e_includes : Z; e_excludes : Z }.
Definition entry_obj (e : pentry) : obj := OGrpint (e_ifindex e) (e_mode e) (e_timer e) (e_includes e) (e_excludes e).
Definition entry_at (grpintn : Z) : P pentry :=
  o ← obj_at grpintn;
  match o with OGrpint ifindex mode timer includes excludes => mret (PEntry ifindex mode timer includes excludes) | _ => pcrash NullDeref end.
Definition upd_entry (grpintn : Z) (f : pentry -> pentry) : P unit :=
  e ← entry_at grpintn; set_obj grpintn (entry_obj (f e)).
Definition put_includes (l : Z) (e : pentry) : pentry := PEntry (e_ifindex e) (e_mode e) (e_timer e) l (e_excludes e).
Definition put_excludes (l : Z) (e : pentry) : pentry := PEntry (e_ifindex e) (e_mode e) (e_timer e) (e_includes e) l.
Definition put_mode (v : Z) (e : pentry) : pentry := PEntry (e_ifindex e) v (e_timer e) (e_includes e) (e_excludes e).
Definition put_timer (v : Z) (e : pentry) : pentry := PEntry (e_ifindex e) (e_mode e) (u32 v) (e_includes e) (e_excludes e).

Section branches.
Context (intn : nat) (grpintn : Z) (mca : in6_addr) (mode srcs : Z).

Definition include_add : P unit :=
  e ← entry_at grpintn;
  tmp ← list_union (e_includes e) srcs;
  now ← lift time;
  _ ← set_source_timers tmp srcs (now + MALI);
  _ ← (if mode =? MLD2_CHANGE_TO_INCLUDE then
         AminusB ← list_difference (e_includes e) srcs;
         _ ← send_mquery intn mca AminusB false;
         now ← lift time;
         _ ← set_source_timers tmp AminusB (now + LLQI);
         list_delete msrc_free AminusB
       else mret tt);
  _ ← list_delete msrc_free (e_includes e);
  upd_entry grpintn (put_includes tmp).

Definition include_to_exclude : P unit :=
  e ← entry_at grpintn;
  AjoinB ← list_intersect (e_includes e) srcs;
  BminusA ← list_difference srcs (e_includes e);
  AminusB ← list_difference (e_includes e) srcs;
  _ ← list_delete msrc_free (e_includes e);
  _ ← list_delete msrc_free (e_excludes e);
  includes ← list_difference AjoinB AminusB;
  _ ← upd_entry grpintn (put_includes includes);
  excludes ← list_difference BminusA AminusB;
  _ ← upd_entry grpintn (put_excludes excludes);
  _ ← set_source_timers includes BminusA 0;
  now ← lift time;
  _ ← upd_entry grpintn (put_timer (now + MALI));
  _ ← (if mode =? MLD2_CHANGE_TO_EXCLUDE then
         _ ← send_mquery intn mca AjoinB false;
         set_source_timers includes AjoinB (now + LLQI)
       else mret tt);
  _ ← list_delete msrc_free AjoinB;
  _ ← list_delete msrc_free BminusA;
  _ ← list_delete msrc_free AminusB;
  upd_entry grpintn (put_mode MLD2_MODE_IS_EXCLUDE).

Definition include_block : P unit :=
  e ← entry_at grpintn;
  AintersectB ← list_intersect (e_includes e) srcs;
  _ ← send_mquery intn mca AintersectB false;
  now ← lift time;
  _ ← set_source_timers (e_includes e) AintersectB (now + LLQI);
  list_delete msrc_free AintersectB.

Definition exclude_add : P unit :=
  e ← entry_at grpintn;
  XplusA ← list_union (e_includes e) srcs;
  YminusA ← list_intersect (e_excludes e) srcs;
  now ← lift time;
  _ ← set_source_timers XplusA 0 (now + MALI);
  _ ← (if mode =? MLD2_CHANGE_TO_INCLUDE then
         XminusA ← list_difference (e_includes e) srcs;
         _ ← send_mquery intn mca XminusA false;
         now ← lift time;
         _ ← set_source_timers XplusA XminusA (now + LLQI);
         _ ← list_delete msrc_free XminusA;
         _ ← lift (mld_send_query intn mca None false);
         now ← lift time;
         upd_entry grpintn (put_timer (now + LLQI))
       else mret tt);
  _ ← list_delete msrc_free (e_includes e);
  _ ← list_delete msrc_free (e_excludes e);
  _ ← upd_entry grpintn (put_includes XplusA);
  upd_entry grpintn (put_excludes YminusA).

(** [AminXminY] is never given back. *)
Definition exclude_replace : P unit :=
  e ← entry_at grpintn;
  AminusY ← list_difference srcs (e_excludes e);
  YintersectA ← list_intersect (e_excludes e) srcs;
  AminXminY ← list_difference AminusY (e_includes e);
  XminusA ← list_difference (e_includes e) srcs;
  _ ← list_remove_all (e_includes e) XminusA;
  _ ← list_remove_all (e_excludes e) XminusA;
  YminusA ← list_difference (e_excludes e) srcs;
  _ ← list_remove_all (e_includes e) YminusA;
  _ ← list_remove_all (e_excludes e) YminusA;
  _ ← (if mode =? MLD2_MODE_IS_EXCLUDE then
         now ← lift time;
         _ ← set_source_timers (e_includes e) AminXminY (now + MALI);
         now ← lift time;
         set_source_timers (e_excludes e) AminXminY (now + MALI)
       else if mode =? MLD2_CHANGE_TO_EXCLUDE then
         e ← entry_at grpintn;
         _ ← set_source_timers (e_includes e) AminXminY (e_timer e);
         _ ← set_source_timers (e_excludes e) AminXminY (e_timer e);
         _ ← send_mquery intn mca AminusY false;
         now ← lift time;
         _ ← set_source_timers (e_includes e) AminusY (now + LLQI);
         now ← lift time;
         set_source_timers (e_excludes e) AminusY (now + LLQI)
       else mret tt);
  now ← lift time;
  _ ← upd_entry grpintn (put_timer (now + MALI));
  _ ← list_delete msrc_free YminusA;
  _ ← list_delete msrc_free AminusY;
  _ ← list_delete msrc_free YintersectA;
  list_delete msrc_free XminusA.

Definition exclude_block : P unit :=
  e ← entry_at grpintn;
  AminusY ← list_difference srcs (e_excludes e);
  AminXminY ← list_difference AminusY (e_includes e);
  _ ← list_add_all (e_includes e) AminusY;
  _ ← set_source_timers (e_includes e) AminXminY (e_timer e);
  _ ← send_mquery intn mca AminusY false;
  now ← lift time;
  _ ← set_source_timers (e_includes e) AminusY (now + LLQI);
  now ← lift time;
  _ ← set_source_timers (e_excludes e) AminusY (now + LLQI);
  _ ← list_delete msrc_free AminusY;
  list_delete msrc_free AminXminY.

(** The branches of [handle_downstream_subscription], after [groupint_get]. *)
Definition downstream : P unit :=
  e ← entry_at grpintn;
  if e_mode e =? MLD2_MODE_IS_INCLUDE then
    if adds_sources mode then include_add
    else if sets_exclude mode then include_to_exclude
    else if mode =? MLD2_BLOCK_OLD_SOURCES then include_block
    else mret tt
  else if e_mode e =? MLD2_MODE_IS_EXCLUDE then
    if adds_sources mode then exclude_add
    else if sets_exclude mode then exclude_replace
    else if mode =? MLD2_BLOCK_OLD_SOURCES then exclude_block
    else mret tt
  else mret tt.
End branches.

(** [grpintn] is what [groupint_get] answered; without it the record is destroyed (the [out:] exit). *)
Definition handle_downstream_subscription (intn : nat) (grpintn mrec : Z) : P unit :=
  if grpintn =? 0 then mrec_destroy mrec
  else
    o ← obj_at mrec;
    match o with
    | OMrec mca mode source_list => downstream intn grpintn mca mode source_list
    | _ => pcrash NullDeref
    end.

(** A group record of [l4_ipv6_icmpv6_mld2_report], once its type and its sources are read. *)
Fixpoint add_addrs (mrec : Z) (srcs : list in6_addr) : P unit :=
  match srcs with
  | [] => mret tt
  | src :: srcs => _ ← mrec_add_source_addr mrec src; add_addrs mrec srcs
  end.
Definition report_record (intn : nat) (grpintn : Z) (mca : in6_addr) (type : Z) (srcs : list in6_addr) : P unit :=
  mrec ← mrec_create mca type;
  _ ← add_addrs mrec srcs;
  _ ← handle_downstream_subscription intn grpintn mrec;
  mrec_destroy mrec.
End memory.
