(* ===== verification/MemoryFacts.v ===== *)
(** What the pointer-level code of [Memory] does to the heap: each list operation implements the one on values,
    allocates what it returns and nothing else, and keeps every other object; what the functions that free give back. *)

From S2P Require Import Prelude LinkList Msrc World Interfaces Send Groups Mld2Logic Memory.
#[local] Open Scope Z_scope.
#[local] Arguments Z.eqb : simpl never.

(** * Shapes *)

(** The nodes with data [data] hold the sources [vs]; the heap is exactly these sources. *)
Inductive cells : list Z -> sources -> heap -> Prop :=
| cells_nil : cells [] [] ∅
| cells_src p s data vs h : p ≠ 0 -> h !! p = None -> cells data vs h -> cells (p :: data) (Some s :: vs) (<[p := OSrc s]> h)
| cells_null data vs h : cells data vs h -> cells (0 :: data) (None :: vs) h.

(** The heap is exactly the list [l], with its sources [vs]. *)
Definition srcs_shape (l : Z) (vs : sources) (h : heap) : Prop :=
  exists data hc, l ≠ 0 /\ hc !! l = None /\ cells data vs hc /\ h = <[l := OList data]> hc.

(** The heap is the disjoint union of the lists [D] and of the rest [R]. *)
Inductive lists_shape : heap -> gmap Z sources -> heap -> Prop :=
| shape_rest R : lists_shape R ∅ R
| shape_list h D R l vs hl : lists_shape h D R -> D !! l = None -> hl ##ₘ h -> srcs_shape l vs hl -> lists_shape (hl ∪ h) (<[l := vs]> D) R.

(** A node of the heap and the source it holds. *)
Definition cell (h : heap) (p : Z) (o : option msrc) : Prop :=
  match o with Some s => p ≠ 0 /\ h !! p = Some (OSrc s) | None => p = 0 end.

(** * Facts on the shapes *)

Lemma cells_cell data vs hc h : cells data vs hc -> hc ⊆ h -> Forall2 (cell h) data vs.
Proof.
  induction 1 as [|p s data vs hc Hp Hn Hc IH|data vs hc Hc IH]; intros Hs; constructor; [| |done|auto].
  - split; [done|]. eapply lookup_weaken; [apply lookup_insert_eq|done].
  - apply IH. etrans; [by apply insert_subseteq|done].
Qed.
Lemma cell_mono h h' data vs : h ⊆ h' -> Forall2 (cell h) data vs -> Forall2 (cell h') data vs.
Proof.
  intros Hs Hc. eapply Forall2_impl; [exact Hc|]. intros p [s|]; simpl; [|done]. intros [? ?]. split; [done|]. by eapply lookup_weaken.
Qed.
Lemma cells_snoc data vs hc q s :
  cells data vs hc -> q ≠ 0 -> hc !! q = None -> cells (data ++ [q]) (vs ++ [Some s]) (<[q := OSrc s]> hc).
Proof.
  induction 1 as [|p s' data vs hc Hp Hn Hc IH|data vs hc Hc IH]; intros Hq Hnq; simpl.
  - apply (cells_src q s [] [] ∅); [done..|constructor].
  - apply lookup_insert_None in Hnq as [Hnq Hpq]. rewrite insert_insert_ne by done. constructor; auto. by rewrite lookup_insert_ne.
  - constructor. auto.
Qed.
Lemma cells_snoc_null data vs hc : cells data vs hc -> cells (data ++ [0]) (vs ++ [None]) hc.
Proof. induction 1; simpl; by repeat constructor. Qed.

Lemma srcs_shape_list l vs h : srcs_shape l vs h -> l ≠ 0 /\ exists data, h !! l = Some (OList data) /\ Forall2 (cell h) data vs.
Proof.
  intros (data & hc & Hl & Hn & Hc & ->). split; [done|]. exists data. split; [by rewrite lookup_insert_eq|].
  eapply cells_cell; [exact Hc|by apply insert_subseteq].
Qed.

Lemma lists_shape_focus h D R l vs :
  lists_shape h D R -> D !! l = Some vs ->
  exists hl h', h = hl ∪ h' /\ hl ##ₘ h' /\ srcs_shape l vs hl /\ lists_shape h' (delete l D) R.
Proof.
  induction 1 as [R|h D R l0 vs0 hl0 Hs IH Hn Hd Hl0]; [done|].
  intros [[-> ->]|[Hne Hl]]%lookup_insert_Some.
  - exists hl0, h. by rewrite delete_insert_id.
  - destruct (IH Hl) as (hl & h' & -> & Hd' & Hsl & Hs'). exists hl, (hl0 ∪ h'). split_and!; [|solve_map_disjoint|done|].
    + rewrite !(assoc_L (∪)), (map_union_comm hl0 hl) by solve_map_disjoint. done.
    + rewrite delete_insert_ne by done. constructor; [done| |solve_map_disjoint|done]. rewrite lookup_delete_ne; done.
Qed.

Lemma lists_shape_replace h D R l vs hl : lists_shape h (delete l D) R -> hl ##ₘ h -> srcs_shape l vs hl -> lists_shape (hl ∪ h) (<[l := vs]> D) R.
Proof. intros. rewrite <-insert_delete_eq. constructor; [done|apply lookup_delete_eq|done..]. Qed.

(** The list in the whole heap. *)
Lemma lists_shape_list h D R l vs :
  lists_shape h D R -> D !! l = Some vs -> l ≠ 0 /\ exists data, h !! l = Some (OList data) /\ Forall2 (cell h) data vs.
Proof.
  intros Hs Hl. destruct (lists_shape_focus _ _ _ _ _ Hs Hl) as (hl & h' & -> & Hd & Hsl & _).
  destruct (srcs_shape_list _ _ _ Hsl) as (Hl0 & data & Hlk & Hc). split; [done|]. exists data. split.
  - by apply lookup_union_Some_l.
  - eapply cell_mono; [|exact Hc]. by apply map_union_subseteq_l.
Qed.
Lemma lists_shape_rest h D R : lists_shape h D R -> R ⊆ h.
Proof.
  induction 1 as [|h D R l vs hl Hs IH Hn Hd Hl]; [done|]. etrans; [exact IH|]. by apply map_union_subseteq_r.
Qed.

(** What leaves the lists joins the rest; an object of the rest may change. *)
Lemma lists_shape_leak h D R g : lists_shape h D R -> g ##ₘ h -> lists_shape (g ∪ h) D (g ∪ R).
Proof.
  induction 1 as [R|h D R l vs hl Hs IH Hn Hd Hl]; intros Hg; [constructor|].
  rewrite (assoc_L (∪)), (map_union_comm g hl), <-(assoc_L (∪)) by solve_map_disjoint.
  constructor; [apply IH; solve_map_disjoint|done|solve_map_disjoint|done].
Qed.
Lemma lists_shape_rest_insert h D R p o : lists_shape h D R -> is_Some (R !! p) -> lists_shape (<[p := o]> h) D (<[p := o]> R).
Proof.
  induction 1 as [R|h D R l vs hl Hs IH Hn Hd Hl]; intros Hp; [constructor|].
  pose proof (lists_shape_rest _ _ _ Hs) as Hsub. destruct Hp as [x Hp].
  assert (Hh : h !! p = Some x) by (by eapply lookup_weaken). pose proof (map_disjoint_Some_r _ _ _ _ Hd Hh) as Hlp.
  rewrite insert_union_r by done. constructor; [apply IH; by eexists|done| |done].
  apply map_disjoint_insert_r_2; done.
Qed.

Lemma lists_shape_rest_delete h D R p : lists_shape h D R -> is_Some (R !! p) -> lists_shape (delete p h) D (delete p R).
Proof.
  induction 1 as [R|h D R l vs hl Hs IH Hn Hd Hl]; intros Hp; [constructor|]. destruct (Hp) as [x Hx].
  assert (Hh : h !! p = Some x) by (eapply lookup_weaken; [exact Hx|by eapply lists_shape_rest]).
  rewrite delete_union, (delete_id hl) by (by eapply map_disjoint_Some_r). constructor; [by apply IH|done| |done].
  by apply map_disjoint_delete_r.
Qed.
Lemma lists_shape_alloc h D R p o : lists_shape h D R -> h !! p = None -> lists_shape (<[p := o]> h) D (<[p := o]> R).
Proof.
  intros Hs Hp. rewrite !insert_union_singleton_l. apply lists_shape_leak; [done|]. by apply map_disjoint_singleton_l_2.
Qed.

Lemma lists_shape_no_list h D R : lists_shape h D R -> D = ∅ -> h = R.
Proof. destruct 1 as [|h D R l vs hl]; [done|]. intros E%insert_non_empty. done. Qed.

(** Each list is one object at least. *)
Lemma lists_shape_size h D R : lists_shape h D R -> (size R + size D <= size h)%nat.
Proof.
  induction 1 as [R|h D R l vs hl Hs IH Hn Hd Hl]; [rewrite map_size_empty; lia|].
  destruct Hl as (data & hc & Hl0 & Hnl & Hc & ->).
  rewrite map_size_disj_union, !map_size_insert_None by done. lia.
Qed.

(** * Rules for commands that only touch the heap *)

Section rules.
Context `{Malloc}.

(** From heap [h] the command returns [a] and leaves [h'], whatever the rest of the state. *)
Definition runs {A} (m : P A) (h : heap) (a : A) (h' : heap) : Prop := forall os v, m h os v = Ret (a, h') v.

Lemma runs_ret {A} (a : A) h : runs (mret a) h a h.
Proof. done. Qed.
Lemma runs_bind {A B} (m : P A) (k : A -> P B) h a h1 b h2 : runs m h a h1 -> runs (k a) h1 b h2 -> runs (m ≫= k) h b h2.
Proof. intros Hm Hk os v. unfold mbind, P_bind, mbind, M_bind. rewrite Hm. apply Hk. Qed.
Lemma runs_assoc {A B C} (m : P A) (k : A -> P B) (k' : B -> P C) h b h1 c h2 :
  runs (m ≫= k) h b h1 -> runs (k' b) h1 c h2 -> runs (x ← m; y ← k x; k' y) h c h2.
Proof.
  intros Hm Hk os v. specialize (Hm os v). unfold mbind, P_bind, mbind, M_bind in *. destruct (m h os v) as [a v'|]; [|done].
  rewrite Hm. apply Hk.
Qed.
Lemma runs_obj_at p o h : h !! p = Some o -> runs (obj_at p) h o h.
Proof. intros Hp os v. unfold obj_at. by rewrite Hp. Qed.
Lemma runs_src_at p s h : h !! p = Some (OSrc s) -> runs (src_at p) h s h.
Proof. intros Hp. eapply runs_bind; [by apply runs_obj_at|apply runs_ret]. Qed.
Lemma runs_list_at l data h : h !! l = Some (OList data) -> runs (list_at l) h data h.
Proof. intros Hl. eapply runs_bind; [by apply runs_obj_at|apply runs_ret]. Qed.
Lemma runs_set_obj p o o' h : h !! p = Some o -> runs (set_obj p o') h tt (<[p := o']> h).
Proof. intros Hp os v. unfold set_obj. by rewrite Hp. Qed.
Lemma runs_free p o h : p ≠ 0 -> h !! p = Some o -> runs (free p) h tt (delete p h).
Proof. intros Hp Ho os v. unfold free. by rewrite (proj2 (Z.eqb_neq _ _) Hp), Ho. Qed.
Lemma runs_malloc o h : runs (malloc o) h (alloc h) (<[alloc h := o]> h).
Proof. done. Qed.

(** A loop over sources, as a fold over what they hold; the body keeps the nodes readable. *)
Lemma runs_loop (Inv : sources -> heap -> Prop) g body data vs : forall rv h,
  (forall rv h, Inv rv h -> Forall2 (cell h) data vs) ->
  (forall rv h p s, Inv rv h -> h !! p = Some (OSrc s) -> exists h', runs (body p) h tt h' /\ Inv (g rv s) h') ->
  Inv rv h -> exists h', runs (loop_data data body) h tt h' /\ Inv (fold_left g (live vs) rv) h'.
Proof.
  revert vs. induction data as [|p data IH]; intros vs rv h Hr Hb Hi; pose proof (Hr _ _ Hi) as Hc.
  { apply Forall2_nil_inv_l in Hc as ->. exists h. split; [apply runs_ret|done]. }
  apply Forall2_cons_inv_l in Hc as (o & vs' & Hp & Hc & ->).
  assert (Hr' : forall rv h, Inv rv h -> Forall2 (cell h) data vs').
  { intros rv' h' Hi'. apply Hr in Hi'. by apply Forall2_cons in Hi' as []. }
  destruct o as [s|]; simpl in Hp.
  - destruct Hp as [Hp Hs]. destruct (Hb rv h p s Hi Hs) as (h1 & Hrun & Hi1).
    destruct (IH vs' (g rv s) h1 Hr' Hb Hi1) as (h2 & Hrun2 & Hi2). exists h2. split; [|by rewrite live_cons_Some].
    cbn [loop_data]. rewrite (proj2 (Z.eqb_neq _ _) Hp). eapply runs_bind; [exact Hrun|exact Hrun2].
  - subst p. destruct (IH vs' rv h Hr' Hb Hi) as (h2 & Hrun2 & Hi2). exists h2. split; [|by rewrite live_cons_None].
    cbn [loop_data]. eapply runs_bind; [apply runs_ret|exact Hrun2].
Qed.

(** The search answers the data pointer of the node found. *)
Definition found (data : list Z) (vs : sources) (n : msrc) : Z :=
  match LinkList.list_hasmember msrc_cmp vs n with Some k => default 0 (data !! k) | None => 0 end.
Lemma runs_hasmember_loop h data vs needle n :
  Forall2 (cell h) data vs -> h !! needle = Some (OSrc n) -> runs (hasmember_loop data needle) h (found data vs n) h.
Proof.
  intros Hc Hn. unfold found, LinkList.list_hasmember. induction Hc as [|p [s|] data vs Hp Hc IH]; [apply runs_ret| |]; cbn [hasmember_loop find_idx].
  - destruct Hp as [Hp Hs]. rewrite (proj2 (Z.eqb_neq _ _) Hp). eapply runs_bind; [by apply runs_src_at|].
    eapply runs_bind; [by apply runs_src_at|]. destruct (msrc_cmp s n); [apply runs_ret|]. by destruct (find_idx _ vs).
  - simpl in Hp. subst p. simpl. by destruct (find_idx _ vs).
Qed.
Lemma found_member h data vs n : Forall2 (cell h) data vs -> (found data vs n =? 0) = negb (is_member msrc_cmp vs n).
Proof.
  intros Hc. unfold found, is_member. destruct (LinkList.list_hasmember _ _ _) as [k|] eqn:E; [|done].
  apply find_idx_Some in E as ([s|] & Hk & Hs & _); [|done]. destruct (Forall2_lookup_r _ _ _ _ _ Hc Hk) as (p & Hp & Hp0 & _).
  rewrite Hp. by apply Z.eqb_neq.
Qed.
Lemma runs_hasmember h l data vs needle n :
  h !! l = Some (OList data) -> Forall2 (cell h) data vs -> h !! needle = Some (OSrc n) ->
  runs (list_hasmember l needle) h (found data vs n) h.
Proof. intros Hl Hc Hn. eapply runs_bind; [by apply runs_list_at|]. by apply runs_hasmember_loop. Qed.

(** ** A list under construction *)

Definition is_list (h : heap) (l : Z) (vs : sources) : Prop := exists data, h !! l = Some (OList data) /\ Forall2 (cell h) data vs.
Lemma is_list_mono h h' l vs : h ⊆ h' -> is_list h l vs -> is_list h' l vs.
Proof. intros Hs (data & Hl & Hc). exists data. split; [by eapply lookup_weaken|by eapply cell_mono]. Qed.

Definition building (h0 : heap) (r : Z) (rv : sources) (h : heap) : Prop :=
  exists hr, h = hr ∪ h0 /\ hr ##ₘ h0 /\ srcs_shape r rv hr.

Lemma building_sub h0 r rv h : building h0 r rv h -> h0 ⊆ h.
Proof. intros (hr & -> & Hd & _). by apply map_union_subseteq_r. Qed.
Lemma building_cells h0 r rv h data vs : Forall2 (cell h0) data vs -> building h0 r rv h -> Forall2 (cell h) data vs.
Proof. intros Hc Hb. eapply cell_mono; [by eapply building_sub|done]. Qed.
Lemma building_list h0 r rv h : building h0 r rv h -> is_list h r rv.
Proof.
  intros (hr & -> & Hd & Hs). destruct (srcs_shape_list _ _ _ Hs) as (_ & data & Hl & Hc). exists data. split.
  - by apply lookup_union_Some_l.
  - eapply cell_mono; [|exact Hc]. by apply map_union_subseteq_l.
Qed.

Lemma runs_list_new h : exists h', runs list_new h (alloc h) h' /\ building h (alloc h) [] h'.
Proof.
  eexists. split; [apply runs_malloc|]. exists {[alloc h := OList []]}. split_and!.
  - by rewrite insert_union_singleton_l.
  - apply map_disjoint_singleton_l_2, alloc_fresh.
  - exists [], ∅. split_and!; [apply alloc_nonzero|done|constructor|by rewrite insert_empty].
Qed.

Lemma runs_listnode_add h0 r hr val data hc :
  hr = <[r := OList data]> hc -> runs (listnode_add r val) (hr ∪ h0) tt (<[r := OList (data ++ [val])]> hc ∪ h0).
Proof.
  intros ->. eapply runs_bind; [eapply runs_list_at, lookup_union_Some_l, lookup_insert_eq|].
  eapply (eq_rect _ (runs _ _ tt)); [eapply runs_set_obj, lookup_union_Some_l, lookup_insert_eq|].
  by rewrite insert_union_l, insert_insert_eq.
Qed.

Lemma runs_add_copy h0 r rv h p s :
  building h0 r rv h -> h !! p = Some (OSrc s) -> exists h', runs (add_copy r p) h tt h' /\ building h0 r (rv ++ [Some s]) h'.
Proof.
  intros (hr & -> & Hd & data & hc & Hr & Hn & Hc & ->) Hp. set (h := _ ∪ h0) in *. set (q := alloc h).
  pose proof (alloc_fresh h) as Hq. pose proof (alloc_nonzero h) as Hq0. fold q in Hq, Hq0.
  apply lookup_union_None in Hq as [Hq1 Hq2]. apply lookup_insert_None in Hq1 as [Hq1 Hrq].
  exists (<[r := OList (data ++ [q])]> (<[q := OSrc s]> hc) ∪ h0). split.
  - eapply runs_bind; [eapply runs_bind; [by apply runs_src_at|apply runs_malloc]|]. fold q. unfold h.
    rewrite insert_union_l, insert_insert_ne by done. by apply runs_listnode_add.
  - eexists. split; [done|]. split.
    + apply map_disjoint_insert_l in Hd as [Hd1 Hd2]. apply map_disjoint_insert_l_2; [done|]. by apply map_disjoint_insert_l_2.
    + exists (data ++ [q]), (<[q := OSrc s]> hc). split_and!; [done|by rewrite lookup_insert_ne|by apply cells_snoc|done].
Qed.

Lemma runs_member h l vs needle n :
  is_list h l vs -> h !! needle = Some (OSrc n) ->
  exists p, runs (list_hasmember l needle) h p h /\ (p =? 0) = negb (is_member msrc_cmp vs n).
Proof. intros (data & Hl & Hc) Hn. exists (found data vs n). split; [by apply runs_hasmember|by eapply found_member]. Qed.

Lemma runs_build_loop {h r rv h1} a A body g :
  building h r rv h1 -> is_list h a A ->
  (forall rv h' p s, building h r rv h' -> h' !! p = Some (OSrc s) -> exists h'', runs (body p) h' tt h'' /\ building h r (g rv s) h'') ->
  exists h2, runs (list_loop a body) h1 tt h2 /\ building h r (fold_left g (live A) rv) h2.
Proof.
  intros Hi (data & Ha & Hc) Hb. destruct (runs_loop (building h r) g body data A rv h1) as (h2 & Hrun & Hi2); [|done|done|].
  - intros rv' h'. by apply building_cells.
  - exists h2. split; [|done]. eapply runs_bind; [|exact Hrun]. apply runs_list_at. eapply lookup_weaken; [exact Ha|by eapply building_sub].
Qed.

(** Adding a copy, or not, by the result of a search in a list that does not change or in the one built. *)
Lemma runs_add_unless h r rv h' l vs p s (b : bool) :
  building h r rv h' -> is_list h' l vs -> h' !! p = Some (OSrc s) ->
  exists h'', runs (found ← list_hasmember l p;
                    if found =? 0 then (if b then mret tt else add_copy r p) else (if b then add_copy r p else mret tt)) h' tt h'' /\
    building h r (if xorb b (is_member msrc_cmp vs s) then rv else rv ++ [Some s]) h''.
Proof.
  intros Hb Hl Hp. destruct (runs_member h' l vs p s Hl Hp) as (q & Hq & Hm).
  destruct (runs_add_copy h r rv h' p s Hb Hp) as (h2 & Hadd & Hb2).
  destruct b, (is_member msrc_cmp vs s); simpl in *; eexists; (split; [eapply runs_bind; [exact Hq|]; rewrite Hm|]); eauto using runs_ret.
Qed.

Section sets.
Context (h : heap) (D : gmap Z sources) (R : heap) (HD : lists_shape h D R) (a b : Z) (A B : sources) (Ha : D !! a = Some A) (Hb : D !! b = Some B).

Lemma shape_is_list l vs : D !! l = Some vs -> is_list h l vs.
Proof. intros Hl. by destruct (lists_shape_list h D R l vs HD Hl) as [_ ?]. Qed.
Hint Resolve shape_is_list building_sub is_list_mono building_list : core.

(** The result: a new list that holds [vs], next to the ones there were. *)
Definition makes (m : P Z) (vs : sources) : Prop :=
  exists r h', runs m h r h' /\ r ≠ 0 /\ D !! r = None /\ lists_shape h' (<[r := vs]> D) R.
Lemma makes_intro (k : Z -> P Z) vs :
  (forall h1, building h (alloc h) [] h1 -> exists h2, runs (k (alloc h)) h1 (alloc h) h2 /\ building h (alloc h) vs h2) ->
  makes (r ← list_new; k r) vs.
Proof.
  intros Hk. destruct (runs_list_new h) as (h1 & Hr1 & Hb1). destruct (Hk h1 Hb1) as (h2 & Hr2 & hr & -> & Hd & Hs).
  assert (Hn : D !! alloc h = None).
  { destruct (D !! alloc h) as [vs'|] eqn:E; [|done]. destruct (shape_is_list _ _ E) as (data & Hl & _).
    by rewrite alloc_fresh in Hl. }
  exists (alloc h), (hr ∪ h). split_and!; [by eapply runs_bind|apply alloc_nonzero|done|by constructor].
Qed.

Lemma makes_difference : makes (list_difference a b) (LinkList.list_difference msrc_cmp A B).
Proof.
  apply makes_intro. intros h1 Hb1.
  destruct (runs_build_loop a A (fun e => found ← list_hasmember b e; if found =? 0 then add_copy (alloc h) e else mret tt)
    (fun rv s => if negb (is_member msrc_cmp B s) then LinkList.listnode_add rv (Some s) else rv) Hb1) as (h2 & Hr2 & Hb2); [by eauto| |].
  - intros rv h' p s Hb' Hp. destruct (runs_add_unless h (alloc h) rv h' b B p s false) as (h3 & ? & ?); [by eauto..|].
    exists h3. split; [done|]. by destruct (is_member msrc_cmp B s).
  - exists h2. split; [eapply runs_bind; [exact Hr2|apply runs_ret]|exact Hb2].
Qed.

(** The copy of [a] that [list_union] starts with. *)
Lemma runs_copy_loop h1 :
  building h (alloc h) [] h1 -> exists h2, runs (list_loop a (add_copy (alloc h))) h1 tt h2 /\
    building h (alloc h) (fold_left (fun r e => LinkList.listnode_add r (Some e)) (live A) []) h2.
Proof.
  intros Hb1. eapply runs_build_loop; [done|by eauto|]. intros rv h' p s Hb' Hp. by eapply runs_add_copy.
Qed.
Lemma makes_union : makes (list_union a b) (LinkList.list_union msrc_cmp A (Some B)).
Proof.
  apply makes_intro. intros h1 Hb1. destruct (runs_copy_loop h1 Hb1) as (h2 & Hr2 & Hb2).
  destruct (lists_shape_list h D R b B HD Hb) as [Hb0 _].
  destruct (runs_build_loop b B (fun e => found ← list_hasmember (alloc h) e; if found =? 0 then add_copy (alloc h) e else mret tt)
    (fun r e => if negb (is_member msrc_cmp r e) then LinkList.listnode_add r (Some e) else r) Hb2) as (h3 & Hr3 & Hb3); [by eauto| |].
  - intros rv h' p s Hb' Hp. destruct (runs_add_unless h (alloc h) rv h' (alloc h) rv p s false) as (h3 & ? & ?); [by eauto..|].
    exists h3. split; [done|]. by destruct (is_member msrc_cmp rv s).
  - exists h3. split; [|exact Hb3]. eapply runs_bind; [exact Hr2|]. rewrite (proj2 (Z.eqb_neq _ _) Hb0).
    eapply runs_bind; [exact Hr3|apply runs_ret].
Qed.
Lemma makes_intersect : makes (list_intersect a b) (LinkList.list_intersect msrc_cmp A B).
Proof.
  apply makes_intro. intros h1 Hb1.
  destruct (runs_build_loop a A (fun e => found ← list_hasmember b e; if found =? 0 then mret tt else add_copy (alloc h) e)
    (fun r e => if is_member msrc_cmp B e then LinkList.listnode_add r (Some e) else r) Hb1) as (h2 & Hr2 & Hb2); [by eauto| |].
  { intros rv h' p s Hb' Hp. destruct (runs_add_unless h (alloc h) rv h' b B p s true) as (h3 & ? & ?); [by eauto..|].
    exists h3. split; [done|]. by destruct (is_member msrc_cmp B s). }
  destruct (runs_build_loop b B (fun e => found ← list_hasmember a e; if found =? 0 then mret tt
      else found ← list_hasmember (alloc h) e; if found =? 0 then add_copy (alloc h) e else mret tt)
    (fun r e => if is_member msrc_cmp A e && negb (is_member msrc_cmp r e) then LinkList.listnode_add r (Some e) else r) Hb2) as (h3 & Hr3 & Hb3);
    [by eauto| |].
  { intros rv h' p s Hb' Hp. destruct (runs_member h' a A p s) as (q & Hq & Hm); [by eauto..|].
    destruct (runs_add_unless h (alloc h) rv h' (alloc h) rv p s false) as (h3 & Hr3 & Hb3); [by eauto..|].
    destruct (is_member msrc_cmp A s); simpl in *.
    - exists h3. split; [eapply runs_bind; [exact Hq|]; by rewrite Hm|]. by destruct (is_member msrc_cmp rv s).
    - exists h'. split; [eapply runs_bind; [exact Hq|]; rewrite Hm; apply runs_ret|done]. }
  exists h3. split; [|exact Hb3]. eapply runs_bind; [exact Hr2|]. eapply runs_bind; [exact Hr3|apply runs_ret].
Qed.
End sets.

(** ** Lists that change *)

(** Freeing the sources of a list, and the list. *)
Lemma runs_delete_data data vs hc f : cells data vs hc -> hc ##ₘ f -> runs (delete_data msrc_free data) (hc ∪ f) tt f.
Proof.
  induction 1 as [|p s data vs hc Hp Hn Hc IH|data vs hc Hc IH]; intros Hd; cbn [delete_data].
  - rewrite (left_id_L ∅ (∪)). apply runs_ret.
  - apply map_disjoint_insert_l in Hd as [Hpf Hd]. eapply runs_bind; [|by apply IH].
    eapply (eq_rect _ (runs _ _ tt)); [eapply runs_free; [done|apply lookup_union_Some_l, lookup_insert_eq]|].
    rewrite <-insert_union_l, delete_insert_id; [done|]. by apply lookup_union_None.
  - eapply runs_bind; [apply runs_ret|by apply IH].
Qed.

Lemma runs_list_delete h D R l vs :
  lists_shape h D R -> D !! l = Some vs -> exists h', runs (list_delete msrc_free l) h tt h' /\ lists_shape h' (delete l D) R.
Proof.
  intros HD Hl. destruct (lists_shape_focus _ _ _ _ _ HD Hl) as (hl & h' & -> & Hd & (data & hc & Hl0 & Hn & Hc & ->) & Hs).
  exists h'. split; [|done]. apply map_disjoint_insert_l in Hd as [Hlf Hd]. rewrite <-insert_union_l, insert_union_r by done.
  eapply runs_bind; [apply runs_list_at; by rewrite lookup_union_r, lookup_insert_eq|].
  eapply runs_bind; [eapply runs_delete_data; [exact Hc|by apply map_disjoint_insert_r_2]|].
  eapply (eq_rect _ (runs _ _ tt)); [eapply runs_free; [done|apply lookup_insert_eq]|]. by apply delete_insert_id.
Qed.

(** Taking a node out: its source stays behind. *)
Lemma cells_remove data vs hc k p s :
  cells data vs hc -> data !! k = Some p -> vs !! k = Some (Some s) ->
  exists hc', hc = <[p := OSrc s]> hc' /\ hc' !! p = None /\ remove_data p data = delete k data /\ cells (delete k data) (delete k vs) hc'.
Proof.
  intros Hc. revert k. induction Hc as [|q s0 data vs hc Hq Hn Hc IH|data vs hc Hc IH]; intros [|k] Hd Hv; simpl in *; simplify_eq.
  - exists hc. by rewrite Z.eqb_refl.
  - destruct (IH k Hd Hv) as (hc' & -> & Hn' & Hr & Hc'). apply lookup_insert_None in Hn as [Hnq Hpq].
    exists (<[q := OSrc s0]> hc'). rewrite Hr, (proj2 (Z.eqb_neq _ _)) by done. split_and!; [|by rewrite lookup_insert_ne|done|by constructor].
    by rewrite insert_insert_ne.
  - destruct (IH k Hd Hv) as (hc' & -> & Hn' & Hr & Hc'). exists hc'.
    destruct (Forall2_lookup_lr _ _ _ _ _ _ (cells_cell _ _ _ _ Hc (reflexivity _)) Hd Hv) as [Hp _].
    rewrite Hr, (proj2 (Z.eqb_neq 0 p)) by done. split_and!; [done..|by constructor].
Qed.

Lemma runs_upd_list l data data' hc f :
  runs (set_obj l (OList data')) (<[l := OList data]> hc ∪ f) tt (<[l := OList data']> hc ∪ f).
Proof.
  eapply (eq_rect _ (runs _ _ tt)); [eapply runs_set_obj, lookup_union_Some_l, lookup_insert_eq|]. by rewrite insert_union_l, insert_insert_eq.
Qed.

(** The loops of [list_remove_all] and [list_add_all]: the list [a] as it is now, what it lost, and the rest. *)
Definition losing (f : heap) (a : Z) (n : nat) (rv : sources) (h : heap) : Prop :=
  exists ha g, h = ha ∪ (g ∪ f) /\ ha ##ₘ g ∪ f /\ g ##ₘ f /\ srcs_shape a rv ha /\ (length rv + size g = n)%nat /\
    map_Forall (fun _ o => exists s, o = OSrc s) g.

Lemma losing_frame f a n rv h : losing f a n rv h -> f ⊆ h.
Proof. intros (ha & g & -> & Hd & Hg & _). etrans; [by apply map_union_subseteq_r|by apply map_union_subseteq_r]. Qed.

Lemma runs_remove_step f a n rv h p s :
  losing f a n rv h -> h !! p = Some (OSrc s) ->
  exists h', runs (element ← list_hasmember a p; if element =? 0 then mret tt else listnode_delete a element) h tt h' /\
    losing f a n (match LinkList.list_hasmember msrc_cmp rv s with Some i => LinkList.listnode_delete rv i | None => rv end) h'.
Proof.
  intros (ha & g & -> & Hd & Hg & (data & hc & Ha & Hn & Hc & ->) & Hsz & Hsrc) Hp.
  assert (Hcell : Forall2 (cell (<[a := OList data]> hc ∪ (g ∪ f))) data rv).
  { eapply cell_mono; [by apply map_union_subseteq_l|]. eapply cells_cell; [exact Hc|by apply insert_subseteq]. }
  assert (Hrun : runs (list_hasmember a p) (<[a := OList data]> hc ∪ (g ∪ f)) (found data rv s) (<[a := OList data]> hc ∪ (g ∪ f))).
  { apply runs_hasmember; [apply lookup_union_Some_l, lookup_insert_eq|done|done]. }
  pose proof (found_member _ _ _ s Hcell) as Hf. unfold is_member in Hf. unfold found in *.
  destruct (LinkList.list_hasmember msrc_cmp rv s) as [k|] eqn:E.
  2: { exists (<[a := OList data]> hc ∪ (g ∪ f)). split; [eapply runs_bind; [exact Hrun|]; apply runs_ret|].
       exists (<[a := OList data]> hc), g. split_and!; try done. by exists data, hc. }
  apply find_idx_Some in E as ([s'|] & Hk & Hm & _); [clear Hm|done]. destruct (Forall2_lookup_r _ _ _ _ _ Hcell Hk) as (q & Hq & Hq0 & _).
  rewrite Hq in *. simpl in *.
  destruct (cells_remove _ _ _ _ _ _ Hc Hq Hk) as (hc' & -> & Hnq & Hrm & Hc'). apply lookup_insert_None in Hn as [Hna Hqa].
  apply map_disjoint_insert_l in Hd as [Haf Hd]. apply map_disjoint_insert_l in Hd as [Hqf Hd].
  apply lookup_union_None in Hqf as [Hqg Hqf].
  exists (<[a := OList (delete k data)]> hc' ∪ (<[q := OSrc s']> g ∪ f)). split.
  - eapply runs_bind; [exact Hrun|]. rewrite (proj2 (Z.eqb_neq _ _) Hq0).
    eapply runs_bind; [apply runs_list_at, lookup_union_Some_l, lookup_insert_eq|]. rewrite Hrm.
    eapply (eq_rect _ (runs _ _ tt)); [apply runs_upd_list|].
    rewrite <-!insert_union_l, <-insert_union_r by done. by rewrite insert_insert_ne.
  - exists (<[a := OList (delete k data)]> hc'), (<[q := OSrc s']> g). split_and!; [done| |by apply map_disjoint_insert_l_2| | |].
    + rewrite <-insert_union_l. apply map_disjoint_insert_r_2; [by rewrite lookup_insert_ne|]. by apply map_disjoint_insert_l_2.
    + by exists (delete k data), hc'.
    + rewrite map_size_insert_None by done. unfold LinkList.listnode_delete. rewrite length_delete by done.
      apply lookup_lt_Some in Hk. lia.
    + apply map_Forall_insert_2; [by exists s'|done].
Qed.

Lemma runs_add_step f a rv h p s :
  building f a rv h -> h !! p = Some (OSrc s) ->
  exists h', runs (element ← list_hasmember a p; if element =? 0 then listnode_add a element else mret tt) h tt h' /\
    building f a (match LinkList.list_hasmember msrc_cmp rv s with None => LinkList.listnode_add rv None | Some _ => rv end) h'.
Proof.
  intros Hb Hp. destruct (runs_member _ _ _ _ _ (building_list _ _ _ _ Hb) Hp) as (q & Hq & Hm). unfold is_member in Hm.
  destruct (LinkList.list_hasmember msrc_cmp rv s) as [k|].
  - exists h. split; [eapply runs_bind; [exact Hq|]; rewrite Hm; apply runs_ret|done].
  - destruct Hb as (ha & -> & Hd & data & hc & Ha & Hn & Hc & ->). simpl in Hm. apply Z.eqb_eq in Hm as ->.
    exists (<[a := OList (data ++ [0])]> hc ∪ f). split; [eapply runs_bind; [exact Hq|]; by apply runs_listnode_add|].
    eexists. split; [done|]. split; [by apply map_disjoint_insert_l in Hd as []; apply map_disjoint_insert_l_2|].
    exists (data ++ [0]), hc. split_and!; [done..|by apply cells_snoc_null|done].
Qed.

(** The frame of a list in focus has the other lists. *)
Lemma focus_other h D R l l' vs' : lists_shape h (delete l D) R -> l ≠ l' -> D !! l' = Some vs' -> is_list h l' vs'.
Proof. intros Hs Hne Hl. eapply shape_is_list; [exact Hs|]. by rewrite lookup_delete_ne. Qed.

Lemma runs_remove_all h D R a b A B :
  lists_shape h D R -> D !! a = Some A -> D !! b = Some B -> a ≠ b ->
  exists h' g, runs (list_remove_all a b) h tt h' /\ lists_shape h' (<[a := LinkList.list_remove_all msrc_cmp A B]> D) (g ∪ R) /\
    g ##ₘ R /\ (length (LinkList.list_remove_all msrc_cmp A B) + size g = length A)%nat /\ map_Forall (fun _ o => exists s, o = OSrc s) g.
Proof.
  intros HD Ha Hb Hne. destruct (lists_shape_focus _ _ _ _ _ HD Ha) as (ha & f & -> & Hd & Hsa & Hs).
  destruct (focus_other _ _ _ _ _ _ Hs Hne Hb) as (data & Hbl & Hbc).
  destruct (runs_loop (losing f a (length A)) (fun a e => match LinkList.list_hasmember msrc_cmp a e with Some i => LinkList.listnode_delete a i | None => a end)
    (fun element => element ← list_hasmember a element; if element =? 0 then mret tt else listnode_delete a element) data B A (ha ∪ f)) as (h' & Hrun & Hl).
  - intros rv h Hl. eapply cell_mono; [by eapply losing_frame|done].
  - intros rv h p s Hl Hp. by apply runs_remove_step.
  - exists ha, ∅. rewrite (left_id_L ∅ (∪)). split_and!; [done|done|apply map_disjoint_empty_l|done|rewrite map_size_empty; lia|apply map_Forall_empty].
  - destruct Hl as (ha' & g & -> & Hd' & Hg & Hsa' & Hsz & Hsrc). exists (ha' ∪ (g ∪ f)), g. split_and!.
    + eapply runs_bind; [|exact Hrun]. apply runs_list_at. by rewrite lookup_union_r by (by eapply map_disjoint_Some_r).
    + apply lists_shape_replace; [by apply lists_shape_leak|done|exact Hsa'].
    + eapply map_disjoint_weaken_r; [exact Hg|]. by eapply lists_shape_rest.
    + exact Hsz.
    + done.
Qed.

Lemma runs_add_all h D R a b A B :
  lists_shape h D R -> D !! a = Some A -> D !! b = Some B -> a ≠ b ->
  exists h', runs (list_add_all a b) h tt h' /\ lists_shape h' (<[a := LinkList.list_add_all msrc_cmp A B]> D) R.
Proof.
  intros HD Ha Hb Hne. destruct (lists_shape_focus _ _ _ _ _ HD Ha) as (ha & f & -> & Hd & Hsa & Hs).
  pose proof (focus_other _ _ _ _ _ _ Hs Hne Hb) as Hbl. assert (Hba : building f a A (ha ∪ f)) by by exists ha.
  destruct (runs_build_loop b B (fun element => element ← list_hasmember a element; if element =? 0 then listnode_add a element else mret tt)
    (fun a e => match LinkList.list_hasmember msrc_cmp a e with None => LinkList.listnode_add a None | Some _ => a end) Hba Hbl) as (h' & Hrun & Hb').
  - intros rv h p s. by apply runs_add_step.
  - destruct Hb' as (ha' & -> & Hd' & Hsa'). exists (ha' ∪ f). split; [exact Hrun|by apply lists_shape_replace].
Qed.

(** The timers of the sources of a list, chosen by a list of the frame. *)
Definition chosen_by (h : heap) (which_list : Z) (which : option sources) : Prop :=
  match which with None => which_list = 0 | Some vs => which_list ≠ 0 /\ is_list h which_list vs end.

Lemma runs_selected h which_list which p s :
  chosen_by h which_list which -> p ≠ 0 -> h !! p = Some (OSrc s) ->
  exists q, runs (if which_list =? 0 then mret p else list_hasmember which_list p) h q h /\ (q =? 0) = negb (selected which s).
Proof.
  destruct which as [vs|]; simpl; [intros [Hw Hl] Hp Hs|intros -> Hp Hs].
  - rewrite (proj2 (Z.eqb_neq _ _) Hw). by apply runs_member.
  - exists p. split; [apply runs_ret|by apply Z.eqb_neq].
Qed.

Lemma runs_timers_cells which_list which t data vs hc : cells data vs hc -> forall f, hc ##ₘ f -> chosen_by f which_list which ->
  exists hc', runs (loop_data data (fun source =>
      found ← (if which_list =? 0 then mret source else list_hasmember which_list source);
      if found =? 0 then mret tt
      else s ← src_at source; set_obj source (OSrc (Msrc (s_addr s) (u32 t))))) (hc ∪ f) tt (hc' ∪ f) /\
    cells data (Mld2Logic.set_source_timers vs which t) hc' /\ dom hc' = dom hc.
Proof.
  induction 1 as [|p s data vs hc Hp Hn Hc IH|data vs hc Hc IH]; intros f Hd Hw; cbn [loop_data].
  - exists ∅. split_and!; [apply runs_ret|constructor|done].
  - apply map_disjoint_insert_l in Hd as [Hpf Hd].
    set (s' := if selected which s then Msrc (s_addr s) (u32 t) else s). set (f' := <[p := OSrc s']> f).
    assert (Hff : f ⊆ f') by by apply insert_subseteq.
    destruct (IH f') as (hc' & Hrun & Hc' & Hdom).
    { by apply map_disjoint_insert_r_2. }
    { destruct which as [w|]; [|done]. destruct Hw as [Hw0 Hw]. split; [done|]. by eapply is_list_mono. }
    assert (Hn' : hc' !! p = None) by (apply not_elem_of_dom; rewrite Hdom; by apply not_elem_of_dom).
    exists (<[p := OSrc s']> hc'). split_and!; [|by apply (cells_src p s')|by rewrite !dom_insert_L, Hdom].
    rewrite (proj2 (Z.eqb_neq _ _) Hp). set (h := <[p := OSrc s]> hc ∪ f).
    assert (Hps : h !! p = Some (OSrc s)) by apply lookup_union_Some_l, lookup_insert_eq.
    assert (Hwh : chosen_by h which_list which).
    { destruct which as [w|]; [|done]. destruct Hw as [Hw0 Hw]. split; [done|]. eapply is_list_mono; [|exact Hw].
      apply map_union_subseteq_r. by apply map_disjoint_insert_l_2. }
    destruct (runs_selected h which_list which p s Hwh Hp Hps) as (q & Hq & Hsel).
    assert (Hh1 : <[p := OSrc s']> h = hc ∪ f') by (unfold h, f'; by rewrite insert_union_l, insert_insert_eq, <-insert_union_l, insert_union_r).
    eapply runs_bind; [eapply runs_bind; [exact Hq|]|]; cycle 1.
    + rewrite <-insert_union_l, insert_union_r by done. exact Hrun.
    + rewrite <-Hh1, Hsel. unfold s'. destruct (selected which s); simpl.
      * eapply runs_bind; [by apply runs_src_at|]. by eapply runs_set_obj.
      * rewrite insert_id by done. apply runs_ret.
  - destruct (IH f Hd Hw) as (hc' & Hrun & Hc' & Hdom). exists hc'. split_and!; [|by apply cells_null|done].
    eapply runs_bind; [apply runs_ret|exact Hrun].
Qed.

Lemma runs_timers h D R l L which_list which t :
  lists_shape h D R -> D !! l = Some L ->
  match which with None => which_list = 0 | Some vs => l ≠ which_list /\ D !! which_list = Some vs end ->
  exists h', runs (set_source_timers l which_list t) h tt h' /\ lists_shape h' (<[l := Mld2Logic.set_source_timers L which t]> D) R.
Proof.
  intros HD Hl Hw. destruct (lists_shape_focus _ _ _ _ _ HD Hl) as (hl & f & -> & Hd & (data & hc & Hl0 & Hn & Hc & ->) & Hs).
  apply map_disjoint_insert_l in Hd as [Hlf Hd]. set (f' := <[l := OList data]> f).
  assert (Hsub : f ⊆ f') by by apply insert_subseteq.
  destruct (runs_timers_cells which_list which t data L hc Hc f') as (hc' & Hrun & Hc' & Hdom).
  { by apply map_disjoint_insert_r_2. }
  { destruct which as [vs|]; [|done]. destruct Hw as [Hne Hw]. split; [by eapply (lists_shape_list _ _ _ _ _ HD)|].
    eapply is_list_mono; [exact Hsub|]. by eapply focus_other. }
  assert (Hn' : hc' !! l = None) by (apply not_elem_of_dom; rewrite Hdom; by apply not_elem_of_dom).
  exists (<[l := OList data]> hc' ∪ f). rewrite <-!insert_union_l, !insert_union_r by done. split.
  - eapply runs_bind; [|exact Hrun]. apply runs_list_at. rewrite lookup_union_r by done. apply lookup_insert_eq.
  - fold f'. unfold f'. rewrite <-insert_union_r, insert_union_l by done. apply lists_shape_replace; [done| |by exists data, hc'].
    apply map_disjoint_insert_l_2; [done|]. apply map_disjoint_dom. rewrite Hdom. by apply map_disjoint_dom.
Qed.
End rules.
