(* ===== verification/MemoryRefine.v ===== *)
(** The pointer-level state machine of [Memory] implements the one of [Mld2Logic] on values: the same entry, the
    same queries, no access to freed memory, nothing freed twice; and which memory it never gives back. *)

From S2P Require Import Prelude LinkList Msrc World Interfaces Send Groups Samples Mld2Logic Blind Memory MemoryFacts.
#[local] Open Scope Z_scope.

(** Two states that differ in their groups at most. *)
Definition same (w v : world) : Prop := v = set_groups (w_groups v) w.
Lemma same_refl w : same w w.
Proof. by destruct w. Qed.
Lemma same_tick w v : same w v -> w_tick v = w_tick w /\ same (set_os (S (w_tick w)) (w_trace w) w) (set_os (S (w_tick v)) (w_trace v) v).
Proof. unfold same. by intros ->. Qed.
Lemma same_groups w v G : same w v -> same (set_groups G w) v.
Proof. unfold same. by intros ->. Qed.

(** * The two levels side by side *)

(** The entry at position [p] holds [gi]. *)
Definition entry_is (p : nat * nat) (gi : grpintnode) (w : world) : Prop :=
  exists g, w_groups w !! p.1 = Some g /\ g_interfaces g !! p.2 = Some gi.
Lemma entry_is_update p gi f w : entry_is p gi w ->
  entry_is p (f gi) (set_groups (alter (fun n => set_interfaces (alter f p.2 (g_interfaces n)) n) p.1 (w_groups w)) w).
Proof.
  intros (g & Hg & Hi). exists (set_interfaces (alter f p.2 (g_interfaces g)) g). simpl.
  by rewrite list_lookup_alter_eq, Hg; simpl; rewrite list_lookup_alter_eq, Hi.
Qed.

Section refine.
Context `{Malloc} (os : OS).

(** Both return, in related states. *)
Definition sim {A B} (m : M A) (w : world) (n : P B) (h : heap) (v : world) (Q : A -> world -> B -> heap -> world -> Prop) : Prop :=
  match m os w, n h os v with Ret a w', Ret b v' => Q a w' b.1 b.2 v' | _, _ => False end.

Section sim_rules.
Context {A B : Type} (Q : A -> world -> B -> heap -> world -> Prop).

Lemma sim_pure a b w h v : Q a w b h v -> sim (mret a) w (mret b) h v Q.
Proof. done. Qed.
(** A step of the heap; reading and updating the entry as a value. *)
Lemma sim_heap {C} (n : P C) k m w c h h' v : runs n h c h' -> sim m w (k c) h' v Q -> sim m w (n ≫= k) h v Q.
Proof. intros Hr Hk. unfold sim, mbind, P_bind, mbind, M_bind. by rewrite Hr. Qed.
Lemma sim_grpint_at p gi k w n h v : entry_is p gi w -> sim (k gi) w n h v Q -> sim (grpint_at p ≫= k) w n h v Q.
Proof.
  intros (g & Hg & Hi) Hk. unfold sim, grpint_at, group_at, mbind, M_bind, get in *. rewrite Hg. simpl. by rewrite Hi.
Qed.
Lemma sim_upd_grpint p gi f k w n h v :
  entry_is p gi w -> same w v ->
  (forall w', entry_is p (f gi) w' -> same w' v -> w_ints w' = w_ints w -> sim (k tt) w' n h v Q) -> sim (upd_grpint p f ≫= k) w n h v Q.
Proof.
  intros He Hs Hk. pose proof (entry_is_update p gi f w He) as He'. destruct He as (g & Hg & Hi).
  specialize (Hk _ He' (same_groups _ _ _ Hs) eq_refl).
  unfold sim, upd_grpint, grpint_at, upd_group, group_at, mbind, M_bind, get in *. rewrite Hg. simpl. rewrite Hi. simpl. by rewrite Hg.
Qed.
Lemma sim_clock k k' w h v :
  same w v -> (forall w' v', same w' v' -> w_groups w' = w_groups w -> w_ints w' = w_ints w -> sim (k (os_time os (w_tick w))) w' (k' (os_time os (w_tick w))) h v' Q) ->
  sim (time ≫= k) w (lift time ≫= k') h v Q.
Proof.
  intros Hs Hk. destruct (same_tick w v Hs) as [Ht Hs']. specialize (Hk _ _ Hs' eq_refl eq_refl).
  unfold sim, time, os_call, lift, mbind, P_bind, mbind, M_bind in *. simpl. by rewrite Ht in *.
Qed.
End sim_rules.

(** A value that is there. *)
Lemma sim_ret_l {A B C} (c : C) (k : C -> M A) w (n : P B) h v Q : sim (k c) w n h v Q -> sim (mret c ≫= k) w n h v Q.
Proof. done. Qed.
Lemma sim_ret_r {A B C} (c : C) (k : C -> P B) (m : M A) w h v Q : sim m w (k c) h v Q -> sim m w (mret c ≫= k) h v Q.
Proof. done. Qed.

(** The end of a body. *)
Lemma sim_eta_l {B} (m : M unit) (n : P B) w h v Q : sim (_ ← m; mret tt) w n h v Q -> sim m w n h v Q.
Proof. unfold sim, mbind, M_bind, mret, M_ret. by destruct (m os w) as [[] w'|]. Qed.
Lemma sim_eta_r {A} (m : M A) (n : P unit) w h v Q : sim m w (_ ← n; mret tt) h v Q -> sim m w n h v Q.
Proof.
  unfold sim, mbind, P_bind, mbind, M_bind, mret, P_ret, mret, M_ret. destruct (m os w) as [a w'|]; [|done].
  by destruct (n h os v) as [[[] h'] v'|].
Qed.

(** ** The queries *)

Lemma query_same intn mca src s w v :
  same w v -> int_ok intn w -> exists w' v', mld_send_query intn mca src s os w = Ret tt w' /\ mld_send_query intn mca src s os v = Ret tt v' /\
    same w' v' /\ w_groups w' = w_groups w /\ int_ok intn w'.
Proof.
  intros Hs Hi. destruct (safe_elim _ _ _ (safe_mld_send_query intn mca src s os w Hi)) as ([] & w' & E).
  exists w', (set_groups (w_groups v) w'). split_and!; [done| |by destruct w'| |].
  - pose proof (blind_mld_send_query intn mca src s os w (w_groups v)) as Hb. by rewrite <-Hs, E in Hb.
  - apply (rel_Ret (frames w_groups) _ _ _ _ _ (rel_mld_send_query (frames w_groups) (fun _ _ _ => eq_refl) (fun _ _ _ => eq_refl) (fun _ _ => eq_refl) _ _ _ _) E).
  - eapply frames_int_ok; [|exact Hi]. exact (rel_Ret _ _ _ _ _ _ (nints_mld_send_query _ _ _ _) E).
Qed.

Section queries.
Context {A B : Type} (Q : A -> world -> B -> heap -> world -> Prop) (intn : nat) (mca : in6_addr) (s : bool).
Implicit Types (k : unit -> M A).

Lemma sim_query src k (k' : unit -> P B) w h v :
  same w v -> int_ok intn w ->
  (forall w' v', same w' v' -> w_groups w' = w_groups w -> int_ok intn w' -> sim (k tt) w' (k' tt) h v' Q) ->
  sim (mld_send_query intn mca src s ≫= k) w (lift (mld_send_query intn mca src s) ≫= k') h v Q.
Proof.
  intros Hs Hi Hk. destruct (query_same intn mca src s w v Hs Hi) as (w' & v' & E1 & E2 & Hs' & Hg & Hi').
  specialize (Hk _ _ Hs' Hg Hi'). unfold sim, lift, mbind, P_bind, mbind, M_bind in *. by rewrite E1, E2.
Qed.

Lemma sim_mquery l L k (k' : unit -> P B) w h v :
  is_list h l L -> same w v -> int_ok intn w ->
  (forall w' v', same w' v' -> w_groups w' = w_groups w -> int_ok intn w' -> sim (k tt) w' (k' tt) h v' Q) ->
  sim (mld_send_mquery intn mca L s ≫= k) w (send_mquery intn mca l s ≫= k') h v Q.
Proof.
  intros (data & Hl & Hc) Hs Hi Hk.
  enough (Hloop : forall w v, same w v -> int_ok intn w ->
    (forall w' v', same w' v' -> w_groups w' = w_groups w -> int_ok intn w' -> sim (k tt) w' (k' tt) h v' Q) ->
    sim (mld_send_mquery intn mca L s ≫= k) w
      (loop_data data (fun src => a ← src_at src; lift (mld_send_query intn mca (Some (s_addr a)) s)) ≫= k') h v Q).
  { specialize (Hloop w v Hs Hi Hk). unfold sim, send_mquery, list_loop, mbind, P_bind, mbind, M_bind in *.
    by rewrite (runs_list_at _ _ _ Hl). }
  clear w v Hs Hi Hk Hl. unfold mld_send_mquery. induction Hc as [|p o data vs Hp Hc IH]; intros w v Hs Hi Hk; [by apply Hk|].
  destruct o as [a|]; simpl in Hp.
  - destruct Hp as [Hp Ha]. rewrite live_cons_Some. destruct (query_same intn mca (Some (s_addr a)) s w v Hs Hi) as (w' & v' & E1 & E2 & Hs' & Hg & Hi').
    specialize (IH w' v' Hs' Hi' ltac:(intros; apply Hk; [done|congruence|done])).
    unfold sim in *. cbn [for_each loop_data]. rewrite (proj2 (Z.eqb_neq _ _) Hp).
    unfold lift, mbind, P_bind, mbind, M_bind in *. rewrite E1. rewrite (runs_src_at _ _ _ Ha). simpl. by rewrite E2.
  - subst p. rewrite live_cons_None. exact (IH w v Hs Hi Hk).
Qed.
End queries.

(** ** The list operations and the entry on the heap *)

Section heap_steps.
Context {A B : Type} (Q : A -> world -> B -> heap -> world -> Prop) (m : M A) (w v : world) (h : heap) (D : gmap Z sources) (R : heap).
Context (HL : lists_shape h D R).

Lemma sim_assoc_r {C E} (n1 : P C) (n2 : C -> P E) k : sim m w (x ← n1; y ← n2 x; k y) h v Q -> sim m w ((x ← n1; n2 x) ≫= k) h v Q.
Proof.
  unfold sim, mbind, P_bind, mbind, M_bind. destruct (m os w) as [a w'|f w']; [|done]. by destruct (n1 h os v).
Qed.
Lemma sim_assoc_l {C E} (n1 : M C) (n2 : C -> M E) k (n : P B) :
  sim (x ← n1; y ← n2 x; k y) w n h v Q -> sim ((x ← n1; n2 x) ≫= k) w n h v Q.
Proof. unfold sim, mbind, P_bind, mbind, M_bind. by destruct (n1 os w). Qed.
Lemma sim_makes (n : P Z) k vs :
  makes h D R n vs -> (forall r h', r ≠ 0 -> D !! r = None -> lists_shape h' (<[r := vs]> D) R -> sim m w (k r) h' v Q) -> sim m w (n ≫= k) h v Q.
Proof. intros (r & h' & Hr & Hr0 & Hn & HL') Hk. eapply sim_heap; [exact Hr|]. by apply Hk. Qed.
Lemma sim_delete l vs k :
  D !! l = Some vs -> (forall h', lists_shape h' (delete l D) R -> sim m w (k tt) h' v Q) -> sim m w (list_delete msrc_free l ≫= k) h v Q.
Proof. intros Hl Hk. destruct (runs_list_delete h D R l vs HL Hl) as (h' & Hr & HL'). eapply sim_heap; [exact Hr|]. by apply Hk. Qed.
Lemma sim_timers l L which_list which t k :
  D !! l = Some L -> match which with None => which_list = 0 | Some vs => l ≠ which_list /\ D !! which_list = Some vs end ->
  (forall h', lists_shape h' (<[l := Mld2Logic.set_source_timers L which t]> D) R -> sim m w (k tt) h' v Q) ->
  sim m w (set_source_timers l which_list t ≫= k) h v Q.
Proof. intros Hl Hw Hk. destruct (runs_timers h D R l L which_list which t HL Hl Hw) as (h' & Hr & HL'). eapply sim_heap; [exact Hr|]. by apply Hk. Qed.
Lemma sim_timers_in l L which_list vs t k :
  D !! l = Some L -> l ≠ which_list -> D !! which_list = Some vs ->
  (forall h', lists_shape h' (<[l := Mld2Logic.set_source_timers L (Some vs) t]> D) R -> sim m w (k tt) h' v Q) ->
  sim m w (set_source_timers l which_list t ≫= k) h v Q.
Proof. intros. by eapply (sim_timers _ _ _ (Some vs)). Qed.
Lemma sim_timers_all l L t k :
  D !! l = Some L -> (forall h', lists_shape h' (<[l := Mld2Logic.set_source_timers L None t]> D) R -> sim m w (k tt) h' v Q) ->
  sim m w (set_source_timers l 0 t ≫= k) h v Q.
Proof. intros. by eapply (sim_timers _ _ _ None). Qed.
Lemma sim_add_all a b A' B' k :
  D !! a = Some A' -> D !! b = Some B' -> a ≠ b ->
  (forall h', lists_shape h' (<[a := LinkList.list_add_all msrc_cmp A' B']> D) R -> sim m w (k tt) h' v Q) -> sim m w (list_add_all a b ≫= k) h v Q.
Proof. intros Ha Hb Hne Hk. destruct (runs_add_all h D R a b A' B' HL Ha Hb Hne) as (h' & Hr & HL'). eapply sim_heap; [exact Hr|]. by apply Hk. Qed.
(** Sources that no list holds any more. *)
Definition orphans (g R : heap) (n : nat) : Prop := g ##ₘ R /\ size g = n /\ map_Forall (fun _ o => exists s, o = OSrc s) g.
Lemma orphans_none r : orphans ∅ r 0.
Proof. split_and!; [apply map_disjoint_empty_l|apply map_size_empty|apply map_Forall_empty]. Qed.
Lemma orphans_union g g' r n n' : orphans g r n -> orphans g' (g ∪ r) n' -> orphans (g' ∪ g) r (n' + n).
Proof.
  intros (Hd & <- & Hs) (Hd' & <- & Hs'). apply map_disjoint_union_r in Hd' as [Hd1 Hd2].
  split_and!; [by apply map_disjoint_union_l|by apply map_size_disj_union|by apply map_Forall_union_2].
Qed.
Lemma orphans_rest g r n p o : orphans g r n -> r !! p = Some o -> (g ∪ r) !! p = Some o.
Proof. intros (Hd & _ & _) Hp. by rewrite lookup_union_r by (by eapply map_disjoint_Some_r). Qed.
Lemma sim_remove_all a b A' B' k :
  D !! a = Some A' -> D !! b = Some B' -> a ≠ b ->
  (forall h' g n, orphans g R n -> (length (LinkList.list_remove_all msrc_cmp A' B') + n = length A')%nat ->
    lists_shape h' (<[a := LinkList.list_remove_all msrc_cmp A' B']> D) (g ∪ R) -> sim m w (k tt) h' v Q) -> sim m w (list_remove_all a b ≫= k) h v Q.
Proof.
  intros Ha Hb Hne Hk. destruct (runs_remove_all h D R a b A' B' HL Ha Hb Hne) as (h' & g & Hr & HL' & Hd & Hsz & Hsrc).
  eapply sim_heap; [exact Hr|]. by apply (Hk h' g (size g)).
Qed.
Lemma sim_entry_at grpintn e k : R !! grpintn = Some (entry_obj e) -> sim m w (k e) h v Q -> sim m w (entry_at grpintn ≫= k) h v Q.
Proof.
  intros He Hk. eapply sim_heap; [|exact Hk]. eapply runs_bind; [apply runs_obj_at; eapply lookup_weaken; [exact He|by eapply lists_shape_rest]|].
  by destruct e.
Qed.
Lemma sim_upd_entry grpintn e f k :
  R !! grpintn = Some (entry_obj e) ->
  (forall h', lists_shape h' D (<[grpintn := entry_obj (f e)]> R) -> sim m w (k tt) h' v Q) -> sim m w (upd_entry grpintn f ≫= k) h v Q.
Proof.
  intros He Hk. assert (Hh : h !! grpintn = Some (entry_obj e)) by (eapply lookup_weaken; [exact He|by eapply lists_shape_rest]).
  eapply sim_heap; [|apply (Hk (<[grpintn := entry_obj (f e)]> h)); apply lists_shape_rest_insert; by eauto].
  eapply runs_bind; [eapply runs_bind; [by apply runs_obj_at|by destruct e]|]. cbv beta. destruct e. by eapply runs_set_obj.
Qed.
End heap_steps.

(** * What a record leaves behind *)

(** An EXCLUDE entry is given a new set of sources. *)
Definition replaces (gi : grpintnode) (mode : Z) : bool := (gi_filter_mode gi =? MLD2_MODE_IS_EXCLUDE) && sets_exclude mode.
(** The sources that the two lists lost. *)
Definition sources_left (gi : grpintnode) (mode : Z) (gi' : grpintnode) : nat :=
  if replaces gi mode then length (gi_includes gi) + length (gi_excludes gi) - (length (gi_includes gi') + length (gi_excludes gi')) else 0.
(** A-X-Y. *)
Definition lists_left (gi : grpintnode) (mode : Z) (A : sources) : list sources :=
  if replaces gi mode then [LinkList.list_difference msrc_cmp (LinkList.list_difference msrc_cmp A (gi_excludes gi)) (gi_includes gi)] else [].
Definition mode_after (gi : grpintnode) (mode : Z) : Z := if sets_exclude mode then MLD2_MODE_IS_EXCLUDE else gi_filter_mode gi.

(** * The entry in memory *)

(** The fields of the entry that are not lists. *)
Definition entry_like (e : pentry) (gi : grpintnode) : Prop :=
  e_ifindex e = gi_ifindex gi /\ e_mode e = gi_filter_mode gi /\ e_timer e = gi_filter_timer gi.

(** The lists without those of the entry, and with the two that it has now. *)
Definition others (D : gmap Z sources) (e : pentry) : gmap Z sources := delete (e_includes e) (delete (e_excludes e) D).
Definition lists_after (D : gmap Z sources) (e e' : pentry) (gi' : grpintnode) : gmap Z sources :=
  <[e_includes e' := gi_includes gi']> (<[e_excludes e' := gi_excludes gi']> (others D e)).

(** The entry [gi] of the group at [p], which the daemon reports on interface [intn], is the object at [grpintn]; the lists [D]
    are the source lists of the daemon, [R] the rest of its memory. *)
Record owns (intn : nat) (p : nat * nat) (grpintn : Z) (gi : grpintnode) (e : pentry) (D : gmap Z sources) (R : heap) (w : world) (h : heap) (v : world) : Prop := {
  o_entry : entry_is p gi w; o_same : same w v; o_int : int_ok intn w; o_lists : lists_shape h D R;
  o_rest : R !! grpintn = Some (entry_obj e); o_like : entry_like e gi;
  o_includes : D !! e_includes e = Some (gi_includes gi); o_excludes : D !! e_excludes e = Some (gi_excludes gi);
  o_ne : e_includes e ≠ e_excludes e }.

(** * The branches *)

Section branches.
Context (intn : nat) (p : nat * nat) (grpintn : Z) (mca : in6_addr) (mode b : Z) (B : sources).
Context (gi : grpintnode) (e : pentry) (D : gmap Z sources) (R : heap).

(** Both levels, before a branch that is given the list [b]. *)
Record before (w : world) (h : heap) (v : world) : Prop := {
  b_owns : owns intn p grpintn gi e D R w h v;
  b_srcs : D !! b = Some B; b_ne_inc : b ≠ e_includes e; b_ne_exc : b ≠ e_excludes e }.

(** Both levels after it: the filter mode is [md], the lists of the entry are those of [gi'], at addresses that no other list has; what the branch leaves
    behind are [n] sources and the lists [lost]. *)
Record after_at (md : Z) (n : nat) (lost : list sources) (w : world) (h : heap) (v : world) (gi' : grpintnode) (e' : pentry) (g : heap) (extra : gmap Z sources) : Prop := {
  a_owns : owns intn p grpintn gi' e' (extra ∪ lists_after D e e' gi') (<[grpintn := entry_obj e']> (g ∪ R)) w h v;
  a_mode : gi_filter_mode gi' = md;
  a_includes : others D e !! e_includes e' = None; a_excludes : others D e !! e_excludes e' = None;
  a_orphans : orphans g R n; a_extra : extra ##ₘ lists_after D e e' gi'; a_lost : (map_to_list extra).*2 = lost }.
Definition after (md : Z) (n : grpintnode -> nat) (lost : list sources) (_ : unit) (w : world) (_ : unit) (h : heap) (v : world) : Prop :=
  exists gi' e' g extra, after_at md (n gi') lost w h v gi' e' g extra.

Ltac neq := first [assumption | apply not_eq_sym; assumption].
(** The address of a new list differs from those in use. *)
Ltac distinct r Hn := repeat match goal with
  | H : ?x ≠ 0 |- _ => lazymatch x with r => fail | _ => lazymatch goal with _ : r ≠ x |- _ => fail | |- _ =>
      assert (r ≠ x) by (intros ->; revert Hn; repeat first [rewrite lookup_insert_eq; congruence | rewrite lookup_insert_ne by neq | rewrite lookup_delete_ne by neq];
        congruence) end end end.
Ltac lk := repeat first [eassumption | reflexivity | rewrite lookup_insert_eq | rewrite lookup_insert_ne by neq | rewrite lookup_delete_ne by neq].
Ltac made := let r := fresh "r" in let h' := fresh "h" in let H0 := fresh "Hr" in let Hn := fresh "Hn" in
  intros r h' H0 Hn ?; distinct r Hn; rewrite ?lookup_insert_ne in Hn by neq.

Lemma nonzero_lists w h v : before w h v -> e_includes e ≠ 0 /\ e_excludes e ≠ 0 /\ b ≠ 0.
Proof. intros [[]]. split_and!; by eapply lists_shape_list. Qed.

Lemma after_at_intro md n gi' e' g extra D' R' w h v :
  gi_filter_mode gi' = md ->
  entry_is p gi' w -> same w v -> int_ok intn w -> entry_like e' gi' -> e_includes e' ≠ e_excludes e' ->
  others D e !! e_includes e' = None -> others D e !! e_excludes e' = None ->
  lists_shape h D' R' -> D' = extra ∪ lists_after D e e' gi' -> R' = <[grpintn := entry_obj e']> (g ∪ R) -> orphans g R n ->
  extra ##ₘ lists_after D e e' gi' -> after_at md n (map_to_list extra).*2 w h v gi' e' g extra.
Proof.
  intros ? ? ? ? ? Hne ? ? HL -> -> ? Hd. split; try done. split; try done.
  - apply lookup_insert_eq.
  - apply lookup_union_Some_r; [done|]. apply lookup_insert_eq.
  - apply lookup_union_Some_r; [done|]. unfold lists_after. rewrite lookup_insert_ne by done. apply lookup_insert_eq.
Qed.
Lemma after_tidy md gi' e' D' R' w h v :
  gi_filter_mode gi' = md ->
  entry_is p gi' w -> same w v -> int_ok intn w -> entry_like e' gi' -> e_includes e' ≠ e_excludes e' ->
  others D e !! e_includes e' = None -> others D e !! e_excludes e' = None ->
  lists_shape h D' R' -> D' = lists_after D e e' gi' -> R' = <[grpintn := entry_obj e']> R -> after md (fun _ => 0%nat) [] tt w tt h v.
Proof.
  intros ? ? ? ? ? ? ? ? HL -> ->. change [] with (map_to_list (∅ : gmap Z sources)).*2.
  exists gi', e', ∅, ∅. eapply after_at_intro; try done; [by rewrite (left_id_L ∅ (∪))|by rewrite (left_id_L ∅ (∪))|apply orphans_none|apply map_disjoint_empty_l].
Qed.
Lemma after_leak md n gi' e' g D' R' l vs w h v :
  gi_filter_mode gi' = md ->
  entry_is p gi' w -> same w v -> int_ok intn w -> entry_like e' gi' -> e_includes e' ≠ e_excludes e' ->
  others D e !! e_includes e' = None -> others D e !! e_excludes e' = None ->
  lists_shape h D' R' -> D' = <[l := vs]> (lists_after D e e' gi') -> R' = <[grpintn := entry_obj e']> (g ∪ R) -> orphans g R (n gi') ->
  lists_after D e e' gi' !! l = None -> after md n [vs] tt w tt h v.
Proof.
  intros ? ? ? ? ? ? ? ? HL -> -> ? ?. replace [vs] with (map_to_list ({[l := vs]} : gmap Z sources)).*2 by by rewrite map_to_list_singleton.
  exists gi', e', g, {[l := vs]}. eapply after_at_intro; try done; [by rewrite <-insert_union_singleton_l|by apply map_disjoint_singleton_l_2].
Qed.
Lemma entry_is_eq gi' w w' : w_groups w' = w_groups w -> entry_is p gi' w -> entry_is p gi' w'.
Proof. unfold entry_is. by intros ->. Qed.
Lemma int_ok_eq w w' : w_ints w' = w_ints w -> int_ok intn w -> int_ok intn w'.
Proof. unfold int_ok. by intros ->. Qed.

Ltac ent := solve [eassumption | eapply entry_is_eq; [eassumption|ent]].
Ltac ints := solve [eassumption | eapply int_ok_eq; [eassumption|ints]].
(** What the case analyses on addresses do not use. *)
Ltac thin := repeat match goal with
  | H : lists_shape _ _ _ |- _ => clear H | H : entry_is _ _ _ |- _ => clear H | H : same _ _ |- _ => clear H | H : orphans _ _ _ |- _ => clear H
  | H : w_groups _ = _ |- _ => clear H | H : w_ints _ = _ |- _ => clear H | H : int_ok _ _ |- _ => clear H | H : (_ + _)%nat = _ |- _ => clear H end.
Ltac maps := thin; unfold lists_after, others, put_includes, put_excludes, put_timer, put_mode; simpl; apply map_eq;
  intros ?; repeat (first [case_decide | rewrite lookup_insert | rewrite lookup_delete]; try congruence); fail.
Ltac lists := eapply shape_is_list; [eassumption|lk].
(** A step of both levels, and of the heap alone. *)
Ltac both := lazymatch goal with
  | |- sim ((_ ≫= _) ≫= _) _ _ _ _ _ => eapply sim_assoc_l
  | |- sim _ _ ((_ ≫= _) ≫= _) _ _ _ => eapply sim_assoc_r
  | |- sim (mret _ ≫= _) _ _ _ _ _ => eapply sim_ret_l
  | |- sim _ _ (mret _ ≫= _) _ _ _ => eapply sim_ret_r
  | |- sim (time ≫= _) _ _ _ _ _ => eapply sim_clock; [eassumption|intros ? ? ? ? ?]
  | |- sim (mld_send_mquery _ _ _ _ ≫= _) _ _ _ _ _ => eapply sim_mquery; [lists|eassumption|ints|intros ? ? ? ? ?]
  | |- sim (mld_send_query _ _ _ _ ≫= _) _ _ _ _ _ => eapply sim_query; [eassumption|ints|intros ? ? ? ? ?]
  | |- sim (grpint_at _ ≫= _) _ _ _ _ _ => eapply sim_grpint_at; [ent|]
  end.
Ltac heap := lazymatch goal with
  | |- sim _ _ (entry_at _ ≫= _) _ _ _ => eapply sim_entry_at; [eassumption|lk|]
  | |- sim _ _ (list_intersect _ _ ≫= _) _ _ _ => eapply sim_makes; [eapply makes_intersect; [eassumption|lk|lk]|made]
  | |- sim _ _ (list_union _ _ ≫= _) _ _ _ => eapply sim_makes; [eapply makes_union; [eassumption|lk|lk]|made]
  | |- sim _ _ (list_difference _ _ ≫= _) _ _ _ => eapply sim_makes; [eapply makes_difference; [eassumption|lk|lk]|made]
  | |- sim _ _ (set_source_timers _ 0 _ ≫= _) _ _ _ => eapply sim_timers_all; [eassumption|lk|intros ? ?]
  | |- sim _ _ (set_source_timers _ _ _ ≫= _) _ _ _ => eapply sim_timers_in; [eassumption|lk|neq|lk|intros ? ?]
  | |- sim _ _ (list_add_all _ _ ≫= _) _ _ _ => eapply sim_add_all; [eassumption|lk|lk|neq|intros ? ?]
  | |- sim _ _ (list_remove_all _ _ ≫= _) _ _ _ => eapply sim_remove_all; [eassumption|lk|lk|neq|];
      let Ho := fresh "Ho" in intros ? ? ? Ho ? ?;
      match goal with Hr : ?r !! grpintn = Some _ |- _ => pose proof (orphans_rest _ r _ _ _ Ho Hr) end
  | |- sim _ _ (list_delete _ _ ≫= _) _ _ _ => eapply sim_delete; [eassumption|lk|intros ? ?]
  | |- sim _ _ (upd_entry _ _ ≫= _) _ _ _ => eapply sim_upd_entry; [eassumption|lk|intros ? ?]
  end.
Ltac value := lazymatch goal with |- sim (upd_grpint _ _ ≫= _) _ _ _ _ _ => eapply sim_upd_grpint; [ent|eassumption|intros ? ? ? ?] end.
(** All the steps of a branch whose conditions are decided. *)
Ltac walk := eapply sim_eta_l; eapply sim_eta_r; repeat first [both | heap | value]; apply sim_pure.
Ltac start Hb := destruct (nonzero_lists _ _ _ Hb) as (? & ? & ?); destruct Hb as [[? ? ? ? ? (? & ? & ?) ? ? ?] ? ? ?].
Ltac rest := rewrite ?insert_insert_eq, ?insert_id by done; reflexivity.
Ltac cases := repeat (first [case_decide | rewrite lookup_insert | rewrite lookup_delete]; try congruence); fail.
Ltac fields := unfold lists_after, others, put_includes, put_excludes, put_timer, put_mode, entry_like in *; simpl.
Ltac unused := thin; fields; first [cases | match goal with Hn : _ !! ?r = None |- _ !! ?r = None => revert Hn; cases end].
(** The entry is the one written last. *)
Ltac finish :=
  let go e' := eapply (after_tidy _ _ e'); cycle 1; [ent|eassumption|ints|fields; intuition congruence|fields; congruence|unused|unused|eassumption|maps|rest|fields; congruence] in
  lazymatch goal with |- after _ _ _ _ _ _ ?h _ => lazymatch goal with
  | _ : lists_shape h _ (<[_ := entry_obj ?e']> _) |- _ => go e'
  | _ => go e end end.
Lemma lost_count (a0 a1 a2 b0 b1 b2 n0 n1 n2 n3 : nat) :
  (a1 + n0 = a0 -> b1 + n1 = b0 -> a2 + n2 = a1 -> b2 + n3 = b1 -> n3 + n2 + n1 + n0 = a0 + b0 - (a2 + b2))%nat.
Proof. lia. Qed.
(** The same, with the third list made and the sources of four removals left behind. *)
Ltac leak := lazymatch goal with
  Ho0 : orphans ?g0 R ?n0, Ho1 : orphans ?g1 (?g0 ∪ R) ?n1, Ho2 : orphans ?g2 (?g1 ∪ (?g0 ∪ R)) ?n2, Ho3 : orphans ?g3 (?g2 ∪ (?g1 ∪ (?g0 ∪ R))) ?n3,
  Hs : lists_shape _ (<[?l := LinkList.list_difference _ (LinkList.list_difference _ _ _) _]> _) R |- after _ _ _ _ _ _ ?h _ => lazymatch goal with
  _ : lists_shape h _ (<[_ := entry_obj ?e']> _) |- _ =>
    pose proof (orphans_union _ _ _ _ _ Ho0 (orphans_union _ _ _ _ _ Ho1 (orphans_union _ _ _ _ _ Ho2 Ho3)));
    eapply (after_leak _ _ _ e' (g3 ∪ g2 ∪ g1 ∪ g0) _ _ l); cycle 1;
      [ent|eassumption|ints|fields; intuition congruence|fields; congruence|unused|unused
      |eassumption|maps|rewrite ?insert_insert_eq, <-!(assoc_L (∪)); reflexivity
      |fields; unfold Mld2Logic.set_source_timers; rewrite ?length_fmap; eapply (eq_rect _ (orphans _ R)); [eassumption|eapply lost_count; eassumption]
      |unused|fields; congruence] end end.

Lemma refine_include_block w h v :
  before w h v -> sim (Mld2Logic.include_block intn p mca B) w (include_block intn grpintn mca b) h v (after (gi_filter_mode gi) (fun _ => 0%nat) []).
Proof. intros Hb. start Hb. unfold Mld2Logic.include_block, include_block. walk. finish. Qed.

Lemma refine_include_add w h v :
  before w h v -> sim (Mld2Logic.include_add intn p mca mode B) w (include_add intn grpintn mca mode b) h v (after (gi_filter_mode gi) (fun _ => 0%nat) []).
Proof.
  intros Hb. start Hb. unfold Mld2Logic.include_add, include_add. cbv zeta.
  destruct (mode =? MLD2_CHANGE_TO_INCLUDE); walk; finish.
Qed.

Lemma refine_exclude_add w h v :
  before w h v -> sim (Mld2Logic.exclude_add intn p mca mode B) w (exclude_add intn grpintn mca mode b) h v (after (gi_filter_mode gi) (fun _ => 0%nat) []).
Proof.
  intros Hb. start Hb. unfold Mld2Logic.exclude_add, exclude_add. cbv zeta.
  destruct (mode =? MLD2_CHANGE_TO_INCLUDE); walk; finish.
Qed.

Lemma refine_include_to_exclude w h v :
  before w h v -> sim (Mld2Logic.include_to_exclude intn p mca mode B) w (include_to_exclude intn grpintn mca mode b) h v (after MLD2_MODE_IS_EXCLUDE (fun _ => 0%nat) []).
Proof.
  intros Hb. start Hb. unfold Mld2Logic.include_to_exclude, include_to_exclude. cbv zeta.
  destruct (mode =? MLD2_CHANGE_TO_EXCLUDE); unfold when; walk; finish.
Qed.

Lemma refine_exclude_block w h v :
  before w h v -> sim (Mld2Logic.exclude_block intn p mca B) w (exclude_block intn grpintn mca b) h v (after (gi_filter_mode gi) (fun _ => 0%nat) []).
Proof.
  intros Hb. start Hb. unfold Mld2Logic.exclude_block, exclude_block, set_timers_xy_time. cbv zeta. walk; finish.
Qed.

(** A-X-Y stays allocated, and so do the sources that X and Y lost. *)
Lemma refine_exclude_replace w h v :
  before w h v ->
  sim (Mld2Logic.exclude_replace intn p mca mode B) w (exclude_replace intn grpintn mca mode b) h v
    (after (gi_filter_mode gi) (fun gi' => length (gi_includes gi) + length (gi_excludes gi) - (length (gi_includes gi') + length (gi_excludes gi')))%nat
      [LinkList.list_difference msrc_cmp (LinkList.list_difference msrc_cmp B (gi_excludes gi)) (gi_includes gi)]).
Proof.
  intros Hb. start Hb. unfold Mld2Logic.exclude_replace, exclude_replace, remove_all_xy, set_timers_xy, set_timers_xy_time. cbv zeta.
  destruct (mode =? MLD2_MODE_IS_EXCLUDE); [|destruct (mode =? MLD2_CHANGE_TO_EXCLUDE)].
  all: walk; leak.
Qed.

Lemma refine_nothing w h v : before w h v -> sim (mret tt) w (mret tt) h v (after (gi_filter_mode gi) (fun _ => 0%nat) []).
Proof. intros Hb. start Hb. apply sim_pure. finish. Qed.
End branches.
End refine.
