(* ===== verification/MemoryRecords.v ===== *)
(** A group record of a report in the memory of the daemon: it is created, handled, and destroyed. No access is to memory that
    is not allocated, nothing is freed twice, the entry becomes what [Mld2Logic] says, and each record leaves memory behind that
    no pointer leads to any more. *)

From S2P Require Import Prelude LinkList Msrc World Interfaces Send Groups Samples Mld2Logic Memory MemoryFacts MemoryRefine.
#[local] Open Scope Z_scope.

(** The branches of [handle_downstream_subscription], after [groupint_get]. *)
Definition branches (intn : nat) (p : nat * nat) (mca : in6_addr) (mode : Z) (B : sources) : M unit :=
  grpintn ← grpint_at p;
  if gi_filter_mode grpintn =? MLD2_MODE_IS_INCLUDE then
    if adds_sources mode then Mld2Logic.include_add intn p mca mode B
    else if sets_exclude mode then Mld2Logic.include_to_exclude intn p mca mode B
    else if mode =? MLD2_BLOCK_OLD_SOURCES then Mld2Logic.include_block intn p mca B
    else mret tt
  else if gi_filter_mode grpintn =? MLD2_MODE_IS_EXCLUDE then
    if adds_sources mode then Mld2Logic.exclude_add intn p mca mode B
    else if sets_exclude mode then Mld2Logic.exclude_replace intn p mca mode B
    else if mode =? MLD2_BLOCK_OLD_SOURCES then Mld2Logic.exclude_block intn p mca B
    else mret tt
  else mret tt.
Lemma handle_branches intn p r isnew os w0 w w' :
  groupint_get (m_mca r) intn os w0 = Ret (Some p, isnew) w -> branches intn p (m_mca r) (m_filter_mode r) (m_source_list r) os w = Ret tt w' ->
  Mld2Logic.handle_downstream_subscription intn r os w0 = Ret false w'.
Proof.
  intros Hget Hb. unfold branches in Hb. unfold Mld2Logic.handle_downstream_subscription. unfold mbind, M_bind in Hb |- *.
  rewrite Hget. cbn [fst]. destruct (grpint_at p os w) as [x w1|]; [|done]. cbv zeta. by rewrite Hb.
Qed.

(** The modes an entry can have. *)
Definition has_mode (gi : grpintnode) : Prop := gi_filter_mode gi = MLD2_MODE_IS_INCLUDE \/ gi_filter_mode gi = MLD2_MODE_IS_EXCLUDE.
(** A record of a report: its addresses, each once. *)
Definition record_of (mca : in6_addr) (type : Z) (srcs : list in6_addr) : mrec := mrec_add_addrs (Msrc.mrec_create mca type) srcs.
Lemma record_of_fields mca type srcs : m_mca (record_of mca type srcs) = mca /\ m_filter_mode (record_of mca type srcs) = type.
Proof. exact (mrec_add_addrs_mca (Msrc.mrec_create mca type) srcs). Qed.

Section records.
Context `{Malloc} (os : OS).

(** * All branches *)

Section downstream.
Context (intn : nat) (p : nat * nat) (grpintn : Z) (mca : in6_addr) (mode b : Z) (B : sources).
Context (gi : grpintnode) (e : pentry) (D : gmap Z sources) (R : heap).

Lemma refine_downstream w h v :
  before intn p grpintn b B gi e D R w h v -> has_mode gi ->
  sim os (branches intn p mca mode B) w (downstream intn grpintn mca mode b) h v
    (after intn p grpintn e D R (mode_after gi mode) (sources_left gi mode) (lists_left gi mode B)).
Proof.
  intros Hb Hmode. pose proof Hb as [[? ? ? ? ? (_ & Hem & _) ? ? ?] _ _ _]. unfold branches. eapply sim_grpint_at; [eassumption|]. unfold downstream. eapply sim_entry_at; [eassumption..|].
  rewrite Hem. unfold mode_after, sources_left, lists_left, replaces.
  assert (Hx : adds_sources mode = true -> sets_exclude mode = false).
  { unfold adds_sources, sets_exclude. intros Ha. repeat (apply orb_prop in Ha as [Ha|Ha]); apply Z.eqb_eq in Ha as ->; done. }
  destruct Hmode as [Hm|Hm]; (assert (Hi := f_equal (fun m => m =? MLD2_MODE_IS_INCLUDE) Hm); assert (He := f_equal (fun m => m =? MLD2_MODE_IS_EXCLUDE) Hm));
    cbv beta in Hi, He; rewrite Hi, He; simpl (_ =? _); cbn [andb];
    (destruct (adds_sources mode); [rewrite Hx by done|destruct (sets_exclude mode); [|destruct (mode =? MLD2_BLOCK_OLD_SOURCES)]]); cbv iota.
  - eapply refine_include_add; exact Hb.
  - eapply refine_include_to_exclude; exact Hb.
  - eapply refine_include_block; exact Hb.
  - eapply refine_nothing; exact Hb.
  - eapply refine_exclude_add; exact Hb.
  - rewrite <-Hm. eapply refine_exclude_replace; exact Hb.
  - eapply refine_exclude_block; exact Hb.
  - eapply refine_nothing; exact Hb.
Qed.
End downstream.

(** * The record *)

Lemma shape_alloc_list h D R : lists_shape h D R -> lists_shape (<[alloc h := OList []]> h) (<[alloc h := []]> D) R /\ D !! alloc h = None.
Proof.
  intros HL. assert (Hn : D !! alloc h = None).
  { destruct (D !! alloc h) as [vs|] eqn:E; [|done]. destruct (lists_shape_list _ _ _ _ _ HL E) as (_ & data & Hl & _). by rewrite alloc_fresh in Hl. }
  split; [|done]. rewrite insert_union_singleton_l. constructor; [done..| |].
  - apply map_disjoint_singleton_l_2, alloc_fresh.
  - exists [], ∅. split_and!; [apply alloc_nonzero|done|constructor|by rewrite insert_empty].
Qed.

Lemma runs_mrec_create h D R mca mode :
  lists_shape h D R -> exists m b h', runs (mrec_create mca mode) h m h' /\ m ≠ 0 /\ R !! m = None /\ D !! b = None /\
    lists_shape h' (<[b := []]> D) (<[m := OMrec mca mode b]> R).
Proof.
  intros HL. pose proof (alloc_fresh h) as Hm. pose proof (lists_shape_alloc _ _ _ _ (OMrec mca mode 0) HL Hm) as HL1.
  set (h1 := <[alloc h := OMrec mca mode 0]> h) in *. destruct (shape_alloc_list _ _ _ HL1) as [HL2 Hb].
  exists (alloc h), (alloc h1), (<[alloc h := OMrec mca mode (alloc h1)]> (<[alloc h1 := OList []]> h1)). split_and!.
  - eapply runs_bind; [apply runs_malloc|]. eapply runs_bind; [apply runs_malloc|]. fold h1.
    eapply runs_bind; [eapply runs_set_obj|apply runs_ret]. eapply lookup_weaken; [apply lookup_insert_eq|by eapply lists_shape_rest].
  - apply alloc_nonzero.
  - eapply lookup_weaken_None; [exact Hm|by eapply lists_shape_rest].
  - done.
  - eapply (eq_rect _ (lists_shape _ _)); [apply lists_shape_rest_insert; [exact HL2|by rewrite lookup_insert_eq]|]. apply insert_insert_eq.
Qed.

Section record.
Context (m b : Z) (mca : in6_addr) (mode : Z).

(** A source that is added stays allocated: the list has a copy of it. *)
Lemma runs_add_addr h D R r a :
  m ≠ 0 -> lists_shape h D R -> R !! m = Some (OMrec mca mode b) -> D !! b = Some (m_source_list r) ->
  exists h' g n, runs (mrec_add_source_addr m a) h (Msrc.mrec_add_source_addr r a).2 h' /\ orphans g R n /\
    (length (m_source_list r) + n = length (m_source_list (Msrc.mrec_add_source_addr r a).1))%nat /\
    lists_shape h' (<[b := m_source_list (Msrc.mrec_add_source_addr r a).1]> D) (g ∪ R).
Proof.
  intros Hm HL HR Hb. set (s := Msrc a 0). pose proof (alloc_fresh h) as Hs. pose proof (alloc_nonzero h) as Hs0.
  pose proof (lists_shape_alloc _ _ _ _ (OSrc s) HL Hs) as HL1. set (p := alloc h) in *. set (h1 := <[p := OSrc s]> h) in *.
  assert (HRp : R !! p = None) by (eapply lookup_weaken_None; [exact Hs|by eapply lists_shape_rest]).
  assert (Hp : h1 !! p = Some (OSrc s)) by apply lookup_insert_eq.
  assert (Hm1 : h1 !! m = Some (OMrec mca mode b)).
  { eapply lookup_weaken; [|by eapply lists_shape_rest]. by rewrite lookup_insert_ne by congruence. }
  destruct (runs_member h1 b _ p s (shape_is_list _ _ _ HL1 _ _ Hb) Hp) as (q & Hq & Hqm).
  unfold Msrc.mrec_add_source_addr, Msrc.mrec_add_source, Msrc.msrc_create. fold s.
  assert (Hstart : forall c h', runs (found ← list_hasmember b p;
      if found =? 0 then newsrc ← msrc_getcopy p; _ ← listnode_add b newsrc; mret 1 else mret 0) h1 c h' -> runs (mrec_add_source m p) h1 c h').
  { intros c h' Hk. unfold mrec_add_source. rewrite (proj2 (Z.eqb_neq _ _) Hm).
    eapply runs_bind; [eapply runs_bind; [by apply runs_obj_at|apply runs_ret]|exact Hk]. }
  destruct (is_member msrc_cmp (m_source_list r) s).
  - exists h, ∅, 0%nat. split_and!; [|apply orphans_none|simpl; lia|by rewrite (left_id_L ∅ (∪)), insert_id by done].
    eapply runs_bind; [apply runs_malloc|]. fold p. change (OSrc _) with (OSrc s). fold h1.
    eapply runs_bind; [apply Hstart; eapply runs_bind; [exact Hq|]; rewrite Hqm; apply runs_ret|]. simpl.
    eapply runs_bind; [|apply runs_ret]. eapply (eq_rect _ (runs _ _ tt)); [by eapply runs_free|]. by apply delete_insert_id.
  - destruct (lists_shape_focus _ _ _ _ _ HL1 Hb) as (hl & f & E & Hd & Hsl & Hf).
    destruct (runs_add_copy f b (m_source_list r) h1 p s) as (h2 & Hadd & hr & -> & Hd2 & Hsr); [by exists hl|done|].
    exists (hr ∪ f), {[p := OSrc s]}, 1%nat. split_and!.
    + eapply runs_bind; [apply runs_malloc|]. fold p. change (OSrc _) with (OSrc s). fold h1.
      eapply runs_bind; [apply Hstart; eapply runs_bind; [exact Hq|]; rewrite Hqm; eapply runs_assoc; [exact Hadd|apply runs_ret]|apply runs_ret].
    + split_and!; [by apply map_disjoint_singleton_l_2|apply map_size_singleton|]. intros i o [<- <-]%lookup_singleton_Some. by exists s.
    + simpl. unfold LinkList.listnode_add. rewrite length_app. simpl. lia.
    + rewrite <-insert_union_singleton_l. apply lists_shape_replace; [exact Hf|exact Hd2|exact Hsr].
Qed.

(** What the sources of a record cost: one object each, besides the list. *)
Lemma runs_add_addrs srcs : forall h D R r,
  m ≠ 0 -> lists_shape h D R -> R !! m = Some (OMrec mca mode b) -> D !! b = Some (m_source_list r) ->
  exists h' g n, runs (add_addrs m srcs) h tt h' /\ orphans g R n /\
    (length (m_source_list r) + n = length (m_source_list (mrec_add_addrs r srcs)))%nat /\
    lists_shape h' (<[b := m_source_list (mrec_add_addrs r srcs)]> D) (g ∪ R).
Proof.
  induction srcs as [|a srcs IH]; intros h D R r Hm HL HR Hb.
  { exists h, ∅, 0%nat. split_and!; [apply runs_ret|apply orphans_none|simpl; lia|by rewrite (left_id_L ∅ (∪)), insert_id by done]. }
  destruct (runs_add_addr h D R r a Hm HL HR Hb) as (h1 & g1 & n1 & Hr1 & Ho1 & Hn1 & HL1).
  destruct (IH h1 _ _ (Msrc.mrec_add_source_addr r a).1 Hm HL1) as (h2 & g2 & n2 & Hr2 & Ho2 & Hn2 & HL2).
  { by eapply orphans_rest. }
  { apply lookup_insert_eq. }
  exists h2, (g2 ∪ g1), (n2 + n1)%nat. split_and!.
  - eapply runs_bind; [exact Hr1|exact Hr2].
  - by apply orphans_union.
  - simpl. lia.
  - rewrite <-(assoc_L (∪)). by rewrite insert_insert_eq in HL2.
Qed.

Lemma runs_mrec_destroy h D R B :
  m ≠ 0 -> lists_shape h D R -> R !! m = Some (OMrec mca mode b) -> D !! b = Some B ->
  exists h', runs (mrec_destroy m) h tt h' /\ lists_shape h' (delete b D) (delete m R).
Proof.
  intros Hm HL HR Hb. destruct (runs_list_delete _ _ _ _ _ HL Hb) as (h1 & Hr1 & HL1). exists (delete m h1). split.
  - eapply runs_bind; [apply runs_obj_at; eapply lookup_weaken; [exact HR|by eapply lists_shape_rest]|]. cbv beta iota.
    eapply runs_bind; [exact Hr1|]. eapply runs_free; [done|]. eapply lookup_weaken; [exact HR|by eapply lists_shape_rest].
  - apply lists_shape_rest_delete; [exact HL1|by rewrite HR].
Qed.
End record.

(** ** A record that ends where the daemon's own lists were *)

Lemma orphans_weaken g m o R n : orphans g (<[m := o]> R) n -> R !! m = None -> orphans g R n.
Proof. intros (Hd & ? & ?) Hm. split_and!; [|done..]. by apply map_disjoint_insert_r in Hd as []. Qed.
Lemma orphans_avoid g R n m o : orphans g R n -> R !! m = Some o -> g !! m = None.
Proof. intros (Hd & _ & _). by eapply map_disjoint_Some_r. Qed.

Section one_record.
Context (intn : nat) (p : nat * nat) (grpintn : Z) (gi : grpintnode) (e : pentry) (D : gmap Z sources) (R : heap).

Lemma after_keeps md n lost b B w h v gi' e' g extra R' :
  after_at intn p grpintn e (<[b := B]> D) R' md n lost w h v gi' e' g extra -> b ≠ e_includes e -> b ≠ e_excludes e ->
  e_includes e' ≠ b /\ e_excludes e' ≠ b /\ lists_after (<[b := B]> D) e e' gi' !! b = Some B.
Proof.
  intros [_ _ Hi He _ _ _] Hbi Hbe.
  assert (Hbi' : e_includes e' ≠ b) by (intros E; revert Hi; rewrite E; unfold others; by rewrite !lookup_delete_ne, lookup_insert_eq by done).
  assert (Hbe' : e_excludes e' ≠ b) by (intros E; revert He; rewrite E; unfold others; by rewrite !lookup_delete_ne, lookup_insert_eq by done).
  split_and!; [done..|]. unfold lists_after, others. by rewrite !lookup_insert_ne, !lookup_delete_ne, lookup_insert_eq by done.
Qed.

Lemma after_destroy md n lost m o b B w h h' v gi' e' g1 n1 g2 extra :
  R !! m = None -> m ≠ grpintn -> D !! b = None -> b ≠ e_includes e -> b ≠ e_excludes e -> orphans g1 (<[m := o]> R) n1 ->
  after_at intn p grpintn e (<[b := B]> D) (g1 ∪ <[m := o]> R) md n lost w h v gi' e' g2 extra ->
  lists_shape h' (delete b (extra ∪ lists_after (<[b := B]> D) e e' gi')) (delete m (<[grpintn := entry_obj e']> (g2 ∪ (g1 ∪ <[m := o]> R)))) ->
  after_at intn p grpintn e D R md (n + n1) lost w h' v gi' e' (g2 ∪ g1) extra.
Proof.
  intros Hm Hmg Hb Hbi Hbe Ho1 Ha HL. destruct (after_keeps _ _ _ _ _ _ _ _ _ _ _ _ _ Ha Hbi Hbe) as (Hbi' & Hbe' & Hlb).
  destruct Ha as [[] Hmd Hi He Ho2 Hd <-].
  assert (Hla : delete b (lists_after (<[b := B]> D) e e' gi') = lists_after D e e' gi').
  { unfold lists_after, others. rewrite !delete_insert_ne by done. f_equal. f_equal.
    apply delete_insert_id. by rewrite !lookup_delete_ne by congruence. }
  assert (Hxb : extra !! b = None) by (by eapply map_disjoint_Some_r).
  eapply after_at_intro; try done.
  - revert Hi. unfold others. rewrite !lookup_delete. repeat case_decide; [done..|]. by rewrite lookup_insert_ne.
  - revert He. unfold others. rewrite !lookup_delete. repeat case_decide; [done..|]. by rewrite lookup_insert_ne.
  - by rewrite delete_union, Hla, delete_id.
  - rewrite delete_insert_ne by done. f_equal. rewrite !delete_union, delete_insert_id by done.
    rewrite (delete_id g2), (delete_id g1), (assoc_L (∪)); [done| |].
    + eapply orphans_avoid; [exact Ho1|apply lookup_insert_eq].
    + eapply orphans_avoid; [exact Ho2|]. eapply orphans_rest; [exact Ho1|apply lookup_insert_eq].
  - eapply orphans_weaken; [by apply orphans_union|done].
  - rewrite <-Hla. by apply map_disjoint_delete_r.
Qed.

(** One record: the branches of the state machine on values, and the whole life of the record in memory. *)
Lemma report_record_spec mca type srcs w h v :
  grpintn ≠ 0 -> has_mode gi -> owns intn p grpintn gi e D R w h v ->
  let r := record_of mca type srcs in
  exists w' h' v' gi' e' g extra,
    branches intn p mca type (m_source_list r) os w = Ret tt w' /\ report_record intn grpintn mca type srcs h os v = Ret (tt, h') v' /\
    after_at intn p grpintn e D R (mode_after gi type) (sources_left gi type gi' + length (m_source_list r)) (lists_left gi type (m_source_list r)) w' h' v' gi' e' g extra.
Proof.
  intros Hg0 Hmode Ho r. pose proof Ho as [Hen Hsame Hint HL HR Hlike Hinc Hexc Hne].
  destruct (runs_mrec_create h D R mca type HL) as (m & b & h1 & Hr1 & Hm0 & Hm & Hb & HL1).
  destruct (runs_add_addrs m b mca type srcs h1 _ _ (Msrc.mrec_create mca type) Hm0 HL1) as (h2 & g1 & n1 & Hr2 & Ho1 & Hn1 & HL2); [apply lookup_insert_eq..|].
  rewrite insert_insert_eq in HL2. fold (record_of mca type srcs) in Hn1, HL2; fold r in Hn1, HL2. simpl in Hn1.
  assert (Hmg : m ≠ grpintn) by congruence. assert (Hbi : b ≠ e_includes e) by congruence. assert (Hbe : b ≠ e_excludes e) by congruence.
  assert (Hrm : (g1 ∪ <[m := OMrec mca type b]> R) !! m = Some (OMrec mca type b)) by (eapply orphans_rest; [exact Ho1|apply lookup_insert_eq]).
  assert (Hbefore : before intn p grpintn b (m_source_list r) gi e (<[b := m_source_list r]> D) (g1 ∪ <[m := OMrec mca type b]> R) w h2 v).
  { split; [split| |done|done]; try done; [|by rewrite lookup_insert_ne..|apply lookup_insert_eq].
    eapply orphans_rest; [exact Ho1|]. by rewrite lookup_insert_ne. }
  pose proof (refine_downstream intn p grpintn mca type b _ _ _ _ _ w h2 v Hbefore Hmode) as Hsim. unfold sim in Hsim.
  destruct (branches intn p mca type (m_source_list r) os w) as [[] w'|] eqn:Ew; [|done].
  destruct (downstream intn grpintn mca type b h2 os v) as [[[] h3] v'|] eqn:Ev; [|done].
  destruct Hsim as (gi' & e' & g2 & extra & Ha). simpl in Ha. pose proof (o_lists _ _ _ _ _ _ _ _ _ _ (a_owns _ _ _ _ _ _ _ _ _ _ _ _ _ _ _ _ Ha)) as HL3.
  destruct (after_keeps _ _ _ _ _ _ _ _ _ _ _ _ _ Ha Hbi Hbe) as (_ & _ & Hlb).
  destruct (runs_mrec_destroy m b mca type h3 _ _ (m_source_list r) Hm0 HL3) as (h4 & Hr4 & HL4).
  { rewrite lookup_insert_ne by done. eapply orphans_rest; [exact (a_orphans _ _ _ _ _ _ _ _ _ _ _ _ _ _ _ _ Ha)|exact Hrm]. }
  { apply lookup_union_Some_r; [|exact Hlb]. exact (a_extra _ _ _ _ _ _ _ _ _ _ _ _ _ _ _ _ Ha). }
  exists w', h4, v', gi', e', (g2 ∪ g1), extra. split_and!.
  - done.
  - unfold report_record, mbind, P_bind, mbind, M_bind. rewrite Hr1. cbv beta iota. rewrite Hr2. cbn [fst snd].
    unfold handle_downstream_subscription. rewrite (proj2 (Z.eqb_neq _ _) Hg0).
    assert (Hmh : h2 !! m = Some (OMrec mca type b)) by (eapply lookup_weaken; [exact Hrm|by eapply lists_shape_rest]).
    unfold mbind, P_bind, mbind, M_bind. rewrite (runs_obj_at _ _ _ Hmh). cbn [fst snd]. rewrite Ev. cbn [fst snd]. apply Hr4.
  - rewrite <-Hn1. by eapply after_destroy.
Qed.

(** What a record adds to the memory in use. *)
Lemma after_size md n lost w h v gi' e' g extra w0 h0 v0 :
  owns intn p grpintn gi e D R w0 h0 v0 -> after_at intn p grpintn e D R md n lost w h v gi' e' g extra ->
  (size (<[grpintn := entry_obj e']> (g ∪ R)) + size (extra ∪ lists_after D e e' gi') = size R + size D + n + length lost)%nat.
Proof.
  intros [_ _ _ _ HR _ Hi He Hne] [[_ _ _ _ _ _ _ _ Hne'] _ Hi' He' Ho Hd <-]. pose proof (orphans_rest _ _ _ _ _ Ho HR) as HgR. destruct Ho as (Hg & <- & _).
  assert (Hl : size (lists_after D e e' gi') = size D).
  { unfold lists_after. rewrite !map_size_insert_None by (rewrite ?lookup_insert_ne; done). unfold others.
    rewrite <-(insert_id D (e_excludes e) (gi_excludes gi)) at 2 by done. rewrite <-insert_delete_eq, map_size_insert_None by apply lookup_delete_eq.
    f_equal. rewrite <-(insert_id (delete (e_excludes e) D) (e_includes e) (gi_includes gi)) at 2 by by rewrite lookup_delete_ne.
    by rewrite <-insert_delete_eq, map_size_insert_None by apply lookup_delete_eq. }
  rewrite (map_size_insert_Some _ _ _ (mk_is_Some _ _ HgR)), !map_size_disj_union, length_fmap, length_map_to_list by done. lia.
Qed.
End one_record.

(** * Sequences of records *)

(** Records of one group, one after the other. *)
Fixpoint report_records (intn : nat) (grpintn : Z) (mca : in6_addr) (recs : list (Z * list in6_addr)) : P unit :=
  match recs with
  | [] => mret tt
  | (type, srcs) :: recs => _ ← report_record intn grpintn mca type srcs; report_records intn grpintn mca recs
  end.

(** The objects they leave behind at least: one for each different source that a record names, and a list for each IS_EX and TO_EX
    that finds the entry in EXCLUDE mode. *)
Fixpoint leaked (mode : Z) (mca : in6_addr) (recs : list (Z * list in6_addr)) : nat :=
  match recs with
  | [] => 0
  | (type, srcs) :: recs =>
    length (m_source_list (record_of mca type srcs)) + (if (mode =? MLD2_MODE_IS_EXCLUDE) && sets_exclude type then 1 else 0) +
    leaked (if sets_exclude type then MLD2_MODE_IS_EXCLUDE else mode) mca recs
  end.

Lemma report_records_spec intn p grpintn mca recs : grpintn ≠ 0 -> forall gi e D R w h v,
  has_mode gi -> owns intn p grpintn gi e D R w h v ->
  exists w' h' v' gi' e' D' R', report_records intn grpintn mca recs h os v = Ret (tt, h') v' /\
    has_mode gi' /\ owns intn p grpintn gi' e' D' R' w' h' v' /\ (size R + size D + leaked (gi_filter_mode gi) mca recs <= size R' + size D')%nat.
Proof.
  intros Hg0. induction recs as [|[type srcs] recs IH]; intros gi e D R w h v Hm Ho.
  { exists w, h, v, gi, e, D, R. split_and!; [done..|]. simpl. lia. }
  destruct (report_record_spec intn p grpintn gi e D R mca type srcs w h v Hg0 Hm Ho) as (w1 & h1 & v1 & gi1 & e1 & g & extra & _ & Hr1 & Ha).
  pose proof (after_size _ _ _ _ _ _ _ _ _ _ _ _ _ _ _ _ _ _ _ _ Ho Ha) as Hsz.
  assert (Hm1 : gi_filter_mode gi1 = mode_after gi type) by apply Ha.
  pose proof (a_owns _ _ _ _ _ _ _ _ _ _ _ _ _ _ _ _ Ha) as Ho1.
  destruct (fun Hm1 => IH gi1 e1 _ _ w1 h1 v1 Hm1 Ho1) as (w2 & h2 & v2 & gi2 & e2 & D2 & R2 & Hr2 & Hm2 & Ho2 & Hsz2).
  { unfold has_mode. rewrite Hm1. unfold mode_after. destruct (sets_exclude type); [by right|exact Hm]. }
  exists w2, h2, v2, gi2, e2, D2, R2. split_and!; [|done..|].
  - cbn [report_records]. unfold mbind, P_bind, mbind, M_bind. rewrite Hr1. exact Hr2.
  - cbn [leaked]. rewrite Hm1 in Hsz2. unfold mode_after in Hsz2. unfold lists_left, replaces in Hsz.
    destruct ((gi_filter_mode gi =? MLD2_MODE_IS_EXCLUDE) && sets_exclude type); simpl in Hsz; lia.
Qed.

(** * The theorems *)

(** C9: A group record in the memory of the daemon: after [groupint_get] found the entry of the group, creating the record, adding its
    sources, handling it and destroying it accesses no memory that is not allocated and frees nothing twice; the entry in memory
    becomes what the state machine on values computes; and the memory after it is that of the new lists, of everything that was there,
    and of exactly this: one source per address of the record, the sources that an IS_EX or TO_EX removed from an EXCLUDE entry, and
    the list A-X-Y of such a record. *)
Theorem report_record_memory intn p grpintn gi e D R mca type srcs isnew w0 w h v :
  grpintn ≠ 0 -> has_mode gi ->
  groupint_get mca intn os w0 = Ret (Some p, isnew) w -> owns intn p grpintn gi e D R w h v ->
  exists w' h' v' gi' e' g extra,
    Mld2Logic.handle_downstream_subscription intn (record_of mca type srcs) os w0 = Ret false w' /\
    report_record intn grpintn mca type srcs h os v = Ret (tt, h') v' /\
    after_at intn p grpintn e D R (mode_after gi type) (sources_left gi type gi' + length (m_source_list (record_of mca type srcs)))
      (lists_left gi type (m_source_list (record_of mca type srcs))) w' h' v' gi' e' g extra.
Proof.
  intros Hg0 Hm Hget Ho. destruct (report_record_spec intn p grpintn gi e D R mca type srcs w h v Hg0 Hm Ho) as (w' & h' & v' & gi' & e' & g & extra & Hb & Hr & Ha).
  exists w', h', v', gi', e', g, extra. split_and!; [|done..].
  destruct (record_of_fields mca type srcs) as [Hmca Htype].
  eapply handle_branches; rewrite Hmca, ?Htype; [exact Hget|exact Hb].
Qed.

(** C11: Any sequence of records for a group runs without an access to memory that is not allocated and without freeing twice, but the
    memory in use grows without bound: afterwards the heap has an object more for every different source that each record names, and one
    for every IS_EX or TO_EX that found the entry in EXCLUDE mode. *)
Theorem report_records_leak intn p grpintn gi e D R mca recs w h v :
  grpintn ≠ 0 -> has_mode gi -> owns intn p grpintn gi e D R w h v ->
  exists h' v', report_records intn grpintn mca recs h os v = Ret (tt, h') v' /\
    (size R + size D + leaked (gi_filter_mode gi) mca recs <= size h')%nat.
Proof.
  intros Hg0 Hm Ho. destruct (report_records_spec intn p grpintn mca recs Hg0 gi e D R w h v Hm Ho) as (w' & h' & v' & gi' & e' & D' & R' & Hr & _ & Ho' & Hsz).
  exists h', v'. split; [exact Hr|]. pose proof (lists_shape_size _ _ _ (o_lists _ _ _ _ _ _ _ _ _ _ Ho')). lia.
Qed.

(** When memory runs out and there is no entry for the group, the record is destroyed twice: the second time reads freed memory. *)
Theorem report_record_without_entry intn mca type srcs isnew w0 w h v :
  groupint_get mca intn os w0 = Ret (None, isnew) w ->
  Mld2Logic.handle_downstream_subscription intn (record_of mca type srcs) os w0 = Ret true w /\
  report_record intn 0 mca type srcs h os v = Crash NullDeref v.
Proof.
  intros Hget. split.
  { destruct (record_of_fields mca type srcs) as [Hmca _]. unfold Mld2Logic.handle_downstream_subscription, mbind, M_bind. by rewrite Hmca, Hget. }
  destruct (runs_mrec_create h ∅ h mca type) as (m & b & h1 & Hr1 & Hm0 & Hm & Hb & HL1); [constructor|].
  destruct (runs_add_addrs m b mca type srcs h1 _ _ (Msrc.mrec_create mca type) Hm0 HL1) as (h2 & g1 & n1 & Hr2 & Ho1 & Hn1 & HL2); [apply lookup_insert_eq..|].
  rewrite insert_insert_eq in HL2.
  pose proof (orphans_rest _ _ _ _ _ Ho1 (lookup_insert_eq _ _ _)) as Hrm.
  destruct (runs_mrec_destroy m b mca type h2 _ _ _ Hm0 HL2 Hrm (lookup_insert_eq _ _ _)) as (h3 & Hr3 & HL3).
  rewrite (lists_shape_no_list _ _ _ HL3) in Hr3 by apply delete_insert_id, lookup_empty.
  unfold report_record, mbind, P_bind, mbind, M_bind. rewrite Hr1. cbn [fst snd]. rewrite Hr2. cbn [fst snd].
  unfold handle_downstream_subscription. simpl (0 =? 0). cbv iota. rewrite Hr3. cbn [fst snd]. unfold mrec_destroy, obj_at, mbind, P_bind, mbind, M_bind.
  by rewrite lookup_delete_eq.
Qed.
End records.

(** * A concrete heap *)

(** The first address that is not in use. *)
Definition first_free : Malloc.
Proof.
  refine {| alloc h := fresh (dom h ∪ {[0]}) |}.
  - intros h E. pose proof (is_fresh (dom h ∪ {[0]})) as Hf. rewrite E in Hf. set_solver.
  - intros h. apply not_elem_of_dom. pose proof (is_fresh (dom h ∪ {[0]})). set_solver.
Defined.

(** The entry at 10, its lists at 20 and 30 with their sources. *)
Definition sample_pentry : pentry := PEntry 2 2 1100 20 30.
Definition sample_lists : gmap Z sources := <[20 := [Some (Msrc (src 1) 1100)]]> (<[30 := [Some (Msrc (src 3) 0)]]> ∅).
Definition sample_rest : heap := {[10 := entry_obj sample_pentry]}.
Definition sample_heap : heap :=
  <[20 := OList [21]]> (<[21 := OSrc (Msrc (src 1) 1100)]> ∅) ∪ (<[30 := OList [31]]> (<[31 := OSrc (Msrc (src 3) 0)]> ∅) ∪ sample_rest).
Definition sample_got : world :=
  match groupint_get sample_mca 2 sample_os (sample_world [exclude_entry 2] [] []) with Ret _ w => w | Crash _ w => w end.

Lemma sample_one_source l q s : l ≠ 0 -> q ≠ 0 -> l ≠ q -> srcs_shape l [Some s] (<[l := OList [q]]> (<[q := OSrc s]> ∅)).
Proof.
  intros. exists [q], (<[q := OSrc s]> ∅). split_and!; [done|by rewrite lookup_insert_ne| |done]. constructor; [done..|constructor].
Qed.
Lemma sample_owns : owns 2 (0, 0)%nat 10 (exclude_entry 2) sample_pentry sample_lists sample_rest sample_got sample_heap sample_got.
Proof.
  split; [by eexists|apply same_refl|apply Nat.ltb_lt; by vm_compute| |done|done|done|done|done].
  constructor; [constructor; [constructor|done| |by apply sample_one_source]|done| |by apply sample_one_source];
    apply map_disjoint_dom, (bool_decide_unpack _); by vm_compute.
Qed.

Lemma report_record_memory_witness : exists w' h' v' gi' e' g extra,
    Mld2Logic.handle_downstream_subscription 2 (record_of sample_mca 4 [src 2]) sample_os (sample_world [exclude_entry 2] [] []) = Ret false w' /\
    @report_record first_free 2 10 sample_mca 4 [src 2] sample_heap sample_os sample_got = Ret (tt, h') v' /\
    after_at 2 (0, 0)%nat 10 sample_pentry sample_lists sample_rest (mode_after (exclude_entry 2) 4)
      (sources_left (exclude_entry 2) 4 gi' + length (m_source_list (record_of sample_mca 4 [src 2])))
      (lists_left (exclude_entry 2) 4 (m_source_list (record_of sample_mca 4 [src 2]))) w' h' v' gi' e' g extra.
Proof.
  apply (@report_record_memory first_free sample_os 2 (0, 0)%nat 10 (exclude_entry 2) sample_pentry sample_lists sample_rest sample_mca 4 [src 2] false
    (sample_world [exclude_entry 2] [] []) sample_got); [done|by right|vm_compute; reflexivity|exact sample_owns].
Defined.

(** Three TO_EX records with a source each: at least six objects more. *)
Lemma report_records_leak_witness : exists h' v',
  @report_records first_free 2 10 sample_mca [(4, [src 2]); (4, [src 1]); (4, [src 2])] sample_heap sample_os sample_got = Ret (tt, h') v' /\
  (size sample_rest + size sample_lists + 6 <= size h')%nat.
Proof. apply (@report_records_leak first_free sample_os 2 (0, 0)%nat 10 (exclude_entry 2) sample_pentry sample_lists sample_rest
  sample_mca [(4, [src 2]); (4, [src 1]); (4, [src 2])] sample_got); [done|by right|exact sample_owns]. Defined.
