(* ===== verification/MemoryDestroy.v ===== *)
(** The functions that free: a group in memory, with its entries and their sources, and what [group_destroy] and the shutdown give
    back of it. *)

From S2P Require Import Prelude LinkList Msrc World Interfaces Send Groups Samples Mld2Logic Memory MemoryFacts MemoryRefine MemoryRecords.
#[local] Open Scope Z_scope.

(** * Shapes *)

(** The pointers [data] lead to the values [vs], each in memory of its own. *)
Inductive nodes {A} (shape : Z -> A -> heap -> Prop) : list Z -> list A -> heap -> Prop :=
| nodes_nil : nodes shape [] [] ∅
| nodes_cons p a data vs h1 h2 : shape p a h1 -> h1 ##ₘ h2 -> nodes shape data vs h2 -> nodes shape (p :: data) (a :: vs) (h1 ∪ h2).

(** The heap is exactly the entry [gi] at [p]. *)
Definition entry_shape (p : Z) (gi : grpintnode) (h : heap) : Prop :=
  exists e h1 h2, p ≠ 0 /\ entry_like e gi /\ srcs_shape (e_includes e) (gi_includes gi) h1 /\ srcs_shape (e_excludes e) (gi_excludes gi) h2 /\
    h1 ##ₘ h2 /\ (h1 ∪ h2) !! p = None /\ h = <[p := entry_obj e]> (h1 ∪ h2).
(** The heap is exactly the group [groupn] at [p], with its list [l] of entries. *)
Definition group_obj (groupn : groupnode) (l : Z) : obj := OGroup (g_mca groupn) l (g_lastforward groupn) (g_bytes groupn) (g_packets groupn).
Definition group_shape (p : Z) (groupn : groupnode) (h : heap) : Prop :=
  exists l data hc, p ≠ 0 /\ l ≠ 0 /\ nodes entry_shape data (g_interfaces groupn) hc /\ hc !! l = None /\ (<[l := OList data]> hc) !! p = None /\
    h = <[p := group_obj groupn l]> (<[l := OList data]> hc).
(** The heap is exactly the list [l] of the groups [gs]. *)
Definition groups_shape (l : Z) (gs : list groupnode) (h : heap) : Prop :=
  exists data hc, nodes group_shape data gs hc /\ hc !! l = None /\ h = <[l := OList data]> hc.

(** * Giving memory back *)

Section destroy.
Context `{Malloc}.

(** The command returns and gives back exactly the memory [hs]. *)
Definition frees (m : P unit) (hs : heap) : Prop := forall f, hs ##ₘ f -> runs m (hs ∪ f) tt f.

Lemma frees_then m (k : P unit) h1 h2 : frees m h1 -> h1 ##ₘ h2 -> frees k h2 -> frees (_ ← m; k) (h1 ∪ h2).
Proof.
  intros Hm Hd Hk f [Hf1 Hf2]%map_disjoint_union_l. rewrite <-(assoc_L (∪)). eapply runs_bind; [|by apply Hk].
  apply Hm. by apply map_disjoint_union_r_2.
Qed.
Lemma frees_free p o hs (m : P unit) : p ≠ 0 -> hs !! p = None -> frees m hs -> frees (_ ← m; free p) (<[p := o]> hs).
Proof.
  intros Hp Hn Hm f Hf. rewrite insert_union_singleton_r by done. apply map_disjoint_insert_l in Hf as [Hpf Hf].
  rewrite <-(assoc_L (∪)). eapply runs_bind; [apply Hm|].
  - apply map_disjoint_union_r_2; [|done]. by apply map_disjoint_singleton_r_2.
  - eapply (eq_rect _ (runs _ _ tt)); [eapply runs_free; [done|by apply lookup_union_Some_l, lookup_singleton_eq]|].
    rewrite <-insert_union_singleton_l. by apply delete_insert_id.
Qed.
Lemma frees_read p o hs f (k : obj -> P unit) : hs !! p = Some o -> runs (k o) (hs ∪ f) tt f -> runs (o ← obj_at p; k o) (hs ∪ f) tt f.
Proof. intros Ho Hk. eapply runs_bind; [by apply runs_obj_at, lookup_union_Some_l|exact Hk]. Qed.

Section nodes.
Context {A : Type} (shape : Z -> A -> heap -> Prop) (del : Z -> P unit) (Hdel : forall p a hs, shape p a hs -> frees (del p) hs).

Lemma frees_nodes data vs hs : nodes shape data vs hs -> frees (delete_data del data) hs.
Proof.
  induction 1 as [|p a data vs h1 h2 Hp Hd Hn IH]; cbn [delete_data].
  - intros f _. rewrite (left_id_L ∅ (∪)). apply runs_ret.
  - apply frees_then; [by eapply Hdel|done|exact IH].
Qed.
Lemma frees_list_delete l data vs hc : l ≠ 0 -> nodes shape data vs hc -> hc !! l = None -> frees (list_delete del l) (<[l := OList data]> hc).
Proof.
  intros Hl Hn Hc f Hf. eapply runs_bind; [eapply runs_list_at, lookup_union_Some_l, lookup_insert_eq|].
  eapply (frees_free l _ hc (delete_data del data)); [done|done|by eapply frees_nodes|done].
Qed.
End nodes.

Lemma frees_srcs l vs hs : srcs_shape l vs hs -> frees (list_delete msrc_free l) hs.
Proof.
  intros (data & hc & Hl & Hn & Hc & ->) f Hf. eapply runs_bind; [eapply runs_list_at, lookup_union_Some_l, lookup_insert_eq|].
  eapply (frees_free l _ hc (delete_data msrc_free data)); [done|done| |done]. intros f' Hf'. by eapply runs_delete_data.
Qed.
Lemma runs_seq (m1 m2 k : P unit) h h' : runs (_ ← (_ ← m1; m2); k) h tt h' -> runs (_ ← m1; _ ← m2; k) h tt h'.
Proof. intros Hr os v. specialize (Hr os v). unfold mbind, P_bind, mbind, M_bind in *. by destruct (m1 h os v). Qed.

Lemma frees_entry p gi hs : entry_shape p gi hs -> frees (grpint_destroy p) hs.
Proof.
  intros (e & h1 & h2 & Hp & _ & Hi & He & Hd & Hn & ->) f Hf. unfold grpint_destroy. rewrite (proj2 (Z.eqb_neq _ _) Hp).
  eapply frees_read; [apply lookup_insert_eq|]. cbn [entry_obj]. apply runs_seq.
  apply (frees_free p _ (h1 ∪ h2)); [done|done| |done]. by apply frees_then; [eapply frees_srcs|done|eapply frees_srcs].
Qed.
Lemma frees_group p groupn hs : group_shape p groupn hs -> frees (group_destroy p) hs.
Proof.
  intros (l & data & hc & Hp & Hl & Hn & Hlc & Hpc & ->) f Hf. unfold group_destroy. rewrite (proj2 (Z.eqb_neq _ _) Hp).
  eapply frees_read; [apply lookup_insert_eq|]. cbv beta iota.
  apply (frees_free p _ (<[l := OList data]> hc)); [done|done| |done].
  eapply frees_list_delete; [exact frees_entry|done|exact Hn|done].
Qed.

(** Shutdown gives back every group: from a heap with the list of groups, each group with its entries, and each entry with its source
    lists and their sources, [main]'s deletion of the groups returns, frees each of these objects exactly once and touches no other;
    what remains of them is the empty list. *)
Lemma frees_groups l gs hs f :
  groups_shape l gs hs -> hs ##ₘ f -> runs (groups_delete l) (hs ∪ f) tt (<[l := OList []]> f).
Proof.
  intros (data & hc & Hn & Hl & ->) [Hlf Hf]%map_disjoint_insert_l.
  eapply runs_bind; [eapply runs_list_at, lookup_union_Some_l, lookup_insert_eq|].
  rewrite insert_union_singleton_r by done. rewrite <-(assoc_L (∪)).
  eapply runs_bind; [eapply (frees_nodes group_shape); [exact frees_group|exact Hn|]|].
  - apply map_disjoint_union_r_2; [by apply map_disjoint_singleton_r_2|done].
  - eapply (eq_rect _ (runs _ _ tt)); [eapply runs_set_obj, lookup_union_Some_l, lookup_singleton_eq|].
    by rewrite <-insert_union_singleton_l, insert_insert_eq.
Qed.
End destroy.

Definition sample_groups_heap : heap :=
  <[4 := OList [5]]> (<[5 := OGroup sample_mca 6 1000 0 0]> (<[6 := OList [10]]> (<[10 := entry_obj sample_pentry]>
    (<[20 := OList [21]]> (<[21 := OSrc (Msrc (src 1) 1100)]> ∅) ∪ <[30 := OList [31]]> (<[31 := OSrc (Msrc (src 3) 0)]> ∅)) ∪ ∅)) ∪ ∅).
Lemma sample_groups_shape : groups_shape 4 (w_groups (sample_world [exclude_entry 2] [] [])) sample_groups_heap.
Proof.
  eexists [5], _. split_and!; [| |reflexivity]; [|vm_compute; reflexivity]. simpl w_groups. constructor; [|apply map_disjoint_empty_r|constructor].
  eexists 6, [10], _. split_and!; [done|done| | | |reflexivity]; [|vm_compute; reflexivity..]. simpl g_interfaces. constructor; [|apply map_disjoint_empty_r|constructor].
  eexists sample_pentry, _, _. split_and!; [done|done|by apply (sample_one_source 20 21)|by apply (sample_one_source 30 31)| | |reflexivity]; [|vm_compute; reflexivity].
  apply map_disjoint_dom, (bool_decide_unpack _). by vm_compute.
Qed.
Example sample_groups_freed :
  runs (groups_delete 4) (sample_groups_heap ∪ {[99 := OSrc (Msrc (src 2) 0)]}) tt (<[4 := OList []]> {[99 := OSrc (Msrc (src 2) 0)]}).
Proof. apply (frees_groups 4 _ _ _ sample_groups_shape). apply map_disjoint_dom, (bool_decide_unpack _). by vm_compute. Qed.
