(* ===== verification/MemoryMdb.v ===== *)
(** [mdb_subscribe] of [src/mship_db.c] in memory: the database is a list of records, each with a source list of its own.  It takes a
    copy of the sources it is given; every list it makes it puts into a record or deletes. *)

From S2P Require Import Prelude LinkList Msrc World Samples MshipDb Memory MemoryFacts MemoryRefine MemoryRecords.
#[local] Open Scope Z_scope.

(** * Definitions *)

Section mdb.
Context `{Malloc}.

Definition mrec_at (p : Z) : P (in6_addr * Z * Z) :=
  o ← obj_at p; match o with OMrec mca filter_mode source_list => mret (mca, filter_mode, source_list) | _ => pcrash NullDeref end.
Definition put_source_list (p source_list : Z) : P unit := r ← mrec_at p; set_obj p (OMrec r.1.1 r.1.2 source_list).
Definition put_filter_mode (p mode : Z) : P unit := r ← mrec_at p; set_obj p (OMrec r.1.1 mode r.2).

Fixpoint mrec_find_loop (data : list Z) (mca : in6_addr) (mode : Z) : P Z :=
  match data with
  | [] => mret 0
  | p :: data =>
    if p =? 0 then mrec_find_loop data mca mode
    else
      r ← mrec_at p;
      if IN6_ARE_ADDR_EQUAL mca r.1.1 && ((mode =? 0) || (r.1.2 =? mode)) then mret p else mrec_find_loop data mca mode
  end.
Definition mrec_find (memb_db : Z) (mca : in6_addr) (mode : Z) : P Z := data ← list_at memb_db; mrec_find_loop data mca mode.
Definition list_count (l : Z) : P Z := data ← list_at l; mret (Z.of_nat (length data)).

(** [tmp = op(mrec->source_list, sources)] takes the place of the record's list; both lists go. *)
Definition replace_list (op : Z -> Z -> P Z) (mrec srcs : Z) : P unit :=
  r ← mrec_at mrec;
  tmp ← op r.2 srcs;
  _ ← list_delete msrc_free srcs;
  r ← mrec_at mrec;
  _ ← list_delete msrc_free r.2;
  put_source_list mrec tmp.

Definition mdb_include (memb_db : Z) (mca : in6_addr) (mode srcs : Z) : P unit :=
  mrec ← mrec_find memb_db mca 1;
  mrec ← (if mrec =? 0 then
            count ← list_count srcs;
            if count =? 0 then mret 0 else mrec ← mrec_create mca mode; _ ← listnode_add memb_db mrec; mret mrec
          else mret mrec);
  count ← list_count srcs;
  _ ← (if count =? 0 then mret tt
       else
         r ← mrec_at mrec;
         tmp ← list_union r.2 srcs;
         r ← mrec_at mrec;
         _ ← list_delete msrc_free r.2;
         put_source_list mrec tmp);
  list_delete msrc_free srcs.

Definition mdb_exclude (memb_db : Z) (mca : in6_addr) (mode srcs : Z) : P unit :=
  mrec ← mrec_find memb_db mca 1;
  if mrec =? 0 then
    mrec ← mrec_find memb_db mca 2;
    if mrec =? 0 then
      mrec ← mrec_create mca mode;
      r ← mrec_at mrec;
      _ ← list_delete msrc_free r.2;
      _ ← put_source_list mrec srcs;
      listnode_add memb_db mrec
    else replace_list list_intersect mrec srcs
  else
    _ ← put_filter_mode mrec 2;
    replace_list list_difference mrec srcs.

Definition mdb_subscribe (memb_db : Z) (mca : in6_addr) (mode srcs : Z) : P unit :=
  srcs ← list_union srcs 0;
  if mode =? 1 then
    mrec ← mrec_find memb_db mca 2;
    if mrec =? 0 then mdb_include memb_db mca mode srcs else replace_list list_difference mrec srcs
  else mdb_exclude memb_db mca mode srcs.

(** * The database in memory *)

Definition mrec_obj (m : mrec) (l : Z) : obj := OMrec (m_mca m) (m_filter_mode m) l.

(** The pointers [data] lead to the records [ms]: [D] are exactly their source lists, [R] exactly the records. *)
Inductive db_cells : list Z -> list mrec -> gmap Z sources -> heap -> Prop :=
| db_nil : db_cells [] [] ∅ ∅
| db_cons p l m data ms D R : p ≠ 0 -> R !! p = None -> D !! l = None -> db_cells data ms D R ->
    db_cells (p :: data) (m :: ms) (<[l := m_source_list m]> D) (<[p := mrec_obj m l]> R).

Lemma db_cells_focus data ms D R i m :
  db_cells data ms D R -> ms !! i = Some m ->
  exists p l D' R', p ≠ 0 /\ data !! i = Some p /\ D = <[l := m_source_list m]> D' /\ R = <[p := mrec_obj m l]> R' /\ D' !! l = None /\ R' !! p = None /\
    forall m' l', D' !! l' = None -> db_cells data (<[i := m']> ms) (<[l' := m_source_list m']> D') (<[p := mrec_obj m' l']> R').
Proof.
  intros Hc. revert i. induction Hc as [|p l m0 data ms D R Hp HR HD Hc IH]; intros [|i] Hi; simpl in Hi; try done.
  - injection Hi as ->. exists p, l, D, R. split_and!; [done..|]. intros m' l' Hl'. by constructor.
  - destruct (IH i Hi) as (p1 & l1 & D1 & R1 & Hp1 & Hd1 & -> & -> & HD1 & HR1 & Hre).
    apply lookup_insert_None in HR as [HR Hpp]. apply lookup_insert_None in HD as [HD Hll].
    exists p1, l1, (<[l := m_source_list m0]> D1), (<[p := mrec_obj m0 l]> R1).
    split_and!; [done|done|by rewrite insert_insert_ne|by rewrite insert_insert_ne|by rewrite lookup_insert_ne|by rewrite lookup_insert_ne|].
    intros m' l' [Hl' Hne]%lookup_insert_None. simpl. rewrite !(insert_insert_ne _ _ l), !(insert_insert_ne _ _ p) by done.
    constructor; [done|by rewrite lookup_insert_ne|by rewrite lookup_insert_ne|by apply Hre].
Qed.
Lemma db_cells_snoc data ms D R p l m :
  db_cells data ms D R -> p ≠ 0 -> R !! p = None -> D !! l = None ->
  db_cells (data ++ [p]) (ms ++ [m]) (<[l := m_source_list m]> D) (<[p := mrec_obj m l]> R).
Proof.
  induction 1 as [|p0 l0 m0 data ms D R Hp0 HR0 HD0 Hc IH]; intros Hp HR HD; simpl; [by repeat constructor|].
  apply lookup_insert_None in HR as [HR Hpp]. apply lookup_insert_None in HD as [HD Hll].
  rewrite (insert_insert_ne D), (insert_insert_ne R) by done. constructor; [done|by rewrite lookup_insert_ne|by rewrite lookup_insert_ne|by apply IH].
Qed.

Lemma runs_mrec_at h p mca md l : h !! p = Some (OMrec mca md l) -> runs (mrec_at p) h (mca, md, l) h.
Proof. intros Hp. eapply runs_bind; [by apply runs_obj_at|apply runs_ret]. Qed.

(** The search answers the record that the search on values finds. *)
Lemma runs_mrec_find_loop data ms D R mca mode h :
  db_cells data ms D R -> R ⊆ h ->
  runs (mrec_find_loop data mca mode) h (match MshipDb.mrec_find ms mca mode with Some i => default 0 (data !! i) | None => 0 end) h.
Proof.
  unfold MshipDb.mrec_find. induction 1 as [|p l m data ms D R Hp HR HD Hc IH]; intros Hs; [apply runs_ret|]. cbn [mrec_find_loop find_idx].
  rewrite (proj2 (Z.eqb_neq _ _) Hp). eapply runs_bind; [eapply runs_mrec_at, lookup_weaken; [apply lookup_insert_eq|exact Hs]|]. simpl.
  destruct (_ && _); [apply runs_ret|]. eapply (eq_rect _ (fun r => runs _ _ r _)); [apply IH; etrans; [by apply insert_subseteq|exact Hs]|].
  by destruct (find_idx _ ms).
Qed.

(** The database at [l] holds [ms]; besides it the heap has the lists [D0] and the objects [R0]. *)
Record db_at (l : Z) (data : list Z) (ms : list mrec) (D0 : gmap Z sources) (R0 h : heap) : Prop := {
  db_parts : exists D R, db_cells data ms D R /\ D ##ₘ D0 /\ R ##ₘ R0 /\ (R ∪ R0) !! l = None /\ lists_shape h (D ∪ D0) (<[l := OList data]> (R ∪ R0)) }.

Lemma db_open l data ms D0 R0 h i m :
  db_at l data ms D0 R0 h -> ms !! i = Some m ->
  exists p sl E F, data !! i = Some p /\ p ≠ 0 /\ p ≠ l /\ E ##ₘ D0 /\ (E ∪ D0) !! sl = None /\ F !! p = None /\
    lists_shape h (<[sl := m_source_list m]> (E ∪ D0)) (<[p := mrec_obj m sl]> F) /\
    forall D1 h' m' t, E ##ₘ D1 -> (E ∪ D1) !! t = None -> lists_shape h' (<[t := m_source_list m']> (E ∪ D1)) (<[p := mrec_obj m' t]> F) ->
      db_at l data (<[i := m']> ms) D1 R0 h'.
Proof.
  intros [(D & R & Hc & HD & HR & Hl & HL)] Hi. destruct (db_cells_focus _ _ _ _ _ _ Hc Hi) as (p & sl & E & Rd & Hp & Hd & -> & -> & HE & HRd & Hre).
  apply map_disjoint_insert_l in HD as [HDsl HD]. apply map_disjoint_insert_l in HR as [HRp HR].
  rewrite <-insert_union_l in Hl. apply lookup_insert_None in Hl as [Hl Hpl].
  assert (Hf : forall m' t, <[l := OList data]> (<[p := mrec_obj m' t]> Rd ∪ R0) = <[p := mrec_obj m' t]> (<[l := OList data]> (Rd ∪ R0))).
  { intros m' t. by rewrite <-insert_union_l, insert_insert_ne. }
  exists p, sl, E, (<[l := OList data]> (Rd ∪ R0)). split_and!; [done..| | | |].
  - by apply lookup_union_None.
  - rewrite lookup_insert_ne by done. by apply lookup_union_None.
  - by rewrite <-Hf, insert_union_l.
  - intros D1 h' m' t HE1 [Ht1 Ht2]%lookup_union_None HL'. constructor. exists (<[t := m_source_list m']> E), (<[p := mrec_obj m' t]> Rd).
    split_and!; [by apply Hre|by apply map_disjoint_insert_l_2|by apply map_disjoint_insert_l_2| |].
    + rewrite <-insert_union_l, lookup_insert_ne by done. exact Hl.
    + by rewrite Hf, <-insert_union_l.
Qed.

Lemma db_find l data ms D0 R0 h mca mode :
  db_at l data ms D0 R0 h ->
  runs (mrec_find l mca mode) h (match MshipDb.mrec_find ms mca mode with Some i => default 0 (data !! i) | None => 0 end) h.
Proof.
  intros [(D & R & Hc & HD & HR & Hl & HL)]. pose proof (lists_shape_rest _ _ _ HL) as Hs.
  eapply runs_bind; [eapply runs_list_at, lookup_weaken; [apply lookup_insert_eq|exact Hs]|].
  eapply runs_mrec_find_loop; [exact Hc|]. etrans; [|exact Hs]. etrans; [apply map_union_subseteq_l|]. by apply insert_subseteq.
Qed.

(** ** Replacing the list of a record *)

(** An operation that makes a list of two. *)
Definition implements (op : Z -> Z -> P Z) (opv : sources -> sources -> sources) : Prop :=
  forall h D R a b A B, lists_shape h D R -> D !! a = Some A -> D !! b = Some B -> makes h D R (op a b) (opv A B).
Lemma intersect_implements : implements list_intersect (LinkList.list_intersect msrc_cmp).
Proof. intros h D R a b A B HL Ha Hb. by apply makes_intersect. Qed.
Lemma difference_implements : implements list_difference (LinkList.list_difference msrc_cmp).
Proof. intros h D R a b A B HL Ha Hb. by apply makes_difference. Qed.

Lemma runs_put_source_list h D R p mca md l t :
  lists_shape h D (<[p := OMrec mca md l]> R) -> exists h', runs (put_source_list p t) h tt h' /\ lists_shape h' D (<[p := OMrec mca md t]> R).
Proof.
  intros HL. assert (Hp : h !! p = Some (OMrec mca md l)) by (eapply lookup_weaken; [apply lookup_insert_eq|by eapply lists_shape_rest]).
  eexists. split; [eapply runs_bind; [by apply runs_mrec_at|]; by eapply runs_set_obj|].
  rewrite <-(insert_insert_eq R p (OMrec mca md t) (OMrec mca md l)). apply lists_shape_rest_insert; [done|]. by rewrite lookup_insert_eq.
Qed.
Lemma rest_mrec h D R p mca md l : lists_shape h D (<[p := OMrec mca md l]> R) -> runs (mrec_at p) h (mca, md, l) h.
Proof. intros HL. eapply runs_mrec_at, lookup_weaken; [apply lookup_insert_eq|by eapply lists_shape_rest]. Qed.

Lemma runs_replace op opv h E F p mca md sl A c C :
  implements op opv -> lists_shape h (<[c := C]> (<[sl := A]> E)) (<[p := OMrec mca md sl]> F) -> E !! sl = None -> E !! c = None -> c ≠ sl ->
  exists t h', runs (replace_list op p c) h tt h' /\ E !! t = None /\ lists_shape h' (<[t := opv A C]> E) (<[p := OMrec mca md t]> F).
Proof.
  intros Hop HL Hsl Hc Hne. destruct (Hop _ _ _ sl c A C HL) as (t & h1 & Hr1 & Ht0 & Ht & HL1); [by rewrite lookup_insert_ne, lookup_insert_eq|apply lookup_insert_eq|].
  apply lookup_insert_None in Ht as [[Ht Hts]%lookup_insert_None Htc].
  destruct (runs_list_delete _ _ _ c C HL1) as (h2 & Hr2 & HL2); [by rewrite lookup_insert_ne, lookup_insert_eq|].
  destruct (runs_list_delete _ _ _ sl A HL2) as (h3 & Hr3 & HL3); [by rewrite lookup_delete_ne, !lookup_insert_ne, lookup_insert_eq by done|].
  destruct (runs_put_source_list _ _ _ _ _ _ _ t HL3) as (h4 & Hr4 & HL4). exists t, h4. split_and!; [|done|].
  - unfold replace_list. eapply runs_bind; [by eapply rest_mrec|]. eapply runs_bind; [exact Hr1|]. eapply runs_bind; [exact Hr2|].
    eapply runs_bind; [by eapply rest_mrec|]. eapply runs_bind; [exact Hr3|exact Hr4].
  - eapply (eq_rect _ (fun D => lists_shape _ D _)); [exact HL4|]. apply map_eq. intros x. rewrite !lookup_delete, !lookup_insert. repeat case_decide; congruence.
Qed.

Lemma alter_insert_list {A} (f : A -> A) (l : list A) i x : l !! i = Some x -> alter f i l = <[i := f x]> l.
Proof. revert i. induction l as [|y l IH]; intros [|i] Hi; simpl in *; [done..|congruence|]. f_equal. by apply IH. Qed.

Lemma alter_twice {A} (f g : A -> A) (l : list A) i : alter f i (alter g i l) = alter (f ∘ g) i l.
Proof. revert i. induction l as [|y l IH]; intros [|i]; simpl; [done..|]. f_equal. apply IH. Qed.

Lemma db_replace op opv l data ms D0 R0 h i p c C :
  implements op opv -> db_at l data ms (<[c := C]> D0) R0 h -> D0 !! c = None -> is_Some (ms !! i) -> data !! i = Some p ->
  exists h', runs (replace_list op p c) h tt h' /\ db_at l data (alter (fun m => set_source_list (opv (m_source_list m) C) m) i ms) D0 R0 h'.
Proof.
  intros Hop Hdb Hc [m Hm] Hp. destruct (db_open _ _ _ _ _ _ _ _ Hdb Hm) as (p' & sl & E & F & Hp' & Hp0 & Hpl & Hd & Hsl & HF & HL & Hclose).
  rewrite Hp in Hp'. injection Hp' as <-. apply map_disjoint_insert_r in Hd as [HcE Hd].
  rewrite <-insert_union_r in Hsl, HL by done. apply lookup_insert_None in Hsl as [Hsl Hcs].
  rewrite insert_insert_ne in HL by done.
  destruct (runs_replace op opv _ _ _ _ _ _ _ _ _ _ Hop HL Hsl) as (t & h' & Hr & Ht & HL'); [by apply lookup_union_None|done|].
  exists h'. split; [exact Hr|]. rewrite (alter_insert_list _ _ _ m Hm). by apply (Hclose D0 h' (set_source_list (opv (m_source_list m) C) m) t).
Qed.

(** The union, which leaves the second list where it is. *)
Lemma db_union l data ms D0 R0 h i p c C :
  db_at l data ms (<[c := C]> D0) R0 h -> D0 !! c = None -> is_Some (ms !! i) -> data !! i = Some p ->
  exists h', runs (r ← mrec_at p; tmp ← list_union r.2 c; r ← mrec_at p; _ ← list_delete msrc_free r.2; put_source_list p tmp) h tt h' /\
    db_at l data (alter (fun m => set_source_list (LinkList.list_union msrc_cmp (m_source_list m) (Some C)) m) i ms) (<[c := C]> D0) R0 h'.
Proof.
  intros Hdb Hc [m Hm] Hp. destruct (db_open _ _ _ _ _ _ _ _ Hdb Hm) as (p' & sl & E & F & Hp' & Hp0 & Hpl & Hd & Hsl & HF & HL & Hclose).
  rewrite Hp in Hp'. injection Hp' as <-. pose proof Hd as [HcE Hd']%map_disjoint_insert_r.
  assert (Hcs : c ≠ sl) by (intros ->; by rewrite lookup_union_r, lookup_insert_eq in Hsl).
  assert (Hcl : (<[sl := m_source_list m]> (E ∪ <[c := C]> D0)) !! c = Some C) by by rewrite lookup_insert_ne, lookup_union_r, lookup_insert_eq.
  destruct (makes_union _ _ _ HL sl c _ C (lookup_insert_eq _ _ _) Hcl) as (t & h1 & Hr1 & Ht0 & Ht & HL1).
  apply lookup_insert_None in Ht as [Ht Hts].
  destruct (runs_list_delete _ _ _ sl (m_source_list m) HL1) as (h2 & Hr2 & HL2); [by rewrite lookup_insert_ne, lookup_insert_eq|].
  destruct (runs_put_source_list _ _ _ _ _ _ _ t HL2) as (h3 & Hr3 & HL3). exists h3. split.
  - eapply runs_bind; [by eapply rest_mrec|]. eapply runs_bind; [exact Hr1|]. eapply runs_bind; [by eapply rest_mrec|].
    eapply runs_bind; [exact Hr2|exact Hr3].
  - rewrite (alter_insert_list _ _ _ m Hm). eapply Hclose; [exact Hd|exact Ht|]. eapply (eq_rect _ (fun D => lists_shape _ D _)); [exact HL3|].
    rewrite delete_insert_ne, delete_insert_id by done. done.
Qed.

Lemma db_mode l data ms D0 R0 h i p mode :
  db_at l data ms D0 R0 h -> is_Some (ms !! i) -> data !! i = Some p ->
  exists h', runs (put_filter_mode p mode) h tt h' /\ db_at l data (alter (set_mode mode) i ms) D0 R0 h'.
Proof.
  intros Hdb [m Hm] Hp. destruct (db_open _ _ _ _ _ _ _ _ Hdb Hm) as (p' & sl & E & F & Hp' & Hp0 & Hpl & Hd & Hsl & HF & HL & Hclose).
  rewrite Hp in Hp'. injection Hp' as <-. assert (Hph : h !! p = Some (mrec_obj m sl)) by (eapply lookup_weaken; [apply lookup_insert_eq|by eapply lists_shape_rest]).
  eexists. split; [eapply runs_bind; [by eapply runs_mrec_at|by eapply runs_set_obj]|].
  rewrite (alter_insert_list _ _ _ m Hm). apply (Hclose D0 _ (set_mode mode m) sl); [done..|].
  rewrite <-(insert_insert_eq F p _ (mrec_obj m sl)). apply lists_shape_rest_insert; [done|]. by rewrite lookup_insert_eq.
Qed.

(** ** A new record *)

Lemma db_add l data ms D R D0 R0 h p sl r :
  db_cells data ms D R -> D ##ₘ D0 -> R ##ₘ R0 -> (R ∪ R0) !! l = None -> p ≠ 0 -> p ≠ l -> (R ∪ R0) !! p = None -> (D ∪ D0) !! sl = None ->
  lists_shape h (<[sl := m_source_list r]> (D ∪ D0)) (<[p := mrec_obj r sl]> (<[l := OList data]> (R ∪ R0))) ->
  exists h', runs (listnode_add l p) h tt h' /\ db_at l (data ++ [p]) (ms ++ [r]) D0 R0 h'.
Proof.
  intros Hc HD HR Hl Hp Hpl [Hp1 Hp2]%lookup_union_None [Hs1 Hs2]%lookup_union_None HL. rewrite insert_insert_ne in HL by done.
  assert (Hlh : h !! l = Some (OList data)) by (eapply lookup_weaken; [apply lookup_insert_eq|by eapply lists_shape_rest]).
  eexists. split; [eapply runs_bind; [by apply runs_list_at|by eapply runs_set_obj]|]. constructor.
  exists (<[sl := m_source_list r]> D), (<[p := mrec_obj r sl]> R).
  split_and!; [by apply db_cells_snoc|by apply map_disjoint_insert_l_2|by apply map_disjoint_insert_l_2| |].
  - rewrite <-insert_union_l. by rewrite lookup_insert_ne.
  - rewrite <-!insert_union_l, <-(insert_insert_eq (<[p := mrec_obj r sl]> (R ∪ R0)) l _ (OList data)). apply lists_shape_rest_insert; [done|]. by rewrite lookup_insert_eq.
Qed.

Lemma runs_create l data ms D R D0 R0 h mca mode :
  db_cells data ms D R -> lists_shape h (D ∪ D0) (<[l := OList data]> (R ∪ R0)) ->
  exists p b h', runs (Memory.mrec_create mca mode) h p h' /\ p ≠ 0 /\ p ≠ l /\ (R ∪ R0) !! p = None /\ (D ∪ D0) !! b = None /\
    lists_shape h' (<[b := []]> (D ∪ D0)) (<[p := OMrec mca mode b]> (<[l := OList data]> (R ∪ R0))).
Proof.
  intros Hc HL. destruct (runs_mrec_create _ _ _ mca mode HL) as (p & b & h' & Hr & Hp & [HpR Hlp]%lookup_insert_None & Hb & HL').
  exists p, b, h'. by split_and!.
Qed.

Lemma makes_copy h D R a A : lists_shape h D R -> D !! a = Some A -> makes h D R (list_union a 0) (LinkList.list_union msrc_cmp A None).
Proof.
  intros HL Ha. apply makes_intro; [done|]. intros h1 Hb1. destruct (runs_copy_loop h D R HL a A Ha h1 Hb1) as (h2 & Hr2 & Hb2).
  exists h2. split; [|exact Hb2]. eapply runs_bind; [exact Hr2|]. eapply runs_bind; [apply runs_ret|apply runs_ret].
Qed.

Lemma db_search l data ms D0 R0 h mca mode :
  db_at l data ms D0 R0 h -> exists p, runs (mrec_find l mca mode) h p h /\
    match MshipDb.mrec_find ms mca mode with Some i => (p =? 0) = false /\ data !! i = Some p /\ is_Some (ms !! i) | None => (p =? 0) = true end.
Proof.
  intros Hdb. eexists. split; [by eapply db_find|]. destruct (MshipDb.mrec_find ms mca mode) as [i|] eqn:E; [|done].
  apply find_idx_Some in E as (m & Hm & _). destruct (db_open _ _ _ _ _ _ _ _ Hdb Hm) as (p & sl & E & F & -> & Hp & _).
  split_and!; [by apply Z.eqb_neq|done|by eexists].
Qed.

Lemma db_count l data ms D0 R0 h c C :
  db_at l data ms (<[c := C]> D0) R0 h -> runs (list_count c) h (Z.of_nat (length C)) h.
Proof.
  intros [(D & R & Hc & HD & HR & Hl & HL)]. assert (Hcl : (D ∪ <[c := C]> D0) !! c = Some C) by (apply lookup_union_Some_r; [done|apply lookup_insert_eq]).
  destruct (lists_shape_list _ _ _ _ _ HL Hcl) as (_ & cdata & Hcd & Hcc). rewrite <-(Forall2_length _ _ _ Hcc).
  eapply runs_bind; [by apply runs_list_at|apply runs_ret].
Qed.
Lemma db_delete l data ms D0 R0 h c C :
  db_at l data ms (<[c := C]> D0) R0 h -> D0 !! c = None -> exists h', runs (list_delete msrc_free c) h tt h' /\ db_at l data ms D0 R0 h'.
Proof.
  intros [(D & R & Hc & [HDc HD]%map_disjoint_insert_r & HR & Hl & HL)] Hcn. rewrite <-insert_union_r in HL by done.
  destruct (runs_list_delete _ _ _ c C HL (lookup_insert_eq _ _ _)) as (h' & Hr & HL'). exists h'. split; [exact Hr|].
  rewrite delete_insert_id in HL' by by apply lookup_union_None. constructor. by exists D, R.
Qed.

(** A new record with an empty list; one that takes the list [c]. *)
Lemma db_new l data ms D0 R0 h mca mode :
  db_at l data ms D0 R0 h ->
  exists p h', runs (mrec ← Memory.mrec_create mca mode; _ ← listnode_add l mrec; mret mrec) h p h' /\ (p =? 0) = false /\
    db_at l (data ++ [p]) (ms ++ [MshipDb.mrec_create mca mode]) D0 R0 h'.
Proof.
  intros [(D & R & Hc & HD & HR & Hl & HL)]. destruct (runs_create _ _ _ _ _ _ _ _ mca mode Hc HL) as (p & b & h1 & Hr1 & Hp & Hpl & HpR & Hb & HL1).
  destruct (db_add l data ms D R D0 R0 h1 p b (MshipDb.mrec_create mca mode)) as (h2 & Hr2 & Hdb); [done..|].
  exists p, h2. split_and!; [|by apply Z.eqb_neq|exact Hdb]. eapply runs_bind; [exact Hr1|]. eapply runs_bind; [exact Hr2|apply runs_ret].
Qed.
Lemma db_take l data ms D0 R0 h mca mode c C :
  db_at l data ms (<[c := C]> D0) R0 h -> D0 !! c = None ->
  exists p h', runs (mrec ← Memory.mrec_create mca mode; r ← mrec_at mrec; _ ← list_delete msrc_free r.2; _ ← put_source_list mrec c; listnode_add l mrec) h tt h' /\
    db_at l (data ++ [p]) (ms ++ [set_source_list C (MshipDb.mrec_create mca mode)]) D0 R0 h'.
Proof.
  intros [(D & R & Hc & [HDc HD]%map_disjoint_insert_r & HR & Hl & HL)] Hcn.
  destruct (runs_create _ _ _ _ _ _ _ _ mca mode Hc HL) as (p & b & h1 & Hr1 & Hp & Hpl & HpR & Hb & HL1).
  destruct (runs_list_delete _ _ _ b [] HL1 (lookup_insert_eq _ _ _)) as (h2 & Hr2 & HL2). rewrite delete_insert_id in HL2 by done.
  destruct (runs_put_source_list _ _ _ _ _ _ _ c HL2) as (h3 & Hr3 & HL3). rewrite <-insert_union_r in HL3 by done.
  destruct (db_add l data ms D R D0 R0 h3 p c (set_source_list C (MshipDb.mrec_create mca mode))) as (h4 & Hr4 & Hdb); [done..|by apply lookup_union_None|exact HL3|].
  exists p, h4. split; [|exact Hdb]. eapply runs_bind; [exact Hr1|]. eapply runs_bind; [by eapply rest_mrec|]. eapply runs_bind; [exact Hr2|].
  eapply runs_bind; [exact Hr3|exact Hr4].
Qed.

(** ** The branches *)

Lemma db_length l data ms D0 R0 h : db_at l data ms D0 R0 h -> length data = length ms.
Proof. intros [(D & R & Hc & _)]. by induction Hc; simpl; f_equal. Qed.

(** The end of [mdb_include], with the record at [i]. *)
Lemma runs_merge l data ms D0 R0 h i p c C :
  db_at l data ms (<[c := C]> D0) R0 h -> D0 !! c = None -> is_Some (ms !! i) -> data !! i = Some p -> C ≠ [] ->
  exists h', runs (count ← list_count c;
      _ ← (if count =? 0 then mret tt
           else r ← mrec_at p; tmp ← list_union r.2 c; r ← mrec_at p; _ ← list_delete msrc_free r.2; put_source_list p tmp);
      list_delete msrc_free c) h tt h' /\
    db_at l data (alter (fun m => set_source_list (LinkList.list_union msrc_cmp (m_source_list m) (Some C)) m) i ms) D0 R0 h'.
Proof.
  intros Hdb Hc Hi Hp HC. destruct (db_union _ _ _ _ _ _ _ _ _ _ Hdb Hc Hi Hp) as (h1 & Hr1 & Hdb1).
  destruct (db_delete _ _ _ _ _ _ _ _ Hdb1 Hc) as (h2 & Hr2 & Hdb2). exists h2. split; [|exact Hdb2].
  eapply runs_bind; [by eapply db_count|]. replace (Z.of_nat (length C) =? 0) with false by by destruct C.
  eapply runs_bind; [exact Hr1|exact Hr2].
Qed.
Lemma runs_no_merge l data ms D0 R0 h (k : P unit) c :
  db_at l data ms (<[c := []]> D0) R0 h -> D0 !! c = None ->
  exists h', runs (count ← list_count c; _ ← (if count =? 0 then mret tt else k); list_delete msrc_free c) h tt h' /\ db_at l data ms D0 R0 h'.
Proof.
  intros Hdb Hc. destruct (db_delete _ _ _ _ _ _ _ _ Hdb Hc) as (h2 & Hr2 & Hdb2). exists h2. split; [|exact Hdb2].
  eapply runs_bind; [by eapply db_count|]. eapply runs_bind; [apply runs_ret|exact Hr2].
Qed.

Lemma runs_mdb_include l data ms D0 R0 h mca mode c C :
  db_at l data ms (<[c := C]> D0) R0 h -> D0 !! c = None ->
  exists ms' data' h', subscribe_include ms mca mode C = Some ms' /\ runs (mdb_include l mca mode c) h tt h' /\ db_at l data' ms' D0 R0 h'.
Proof.
  intros Hdb Hc. destruct (db_search _ _ _ _ _ _ mca 1 Hdb) as (p & Hr & Hp). unfold subscribe_include, mdb_include.
  pose proof (db_count _ _ _ _ _ _ _ _ Hdb) as Hn.
  destruct (MshipDb.mrec_find ms mca 1) as [i|]; [destruct Hp as (Hp0 & Hp & Hm)|]; destruct C as [|x C]; simpl.
  - destruct (runs_no_merge _ _ _ _ _ _ (r ← mrec_at p; tmp ← list_union r.2 c; r ← mrec_at p; _ ← list_delete msrc_free r.2; put_source_list p tmp) _ Hdb Hc) as (h1 & Hr1 & Hdb1).
    exists ms, data, h1. split_and!; [done| |exact Hdb1]. eapply runs_bind; [exact Hr|]. rewrite Hp0. eapply runs_bind; [apply runs_ret|exact Hr1].
  - destruct (runs_merge _ _ _ _ _ _ _ _ _ _ Hdb Hc Hm Hp) as (h1 & Hr1 & Hdb1); [done|].
    eexists _, data, h1. split_and!; [done| |exact Hdb1]. eapply runs_bind; [exact Hr|]. rewrite Hp0. eapply runs_bind; [apply runs_ret|exact Hr1].
  - destruct (runs_no_merge _ _ _ _ _ _ (r ← mrec_at 0; tmp ← list_union r.2 c; r ← mrec_at 0; _ ← list_delete msrc_free r.2; put_source_list 0 tmp) _ Hdb Hc) as (h1 & Hr1 & Hdb1).
    exists ms, data, h1. split_and!; [done| |exact Hdb1]. eapply runs_bind; [exact Hr|]. rewrite Hp.
    eapply runs_bind; [eapply runs_bind; [exact Hn|apply runs_ret]|exact Hr1].
  - destruct (db_new _ _ _ _ _ _ mca mode Hdb) as (q & h1 & Hr1 & Hq & Hdb1). pose proof (db_length _ _ _ _ _ _ Hdb) as Hlen.
    destruct (runs_merge _ _ _ _ _ _ (length ms) q _ _ Hdb1 Hc) as (h2 & Hr2 & Hdb2); [by rewrite list_lookup_middle|by rewrite list_lookup_middle|done|].
    eexists _, _, h2. split_and!; [done| |exact Hdb2]. eapply runs_bind; [exact Hr|]. rewrite Hp.
    eapply runs_bind; [eapply runs_bind; [exact Hn|exact Hr1]|exact Hr2].
Qed.

Lemma runs_mdb_exclude l data ms D0 R0 h mca mode c C :
  db_at l data ms (<[c := C]> D0) R0 h -> D0 !! c = None ->
  exists data' h', runs (mdb_exclude l mca mode c) h tt h' /\ db_at l data' (subscribe_exclude ms mca mode C) D0 R0 h'.
Proof.
  intros Hdb Hc. destruct (db_search _ _ _ _ _ _ mca 1 Hdb) as (p & Hr & Hp). unfold subscribe_exclude, mdb_exclude.
  destruct (MshipDb.mrec_find ms mca 1) as [i|].
  - destruct Hp as (Hp0 & Hp & Hm). destruct (db_mode _ _ _ _ _ _ _ _ 2 Hdb Hm Hp) as (h1 & Hr1 & Hdb1).
    destruct (db_replace _ _ _ _ _ _ _ _ i p c C difference_implements Hdb1 Hc) as (h2 & Hr2 & Hdb2); [|done|].
    { destruct Hm as [m Hm]. rewrite list_lookup_alter_eq, Hm. by eexists. }
    exists data, h2. split; [eapply runs_bind; [exact Hr|]; rewrite Hp0; eapply runs_bind; [exact Hr1|exact Hr2]|].
    rewrite alter_twice in Hdb2. exact Hdb2.
  - destruct (db_search _ _ _ _ _ _ mca 2 Hdb) as (p2 & Hr2 & Hp2). destruct (MshipDb.mrec_find ms mca 2) as [i|].
    + destruct Hp2 as (Hp0 & Hp2 & Hm). destruct (db_replace _ _ _ _ _ _ _ _ i p2 c C intersect_implements Hdb Hc Hm Hp2) as (h2 & Hr3 & Hdb2).
      exists data, h2. split; [|exact Hdb2]. eapply runs_bind; [exact Hr|]. rewrite Hp. eapply runs_bind; [exact Hr2|]. by rewrite Hp0.
    + destruct (db_take _ _ _ _ _ _ mca mode c C Hdb Hc) as (q & h2 & Hr3 & Hdb2).
      exists (data ++ [q]), h2. split; [|exact Hdb2]. eapply runs_bind; [exact Hr|]. rewrite Hp. eapply runs_bind; [exact Hr2|]. by rewrite Hp2.
Qed.

(** C34: In memory, a subscription does to the database what the merge on values does, without an access to memory that is not allocated
    and without freeing twice; it leaves the caller's list of sources, every other list and every other object as they were, and nothing
    else: each list that it makes is in a record afterwards, or was given back. *)
Theorem mdb_subscribe_memory l data ms D0 R0 h mca mode b srcs :
  db_at l data ms D0 R0 h -> D0 !! b = Some srcs ->
  exists ms' data' h', MshipDb.mdb_subscribe ms mca mode srcs = Some ms' /\ runs (mdb_subscribe l mca mode b) h tt h' /\ db_at l data' ms' D0 R0 h'.
Proof.
  intros [(D & R & Hcells & HD & HR & Hl & HL)] Hb.
  destruct (makes_copy _ _ _ b srcs HL) as (c & h1 & Hr1 & Hc0 & [HcD Hc]%lookup_union_None & HL1); [by apply lookup_union_Some_r|].
  set (C := LinkList.list_union msrc_cmp srcs None) in *. rewrite insert_union_r in HL1 by done.
  assert (Hdb : db_at l data ms (<[c := C]> D0) R0 h1).
  { constructor. exists D, R. split_and!; [done|by apply map_disjoint_insert_r_2|done..]. }
  unfold MshipDb.mdb_subscribe, mdb_subscribe. fold C. destruct (mode =? 1).
  - destruct (db_search _ _ _ _ _ _ mca 2 Hdb) as (p & Hr & Hp). destruct (MshipDb.mrec_find ms mca 2) as [i|].
    + destruct Hp as (Hp0 & Hp & Hm). destruct (db_replace _ _ _ _ _ _ _ _ i p c C difference_implements Hdb Hc Hm Hp) as (h2 & Hr2 & Hdb2).
      eexists _, data, h2. split_and!; [done| |exact Hdb2]. eapply runs_bind; [exact Hr1|]. eapply runs_bind; [exact Hr|]. by rewrite Hp0.
    + destruct (runs_mdb_include _ _ _ _ _ _ mca mode _ _ Hdb Hc) as (ms' & data' & h2 & Hv & Hr2 & Hdb2).
      exists ms', data', h2. split_and!; [done| |exact Hdb2]. eapply runs_bind; [exact Hr1|]. eapply runs_bind; [exact Hr|]. by rewrite Hp.
  - destruct (runs_mdb_exclude _ _ _ _ _ _ mca mode _ _ Hdb Hc) as (data' & h2 & Hr2 & Hdb2).
    eexists _, data', h2. split_and!; [done| |exact Hdb2]. eapply runs_bind; [exact Hr1|exact Hr2].
Qed.
End mdb.

(** The database at 40 has one record, at 41, with its list at 20; the list at 30 is the caller's. *)
Definition sample_mdb : list mrec := [Mrec sample_mca 2 [Some (Msrc (src 1) 1100)]].
Definition sample_mdb_rest : heap := <[40 := OList [41]]> (<[41 := OMrec sample_mca 2 20]> ∅ ∪ ∅).
Definition sample_mdb_heap : heap :=
  <[20 := OList [21]]> (<[21 := OSrc (Msrc (src 1) 1100)]> ∅) ∪ (<[30 := OList [31]]> (<[31 := OSrc (Msrc (src 3) 0)]> ∅) ∪ sample_mdb_rest).
Lemma sample_db_at : db_at 40 [41] sample_mdb (<[30 := [Some (Msrc (src 3) 0)]]> ∅) ∅ sample_mdb_heap.
Proof.
  constructor. exists (<[20 := [Some (Msrc (src 1) 1100)]]> ∅), (<[41 := OMrec sample_mca 2 20]> ∅). split_and!.
  - apply (db_cons 41 20 (Mrec sample_mca 2 [Some (Msrc (src 1) 1100)])); [done..|constructor].
  - apply map_disjoint_dom, (bool_decide_unpack _). by vm_compute.
  - apply map_disjoint_empty_r.
  - done.
  - rewrite <-insert_union_l, (left_id_L ∅ (∪)).
    constructor; [constructor; [constructor|done| |by apply sample_one_source]|done| |by apply sample_one_source];
      apply map_disjoint_dom, (bool_decide_unpack _); by vm_compute.
Qed.
Lemma mdb_subscribe_memory_witness :
  exists ms' data' h', MshipDb.mdb_subscribe sample_mdb sample_mca 1 [Some (Msrc (src 3) 0)] = Some ms' /\
    @runs unit (@mdb_subscribe first_free 40 sample_mca 1 30) sample_mdb_heap tt h' /\
    db_at 40 data' ms' (<[30 := [Some (Msrc (src 3) 0)]]> ∅) ∅ h'.
Proof. apply (@mdb_subscribe_memory first_free 40 _ _ _ _ _ sample_mca 1 30 _ sample_db_at). reflexivity. Defined.
