(* ===== verification/MemoryExpire.v ===== *)
(** Expiry on pointers: [expire_source], [remove_grpintn], [mld2_switch_to_include] and [expire_sources] of [src/mld2_logic.c] on the objects of
    [Memory]; the shapes of the list of groups and what reading and writing at an element do to them.  [MemoryWalk] relates the operations to
    those of [Mld2Logic] on values. *)

From S2P Require Import Prelude LinkList Msrc World Interfaces Send Groups Samples Routing Mld2Logic Mld2Expire Memory MemoryFacts MemoryRefine MemoryRecords MemoryDestroy.
#[local] Open Scope Z_scope.
#[local] Arguments Z.eqb : simpl never.

(** * Definitions *)

(** [groups] is [g_conf->groups]. *)
Section code.
Context (groups : Z).

Definition interfaces_of (groupn : Z) : P Z := o ← obj_at groupn; match o with OGroup _ l _ _ _ => mret l | _ => pcrash NullDeref end.
Definition is_empty (l : Z) : P bool := data ← list_at l; mret (match data with [] => true | _ => false end).

(** What there is when all pointers from [groups] are followed. *)
Fixpoint read_data {A} (read : Z -> P A) (data : list Z) : P (list A) :=
  match data with
  | [] => mret []
  | d :: data => a ← read d; l ← read_data read data; mret (a :: l)
  end.
Definition read_source (d : Z) : P (option msrc) := if d =? 0 then mret None else s ← src_at d; mret (Some s).
Definition read_sources (l : Z) : P sources := data ← list_at l; read_data read_source data.
Definition read_entry (grpintn : Z) : P grpintnode :=
  e ← entry_at grpintn;
  includes ← read_sources (e_includes e);
  excludes ← read_sources (e_excludes e);
  mret (Grpint (e_ifindex e) includes excludes (e_mode e) (e_timer e)).
Definition read_group (groupn : Z) : P groupnode :=
  o ← obj_at groupn;
  match o with
  | OGroup mca l lastforward bytes packets =>
    data ← list_at l; gis ← read_data read_entry data; mret (Group mca gis lastforward bytes packets)
  | _ => pcrash NullDeref
  end.
Definition read_groups : P (list groupnode) := data ← list_at groups; read_data read_group data.
(** A command that looks at the groups and does not change them. *)
Definition through {A} (m : M A) : P A :=
  gs ← read_groups;
  _ ← lift (modify (set_groups gs));
  lift m.
Definition handle_upstream (intn : option nat) : P unit := through (handle_upstream_subscription intn).

Definition remove_grpintn (groupn grpintn : Z) : P bool :=
  interfaces ← interfaces_of groupn;
  _ ← listnode_delete interfaces grpintn;
  empty ← is_empty interfaces;
  if (empty : bool) then _ ← listnode_delete groups groupn; mret true else mret false.

(** [grpintn->ifindex] is read after the entry was taken out of its list. *)
Definition expire_source (groupn grpintn src now : Z) : P Z :=
  s ← src_at src;
  if s_timer s <=? now then
    e ← entry_at grpintn;
    _ ← listnode_delete (e_includes e) src;
    empty ← is_empty (e_includes e);
    if (empty : bool) then
      lastgroup ← remove_grpintn groupn grpintn;
      e ← entry_at grpintn;
      intn ← lift (int_find (e_ifindex e));
      _ ← handle_upstream intn;
      mret (if (lastgroup : bool) then 2 else 1)
    else mret 0
  else mret 0.

Definition mld2_switch_to_include (groupn grpintn : Z) : P bool :=
  _ ← upd_entry grpintn (put_mode MLD2_MODE_IS_INCLUDE);
  e ← entry_at grpintn;
  intn ← lift (int_find (e_ifindex e));
  _ ← handle_upstream intn;
  e ← entry_at grpintn;
  empty ← is_empty (e_includes e);
  if (empty : bool) then remove_grpintn groupn grpintn else mret false.

(** The loops, which count the nodes from the current one to the end as those of [Mld2Logic] do. *)
Fixpoint expire_loop_source (groupn grpintn : Z) (k : nat) (now removed : Z) : P Z :=
  match k with
  | O => mret removed
  | S k' =>
    e ← entry_at grpintn;
    data ← list_at (e_includes e);
    match data !! (length data - k)%nat with
    | Some source =>
      if source =? 0 then expire_loop_source groupn grpintn k' now removed
      else
        removed ← expire_source groupn grpintn source now;
        if removed =? 0 then expire_loop_source groupn grpintn k' now removed else mret removed
    | None => pcrash OutOfBounds
    end
  end.

Fixpoint expire_loop_interface (groupn : Z) (k : nat) (now removed : Z) : P unit :=
  match k with
  | O => mret tt
  | S k' =>
    interfaces ← interfaces_of groupn;
    data ← list_at interfaces;
    match data !! (length data - k)%nat with
    | Some grpintn =>
      e ← entry_at grpintn;
      if e_mode e =? MLD2_MODE_IS_INCLUDE then
        includes ← list_at (e_includes e);
        removed ← expire_loop_source groupn grpintn (length includes) now removed;
        if removed =? 2 then mret tt else expire_loop_interface groupn k' now removed
      else if e_timer e <=? now then
        lastgroup ← mld2_switch_to_include groupn grpintn;
        if (lastgroup : bool) then mret tt else expire_loop_interface groupn k' now removed
      else expire_loop_interface groupn k' now removed
    | None => pcrash OutOfBounds
    end
  end.

Fixpoint expire_loop_group (k : nat) (now : Z) : P unit :=
  match k with
  | O => mret tt
  | S k' =>
    data ← list_at groups;
    match data !! (length data - k)%nat with
    | Some groupn =>
      interfaces ← interfaces_of groupn;
      entries ← list_at interfaces;
      _ ← expire_loop_interface groupn (length entries) now 0;
      expire_loop_group k' now
    | None => pcrash OutOfBounds
    end
  end.

Definition expire_sources : P unit :=
  now ← lift time; data ← list_at groups; expire_loop_group (length data) now.
End code.

(** * Shapes with their pointers *)

(** The heap is exactly the group [v.1] at [groupn], its entries at [v.2]. *)
Definition group_at_shape (groupn : Z) (v : groupnode * list Z) (h : heap) : Prop :=
  exists l hc, groupn ≠ 0 /\ l ≠ 0 /\ nodes entry_shape v.2 (g_interfaces v.1) hc /\ hc !! l = None /\ (<[l := OList v.2]> hc) !! groupn = None /\
    h = <[groupn := group_obj v.1 l]> (<[l := OList v.2]> hc).
(** The heap is exactly the list [groups] of the groups [V], at [D]. *)
Definition groups_at (groups : Z) (D : list Z) (V : list (groupnode * list Z)) (h : heap) : Prop :=
  exists hc, nodes group_at_shape D V hc /\ hc !! groups = None /\ h = <[groups := OList D]> hc.

Lemma groups_shape_at groups gs h : groups_shape groups gs h <-> exists D V, V.*1 = gs /\ groups_at groups D V h.
Proof.
  unfold groups_shape, groups_at. split.
  - intros (D & hc & Hn & Hl & ->). cut (exists V, V.*1 = gs /\ nodes group_at_shape D V hc).
    { intros (V & ? & ?). exists D, V. split; [done|]. by exists hc. }
    clear Hl. induction Hn as [|p g data vs h1 h2 (l & dg & hg & ? & ? & ? & ? & ? & ->) Hd Hn (V & HV & HnV)]; [exists []; by repeat constructor|].
    exists ((g, dg) :: V). split; [csimpl; congruence|]. constructor; [|done..]. by exists l, hg.
  - intros (D & V & <- & hc & Hn & Hl & ->). exists D, hc. split_and!; [|done..].
    clear Hl. induction Hn as [|p [g dg] data vs h1 h2 (l & hg & ? & ? & ? & ? & ? & ->) Hd Hn IH]; [constructor|].
    csimpl. constructor; [|done..]. by exists l, dg, hg.
Qed.

(** A node in the middle: it may be replaced, or taken out. *)
Section focus.
Context {A : Type} (shape : Z -> A -> heap -> Prop).

Lemma nodes_focus D1 p D2 V1 a V2 h : nodes shape (D1 ++ p :: D2) (V1 ++ a :: V2) h -> length D1 = length V1 ->
  exists hp hr, h = hp ∪ hr /\ hp ##ₘ hr /\ shape p a hp /\ nodes shape (D1 ++ D2) (V1 ++ V2) hr /\
    forall a' hp', shape p a' hp' -> hp' ##ₘ hr -> nodes shape (D1 ++ p :: D2) (V1 ++ a' :: V2) (hp' ∪ hr).
Proof.
  revert V1 h. induction D1 as [|q D1 IH]; intros [|b V1] h Hn Hl; try done; inversion Hn as [|? ? ? ? h1 h2 Hs Hd Hn2]; subst.
  - exists h1, h2. split_and!; [done..|]. intros. by constructor.
  - injection Hl as Hl. destruct (IH V1 h2 Hn2 Hl) as (hp & hr & -> & Hd2 & Hp & Hr & Hw).
    apply map_disjoint_union_r in Hd as [Hd1 Hd3]. exists hp, (h1 ∪ hr). split_and!.
    + by rewrite !(assoc_L (∪)), (map_union_comm h1 hp).
    + by apply map_disjoint_union_r_2.
    + done.
    + by constructor.
    + intros a' hp' Hs' [Hd4 Hd5]%map_disjoint_union_r. rewrite (assoc_L (∪)), (map_union_comm hp' h1), <-(assoc_L (∪)) by done.
      simpl. constructor; [done| |by apply Hw]. by apply map_disjoint_union_r_2.
Qed.

Lemma nodes_length D V h : nodes shape D V h -> length D = length V.
Proof. induction 1; simpl; congruence. Qed.
Lemma nodes_in D V h p : (forall p a hp, shape p a hp -> is_Some (hp !! p)) -> nodes shape D V h -> p ∈ D -> is_Some (h !! p).
Proof.
  intros Hs. induction 1 as [|q a D V h1 h2 Hq Hd Hn IH]; [by intros ?%elem_of_nil|].
  intros [->|Hp]%elem_of_cons; [destruct (Hs _ _ _ Hq) as [o Ho]|destruct (IH Hp) as [o Ho]]; exists o.
  - by apply lookup_union_Some_l.
  - by apply lookup_union_Some_r.
Qed.
End focus.

Lemma entry_shape_in p gi h : entry_shape p gi h -> is_Some (h !! p).
Proof. intros (e & h1 & h2 & _ & _ & _ & _ & _ & _ & ->). rewrite lookup_insert_eq. by eexists. Qed.
Lemma group_shape_in p v h : group_at_shape p v h -> is_Some (h !! p).
Proof. intros (l & hc & _ & _ & _ & _ & _ & ->). rewrite lookup_insert_eq. by eexists. Qed.

(** The pointer of a node appears once. *)
Lemma remove_data_middle D1 p D2 : p ∉ D1 -> remove_data p (D1 ++ p :: D2) = D1 ++ D2.
Proof.
  induction D1 as [|q D1 IH]; simpl; [by rewrite Z.eqb_refl|]. intros [Hq Hp]%not_elem_of_cons.
  rewrite (proj2 (Z.eqb_neq _ _)) by congruence. by rewrite IH.
Qed.
Lemma nodes_remove {A} (shape : Z -> A -> heap -> Prop) D1 p D2 V hp hr :
  (forall p a hp, shape p a hp -> is_Some (hp !! p)) -> nodes shape (D1 ++ D2) V hr -> hp ##ₘ hr -> is_Some (hp !! p) ->
  remove_data p (D1 ++ p :: D2) = D1 ++ D2.
Proof.
  intros Hs Hn Hd [o Ho]. apply remove_data_middle. intros Hp.
  destruct (nodes_in shape _ _ _ p Hs Hn) as [o' Ho']; [apply elem_of_app; by left|]. by destruct (map_disjoint_spec hp hr) as [H _]; eapply H.
Qed.

(** * Reading *)

(** The command only reads: what it answers is in [h]. *)
Definition reads {A} (m : P A) (h : heap) (a : A) : Prop := forall h', h ⊆ h' -> runs m h' a h'.

Lemma reads_ret {A} (a : A) h : reads (mret a) h a.
Proof. intros h' _. apply runs_ret. Qed.
Lemma reads_bind {A B} (m : P A) (k : A -> P B) h a b : reads m h a -> reads (k a) h b -> reads (m ≫= k) h b.
Proof. intros Hm Hk h' Hh. eapply runs_bind; [by apply Hm|by apply Hk]. Qed.
Lemma reads_mono {A} (m : P A) h h2 a : reads m h a -> h ⊆ h2 -> reads m h2 a.
Proof. intros Hm Hs h' Hh. apply Hm. by etrans. Qed.
Lemma reads_obj h p o : h !! p = Some o -> reads (obj_at p) h o.
Proof. intros Ho h' Hh. apply runs_obj_at. by eapply lookup_weaken. Qed.
Lemma reads_list h l data : h !! l = Some (OList data) -> reads (list_at l) h data.
Proof. intros Hl. eapply reads_bind; [by apply reads_obj|apply reads_ret]. Qed.
Lemma reads_src h p s : h !! p = Some (OSrc s) -> reads (src_at p) h s.
Proof. intros Hs. eapply reads_bind; [by apply reads_obj|apply reads_ret]. Qed.
Lemma reads_entry_at h p e : h !! p = Some (entry_obj e) -> reads (entry_at p) h e.
Proof. intros He. eapply reads_bind; [by apply reads_obj|]. simpl. destruct e. apply reads_ret. Qed.
Lemma reads_interfaces h p g l : h !! p = Some (group_obj g l) -> reads (interfaces_of p) h l.
Proof. intros Ho. eapply reads_bind; [by apply reads_obj|]. apply reads_ret. Qed.
Lemma reads_is_empty h l data : h !! l = Some (OList data) -> reads (is_empty l) h (bool_decide (data = [])).
Proof. intros Hl. eapply reads_bind; [by apply reads_list|]. destruct data; apply reads_ret. Qed.

Lemma reads_sources h l vs : srcs_shape l vs h -> reads (read_sources l) h vs.
Proof.
  intros (_ & data & Hl & Hc)%srcs_shape_list. eapply reads_bind; [by apply reads_list|]. clear Hl.
  induction Hc as [|p [s|] data vs Hp Hc IH]; cbn [read_data]; [apply reads_ret| |].
  - destruct Hp as [Hp Hs]. eapply reads_bind; [|eapply reads_bind; [exact IH|apply reads_ret]].
    unfold read_source. rewrite (proj2 (Z.eqb_neq _ _) Hp). eapply reads_bind; [by apply reads_src|apply reads_ret].
  - simpl in Hp. subst p. eapply reads_bind; [apply (reads_ret None)|]. eapply reads_bind; [exact IH|apply reads_ret].
Qed.

Lemma reads_nodes {A B} (shape : Z -> A -> heap -> Prop) (read : Z -> P B) (f : A -> B) D V h :
  (forall p a hp, shape p a hp -> reads (read p) hp (f a)) -> nodes shape D V h -> reads (read_data read D) h (f <$> V).
Proof.
  intros Hr. induction 1 as [|p a D V h1 h2 Hp Hd Hn IH]; cbn [read_data]; [apply reads_ret|]. csimpl.
  eapply reads_bind; [eapply reads_mono; [by eapply Hr|by apply map_union_subseteq_l]|].
  eapply reads_bind; [eapply reads_mono; [exact IH|by apply map_union_subseteq_r]|apply reads_ret].
Qed.

Lemma reads_read_entry p gi h : entry_shape p gi h -> reads (read_entry p) h gi.
Proof.
  intros (e & h1 & h2 & _ & (E1 & E2 & E3) & H1 & H2 & Hd & Hp & ->).
  eapply reads_bind; [apply reads_entry_at, lookup_insert_eq|].
  eapply reads_bind; [eapply reads_mono; [by apply reads_sources|]|].
  { etrans; [by apply map_union_subseteq_l|by apply insert_subseteq]. }
  eapply reads_bind; [eapply reads_mono; [by apply reads_sources|]|].
  { etrans; [by apply (map_union_subseteq_r h1)|by apply insert_subseteq]. }
  rewrite E1, E2, E3. destruct gi. apply reads_ret.
Qed.
Lemma reads_read_group p v h : group_at_shape p v h -> reads (read_group p) h v.1.
Proof.
  intros (l & hc & _ & _ & Hn & Hl & Hp & ->). eapply reads_bind; [apply reads_obj, lookup_insert_eq|]. cbn [group_obj].
  assert (Hlp : l ≠ p) by (intros ->; by rewrite lookup_insert_eq in Hp).
  eapply reads_bind; [apply reads_list; by rewrite lookup_insert_ne, lookup_insert_eq|].
  eapply reads_bind; [eapply reads_mono; [eapply (reads_nodes _ _ id); [exact reads_read_entry|exact Hn]|]|].
  { etrans; [by apply insert_subseteq|by apply insert_subseteq]. }
  rewrite list_fmap_id. destruct v as [[] ?]. apply reads_ret.
Qed.
Lemma reads_groups groups D V h : groups_at groups D V h -> reads (read_groups groups) h (V.*1).
Proof.
  intros (hc & Hn & Hl & ->). eapply reads_bind; [apply reads_list, lookup_insert_eq|].
  eapply reads_mono; [by eapply reads_nodes; [exact reads_read_group|]|by apply insert_subseteq].
Qed.

(** * Changing an entry *)

(** From [h], and whatever there is besides, the command returns [a] and leaves [h'], at the same addresses. *)
Definition local {A} (m : P A) (h : heap) (a : A) (h' : heap) : Prop :=
  dom h' = dom h /\ forall f, h ##ₘ f -> runs m (h ∪ f) a (h' ∪ f).

Lemma reads_local {A} (m : P A) h a : reads m h a -> local m h a h.
Proof. intros Hm. split; [done|]. intros f Hf. apply Hm. by apply map_union_subseteq_l. Qed.
Lemma local_bind {A B} (m : P A) (k : A -> P B) h a h1 b h2 : local m h a h1 -> local (k a) h1 b h2 -> local (m ≫= k) h b h2.
Proof.
  intros [D1 R1] [D2 R2]. split; [congruence|]. intros f Hf. eapply runs_bind; [by apply R1|]. apply R2.
  apply map_disjoint_dom. rewrite D1. by apply map_disjoint_dom.
Qed.
Lemma local_set h p o o' : h !! p = Some o -> local (set_obj p o') h tt (<[p := o']> h).
Proof.
  intros Hp. split; [apply dom_insert_lookup_L; by eexists|]. intros f Hf. rewrite <-insert_union_l.
  eapply runs_set_obj. by apply lookup_union_Some_l.
Qed.
Lemma local_delete h l data val : h !! l = Some (OList data) -> local (listnode_delete l val) h tt (<[l := OList (remove_data val data)]> h).
Proof. intros Hl. eapply local_bind; [by apply reads_local, reads_list|by eapply local_set]. Qed.
Lemma local_frame {A} (m : P A) h r a h' : local m h a h' -> h ##ₘ r -> local m (h ∪ r) a (h' ∪ r).
Proof.
  intros [D1 R1] Hr. split; [by rewrite !dom_union_L, D1|]. intros f [Hf1 Hf2]%map_disjoint_union_l.
  rewrite <-!(assoc_L (∪)). apply R1. by apply map_disjoint_union_r_2.
Qed.
Lemma local_disjoint {A} (m : P A) h a h' f : local m h a h' -> h ##ₘ f -> h' ##ₘ f.
Proof. intros [D1 _] Hf. apply map_disjoint_dom. rewrite D1. by apply map_disjoint_dom. Qed.

Lemma entry_open p gi h : entry_shape p gi h -> exists e data, h !! p = Some (entry_obj e) /\ entry_like e gi /\
  h !! e_includes e = Some (OList data) /\ Forall2 (cell h) data (gi_includes gi).
Proof.
  intros (e & h1 & h2 & _ & He & H1 & H2 & Hd & Hp & ->). destruct (srcs_shape_list _ _ _ H1) as (_ & data & Hl & Hc).
  assert (Hs : h1 ⊆ <[p := entry_obj e]> (h1 ∪ h2)) by (etrans; [by apply map_union_subseteq_l|by apply insert_subseteq]).
  exists e, data. split_and!; [apply lookup_insert_eq|done|by eapply lookup_weaken|by eapply cell_mono].
Qed.

Lemma entry_obj_inj e e' : entry_obj e = entry_obj e' -> e = e'.
Proof. destruct e, e'. unfold entry_obj. simpl. congruence. Qed.

(** Equality of heaps built of the same pieces. *)
Ltac heap_eq :=
  apply map_eq; let i := fresh "i" in intros i;
  repeat first [rewrite lookup_union | rewrite lookup_insert | rewrite lookup_singleton]; repeat case_decide; simplify_eq;
  repeat match goal with H : ?m !! ?k = _ |- _ => rewrite H end; repeat match goal with |- context [?m !! i] => destruct (m !! i) end; try done.

(** A source leaves the entry; the source itself stays behind. *)
Lemma entry_delete_source p gi h e data k src s :
  entry_shape p gi h -> h !! p = Some (entry_obj e) -> h !! e_includes e = Some (OList data) ->
  data !! k = Some src -> gi_includes gi !! k = Some (Some s) ->
  exists h', local (listnode_delete (e_includes e) src) h tt (h' ∪ {[src := OSrc s]}) /\ h' ##ₘ {[src := OSrc s]} /\
    entry_shape p (set_includes (delete k (gi_includes gi)) gi) h' /\
    h' !! p = Some (entry_obj e) /\ h' !! e_includes e = Some (OList (delete k data)).
Proof.
  intros (e0 & h1 & h2 & Hp0 & He & H1 & H2 & Hd & Hp & ->) Hpe Hl Hk Hs.
  rewrite lookup_insert_eq in Hpe. apply (inj Some), entry_obj_inj in Hpe as ->.
  destruct H1 as (data' & hc & Hl0 & Hlc & Hc & ->). set (l := e_includes e) in *.
  apply lookup_union_None in Hp as [Hp1 Hp2]. apply lookup_insert_None in Hp1 as [Hp1 Hlp].
  rewrite lookup_insert_ne in Hl by done. rewrite (lookup_union_Some_l _ _ _ _ (lookup_insert_eq _ _ _)) in Hl. injection Hl as ->.
  destruct (cells_remove data _ hc k src s Hc Hk Hs) as (hc' & -> & Hsrc & Hr & Hc').
  apply lookup_insert_None in Hlc as [Hlc Hsl]. apply lookup_insert_None in Hp1 as [Hp1 Hsp].
  apply map_disjoint_insert_l in Hd as [Hd1 Hd]. apply map_disjoint_insert_l in Hd as [Hd2 Hd].
  set (h' := <[p := entry_obj e]> (<[l := OList (delete k data)]> hc' ∪ h2)).
  assert (Hd' : h' ##ₘ {[src := OSrc s]}).
  { apply map_disjoint_singleton_r_2. unfold h'. rewrite lookup_insert_ne, lookup_union_None, lookup_insert_ne by done. done. }
  exists h'. split_and!.
  - replace (h' ∪ {[src := OSrc s]}) with (<[l := OList (remove_data src data)]> (<[p := entry_obj e]> (<[l := OList data]> (<[src := OSrc s]> hc') ∪ h2))).
    + apply local_delete. rewrite lookup_insert_ne by done. by apply lookup_union_Some_l, lookup_insert_eq.
    + rewrite Hr. unfold h'. heap_eq.
  - done.
  - exists e, (<[l := OList (delete k data)]> hc'), h2. split_and!; [done|done| |done|by apply map_disjoint_insert_l_2| |done].
    + by exists (delete k data), hc'.
    + by rewrite lookup_union_None, lookup_insert_ne.
  - apply lookup_insert_eq.
  - unfold h'. rewrite lookup_insert_ne by done. by apply lookup_union_Some_l, lookup_insert_eq.
Qed.

Lemma entry_set_mode p gi h v : entry_shape p gi h ->
  exists h', local (upd_entry p (put_mode v)) h tt h' /\ entry_shape p (set_filter_mode v gi) h'.
Proof.
  intros (e & h1 & h2 & Hp0 & (E1 & E2 & E3) & H1 & H2 & Hd & Hp & ->). exists (<[p := entry_obj (put_mode v e)]> (h1 ∪ h2)). split.
  - eapply local_bind; [apply reads_local, reads_entry_at, lookup_insert_eq|].
    eapply (eq_rect _ (local _ _ tt)); [eapply local_set, lookup_insert_eq|]. apply insert_insert_eq.
  - exists (put_mode v e), h1, h2. by split_and!.
Qed.

(** * The entry in its group, the group in its list *)

Lemma nil_same {A B} (l1 l2 : list A) (k1 k2 : list B) : length l1 = length k1 -> length l2 = length k2 ->
  bool_decide (l1 ++ l2 = []) = bool_decide (k1 ++ k2 = []).
Proof. intros H1 H2. apply bool_decide_ext. rewrite <-!length_zero_iff_nil, !length_app, H1, H2. done. Qed.

Section group_focus.
Context (groupn : Z) (g : groupnode) (E1 E2 : list Z) (I1 I2 : list grpintnode) (grpintn : Z).
Context (HE : length E1 = length I1).

Lemma group_focus gi h : group_at_shape groupn (set_interfaces (I1 ++ gi :: I2) g, E1 ++ grpintn :: E2) h ->
  exists he r, h = he ∪ r /\ he ##ₘ r /\ entry_shape grpintn gi he /\
    (forall gi' he', entry_shape grpintn gi' he' -> he' ##ₘ r ->
      group_at_shape groupn (set_interfaces (I1 ++ gi' :: I2) g, E1 ++ grpintn :: E2) (he' ∪ r)) /\
    length E2 = length I2.
Proof.
  intros (l & hc & Hg0 & Hl0 & Hn & Hl & Hp & ->). simpl in *. pose proof (nodes_length _ _ _ _ Hn) as Hlen.
  rewrite !length_app in Hlen. simpl in Hlen.
  destruct (nodes_focus _ _ _ _ _ _ _ _ Hn HE) as (he & r & -> & Hd & He & _ & Hw).
  apply lookup_insert_None in Hp as [Hp Hlp]. apply lookup_union_None in Hp as [Hp1 Hp2]. apply lookup_union_None in Hl as [Hl1 Hl2].
  exists he, (<[groupn := group_obj (set_interfaces (I1 ++ gi :: I2) g) l]> (<[l := OList (E1 ++ grpintn :: E2)]> r)). split_and!; [|by repeat apply map_disjoint_insert_r_2|done| |lia].
  - by rewrite !insert_union_r.
  - intros gi' he' He' [Hgd [Hld Hrd]%map_disjoint_insert_r]%map_disjoint_insert_r. exists l, (he' ∪ r). simpl. split_and!; try done.
    + by apply Hw.
    + by rewrite lookup_union_None.
    + by rewrite lookup_insert_ne, lookup_union_None.
    + by rewrite !insert_union_r.
Qed.

(** The list of entries, and what is left when the entry is taken out of it. *)
Lemma group_remove gi h : group_at_shape groupn (set_interfaces (I1 ++ gi :: I2) g, E1 ++ grpintn :: E2) h ->
  exists l h' x, reads (interfaces_of groupn) h l /\ local (listnode_delete l grpintn) h tt (h' ∪ x) /\ h' ##ₘ x /\
    (h' ∪ x) !! l = Some (OList (E1 ++ E2)) /\ (h' ∪ x) !! grpintn = h !! grpintn /\
    group_at_shape groupn (set_interfaces (I1 ++ I2) g, E1 ++ E2) h'.
Proof.
  intros (l & hc & Hg0 & Hl0 & Hn & Hl & Hp & ->). simpl in *.
  destruct (nodes_focus _ _ _ _ _ _ _ _ Hn HE) as (he & r & -> & Hd & He & Hr & _).
  apply lookup_insert_None in Hp as [Hp Hlp]. apply lookup_union_None in Hp as [Hp1 Hp2]. apply lookup_union_None in Hl as [Hl1 Hl2].
  pose proof (nodes_remove _ _ _ _ _ _ _ entry_shape_in Hr Hd (entry_shape_in _ _ _ He)) as Hrm.
  destruct (entry_shape_in _ _ _ He) as [o Ho]. assert (grpintn ≠ groupn /\ grpintn ≠ l) as [Hne1 Hne2] by (split; congruence).
  exists l, (<[groupn := group_obj g l]> (<[l := OList (E1 ++ E2)]> r)), he.
  split_and!.
  - eapply reads_interfaces, lookup_insert_eq.
  - replace (<[groupn := _]> _ ∪ he) with (<[l := OList (remove_data grpintn (E1 ++ grpintn :: E2))]>
      (<[groupn := group_obj (set_interfaces (I1 ++ gi :: I2) g) l]> (<[l := OList (E1 ++ grpintn :: E2)]> (he ∪ r)))).
    + apply local_delete. by rewrite lookup_insert_ne, lookup_insert_eq.
    + rewrite Hrm, (map_union_comm he r) by done. rewrite <-!insert_union_l, (insert_insert_ne _ l) by done. by rewrite insert_insert_eq.
  - apply map_disjoint_insert_l_2; [done|]. by apply map_disjoint_insert_l_2.
  - apply lookup_union_Some_l. by rewrite lookup_insert_ne, lookup_insert_eq.
  - rewrite <-!insert_union_l, !lookup_insert_ne by done. by rewrite map_union_comm by done.
  - exists l, r. simpl. split_and!; try done. by rewrite lookup_insert_ne.
Qed.
End group_focus.

Section groups_focus.
Context (groups groupn : Z) (D1 D2 : list Z) (V1 V2 : list (groupnode * list Z)) (HD : length D1 = length V1).

Lemma groups_focus v h : groups_at groups (D1 ++ groupn :: D2) (V1 ++ v :: V2) h ->
  exists hg r, h = hg ∪ r /\ hg ##ₘ r /\ group_at_shape groupn v hg /\ r !! groups = Some (OList (D1 ++ groupn :: D2)) /\
    remove_data groupn (D1 ++ groupn :: D2) = D1 ++ D2 /\
    groups_at groups (D1 ++ D2) (V1 ++ V2) (<[groups := OList (D1 ++ D2)]> r) /\
    forall v' hg', group_at_shape groupn v' hg' -> hg' ##ₘ r -> groups_at groups (D1 ++ groupn :: D2) (V1 ++ v' :: V2) (hg' ∪ r).
Proof.
  intros (hc & Hn & Hl & ->). destruct (nodes_focus _ _ _ _ _ _ _ _ Hn HD) as (hg & r & -> & Hd & Hg & Hr & Hw).
  apply lookup_union_None in Hl as [Hl1 Hl2].
  pose proof (nodes_remove _ _ _ _ _ _ _ group_shape_in Hr Hd (group_shape_in _ _ _ Hg)) as Hrm.
  exists hg, (<[groups := OList (D1 ++ groupn :: D2)]> r). split_and!; [|by apply map_disjoint_insert_r_2|done|apply lookup_insert_eq|done| |].
  - by rewrite insert_union_r.
  - rewrite insert_insert_eq. by exists r.
  - intros v' hg' Hg' [Hld Hrd]%map_disjoint_insert_r. exists (hg' ∪ r). split_and!; [by apply Hw|by rewrite lookup_union_None|by rewrite insert_union_r].
Qed.
End groups_focus.
