(* ===== verification/MemoryWalk.v ===== *)
(** Expiry on pointers, continued: each operation of [MemoryExpire] simulates the one of [Mld2Logic] on values, which gives what a pass over the
    groups leaves in memory. *)

From S2P Require Import Prelude LinkList Msrc World Interfaces Send Groups Samples Routing Mld2Logic Mld2Expire Memory MemoryFacts MemoryRefine MemoryRecords MemoryDestroy MemoryExpire.
#[local] Open Scope Z_scope.
#[local] Arguments Z.eqb : simpl never.

(** * The simulation *)

Section simulation.
Context (groups : Z) (os : OS) (d : gset Z) (f : heap).

(** The groups of the state are the ones in memory; besides, there are the objects [f] as they were, and those that left the lists.
    Nothing was allocated or given back: the addresses are [d]. *)
Definition holds (D : list Z) (V : list (groupnode * list Z)) (w : world) (h : heap) : Prop :=
  w_groups w = V.*1 /\ dom h = d /\ exists hs x, groups_at groups D V hs /\ h = hs ∪ x /\ hs ##ₘ x /\ f ⊆ x.

(** The command [pm] on pointers does what [m] does on values, and faults only as [m] does. The groups of its own state are not
    looked at. *)
Definition sim {A} (m : M A) (pm : P A) (w : world) (h : heap) (Q : A -> world -> heap -> Prop) : Prop :=
  forall gs0, spec m os w
    (fun a w' => exists h' gs', pm h os (set_groups gs0 w) = Ret (a, h') (set_groups gs' w') /\ Q a w' h')
    (fun e w' => exists gs', pm h os (set_groups gs0 w) = Crash e (set_groups gs' w')).

(** States that differ in their groups only. *)
Definition same_rest (w w' : world) : Prop := forall gs, set_groups gs w' = set_groups gs w.

Lemma sim_ret {A} (a : A) w h (Q : A -> world -> heap -> Prop) : Q a w h -> sim (mret a) (mret a) w h Q.
Proof. intros HQ gs0. apply spec_ret. by exists h, gs0. Qed.
Lemma sim_mono {A} (m : M A) pm w h (Q Q' : A -> world -> heap -> Prop) :
  sim m pm w h Q -> (forall a w' h', Q a w' h' -> Q' a w' h') -> sim m pm w h Q'.
Proof. intros Hm HQ gs0. eapply spec_mono; [apply (Hm gs0)| |done]. cbv beta. intros a w' (h' & gs' & ? & ?). eauto. Qed.
Lemma sim_bind {A B} (m : M A) (k : A -> M B) pm pk w h (Q : B -> world -> heap -> Prop) :
  sim m pm w h (fun a w' h' => sim (k a) (pk a) w' h' Q) -> sim (m ≫= k) (pm ≫= pk) w h Q.
Proof.
  intros Hm gs0. apply spec_bind. eapply spec_mono; [apply (Hm gs0)|..]; cbv beta.
  - intros a w' (h' & gs' & E & Hk). eapply spec_mono; [apply (Hk gs')|..]; cbv beta; unfold mbind, P_bind, mbind, M_bind.
    + intros b w'' (h'' & gs'' & E' & HQ). exists h'', gs''. by rewrite E.
    + intros e w'' (gs'' & E'). exists gs''. by rewrite E.
  - intros e w' (gs' & E). exists gs'. unfold mbind, P_bind, mbind, M_bind. by rewrite E.
Qed.
Lemma sim_left {A B} (m : M A) (k : A -> M B) pm w h (Q : B -> world -> heap -> Prop) :
  spec m os w (fun a w' => same_rest w w' /\ sim (k a) pm w' h Q) (fun _ _ => False) -> sim (m ≫= k) pm w h Q.
Proof.
  intros Hm gs0. apply spec_bind. eapply spec_mono; [exact Hm| |by intros ? ? []]. cbv beta. intros a w' [Hw Hk].
  specialize (Hk gs0). by rewrite Hw in Hk.
Qed.
Lemma sim_right {A B} (m : M B) (pm : P A) pk w h a h' (Q : B -> world -> heap -> Prop) :
  runs pm h a h' -> sim m (pk a) w h' Q -> sim m (pm ≫= pk) w h Q.
Proof. intros Hr Hm gs0. specialize (Hm gs0). unfold mbind, P_bind, mbind, M_bind. by rewrite Hr. Qed.
Lemma sim_end {A} (m : M A) pm w h (Q : A -> world -> heap -> Prop) :
  spec m os w (fun a w' => same_rest w w' /\ exists h', runs pm h a h' /\ Q a w' h') (fun _ _ => False) -> sim m pm w h Q.
Proof.
  intros Hm gs0. eapply spec_mono; [exact Hm| |by intros ? ? []]. cbv beta. intros a w' [Hw (h' & Hr & HQ)].
  exists h', gs0. by rewrite Hr, Hw.
Qed.

(** Commands that do not look at the groups. *)
Lemma sim_time w h : sim time (lift time) w h (fun _ w' h' => w_groups w' = w_groups w /\ h' = h).
Proof. intros gs0. apply spec_os_call. exists h, gs0. by destruct w. Qed.
Lemma sim_int_find ifx w h : sim (int_find ifx) (lift (int_find ifx)) w h (fun _ w' h' => w' = w /\ h' = h).
Proof.
  intros gs0. unfold spec, lift, int_find, int_at, mbind, M_bind, get. cbn [w_ints set_groups].
  destruct (_ <=? _); [by exists h, gs0|]. cbv beta. cbn [w_ints set_groups].
  destruct (w_ints w !! Z.to_nat ifx) as [n|]; [by exists h, gs0|by exists gs0].
Qed.
(** Commands that read the groups find those in memory. *)
Lemma sim_through {A} (m : M A) w h : rel (frames w_groups) m -> reads (read_groups groups) h (w_groups w) ->
  sim m (through groups m) w h (fun _ w' h' => w_groups w' = w_groups w /\ h' = h).
Proof.
  intros Hm Hr gs0.
  assert (E : forall gs, through groups m h os (set_groups gs w) = match m os w with Ret a w' => Ret (a, h) w' | Crash e w' => Crash e w' end).
  { intros gs. unfold through, mbind, P_bind, mbind, M_bind, lift, modify. rewrite (Hr h (reflexivity _)). simpl.
    replace (set_groups (w_groups w) (set_groups gs w)) with w by (by destruct w). unfold mbind, M_bind. by destruct (m os w). }
  pose proof (rel_spec (frames w_groups) m os w Hm) as Hf.
  unfold spec in *. rewrite E. destruct (m os w) as [a w'|e w'].
  - exists h, (w_groups w'). split; [by destruct w'|done].
  - exists (w_groups w'). by destruct w'.
Qed.
Lemma sim_upstream i w h : reads (read_groups groups) h (w_groups w) ->
  sim (handle_upstream_subscription i) (handle_upstream groups i) w h (fun _ w' h' => w_groups w' = w_groups w /\ h' = h).
Proof. apply sim_through. by apply rel_handle_upstream; [typeclasses eauto|..]. Qed.

Lemma holds_reads D V w h : holds D V w h -> reads (read_groups groups) h (w_groups w).
Proof.
  intros (-> & _ & hs & x & Hs & -> & _ & _). eapply reads_mono; [by eapply reads_groups|by apply map_union_subseteq_l].
Qed.
Lemma holds_same D V w w' h : holds D V w h -> w_groups w' = w_groups w -> holds D V w' h.
Proof. intros (Hw & H) E. split; [congruence|done]. Qed.

(** ** The entry in its place *)

Section entry.
Context (groupn : Z) (D1 D2 : list Z) (V1 V2 : list (groupnode * list Z)) (HD : length D1 = length V1) (g : groupnode).
Definition groups_with (I : list grpintnode) (E : list Z) : world -> heap -> Prop :=
  holds (D1 ++ groupn :: D2) (V1 ++ (set_interfaces I g, E) :: V2).
Definition groups_without : world -> heap -> Prop := holds (D1 ++ D2) (V1 ++ V2).

Lemma groups_with_world I E w h : groups_with I E w h -> w_groups w = mk V1.*1 g I V2.*1.
Proof. intros (-> & _). by rewrite fmap_app. Qed.

Context (grpintn : Z) (E1 E2 : list Z) (I1 I2 : list grpintnode) (HE : length E1 = length I1).
(** The entry of the position is [gi], at [grpintn]. *)
Definition here (gi : grpintnode) : world -> heap -> Prop := groups_with (I1 ++ gi :: I2) (E1 ++ grpintn :: E2).

Lemma here_open gi w h : here gi w h ->
  exists he r, h = he ∪ r /\ he ##ₘ r /\ entry_shape grpintn gi he /\
    forall gi' he' y w', entry_shape grpintn gi' he' -> he' ##ₘ y -> dom (he' ∪ y) = dom he ->
      w_groups w' = mk V1.*1 g (I1 ++ gi' :: I2) V2.*1 -> here gi' w' ((he' ∪ y) ∪ r).
Proof.
  intros (Hw & Hdom & hs & x & Hs & -> & Hx & Hf). destruct (groups_focus _ _ _ _ _ _ HD _ _ Hs) as (hg & r1 & -> & Hd1 & Hg & _ & _ & _ & W1).
  destruct (group_focus _ _ _ _ _ _ _ HE _ _ Hg) as (he & r2 & -> & Hd2 & He & W2 & _).
  apply map_disjoint_union_l in Hd1 as [Hd1 Hd3]. apply map_disjoint_union_l in Hx as [Hx Hx3]. apply map_disjoint_union_l in Hx as [Hx1 Hx2].
  exists he, (r2 ∪ (r1 ∪ x)). split_and!; [by rewrite !(assoc_L (∪))|by repeat apply map_disjoint_union_r_2|done|].
  intros gi' he' y w' He' Hy Hdom' Hw'.
  assert (Hsub : forall m, he ##ₘ m -> he' ##ₘ m /\ y ##ₘ m).
  { intros m Hm%map_disjoint_dom. rewrite <-Hdom', dom_union_L in Hm. split; apply map_disjoint_dom; set_solver. }
  destruct (Hsub _ Hd2), (Hsub _ Hd1), (Hsub _ Hx1). split; [rewrite Hw', fmap_app; done|]. split.
  - rewrite <-Hdom, !dom_union_L. rewrite dom_union_L in Hdom'. set_solver.
  - exists ((he' ∪ r2) ∪ r1), (y ∪ x). split_and!.
    + apply W1; [by apply W2|]. by apply map_disjoint_union_l_2.
    + rewrite <-!(assoc_L (∪)). f_equal. rewrite !(assoc_L (∪)). f_equal. rewrite <-(assoc_L (∪) y). apply map_union_comm. by apply map_disjoint_union_r_2.
    + repeat first [apply map_disjoint_union_l_2 | apply map_disjoint_union_r_2]; try done; by apply map_disjoint_sym.
    + etrans; [exact Hf|]. by apply map_union_subseteq_r.
Qed.

Lemma here_entry gi w h : here gi w h -> exists e data, h !! grpintn = Some (entry_obj e) /\ entry_like e gi /\
  h !! e_includes e = Some (OList data) /\ Forall2 (cell h) data (gi_includes gi).
Proof.
  intros (he & r & -> & Hd & He & _)%here_open. destruct (entry_open _ _ _ He) as (e & data & Hp & Hl & Hi & Hc).
  assert (Hs : he ⊆ he ∪ r) by (by apply map_union_subseteq_l).
  exists e, data. split_and!; [by eapply lookup_weaken|done|by eapply lookup_weaken|by eapply cell_mono].
Qed.

(** A source is taken out of the list, the mode is set. *)
Lemma here_delete gi w h e data k src s :
  here gi w h -> h !! grpintn = Some (entry_obj e) -> h !! e_includes e = Some (OList data) ->
  data !! k = Some src -> gi_includes gi !! k = Some (Some s) ->
  exists h', runs (listnode_delete (e_includes e) src) h tt h' /\
    h' !! grpintn = Some (entry_obj e) /\ h' !! e_includes e = Some (OList (delete k data)) /\
    forall w', w_groups w' = mk V1.*1 g (I1 ++ set_includes (delete k (gi_includes gi)) gi :: I2) V2.*1 ->
      here (set_includes (delete k (gi_includes gi)) gi) w' h'.
Proof.
  intros (he & r & -> & Hd & He & W)%here_open Hp Hl Hk Hs. destruct (entry_open _ _ _ He) as (e' & data' & Hp' & _ & Hl' & _).
  assert (Hsub : he ⊆ he ∪ r) by (by apply map_union_subseteq_l).
  pose proof (lookup_weaken _ _ _ _ Hp' Hsub) as Hp2. rewrite Hp in Hp2. apply (inj Some), entry_obj_inj in Hp2 as <-.
  pose proof (lookup_weaken _ _ _ _ Hl' Hsub) as Hl2. rewrite Hl in Hl2. injection Hl2 as <-.
  destruct (entry_delete_source _ _ _ _ _ _ _ _ He Hp' Hl' Hk Hs) as (he' & Hloc & Hy & He' & Hp3 & Hl3).
  exists ((he' ∪ {[src := OSrc s]}) ∪ r). split_and!; [by apply Hloc|by do 2 apply lookup_union_Some_l|by do 2 apply lookup_union_Some_l|].
  intros w' Hw'. apply W; [done|done|apply Hloc|done].
Qed.
Lemma here_mode gi w h v : here gi w h ->
  exists h', runs (upd_entry grpintn (put_mode v)) h tt h' /\
    forall w', w_groups w' = mk V1.*1 g (I1 ++ set_filter_mode v gi :: I2) V2.*1 -> here (set_filter_mode v gi) w' h'.
Proof.
  intros (he & r & -> & Hd & He & W)%here_open. destruct (entry_set_mode _ _ _ v He) as (he' & Hloc & He').
  exists (he' ∪ r). split; [by apply Hloc|]. intros w' Hw'. rewrite <-(right_id_L ∅ (∪) he').
  apply W; [done|apply map_disjoint_empty_r|rewrite (right_id_L ∅ (∪)); apply Hloc|done].
Qed.

(** The entry is taken out of its list, and its group with the last entry. *)
Lemma here_remove gi w h : here gi w h ->
  exists h', runs (remove_grpintn groups groupn grpintn) h (bool_decide (I1 ++ I2 = [])) h' /\ h' !! grpintn = h !! grpintn /\
    forall w', w_groups w' = removed_groups V1.*1 V2.*1 g I1 I2 ->
      if bool_decide (I1 ++ I2 = []) then groups_without w' h' else groups_with (I1 ++ I2) (E1 ++ E2) w' h'.
Proof.
  intros (Hw & Hdom & hs & x & Hs & -> & Hx & Hf). destruct (groups_focus _ _ _ _ _ _ HD _ _ Hs) as (hg & r & -> & Hd & Hg & Hgr & Hrm & Hout & W).
  destruct (group_focus _ _ _ _ _ _ _ HE _ _ Hg) as (he & r2 & Ehg & _ & He & _ & Hlen).
  destruct (group_remove _ _ _ _ _ _ _ HE _ _ Hg) as (l & hg' & y & Hread & Hloc & Hy & Hl & Hp & Hg').
  assert (Hin : is_Some (hg !! grpintn)).
  { rewrite Ehg. destruct (entry_shape_in _ _ _ He) as [o Ho]. exists o. by apply lookup_union_Some_l. }
  rewrite <-(assoc_L (∪)) in *. apply map_disjoint_union_l in Hx as [Hx1 Hx2].
  assert (Hdr : hg ##ₘ r ∪ x) by (by apply map_disjoint_union_r_2).
  pose proof (local_disjoint _ _ _ _ _ Hloc Hdr) as Hd'. pose proof (proj2 Hloc _ Hdr) as Hrun. destruct Hloc as [Hdl _].
  pose proof Hd' as [[Hd1 Hd2]%map_disjoint_union_l [Hd3 Hd4]%map_disjoint_union_l]%map_disjoint_union_r.
  set (h1 := (hg' ∪ y) ∪ (r ∪ x)) in *.
  assert (Hp1 : h1 !! grpintn = (hg ∪ (r ∪ x)) !! grpintn) by (unfold h1; rewrite !lookup_union, <-Hp, lookup_union; done).
  assert (Hdom1 : dom h1 = d) by (rewrite <-Hdom; unfold h1; rewrite (dom_union_L (hg' ∪ y)), Hdl; by rewrite !dom_union_L).
  assert (Hg1 : h1 !! groups = Some (OList (D1 ++ groupn :: D2))).
  { apply lookup_union_Some_r; [done|]. by apply lookup_union_Some_l. }
  assert (Hfirst : forall b h', runs (if bool_decide (E1 ++ E2 = []) then _ ← listnode_delete groups groupn; mret true else mret false) h1 b h' ->
    runs (remove_grpintn groups groupn grpintn) (hg ∪ (r ∪ x)) b h').
  { intros b h' Hk. eapply runs_bind; [apply Hread, map_union_subseteq_l|]. eapply runs_bind; [exact Hrun|].
    eapply runs_bind; [|exact Hk]. apply (reads_is_empty _ _ _ Hl). by apply map_union_subseteq_l. }
  rewrite (nil_same E1 E2 I1 I2 HE Hlen) in Hfirst. unfold removed_groups. destruct (bool_decide (I1 ++ I2 = [])).
  - assert (Hne : grpintn ≠ groups).
    { intros ->. destruct Hin as [o Ho]. by eapply map_disjoint_spec in Hd; [|exact Ho|exact Hgr]. }
    assert (Hgn : (hg' ∪ y) !! groups = None) by (apply lookup_union_None; split; by eapply map_disjoint_Some_r; [|exact Hgr]).
    assert (Hgx : x !! groups = None) by (by eapply map_disjoint_Some_l; [|exact Hgr]).
    assert (E : <[groups := OList (D1 ++ D2)]> h1 = <[groups := OList (D1 ++ D2)]> r ∪ ((hg' ∪ y) ∪ x)).
    { unfold h1. rewrite insert_union_r by done. rewrite insert_union_l, !(assoc_L (∪)). f_equal.
      rewrite <-(assoc_L (∪) (<[groups := _]> r)). apply map_union_comm. apply map_disjoint_insert_r_2; [done|]. by apply map_disjoint_union_l_2. }
    exists (<[groups := OList (D1 ++ D2)]> h1). split_and!.
    + apply Hfirst. eapply runs_bind; [|apply runs_ret]. rewrite <-Hrm. eapply runs_bind; [by apply runs_list_at|by eapply runs_set_obj].
    + by rewrite lookup_insert_ne.
    + intros w' Hw'. split; [by rewrite Hw', fmap_app|]. split; [rewrite dom_insert_lookup_L by (by eexists); done|].
      eexists _, _. split_and!; [exact Hout|exact E| |].
      * apply map_disjoint_insert_l_2; [|repeat apply map_disjoint_union_r_2; first [done | by apply map_disjoint_sym]].
        by apply lookup_union_None.
      * etrans; [exact Hf|]. by apply map_union_subseteq_r, map_disjoint_union_l_2.
  - exists h1. split_and!; [apply Hfirst, runs_ret|done|]. intros w' Hw'. split; [by rewrite Hw', fmap_app|]. split; [done|].
    exists (hg' ∪ r), (y ∪ x). split_and!.
    + by apply W.
    + unfold h1. rewrite <-!(assoc_L (∪)). f_equal. rewrite !(assoc_L (∪)). f_equal. by apply map_union_comm.
    + repeat first [apply map_disjoint_union_l_2 | apply map_disjoint_union_r_2]; try done; by apply map_disjoint_sym.
    + etrans; [exact Hf|]. by apply map_union_subseteq_r.
Qed.

(** ** The operations *)

Definition position : nat * nat := (length V1.*1, length I1).
(** The entries of the group from [I2] on are still to be visited. *)
Definition moved_on (w : world) (h : heap) : Prop :=
  exists E1' I1', length E1' = length I1' /\ groups_with (I1' ++ I2) (E1' ++ E2) w h.

Lemma here_moved_on gi w h : here gi w h -> moved_on w h.
Proof.
  intros H. exists (E1 ++ [grpintn]), (I1 ++ [gi]). rewrite !length_app, HE, <-!app_assoc. by split.
Qed.
Lemma with_moved_on w h : groups_with (I1 ++ I2) (E1 ++ E2) w h -> moved_on w h.
Proof. by exists E1, I1. Qed.
Lemma here_world gi w h : here gi w h -> w_groups w = mk V1.*1 g (I1 ++ gi :: I2) V2.*1.
Proof. apply groups_with_world. Qed.
Lemma same_rest_refl w : same_rest w w.
Proof. done. Qed.
Lemma same_rest_groups w gs : same_rest w (set_groups gs w).
Proof. done. Qed.
#[local] Hint Resolve same_rest_refl same_rest_groups : core.

(** What both [expire_source] and [mld2_switch_to_include] do with the interface of the entry. *)
Lemma sim_refresh {A} (k : M A) (pk : P A) ifx D V w h (Q : A -> world -> heap -> Prop) :
  holds D V w h -> (forall w', holds D V w' h -> w_groups w' = w_groups w -> sim k pk w' h Q) ->
  sim (intn ← int_find ifx; _ ← handle_upstream_subscription intn; k) (intn ← lift (int_find ifx); _ ← handle_upstream groups intn; pk) w h Q.
Proof.
  intros Hh Hk. apply sim_bind. eapply sim_mono; [apply sim_int_find|]. cbv beta. intros intn w' h' [-> ->].
  apply sim_bind. eapply sim_mono; [by eapply sim_upstream, holds_reads|]. cbv beta. intros _ w' h' [Hw ->].
  apply Hk; [by eapply holds_same|done].
Qed.

Lemma sim_expire_source gi w h e data k src s now :
  here gi w h -> h !! grpintn = Some (entry_obj e) -> entry_like e gi -> h !! e_includes e = Some (OList data) ->
  Forall2 (cell h) data (gi_includes gi) -> data !! k = Some src -> gi_includes gi !! k = Some (Some s) ->
  sim (Mld2Logic.expire_source position k now) (expire_source groups groupn grpintn src now) w h (fun r w' h' =>
    (r = 0 /\ (here gi w' h' \/ here (set_includes (delete k (gi_includes gi)) gi) w' h')) \/
    (r = 1 /\ groups_with (I1 ++ I2) (E1 ++ E2) w' h') \/ (r = 2 /\ groups_without w' h')).
Proof.
  intros Hh Hp He Hl Hc Hk Hs. pose proof (here_world _ _ _ Hh) as Hw.
  destruct (Forall2_lookup_lr _ _ _ _ _ _ Hc Hk Hs) as [_ Hsrc].
  unfold Mld2Logic.expire_source, expire_source. apply sim_left. eapply mk_grpint_at; [exact Hw|]. split; [done|]. rewrite Hs.
  eapply sim_right; [by apply (reads_src _ _ _ Hsrc)|]. destruct (s_timer s <=? now); [|apply sim_ret; left; auto].
  apply sim_left. eapply mk_upd; [exact Hw|]. split; [done|]. change (LinkList.listnode_delete (gi_includes gi) k) with (delete k (gi_includes gi)).
  set (gi' := set_includes _ gi). set (w1 := set_groups _ w).
  eapply sim_right; [by apply (reads_entry_at _ _ _ Hp)|].
  destruct (here_delete _ _ _ _ _ _ _ _ Hh Hp Hl Hk Hs) as (h1 & Hrun & Hp1 & Hl1 & Hw1). eapply sim_right; [exact Hrun|].
  specialize (Hw1 w1 eq_refl). fold gi' in Hw1. apply sim_left. eapply mk_grpint_at; [reflexivity|]. split; [done|].
  eapply sim_right; [by apply (reads_is_empty _ _ _ Hl1)|].
  assert (Hem : LinkList.list_isempty (gi_includes gi') = bool_decide (delete k data = [])).
  { unfold gi'. simpl. apply Forall2_length in Hc. pose proof (length_delete data k ltac:(by eexists)) as L1.
    pose proof (length_delete (gi_includes gi) k ltac:(by eexists)) as L2. destruct (delete k (gi_includes gi)), (delete k data); simpl in *; try done; lia. }
  rewrite Hem. destruct (bool_decide (delete k data = [])); [|apply sim_ret; left; auto].
  apply sim_left. eapply mk_remove; [reflexivity|]. split; [done|].
  destruct (here_remove _ _ _ Hw1) as (h2 & Hrun2 & Hp2 & Hw2). eapply sim_right; [exact Hrun2|]. rewrite Hp1 in Hp2.
  eapply sim_right; [by apply (reads_entry_at _ _ _ Hp2)|]. change (gi_ifindex gi') with (gi_ifindex gi). rewrite <-(proj1 He).
  set (w2 := set_groups _ w1). specialize (Hw2 w2 eq_refl). destruct (bool_decide (I1 ++ I2 = []));
    (eapply sim_refresh; [exact Hw2|]); intros w3 Hw3 _; apply sim_ret; auto.
Qed.

Lemma sim_switch gi w h :
  here gi w h ->
  sim (Mld2Logic.mld2_switch_to_include position) (mld2_switch_to_include groups groupn grpintn) w h (fun b w' h' =>
    if b then groups_without w' h' else moved_on w' h').
Proof.
  intros Hh. pose proof (here_world _ _ _ Hh) as Hw. unfold Mld2Logic.mld2_switch_to_include, mld2_switch_to_include.
  apply sim_left. eapply mk_upd; [exact Hw|]. split; [done|]. set (w1 := set_groups _ w).
  destruct (here_mode _ _ _ MLD2_MODE_IS_INCLUDE Hh) as (h1 & Hrun & Hw1). eapply sim_right; [exact Hrun|]. specialize (Hw1 w1 eq_refl).
  apply sim_left. eapply mk_grpint_at; [reflexivity|]. split; [done|].
  destruct (here_entry _ _ _ Hw1) as (e & data & Hp & He & Hl & Hc). eapply sim_right; [by apply (reads_entry_at _ _ _ Hp)|].
  rewrite <-(proj1 He). eapply sim_refresh; [exact Hw1|]. intros w2 Hw2 E2w. pose proof (here_world _ _ _ Hw2) as Hg2.
  apply sim_left. eapply mk_grpint_at; [exact Hg2|]. split; [done|].
  eapply sim_right; [by apply (reads_entry_at _ _ _ Hp)|]. eapply sim_right; [by apply (reads_is_empty _ _ _ Hl)|].
  assert (Hem : LinkList.list_isempty (gi_includes (set_filter_mode MLD2_MODE_IS_INCLUDE gi)) = bool_decide (data = [])).
  { apply Forall2_length in Hc. destruct (gi_includes _), data; done. }
  rewrite Hem. destruct (bool_decide (data = [])); [|apply sim_ret; by eapply here_moved_on].
  apply sim_end. eapply mk_remove; [exact Hg2|]. split; [done|]. destruct (here_remove _ _ _ Hw2) as (h3 & Hrun3 & _ & Hw3).
  exists h3. split; [exact Hrun3|]. specialize (Hw3 (set_groups (removed_groups V1.*1 V2.*1 g I1 I2) w2) eq_refl). destruct (bool_decide (I1 ++ I2 = [])); [done|by apply with_moved_on].
Qed.

Lemma sim_loop_source now k : forall gi w h removed,
  here gi w h -> (k <= length (gi_includes gi))%nat -> removed ≠ 2 ->
  sim (Mld2Logic.expire_loop_source position k now removed) (expire_loop_source groups groupn grpintn k now removed) w h (fun r w' h' =>
    if r =? 2 then groups_without w' h' else moved_on w' h').
Proof.
  induction k as [|k IH]; intros gi w h removed Hh Hk Hr; cbn [Mld2Logic.expire_loop_source expire_loop_source].
  { apply sim_ret. rewrite (proj2 (Z.eqb_neq _ _) Hr). by eapply here_moved_on. }
  apply sim_left. eapply mk_grpint_at; [by eapply here_world|]. split; [done|]. cbv zeta.
  destruct (here_entry _ _ _ Hh) as (e & data & Hp & He & Hl & Hc). pose proof (Forall2_length _ _ _ Hc) as Hlen.
  eapply sim_right; [by apply (reads_entry_at _ _ _ Hp)|]. eapply sim_right; [by apply (reads_list _ _ _ Hl)|]. rewrite Hlen.
  destruct (lookup_lt_is_Some_2 (gi_includes gi) (length (gi_includes gi) - S k)) as [o Ho]; [lia|].
  destruct (Forall2_lookup_r _ _ _ _ _ Hc Ho) as (src & Hsrc & Hcell). rewrite Ho, Hsrc. destruct o as [s|].
  2: { simpl in Hcell. subst src. rewrite Z.eqb_refl. eapply IH; [done|lia|done]. }
  rewrite (proj2 (Z.eqb_neq _ _) (proj1 Hcell)). apply sim_bind. eapply sim_mono; [by eapply sim_expire_source|]. cbv beta.
  intros r w' h' [[-> [Hh'|Hh']]|[[-> Hh']|[-> Hh']]]; simpl Z.eqb; cbv iota.
  - eapply IH; [exact Hh'|lia|done].
  - eapply IH; [exact Hh'| |done]. simpl. rewrite length_delete by (by eexists). lia.
  - apply sim_ret. by apply with_moved_on.
  - by apply sim_ret.
Qed.

Lemma groups_with_reads I E w h : groups_with I E w h ->
  exists l, reads (interfaces_of groupn) h l /\ h !! l = Some (OList E) /\ length E = length I.
Proof.
  intros (_ & _ & hs & x & Hs & -> & _). destruct (groups_focus _ _ _ _ _ _ HD _ _ Hs) as (hg & r & -> & _ & (l & hc & _ & _ & Hn & Hl & Hg & ->) & _).
  simpl in *. assert (l ≠ groupn) by (intros ->; by rewrite lookup_insert_eq in Hg). exists l. split_and!.
  - eapply reads_interfaces. do 2 apply lookup_union_Some_l. apply lookup_insert_eq.
  - do 2 apply lookup_union_Some_l. by rewrite lookup_insert_ne, lookup_insert_eq.
  - by eapply nodes_length.
Qed.
End entry.

(** ** The loops over the entries and the groups *)

Section walk.
Context (now : Z).

Lemma sim_loop_interface groupn D1 D2 V1 V2 g (HD : length D1 = length V1) I2 : forall I1 E1 E2 removed w h,
  length E1 = length I1 -> removed ≠ 2 -> groups_with groupn D1 D2 V1 V2 g (I1 ++ I2) (E1 ++ E2) w h ->
  sim (Mld2Logic.expire_loop_interface (length V1.*1) (length I2) now removed) (expire_loop_interface groups groupn (length I2) now removed) w h
    (fun _ w' h' => groups_without D1 D2 V1 V2 w' h' \/ exists I E, groups_with groupn D1 D2 V1 V2 g I E w' h').
Proof.
  induction I2 as [|gi I2 IH]; intros I1 E1 E2 removed w h HE Hr Hh; cbn [length Mld2Logic.expire_loop_interface expire_loop_interface].
  { apply sim_ret. right. by do 2 eexists. }
  destruct (groups_with_reads groupn D1 D2 V1 V2 HD g _ _ w h Hh) as (l & Hi & Hl & Hlen).
  destruct E2 as [|grpintn E2]; [rewrite !length_app in Hlen; simpl in Hlen; lia|].
  pose proof (groups_with_world _ _ _ _ _ _ _ _ _ _ Hh) as Hw.
  assert (Hnext : forall removed w h, removed ≠ 2 -> moved_on groupn D1 D2 V1 V2 g E2 I2 w h ->
    sim (Mld2Logic.expire_loop_interface (length V1.*1) (length I2) now removed) (expire_loop_interface groups groupn (length I2) now removed) w h
      (fun _ w' h' => groups_without D1 D2 V1 V2 w' h' \/ exists I E, groups_with groupn D1 D2 V1 V2 g I E w' h')).
  { intros r' w' h' Hr' (E1' & I1' & HE' & Hm). by eapply IH. }
  apply sim_left. eapply mk_group_at; [exact Hw|]. split; [done|]. cbv zeta. change (g_interfaces (set_interfaces _ _)) with (I1 ++ gi :: I2).
  replace (length (I1 ++ gi :: I2) - S (length I2))%nat with (length I1) by (rewrite length_app; simpl; lia).
  eapply sim_right; [by apply Hi|]. eapply sim_right; [by apply (reads_list _ _ _ Hl)|].
  rewrite Hlen. replace (length (I1 ++ gi :: I2) - S (length I2))%nat with (length E1) by (rewrite length_app; simpl; lia).
  rewrite (lookup_mid E1). apply sim_left. eapply mk_grpint_at; [exact Hw|]. split; [done|].
  destruct (here_entry groupn D1 D2 V1 V2 HD g grpintn E1 E2 I1 I2 HE gi w h Hh) as (e & data & Hp & He & Hinc & Hc).
  eapply sim_right; [by apply (reads_entry_at _ _ _ Hp)|]. destruct (He) as (_ & Hmode & Htimer). rewrite Hmode, Htimer.
  destruct (gi_filter_mode gi =? MLD2_MODE_IS_INCLUDE).
  - eapply sim_right; [by apply (reads_list _ _ _ Hinc)|]. rewrite (Forall2_length _ _ _ Hc). apply sim_bind.
    eapply sim_mono; [by apply (sim_loop_source groupn D1 D2 V1 V2 HD g grpintn E1 E2 I1 I2 HE now _ gi)|]. cbv beta.
    intros r w' h' Hpost. destruct (r =? 2) eqn:E2r; [apply sim_ret; by left|]. apply Hnext; [by apply Z.eqb_neq|done].
  - destruct (gi_filter_timer gi <=? now).
    + apply sim_bind. eapply sim_mono; [by apply (sim_switch groupn D1 D2 V1 V2 HD g grpintn E1 E2 I1 I2 HE gi)|]. cbv beta.
      intros b w' h' Hpost. destruct b; [apply sim_ret; by left|by apply Hnext].
    + apply Hnext; [done|]. by eapply (here_moved_on groupn D1 D2 V1 V2 g grpintn E1 E2 I1 I2 HE gi).
Qed.

Lemma sim_loop_group V2 : forall D1 D2 V1 w h,
  length D1 = length V1 -> length D2 = length V2 -> holds (D1 ++ D2) (V1 ++ V2) w h ->
  sim (Mld2Logic.expire_loop_group (length V2) now) (expire_loop_group groups (length V2) now) w h
    (fun _ w' h' => exists D V, holds D V w' h').
Proof.
  induction V2 as [|[g E] V2 IH]; intros D1 D2 V1 w h HD HD2 Hh; cbn [length Mld2Logic.expire_loop_group expire_loop_group].
  { apply sim_ret. by do 2 eexists. }
  destruct D2 as [|groupn D2]; [done|]. simpl in HD2. injection HD2 as HD2. pose proof (proj1 Hh) as Hw.
  assert (Hgw : set_interfaces (g_interfaces g) g = g) by (by destruct g).
  apply sim_left, spec_get. split; [done|]. cbv zeta. rewrite Hw, length_fmap.
  replace (length (V1 ++ (g, E) :: V2) - S (length V2))%nat with (length V1.*1) by (rewrite length_fmap, length_app; simpl; lia).
  apply sim_left. eapply group_at_spec; [rewrite Hw, fmap_app; apply lookup_mid|]. split; [done|]. cbn [fst].
  assert (Hl : reads (list_at groups) h (D1 ++ groupn :: D2)).
  { destruct Hh as (_ & _ & hs & x & (hc & _ & _ & ->) & -> & _). apply reads_list, lookup_union_Some_l, lookup_insert_eq. }
  eapply sim_right; [by apply Hl|]. replace (length (D1 ++ groupn :: D2) - S (length V2))%nat with (length D1) by (rewrite length_app; simpl; lia).
  rewrite (lookup_mid D1).
  assert (Hh' : groups_with groupn D1 D2 V1 V2 g ([] ++ g_interfaces g) ([] ++ E) w h) by (unfold groups_with; simpl; by rewrite Hgw).
  destruct (groups_with_reads groupn D1 D2 V1 V2 HD g _ _ w h Hh') as (l & Hi & Hle & Hlen). simpl in Hlen.
  eapply sim_right; [by apply Hi|]. eapply sim_right; [by apply (reads_list _ _ _ Hle)|]. simpl app. rewrite Hlen.
  apply sim_bind. eapply sim_mono; [by apply (sim_loop_interface groupn D1 D2 V1 V2 g HD (g_interfaces g) [] [] E 0)|]. cbv beta.
  intros _ w' h' [Hpost|(I & E' & Hpost)].
  - by apply (IH D1 D2 V1).
  - apply (IH (D1 ++ [groupn]) D2 (V1 ++ [(set_interfaces I g, E')])); [rewrite !length_app; simpl; lia|done|].
    rewrite <-!app_assoc. exact Hpost.
Qed.
End walk.

Lemma sim_expire_sources D V w h : holds D V w h ->
  sim Mld2Logic.expire_sources (expire_sources groups) w h (fun _ w' h' => exists D V, holds D V w' h').
Proof.
  intros Hh. unfold Mld2Logic.expire_sources, expire_sources. apply sim_bind. eapply sim_mono; [apply sim_time|]. cbv beta.
  intros now w' h' [Hw ->]. assert (Hh' : holds D V w' h) by (by eapply holds_same). apply sim_left, spec_get. split; [done|].
  assert (Hl : reads (list_at groups) h D /\ length D = length V).
  { destruct Hh as (_ & _ & hs & x & (hc & Hn & _ & ->) & -> & _). split; [|by eapply nodes_length]. apply reads_list, lookup_union_Some_l, lookup_insert_eq. }
  destruct Hl as [Hl Hlen]. eapply sim_right; [by apply Hl|]. rewrite (proj1 Hh'), length_fmap, Hlen.
  by apply (sim_loop_group now V [] D []).
Qed.
End simulation.

(** * The theorem *)

(** What a command that simulates [m] leaves in memory: the groups of [m]'s state with their entries and sources, what left the lists, and the
    other objects [f] as they were. *)
Lemma sim_result {A} groups os (m : M A) (pm : P A) w hs f gs0 :
  groups_shape groups (w_groups w) hs -> hs ##ₘ f ->
  (forall D V, holds groups (dom (hs ∪ f)) f D V w (hs ∪ f) ->
    sim os m pm w (hs ∪ f) (fun _ w' h' => exists D V, holds groups (dom (hs ∪ f)) f D V w' h')) ->
  spec m os w
    (fun a w' => exists hs' lost gs', pm (hs ∪ f) os (set_groups gs0 w) = Ret (a, hs' ∪ (lost ∪ f)) (set_groups gs' w') /\
      groups_shape groups (w_groups w') hs' /\ hs' ##ₘ lost ∪ f /\ lost ##ₘ f /\ dom (hs' ∪ lost) = dom hs)
    (fun e w' => exists gs', pm (hs ∪ f) os (set_groups gs0 w) = Crash e (set_groups gs' w')).
Proof.
  intros (D & V & HV & Hs)%groups_shape_at Hd Hsim.
  assert (Hh : holds groups (dom (hs ∪ f)) f D V w (hs ∪ f)).
  { split; [done|]. split; [done|]. by exists hs, f. }
  eapply spec_mono; [apply (Hsim D V Hh gs0)| |done]. cbv beta.
  intros a w' (h' & gs' & E & D' & V' & Hw' & Hdom & hs' & x & Hs' & -> & Hd' & Hf).
  assert (Ex : x = (x ∖ f) ∪ f).
  { rewrite (map_union_comm (x ∖ f) f) by (by apply map_disjoint_difference_l1). symmetry. by apply map_difference_union. }
  rewrite Ex in E, Hd', Hdom. exists hs', (x ∖ f), gs'. split_and!; [exact E| |exact Hd'|by apply map_disjoint_difference_l1|].
  - apply groups_shape_at. by exists D', V'.
  - assert (Hdl : x ∖ f ##ₘ f) by (by apply map_disjoint_difference_l1). apply map_disjoint_union_r in Hd' as [Hd1 Hd2].
    apply map_disjoint_dom in Hd, Hdl, Hd1, Hd2. rewrite !dom_union_L in *. set_solver.
Qed.

(** C10: Expiry in memory: from a heap with the list of groups, each with its entries and their sources, and with any other objects [f], when the list
    of kernel routes and every entry's interface are there, [expire_sources] returns without following a pointer to an object that is not there.
    What the pointers then lead to is every group and entry as [expire_entry] has it at the time of the pass; what left the lists, sources, entries
    and groups, is still allocated beside it, for nothing is freed and nothing allocated; and the other objects are as they were. *)
Theorem expire_sources_memory groups os w hs f gs0 :
  groups_shape groups (w_groups w) hs -> hs ##ₘ f -> groups_wf (w_groups w) -> is_Some (w_routes w) -> entries_found w ->
  exists w' hs' lost, expire_sources groups (hs ∪ f) os (set_groups gs0 w) = Ret (tt, hs' ∪ (lost ∪ f)) w' /\
    groups_shape groups (omap (expire_group (os_time os (w_tick w))) (w_groups w)) hs' /\
    hs' ##ₘ lost ∪ f /\ lost ##ₘ f /\ dom (hs' ∪ lost) = dom hs.
Proof.
  intros Hs Hd Hwf Hr Hf. pose proof (sim_result groups os _ _ w hs f gs0 Hs Hd (fun D V => sim_expire_sources groups os _ f D V w _)) as H1. pose proof (expire_pass os w Hwf Hr Hf) as H2.
  unfold spec in *. destruct (Mld2Logic.expire_sources os w) as [[] w'|]; [|done].
  destruct H1 as (hs' & lost & gs' & E & Hs' & Hrest). destruct H2 as (_ & Hg & _). rewrite Hg in Hs'. by exists (set_groups gs' w'), hs', lost.
Qed.

(** A group whose one entry has one source, which ran out at 900. *)
Definition lapsed : world := sample_world [Grpint 2 [Some (Msrc (src 1) 900)] [] 1 0] [] [].
Definition lapsed_entry : pentry := PEntry 2 1 0 20 30.
Definition lapsed_heap : heap :=
  <[4 := OList [5]]> (<[5 := OGroup sample_mca 6 1000 0 0]> (<[6 := OList [10]]> (<[10 := entry_obj lapsed_entry]>
    (<[20 := OList [21]]> (<[21 := OSrc (Msrc (src 1) 900)]> ∅) ∪ <[30 := OList []]> ∅) ∪ ∅)) ∪ ∅).
Lemma lapsed_shape : groups_shape 4 (w_groups lapsed) lapsed_heap.
Proof.
  eexists [5], _. split_and!; [| |reflexivity]; [|vm_compute; reflexivity]. simpl w_groups. constructor; [|apply map_disjoint_empty_r|constructor].
  eexists 6, [10], _. split_and!; [done|done| | | |reflexivity]; [|vm_compute; reflexivity..]. simpl g_interfaces. constructor; [|apply map_disjoint_empty_r|constructor].
  eexists lapsed_entry, _, _. split_and!; [done|done|by apply (sample_one_source 20 21)| | | |reflexivity]; [|apply map_disjoint_dom, (bool_decide_unpack _); by vm_compute|vm_compute; reflexivity].
  exists [], ∅. split_and!; [done|done|constructor|done].
Qed.
Lemma lapsed_disjoint : lapsed_heap ##ₘ {[99 := OSrc (Msrc (src 2) 0)]}.
Proof. apply map_disjoint_dom, (bool_decide_unpack _). by vm_compute. Qed.
Lemma expire_sources_memory_witness : exists w' hs' lost,
  expire_sources 4 (lapsed_heap ∪ {[99 := OSrc (Msrc (src 2) 0)]}) sample_os lapsed = Ret (tt, hs' ∪ (lost ∪ {[99 := OSrc (Msrc (src 2) 0)]})) w' /\
  groups_shape 4 [] hs' /\ dom (hs' ∪ lost) = dom lapsed_heap.
Proof.
  destruct (expire_sources_memory 4 sample_os lapsed lapsed_heap {[99 := OSrc (Msrc (src 2) 0)]} (w_groups lapsed) lapsed_shape) as (w' & hs' & lost & E & Hs & _ & _ & Hd).
  - exact lapsed_disjoint.
  - apply sample_groups_wf; [apply (bool_decide_unpack _); by vm_compute|]. apply Forall_singleton.
    split; [by left| | |simpl; lia]; apply (bool_decide_unpack _); by vm_compute.
  - by eexists.
  - apply Forall_singleton, Forall_singleton. split; [simpl; lia|]. eexists; split; [reflexivity|done].
  - exists w', hs', lost. exact (conj E (conj Hs Hd)).
Defined.
