(* ===== verification/Filter.v ===== *)
(** The packet filter that [main] of [src/ecmh.c] attaches to the packet socket: the array [bpf], the machine
    that runs it, and what it lets through. *)

From S2P Require Import Prelude.
#[local] Open Scope Z_scope.

(** * Definitions *)

(** [struct sock_filter]: a code, the jumps taken when a test succeeds and when it fails, and an operand. *)
Record sock_filter := SockFilter { sf_code : Z; sf_jt : nat; sf_jf : nat; sf_k : Z }.

Definition bpf : list sock_filter := [
  SockFilter 0x28 0 0 0x0000000c;
  SockFilter 0x15 0 8 0x000086dd;
  SockFilter 0x30 0 0 0x00000000;
  SockFilter 0x45 0 6 0x00000001;
  SockFilter 0x30 0 0 0x00000014;
  SockFilter 0x15 4 0 0x00000011;
  SockFilter 0x15 0 2 0x0000002c;
  SockFilter 0x30 0 0 0x00000036;
  SockFilter 0x15 1 0 0x00000011;
  SockFilter 0x6 0 0 0x0000ffff;
  SockFilter 0x6 0 0 0x00000000].

(** The instructions of the filter language that the array uses: load two bytes or one at an offset of the frame into
    the accumulator, compare it with the operand or test its bits, return the number of bytes to keep. *)
Inductive insn :=
| LoadHalf (k : Z) | LoadByte (k : Z) | JumpEq (k : Z) (jt jf : nat) | JumpSet (k : Z) (jt jf : nat) | Return (k : Z).

Definition decode (i : sock_filter) : option insn :=
  match sf_code i with
  | 0x28 => Some (LoadHalf (sf_k i))
  | 0x30 => Some (LoadByte (sf_k i))
  | 0x15 => Some (JumpEq (sf_k i) (sf_jt i) (sf_jf i))
  | 0x45 => Some (JumpSet (sf_k i) (sf_jt i) (sf_jf i))
  | 0x6 => Some (Return (sf_k i))
  | _ => None
  end.

(** Bytes of the frame; there may be none at an offset. *)
Definition byte_at (frame : list Z) (k : Z) : option Z := frame !! Z.to_nat k.
Definition half_at (frame : list Z) (k : Z) : option Z :=
  hi ← byte_at frame k; lo ← byte_at frame (k + 1); Some (256 * hi + lo).

(** The machine on what is left of a program. A load beyond the frame ends the program with 0, which drops the frame;
    [None]: an unknown instruction, or the program is left without a return. A jump skips instructions, so the
    length of the program is enough fuel ([filter_run_checked]). *)
Fixpoint filter_run (fuel : nat) (prog : list sock_filter) (frame : list Z) (acc : Z) : option Z :=
  match fuel, prog with
  | S fuel, i :: rest =>
    insn ← decode i;
    match insn with
    | LoadHalf k => match half_at frame k with Some acc => filter_run fuel rest frame acc | None => Some 0 end
    | LoadByte k => match byte_at frame k with Some acc => filter_run fuel rest frame acc | None => Some 0 end
    | JumpEq k jt jf => filter_run fuel (drop (if acc =? k then jt else jf) rest) frame acc
    | JumpSet k jt jf => filter_run fuel (drop (if negb (Z.land acc k =? 0) then jt else jf) rest) frame acc
    | Return k => Some k
    end
  | _, _ => None
  end.
Definition run_filter (prog : list sock_filter) (frame : list Z) : option Z := filter_run (length prog) prog frame 0.

(** What the kernel asks of a program: known instructions, jumps that stay inside, and a return at the end. *)
Fixpoint checked (prog : list sock_filter) : bool :=
  match prog with
  | [] => false
  | i :: rest =>
    match decode i with
    | None => false
    | Some (JumpEq _ jt jf | JumpSet _ jt jf) => (jt <? length rest)%nat && (jf <? length rest)%nat && checked rest
    | Some (Return _) => bool_decide (rest = []) || checked rest
    | Some _ => checked rest
    end
  end.

(** ** What the filter is for *)

(** The comment above the array: IPv6, and a multicast Ethernet address. *)
Definition ip6_and_multicast (frame : list Z) : bool :=
  bool_decide (half_at frame 12 = Some 0x86dd) && match byte_at frame 0 with Some b => Z.odd b | None => false end.

Definition IPPROTO_UDP : Z := 17.
Definition IPPROTO_FRAGMENT : Z := 44.

(** The next header of the IPv6 header, and the one of a fragment header that follows it. *)
Definition next_header (frame : list Z) : option Z := byte_at frame 20.
Definition fragment_next_header (frame : list Z) : option Z := byte_at frame 54.

(** A next header that is there, is not UDP, and is not a fragment header with UDP, or nothing, behind it. *)
Definition not_udp (frame : list Z) : bool :=
  match next_header frame with
  | None => false
  | Some nxt =>
    if nxt =? IPPROTO_UDP then false
    else if nxt =? IPPROTO_FRAGMENT then match fragment_next_header frame with Some nxt => negb (nxt =? IPPROTO_UDP) | None => false end
    else true
  end.

(** * Facts *)

(** A program the kernel accepts returns on every frame. *)
Lemma checked_drop n : forall prog, checked prog = true -> (n < length prog)%nat -> checked (drop n prog) = true.
Proof.
  induction n as [|n IH]; intros [|i rest]; simpl; [done|done|done|]. intros Hc Hn. apply IH; [|lia].
  destruct (decode i) as [[]|]; zify_bool; try done.
  apply orb_prop in Hc as [->%bool_decide_eq_true|?]; [simpl in Hn; lia|done].
Qed.

Lemma filter_run_checked frame fuel : forall prog acc,
  checked prog = true -> (length prog <= fuel)%nat -> is_Some (filter_run fuel prog frame acc).
Proof.
  induction fuel as [|fuel IH]; intros [|i rest] acc; simpl; [done|lia|done|]. intros Hc Hf.
  destruct (decode i) as [[k|k|k jt jf|k jt jf|k]|]; simpl; [| | | |by eexists|done].
  1-2: case_match; [apply IH; [done|lia]|by eexists].
  all: zify_bool; repeat match goal with H : (_ <? _)%nat = true |- _ => apply Nat.ltb_lt in H end.
  all: apply IH; [apply checked_drop; [done|by case_match]|rewrite length_drop; lia].
Qed.

Lemma filter_returns prog frame : checked prog = true -> is_Some (run_filter prog frame).
Proof. intros Hc. by apply filter_run_checked. Qed.

Lemma land_1 b : negb (Z.land b 1 =? 0) = Z.odd b.
Proof.
  change 1 with (Z.ones 1). rewrite Z.land_ones by lia. change (2 ^ 1) with 2. rewrite Zmod_odd. by destruct (Z.odd b).
Qed.

(** One rule per instruction. *)
Section rules.
Context (fuel : nat) (rest : list sock_filter) (frame : list Z) (acc k : Z) (jt jf : nat).
Lemma run_ldh : filter_run (S fuel) (SockFilter 0x28 jt jf k :: rest) frame acc =
  match half_at frame k with Some acc => filter_run fuel rest frame acc | None => Some 0 end.
Proof. done. Qed.
Lemma run_ldb : filter_run (S fuel) (SockFilter 0x30 jt jf k :: rest) frame acc =
  match byte_at frame k with Some acc => filter_run fuel rest frame acc | None => Some 0 end.
Proof. done. Qed.
Lemma run_jeq : filter_run (S fuel) (SockFilter 0x15 jt jf k :: rest) frame acc =
  filter_run fuel (if acc =? k then drop jt rest else drop jf rest) frame acc.
Proof. simpl. by destruct (acc =? k). Qed.
Lemma run_jset : filter_run (S fuel) (SockFilter 0x45 jt jf k :: rest) frame acc =
  filter_run fuel (if negb (Z.land acc k =? 0) then drop jt rest else drop jf rest) frame acc.
Proof. simpl. by destruct (negb _). Qed.
Lemma run_ret : filter_run (S fuel) (SockFilter 0x6 jt jf k :: rest) frame acc = Some k.
Proof. done. Qed.
End rules.

(** An instruction is executed, its test decided; what is behind a jump is what it skips to. *)
Ltac run_insn :=
  first [rewrite run_ldh | rewrite run_ldb | rewrite run_jeq | rewrite run_jset | rewrite run_ret]; cbn [drop].

Lemma bpf_run frame : run_filter bpf frame = Some (if ip6_and_multicast frame && not_udp frame then 0xffff else 0).
Proof.
  unfold run_filter, ip6_and_multicast, not_udp, next_header, fragment_next_header, IPPROTO_UDP, IPPROTO_FRAGMENT.
  change (length bpf) with 11%nat. unfold bpf. run_insn. destruct (half_at frame 12) as [t|]; [|done]. run_insn. destruct (t =? 0x86dd) eqn:Et; zify_bool.
  2: { rewrite bool_decide_false by congruence. by run_insn. }
  subst t. rewrite bool_decide_true by done. run_insn. destruct (byte_at frame 0) as [b|]; [|done]. run_insn.
  rewrite land_1. destruct (Z.odd b); [|by run_insn]. run_insn. destruct (byte_at frame 20) as [nxt|]; [|done]. run_insn.
  destruct (nxt =? 17); [by run_insn|]. run_insn. destruct (nxt =? 44); [|by run_insn]. run_insn.
  destruct (byte_at frame 54) as [p|]; [|done]. run_insn. destruct (p =? 17); by run_insn.
Qed.

(** C31: The filter returns on every frame. It keeps exactly the frames the comment above it asks for, IPv6 with a multicast Ethernet
    address, except UDP: a frame whose next header is UDP, at once or behind a fragment header, is dropped. *)
Theorem bpf_keeps frame : run_filter bpf frame = Some (if ip6_and_multicast frame && not_udp frame then 0xffff else 0).
Proof. apply bpf_run. Qed.
