(* ===== verification/Packet.v ===== *)
(** The receive path of [src/ecmh.c]: [l2_ethtype], [l3_ipv4], [l3_ipv6],
    [l4_ipv6_icmpv6] and the MLD messages, and the forwarding of multicast packets.

    A packet is a region of the receive buffer; the pointers [iph], [icmpv6], [mld1],
    [grec], ... are offsets in it, and a read or write beyond the buffer faults. *)

From S2P Require Import Names Prelude Checksum LinkList Msrc World Interfaces Send Groups Routing Mld2Logic.
#[local] Open Scope Z_scope.

Definition ETH_P_IP : Z := 2048.
Definition ETH_P_IPV6 : Z := 34525.
Definition IPPROTO_ROUTING : Z := 43.
Definition IPPROTO_AH : Z := 51.
Definition IPPROTO_DSTOPTS : Z := 60.
Definition ICMP6_TIME_EXCEED_TRANSIT : Z := 0.
(** The sizes of [struct ip6_hdr], [mld1], [mld2_report] and [mld2_grec]. *)
Definition sizeof_ip6_hdr : Z := 40.
Definition sizeof_mld1 : Z := 24.
Definition sizeof_mld2_report : Z := 8.
Definition sizeof_mld2_grec : Z := 20.

(** * IPv4: the checks, and nothing after them in this build *)

Definition ipv4_6to4_relay : list Z := [192; 88; 99; 1].

Definition l3_ipv4 (intn : nat) (iph len : Z) : M unit :=
  vhl ← load8 iph;
  if negb (Z.shiftr vhl 4 =? 4) then mret tt
  else if Z.land vhl 15 <? 5 then mret tt
  else
    _ ← load16 (iph + 2);
    src ← load (iph + 12) 4;
    _ ← load (iph + 16) 4;
    if bool_decide (src = ipv4_6to4_relay) then mret tt else mret tt.

(** * MLD messages *)

Definition mld1_report (intn : nat) (mld1 : Z) : M unit :=
  _ ← int_set_mld_version intn 1;
  mca ← load (mld1 + 8) 16;
  if unroutable_mca mca then mret tt
  else
    got ← groupint_get mca intn;
    match got.1 with
    | None => mret tt
    | Some grpintn =>
      match grpint_refresh grpintn in6addr_any MLD2_MODE_IS_INCLUDE with
      | None => mret tt
      | Some _ => when got.2 (mld_send_report_all intn mca)
      end
    end.

(** What follows the lookups is compiled out ([#if 0]). *)
Definition mld1_reduction (intn : nat) (mld1 : Z) : M unit :=
  _ ← int_set_mld_version intn 1;
  mca ← load (mld1 + 8) 16;
  if unroutable_mca mca then mret tt
  else
    g ← group_find mca;
    match g with
    | None => mret tt
    | Some g =>
      groupn ← group_at g;
      n ← int_at intn;
      match grpint_find (g_interfaces groupn) (i_ifindex n) with
      | None => mret tt
      | Some _ => mret tt
      end
    end.

Definition is_known_grec_type (grec_type : Z) : bool :=
  (grec_type =? MLD2_MODE_IS_INCLUDE) || (grec_type =? MLD2_MODE_IS_EXCLUDE) ||
  (grec_type =? MLD2_CHANGE_TO_INCLUDE) || (grec_type =? MLD2_CHANGE_TO_EXCLUDE) ||
  (grec_type =? MLD2_ALLOW_NEW_SOURCES) || (grec_type =? MLD2_BLOCK_OLD_SOURCES).

(** The source addresses of a group record: [nsrcs] of them from [src]. *)
Fixpoint load_addrs (src : Z) (nsrcs : nat) : M (list in6_addr) :=
  match nsrcs with
  | O => mret []
  | S nsrcs => a ← load src 16; l ← load_addrs (src + 16) nsrcs; mret (a :: l)
  end.

(** The name of a record type, for the log message of a [DEBUG] build. *)
Definition name_grec (type : Z) : M unit := named (Names.lookup (Some mld2_grec_types) type).

(** The loop over the group records; the result is [handle_upstream]. The checks are those of
    the code in its order: the address of a record is read before the record is known to be
    inside the packet, and the auxiliary data is skipped as bytes. *)
Fixpoint mld2_grecs (intn : nat) (mld2r plen : Z) (ngrec : nat) (grec : Z) (handle_upstream : bool) : M bool :=
  match ngrec with
  | O => mret handle_upstream
  | S ngrec =>
    mca ← load (grec + 4) 16;
    if IN6_IS_ADDR_MC_NODELOCAL mca || IN6_IS_ADDR_MC_LINKLOCAL mca then mret handle_upstream
    else if mld2r + plen <? grec then mret handle_upstream
    else
      nsrcs ← load16 (grec + 2);
      let src := grec + sizeof_mld2_grec in
      type ← load8 grec;
      _ ← name_grec type;
      if negb (is_known_grec_type type) then mret handle_upstream
      else if (0 <? nsrcs) && (plen <? src - mld2r + nsrcs * 16) then mret handle_upstream
      else
        srcs ← load_addrs src (Z.to_nat nsrcs);
        destroyed ← handle_downstream_subscription intn (mrec_add_addrs (mrec_create mca type) srcs);
        (* mrec_destroy of a record that is gone already *)
        _ ← (if (destroyed : bool) then crash DoubleFree else mret tt);
        auxwords ← load8 (grec + 1);
        mld2_grecs intn mld2r plen ngrec (src + nsrcs * 16 + auxwords) true
  end.

Definition mld2_report (intn : nat) (mld2r plen : Z) : M unit :=
  ngrec ← load16 (mld2r + 6);
  _ ← int_set_mld_version intn 2;
  if plen <? sizeof_mld2_report + ngrec * sizeof_mld2_grec then mret tt
  else
    handle_upstream ← mld2_grecs intn mld2r plen (Z.to_nat ngrec) (mld2r + sizeof_mld2_report) false;
    when handle_upstream
      (_ ← handle_upstream_subscription (Some intn);
       w ← get;
       expire_routes (w_mr6_fd w)).

Definition mld_query (intn : nat) (plen : Z) : M unit :=
  _ ← int_set_mld_version intn (if plen =? sizeof_mld1 then 1 else 2);
  w ← get;
  n ← int_at intn;
  let cfg := w_cfg w in
  if negb (c_mld2only cfg) && (c_mld1only cfg || (i_mld_version n =? 0) || (i_mld_version n =? 1)) then
    for_each (w_groups w) (fun groupn =>
      for_each (g_interfaces groupn) (fun grpintn =>
        n ← int_at intn;
        when (gi_ifindex grpintn =? i_ifindex n) (mld_send_report intn (g_mca groupn))))
  else if negb (c_mld1only cfg) && (c_mld2only cfg || (i_mld_version n =? 2)) then mld2_send_report intn None
  else mret tt.

(** * Forwarding *)

(** The filter of [l4_ipv6_multicast]. *)
Definition not_forwarded (src dst : in6_addr) : bool :=
  IN6_IS_ADDR_MULTICAST src || IN6_IS_ADDR_UNSPECIFIED src || IN6_IS_ADDR_UNSPECIFIED dst ||
  IN6_IS_ADDR_LINKLOCAL src || IN6_IS_ADDR_MC_NODELOCAL dst || IN6_IS_ADDR_MC_LINKLOCAL dst.

(** The interfaces of the group; [k] counts from the end as in [expire_sources]. The loop is
    left after the first transmission, which reads the header of the packet and its [len] bytes. *)
Fixpoint multicast_loop (intn : nat) (iph len : Z) (src : in6_addr) (g : nat) (k : nat) : M unit :=
  match k with
  | O => mret tt
  | S k' =>
    let continue := multicast_loop intn iph len src g k' in
    groupn ← group_at g;
    let p := (g, (length (g_interfaces groupn) - k)%nat) in
    grpintn ← grpint_at p;
    n ← int_at intn;
    let forward :=
      interface ← int_find (gi_ifindex grpintn);
      match interface with
      | None => continue
      | Some interface => packet ← load iph (Z.max len sizeof_ip6_hdr); sendpacket6 interface packet len
      end in
    if i_ifindex n =? gi_ifindex grpintn then continue
    else if gi_filter_mode grpintn =? MLD2_MODE_IS_INCLUDE then
      match src_hasmember (gi_includes grpintn) src with
      | None => continue
      | Some s =>
        now ← time;
        lastgroup ← expire_source p s now;
        if negb (lastgroup =? 0) then mret tt else forward
      end
    else
      now ← time;
      if gi_filter_timer grpintn <=? now then
        lastgroup ← mld2_switch_to_include p;
        if (lastgroup : bool) then mret tt else continue
      else if negb (list_isempty (gi_excludes grpintn)) && (if src_hasmember (gi_excludes grpintn) src then true else false)
      then continue
      else forward
  end.

Definition l4_ipv6_multicast (intn : nat) (iph len : Z) : M unit :=
  src ← load (iph + 8) 16;
  dst ← load (iph + 24) 16;
  if not_forwarded src dst then mret tt
  else
    g ← group_find dst;
    match g with
    | None => mret tt
    | Some g =>
      _ ← upd_group g (count_group len);
      groupn ← group_at g;
      multicast_loop intn iph len src g (length (g_interfaces groupn))
    end.

(** * ICMPv6 *)

Definition handled_icmp6_type (t : Z) : bool :=
  (t =? MLD_LISTENER_REPORT) || (t =? MLD_LISTENER_REDUCTION) || (t =? ICMP6_V2_MEMBERSHIP_REPORT) ||
  (t =? ICMP6_V2_MEMBERSHIP_REPORT_EXP) || (t =? MLD_LISTENER_QUERY) || (t =? ICMP6_ECHO_REQUEST).

(** The hop limit, decremented when it is not zero; the new value is returned. *)
Definition decrease_hlim (iph : Z) : M Z :=
  hlim ← load8 (iph + 7);
  _ ← when (0 <? hlim) (store8 (iph + 7) (hlim - 1));
  load8 (iph + 7).

(** The checksum field is cleared, recomputed and overwritten; a mismatch is only logged. *)
Definition recompute_checksum (iph icmpv6 plen : Z) : M unit :=
  _ ← load (icmpv6 + 2) 2;
  _ ← store8 (icmpv6 + 2) 0;
  _ ← store8 (icmpv6 + 3) 0;
  src_dst ← load (iph + 8) 32;
  data ← load icmpv6 plen;
  let csum := ipv6_checksum src_dst IPPROTO_ICMPV6 data in
  _ ← store8 (icmpv6 + 2) (csum mod 256);
  store8 (icmpv6 + 3) (csum / 256).

Definition mld_message (intn : nat) (type icmpv6 plen : Z) : M unit :=
  if type =? MLD_LISTENER_REPORT then mld1_report intn icmpv6
  else if type =? MLD_LISTENER_REDUCTION then mld1_reduction intn icmpv6
  else if (type =? ICMP6_V2_MEMBERSHIP_REPORT) || (type =? ICMP6_V2_MEMBERSHIP_REPORT_EXP) then
    mld2_report intn icmpv6 plen
  else if type =? MLD_LISTENER_QUERY then mld_query intn plen
  else mret tt.

(** The names of the type and the code of a received message, for a log message. *)
Definition name_received (icmpv6 type : Z) : M unit := code ← load8 (icmpv6 + 1); name_icmpv6 type code.

Definition l4_ipv6_icmpv6 (intn : nat) (iph len icmpv6 plen : Z) : M unit :=
  _ ← modify (set_stat count_icmp_received);
  _ ← upd_int intn (set_int_stat count_icmp_received);
  type ← load8 icmpv6;
  if negb (handled_icmp6_type type) then name_received icmpv6 type
  else
    _ ← recompute_checksum iph icmpv6 plen;
    _ ← name_received icmpv6 type;
    if type =? ICMP6_ECHO_REQUEST then
      hlim ← decrease_hlim iph;
      if hlim =? 0 then
        _ ← modify (fun w => set_hlim_exceeded (u64 (w_hlim_exceeded w + 1)) w);
        src ← load (iph + 8) 16;
        icmp6_send intn src ICMP6_ECHO_REPLY ICMP6_TIME_EXCEED_TRANSIT (icmpv6 + 4) (u32 (plen - 8 + 4))
      else l4_ipv6_multicast intn iph len
    else
      src ← load (iph + 8) 16;
      if negb (IN6_IS_ADDR_LINKLOCAL src) then mret tt
      else mld_message intn type icmpv6 plen.

(** * IPv6 *)

Definition is_extension (t : Z) : bool :=
  (t =? IPPROTO_HOPOPTS) || (t =? IPPROTO_ROUTING) || (t =? IPPROTO_DSTOPTS) || (t =? IPPROTO_AH).

(** The loop over the extension headers: [None] when the chain leaves the packet. Each
    round moves [ipe] forward by 8 bytes at least and none starts beyond the packet, so
    [len/8 + 1] rounds are enough ([skip_headers_fuel]). *)
Fixpoint skip_headers (fuel : nat) (iph len ipe_type ipe plen : Z) : M (option (Z * Z * Z)) :=
  if negb (is_extension ipe_type) then mret (Some (ipe_type, ipe, plen))
  else
    match fuel with
    | O => mret None
    | S fuel =>
      nxt ← load8 ipe;
      hdrlen ← load8 (ipe + 1);
      let l := hdrlen * 8 + 8 in
      if iph + len <? ipe + l then mret None
      else skip_headers fuel iph len nxt (ipe + l) (u16 (plen - l))
    end.
Definition headers_fuel (len : Z) : nat := Z.to_nat (len / 8 + 1).

Definition l3_ipv6 (intn : nat) (iph len : Z) : M unit :=
  dst ← load (iph + 24) 16;
  if negb (IN6_IS_ADDR_MULTICAST dst) then mret tt
  else
    n ← int_at intn;
    src ← load (iph + 8) 16;
    if bool_decide (src = i_linklocal n) || bool_decide (src = i_global n) then mret tt
    else
      nxt ← load8 (iph + 6);
      plen ← load16 (iph + 4);
      r ← skip_headers (headers_fuel len) iph len nxt (iph + sizeof_ip6_hdr) plen;
      match (r : option (Z * Z * Z)) with
      | None => mret tt
      | Some (ipe_type, ipe, plen) =>
        if ipe_type =? IPPROTO_ICMPV6 then l4_ipv6_icmpv6 intn iph len ipe plen
        else if IN6_IS_ADDR_MULTICAST dst then
          hlim ← decrease_hlim iph;
          if hlim =? 0 then modify (fun w => set_hlim_exceeded (u64 (w_hlim_exceeded w + 1)) w)
          else l4_ipv6_multicast intn iph len
        else mret tt
      end.

(** [len] becomes a [uint16_t]. *)
Definition l2_ethtype (intn : nat) (packet len ether_type : Z) : M unit :=
  if ether_type =? ETH_P_IP then l3_ipv4 intn packet (u16 len)
  else if ether_type =? ETH_P_IPV6 then l3_ipv6 intn packet (u16 len)
  else mret tt.
