(* ===== verification/MemoryForward.v ===== *)
(** Forwarding on pointers: [l4_ipv6_multicast] of [src/ecmh.c], with [group_find] of [src/groups.c], on the objects of [Memory], and its
    simulation of [Packet.l4_ipv6_multicast]. *)

From S2P Require Import Prelude LinkList Msrc World Interfaces Send Groups Samples Routing Mld2Logic Blind Mld2Expire Memory MemoryFacts MemoryRefine MemoryRecords MemoryDestroy MemoryExpire MemoryWalk Packet.
#[local] Open Scope Z_scope.
#[local] Arguments Z.eqb : simpl never.

(** * Definitions *)

(** The loop of [list_hasmember] with [msrc_cmp] for an address in the receive buffer. *)
Fixpoint member_loop (src : in6_addr) (data : list Z) : P Z :=
  match data with
  | [] => mret 0
  | d :: data =>
    if d =? 0 then member_loop src data
    else s ← src_at d; if msrc_cmp s (Msrc src 0) then mret d else member_loop src data
  end.
Definition src_hasmember (l : Z) (src : in6_addr) : P Z := data ← list_at l; member_loop src data.

Definition mca_of (groupn : Z) : P in6_addr := o ← obj_at groupn; match o with OGroup mca _ _ _ _ => mret mca | _ => pcrash NullDeref end.
Fixpoint group_find_loop (mca : in6_addr) (data : list Z) : P Z :=
  match data with
  | [] => mret 0
  | groupn :: data =>
    if groupn =? 0 then group_find_loop mca data
    else g_mca ← mca_of groupn; if IN6_ARE_ADDR_EQUAL mca g_mca then mret groupn else group_find_loop mca data
  end.

(** Some fields of a group are changed; its list of entries is not. *)
Definition upd_fields (groupn : Z) (f : groupnode -> groupnode) : P unit :=
  o ← obj_at groupn;
  match o with
  | OGroup mca l lastforward bytes packets => set_obj groupn (group_obj (f (Group mca [] lastforward bytes packets)) l)
  | _ => pcrash NullDeref
  end.
(** [groupn->bytes+=len; groupn->packets++;] *)
Definition count_packet (groupn len : Z) : P unit := upd_fields groupn (count_group len).

(** [groups] is [g_conf->groups]. *)
Section code.
Context (groups : Z).

Definition group_find (mca : in6_addr) : P Z := data ← list_at groups; group_find_loop mca data.

(** [k] counts the nodes from the current one to the end. *)
Fixpoint multicast_loop (intn : nat) (iph len : Z) (src : in6_addr) (groupn : Z) (k : nat) : P unit :=
  match k with
  | O => mret tt
  | S k' =>
    let continue := multicast_loop intn iph len src groupn k' in
    interfaces ← interfaces_of groupn;
    data ← list_at interfaces;
    match data !! (length data - k)%nat with
    | None => pcrash OutOfBounds
    | Some grpintn =>
      let forward :=
        e ← entry_at grpintn;
        interface ← lift (int_find (e_ifindex e));
        match interface with
        | None => continue
        | Some interface => packet ← lift (load iph (Z.max len sizeof_ip6_hdr)); lift (sendpacket6 interface packet len)
        end in
      e ← entry_at grpintn;
      n ← lift (int_at intn);
      if i_ifindex n =? e_ifindex e then continue
      else if e_mode e =? MLD2_MODE_IS_INCLUDE then
        s ← src_hasmember (e_includes e) src;
        if s =? 0 then continue
        else
          now ← lift time;
          lastgroup ← expire_source groups groupn grpintn s now;
          if negb (lastgroup =? 0) then mret tt else forward
      else
        now ← lift time;
        if e_timer e <=? now then
          lastgroup ← mld2_switch_to_include groups groupn grpintn;
          if (lastgroup : bool) then mret tt else continue
        else
          empty ← is_empty (e_excludes e);
          if (empty : bool) then forward
          else
            s ← src_hasmember (e_excludes e) src;
            if s =? 0 then forward else continue
    end
  end.

Definition l4_ipv6_multicast (intn : nat) (iph len : Z) : P unit :=
  src ← lift (load (iph + 8) 16);
  dst ← lift (load (iph + 24) 16);
  if not_forwarded src dst then mret tt
  else
    groupn ← group_find dst;
    if groupn =? 0 then mret tt
    else
      _ ← count_packet groupn len;
      interfaces ← interfaces_of groupn;
      entries ← list_at interfaces;
      multicast_loop intn iph len src groupn (length entries).
End code.

(** * Reading *)

Lemma reads_member h src data vs : Forall2 (cell h) data vs ->
  exists p, reads (member_loop src data) h p /\
    match Msrc.src_hasmember vs src with
    | Some k => p ≠ 0 /\ data !! k = Some p /\ exists s, vs !! k = Some (Some s)
    | None => p = 0
    end.
Proof.
  unfold Msrc.src_hasmember, LinkList.list_hasmember. induction 1 as [|d o data vs Hd _ (p & Hr & Hp)]; [exists 0; split; [apply reads_ret|done]|].
  cbn [member_loop find_idx]. destruct o as [s|].
  2: { simpl in Hd. subst d. exists p. split; [exact Hr|]. by destruct (find_idx _ vs). }
  destruct Hd as [Hd Hs]. rewrite (proj2 (Z.eqb_neq _ _) Hd). destruct (msrc_cmp s (Msrc src 0)) eqn:Hc.
  - exists d. split; [eapply reads_bind; [by apply reads_src|]; rewrite Hc; apply reads_ret|]. split_and!; [done..|]. by exists s.
  - exists p. split; [eapply reads_bind; [by apply reads_src|]; by rewrite Hc|]. by destruct (find_idx _ vs).
Qed.
Lemma reads_src_hasmember h l src data vs : h !! l = Some (OList data) -> Forall2 (cell h) data vs ->
  exists p, reads (src_hasmember l src) h p /\
    match Msrc.src_hasmember vs src with
    | Some k => p ≠ 0 /\ data !! k = Some p /\ exists s, vs !! k = Some (Some s)
    | None => p = 0
    end.
Proof. intros Hl (p & Hr & Hp)%(reads_member h src). exists p. split; [|exact Hp]. by eapply reads_bind; [by apply reads_list|]. Qed.

Lemma group_shape_reads groupn v h : group_at_shape groupn v h -> groupn ≠ 0 /\ reads (mca_of groupn) h (g_mca v.1).
Proof.
  intros (l & hc & Hg & _ & _ & _ & _ & ->). split; [done|]. eapply reads_bind; [apply reads_obj, lookup_insert_eq|apply reads_ret].
Qed.
Lemma reads_group_find groups mca D V h : groups_at groups D V h ->
  exists p, reads (group_find groups mca) h p /\
    match find_idx (fun g => IN6_ARE_ADDR_EQUAL mca (g_mca g)) V.*1 with Some j => p ≠ 0 /\ D !! j = Some p | None => p = 0 end.
Proof.
  intros (hc & Hn & Hl & ->).
  assert (H : exists p, reads (group_find_loop mca D) hc p /\
    match find_idx (fun g => IN6_ARE_ADDR_EQUAL mca (g_mca g)) V.*1 with Some j => p ≠ 0 /\ D !! j = Some p | None => p = 0 end).
  { clear Hl. induction Hn as [|d v D V h1 h2 Hd Hh Hn (p & Hr & Hp)]; [exists 0; split; [apply reads_ret|done]|].
    destruct (group_shape_reads _ _ _ Hd) as [Hd0 Hm]. cbn [group_find_loop]. csimpl. rewrite (proj2 (Z.eqb_neq _ _) Hd0).
    assert (Hm' : reads (mca_of d) (h1 ∪ h2) (g_mca v.1)) by (eapply reads_mono; [exact Hm|by apply map_union_subseteq_l]).
    destruct (IN6_ARE_ADDR_EQUAL mca (g_mca v.1)) eqn:E.
    - exists d. split; [eapply reads_bind; [exact Hm'|]; rewrite E; apply reads_ret|done].
    - exists p. split; [eapply reads_bind; [exact Hm'|]; rewrite E; eapply reads_mono; [exact Hr|by apply map_union_subseteq_r]|].
      by destruct (find_idx _ _). }
  destruct H as (p & Hr & Hp). exists p. split; [|exact Hp]. eapply reads_bind; [apply reads_list, lookup_insert_eq|].
  eapply reads_mono; [exact Hr|by apply insert_subseteq].
Qed.

(** * The simulation *)

Section forward.
Context (groups : Z) (os : OS) (d : gset Z) (f : heap).
#[local] Notation holds := (holds groups d f).
#[local] Notation sim := (sim os).

Lemma sim_blind {A} (m : M A) w h : blind m -> sim m (lift m) w h (fun _ w' h' => w_groups w' = w_groups w /\ h' = h).
Proof.
  intros Hb gs0. pose proof (Hb os w (w_groups w)) as E. replace (set_groups (w_groups w) w) with w in E by (by destruct w).
  unfold spec, lift, mbind, M_bind. rewrite Hb. destruct (m os w) as [a w'|e w'].
  - exists h, gs0. split; [done|]. split; [|done]. injection E as E. by rewrite E.
  - by exists gs0.
Qed.
Lemma sim_blind_bind {A B} (m : M A) (k : A -> M B) (pk : A -> P B) D V w h (Q : B -> world -> heap -> Prop) :
  blind m -> holds D V w h -> (forall a w', holds D V w' h -> w_groups w' = w_groups w -> sim (k a) (pk a) w' h Q) -> sim (m ≫= k) (lift m ≫= pk) w h Q.
Proof.
  intros Hb Hh Hk. apply sim_bind. eapply sim_mono; [by apply sim_blind|]. cbv beta. intros a w' h' [Hw ->].
  apply Hk; [by eapply holds_same|done].
Qed.
Lemma holds_find D V w h mca : holds D V w h -> exists p, reads (group_find groups mca) h p /\
  match find_idx (fun g => IN6_ARE_ADDR_EQUAL mca (g_mca g)) (w_groups w) with Some j => p ≠ 0 /\ D !! j = Some p | None => p = 0 end.
Proof.
  intros (-> & _ & hs & x & Hs & -> & _ & _). destruct (reads_group_find _ mca _ _ _ Hs) as (p & Hr & Hp). exists p. split; [|exact Hp].
  eapply reads_mono; [exact Hr|by apply map_union_subseteq_l].
Qed.

Section group.
Context (groupn : Z) (D1 D2 : list Z) (V1 V2 : list (groupnode * list Z)) (HD : length D1 = length V1).
#[local] Notation groups_with g := (groups_with groups d f groupn D1 D2 V1 V2 g).

(** Fields that are not the list are changed. *)
Lemma groups_with_fields fn g I E w h : (forall I g, fn (set_interfaces I g) = set_interfaces I (fn g)) -> groups_with g I E w h ->
  exists h', runs (upd_fields groupn fn) h tt h' /\
    forall w', w_groups w' = mk V1.*1 (fn g) I V2.*1 -> groups_with (fn g) I E w' h'.
Proof.
  intros Hfn (Hw & Hdom & hs & x & Hs & -> & Hx & Hf). destruct (groups_focus _ _ _ _ _ _ HD _ _ Hs) as (hg & r & -> & Hd & Hg & _ & _ & _ & W).
  destruct Hg as (l & hc & Hg0 & Hl0 & Hn & Hl & Hg & ->). simpl in *. set (o := group_obj _ l) in *. set (hl := <[l := OList E]> hc) in *.
  set (o' := group_obj (fn g) l).
  assert (Hdo : dom (<[groupn := o']> hl) = dom (<[groupn := o]> hl)) by (by rewrite !dom_insert_L).
  assert (Hsub : forall m, <[groupn := o]> hl ##ₘ m -> <[groupn := o']> hl ##ₘ m) by (intros m; by rewrite !map_disjoint_dom, Hdo).
  apply map_disjoint_union_l in Hx as [Hx1 Hx2].
  exists ((<[groupn := o']> hl ∪ r) ∪ x). split.
  - rewrite <-!(assoc_L (∪)). eapply runs_bind; [apply runs_obj_at, lookup_union_Some_l, lookup_insert_eq|]. cbn [o group_obj].
    eapply (eq_rect _ (runs _ _ tt)); [eapply runs_set_obj, lookup_union_Some_l, lookup_insert_eq|]. rewrite insert_union_l, insert_insert_eq. do 2 f_equal.
    change (group_obj _ l) with (group_obj (fn (set_interfaces [] g)) l). by rewrite Hfn.
  - intros w' Hw'. split; [by rewrite Hw', fmap_app|]. split; [rewrite <-Hdom, !dom_union_L, Hdo; done|].
    exists (<[groupn := o']> hl ∪ r), x. split_and!; [|done| |done].
    + apply W; [by exists l, hc|by apply Hsub].
    + apply map_disjoint_union_l_2; [by apply Hsub|done].
Qed.

Lemma groups_with_interfaces g I E w h : groups_with g I E w h -> length E = length I /\
  exists l, reads (interfaces_of groupn) h l /\ reads (list_at l) h E.
Proof.
  intros H. destruct (groups_with_reads _ _ _ _ _ _ _ _ HD _ _ _ _ _ H) as (l & ? & ? & ?). split; [done|]. exists l. split; [done|by apply reads_list].
Qed.

(** ** The loop over the entries *)

Context (g : groupnode) (intn : nat) (iph len : Z) (src : in6_addr).
Definition ends (_ : unit) (w : world) (h : heap) : Prop := exists D V, holds D V w h.
Definition loop_sim (k : nat) (w : world) (h : heap) : Prop :=
  sim (Packet.multicast_loop intn iph len src (length V1.*1) k) (multicast_loop groups intn iph len src groupn k) w h ends.

Section entry.
Context (grpintn : Z) (E1 E2 : list Z) (I1 I2 : list grpintnode) (HE : length E1 = length I1).
#[local] Notation here := (here groups d f groupn D1 D2 V1 V2 g grpintn E1 E2 I1 I2).

Lemma here_lists gi w h : here gi w h -> exists e di de, h !! grpintn = Some (entry_obj e) /\ entry_like e gi /\
  h !! e_includes e = Some (OList di) /\ Forall2 (cell h) di (gi_includes gi) /\
  h !! e_excludes e = Some (OList de) /\ Forall2 (cell h) de (gi_excludes gi).
Proof.
  intros (he & r & -> & _ & (e & h1 & h2 & _ & He & H1 & H2 & Hd & Hp & ->) & _)%here_open; [|done..].
  destruct (srcs_shape_list _ _ _ H1) as (_ & di & Hi & Hci). destruct (srcs_shape_list _ _ _ H2) as (_ & de & Hx & Hce).
  set (he := <[grpintn := entry_obj e]> (h1 ∪ h2)). assert (Hs : h1 ∪ h2 ⊆ he ∪ r).
  { etrans; [by apply (insert_subseteq _ grpintn (entry_obj e))|]. apply map_union_subseteq_l. }
  assert (Hs1 : h1 ⊆ he ∪ r) by (etrans; [by apply map_union_subseteq_l|done]).
  assert (Hs2 : h2 ⊆ he ∪ r) by (etrans; [by apply map_union_subseteq_r|done]).
  exists e, di, de. split_and!; [|done|by eapply lookup_weaken|by apply (cell_mono h1)|by eapply lookup_weaken|by apply (cell_mono h2)].
  apply lookup_union_Some_l, lookup_insert_eq.
Qed.

Lemma sim_blind_here {A B} (m : M A) (k : A -> M B) (pk : A -> P B) gi w h (Q : B -> world -> heap -> Prop) :
  blind m -> here gi w h -> (forall a w', here gi w' h -> sim (k a) (pk a) w' h Q) -> sim (m ≫= k) (lift m ≫= pk) w h Q.
Proof. intros Hb Hh Hk. eapply sim_blind_bind; [exact Hb|exact Hh|]. intros a w' Hw' _. by apply Hk. Qed.

(** The packet goes to the interface of the entry, or on to the next entry. *)
Lemma sim_forward gi ifx k pk w h : here gi w h -> gi_ifindex gi = ifx -> (forall w', here gi w' h -> sim k pk w' h ends) ->
  sim (interface ← int_find ifx;
       match interface with
       | None => k
       | Some interface => packet ← load iph (Z.max len sizeof_ip6_hdr); sendpacket6 interface packet len
       end)
      (e ← entry_at grpintn;
       interface ← lift (int_find (e_ifindex e));
       match interface with
       | None => pk
       | Some interface => packet ← lift (load iph (Z.max len sizeof_ip6_hdr)); lift (sendpacket6 interface packet len)
       end) w h ends.
Proof.
  intros Hh <- Hk. destruct (here_lists _ _ _ Hh) as (e & _ & _ & Hp & He & _). eapply sim_right; [by apply (reads_entry_at _ _ _ Hp)|].
  rewrite <-(proj1 He). apply sim_bind. eapply sim_mono; [apply sim_int_find|]. cbv beta. intros [m|] w' h' [-> ->]; [|by apply Hk].
  eapply sim_blind_bind; [apply blind_load|exact Hh|]. intros packet w' Hh' _.
  eapply sim_mono; [apply sim_blind, blind_sendpacket6|]. cbv beta. intros [] w'' h'' [Hw ->]. do 2 eexists. by eapply holds_same.
Qed.

Lemma sim_round gi w h :
  here gi w h -> length E2 = length I2 -> (forall w h, moved_on groups d f groupn D1 D2 V1 V2 g E2 I2 w h -> loop_sim (length I2) w h) ->
  loop_sim (S (length I2)) w h.
Proof.
  intros Hh HE2 Hnext. assert (Hcont : forall gi w h, here gi w h -> loop_sim (length I2) w h).
  { intros gi' w' h' H. eapply Hnext, (here_moved_on groups d f groupn D1 D2 V1 V2 g grpintn E1 E2 I1 I2 HE gi'), H. }
  unfold loop_sim in *. cbn [Packet.multicast_loop multicast_loop]. pose proof (here_world _ _ _ _ _ _ _ _ _ _ _ _ _ _ _ _ _ Hh) as Hw.
  destruct (groups_with_interfaces _ _ _ _ _ Hh) as (Hlen & l & Hr1 & Hr2).
  apply sim_left. eapply mk_group_at; [exact Hw|]. split; [done|]. cbv zeta. change (g_interfaces (set_interfaces _ _)) with (I1 ++ gi :: I2).
  replace (length (I1 ++ gi :: I2) - S (length I2))%nat with (length I1) by (rewrite length_app; simpl; lia).
  apply sim_left. eapply mk_grpint_at; [exact Hw|]. split; [done|].
  eapply sim_right; [by apply Hr1|]. eapply sim_right; [by apply Hr2|].
  replace (length (E1 ++ grpintn :: E2) - S (length I2))%nat with (length E1) by (rewrite length_app; simpl; lia). rewrite (lookup_mid E1).
  destruct (here_lists _ _ _ Hh) as (e & di & de & Hp & He & Hi & Hci & Hx & Hce). eapply sim_right; [by apply (reads_entry_at _ _ _ Hp)|].
  eapply sim_blind_here; [apply blind_int_at|exact Hh|]. intros n w1 Hh1. destruct He as (Hifx & Hmode & Htimer). rewrite Hifx, Hmode, Htimer.
  destruct (i_ifindex n =? gi_ifindex gi); [by eapply Hcont|]. destruct (gi_filter_mode gi =? MLD2_MODE_IS_INCLUDE).
  - destruct (reads_src_hasmember _ _ src _ _ Hi Hci) as (s & Hrs & Hs). eapply sim_right; [by apply Hrs|].
    destruct (Msrc.src_hasmember (gi_includes gi) src) as [k|].
    2: { subst s. by eapply Hcont. }
    destruct Hs as (Hs0 & Hk & sv & Hsv). rewrite (proj2 (Z.eqb_neq _ _) Hs0). eapply sim_blind_here; [apply blind_os_call|exact Hh1|]. intros now w2 Hh2.
    apply sim_bind. eapply sim_mono; [by apply (sim_expire_source groups os d f groupn D1 D2 V1 V2 HD g grpintn E1 E2 I1 I2 HE gi w2 h e di k s sv now)|].
    cbv beta. intros r w3 h3 [[-> Hh3]|[[-> Hh3]|[-> Hh3]]]; cbn [Z.eqb negb]; [|apply sim_ret; by do 2 eexists..].
    destruct Hh3 as [Hh3|Hh3]; (eapply sim_forward; [exact Hh3|done|intros w4; apply Hcont]).
  - eapply sim_blind_here; [apply blind_os_call|exact Hh1|]. intros now w2 Hh2. destruct (gi_filter_timer gi <=? now).
    + apply sim_bind. eapply sim_mono; [by apply (sim_switch groups os d f groupn D1 D2 V1 V2 HD g grpintn E1 E2 I1 I2 HE gi w2 h)|].
      cbv beta. intros [] w3 h3 Hh3; [apply sim_ret; by do 2 eexists|by apply Hnext].
    + eapply sim_right; [by apply (reads_is_empty _ _ _ Hx)|].
      assert (Hem : list_isempty (gi_excludes gi) = bool_decide (de = [])).
      { apply Forall2_length in Hce. destruct (gi_excludes gi), de; done. }
      rewrite Hem. destruct (bool_decide (de = [])); [eapply sim_forward; [exact Hh2|done|intros w4; apply Hcont]|]. cbn [negb andb].
      destruct (reads_src_hasmember _ _ src _ _ Hx Hce) as (s & Hrs & Hs). eapply sim_right; [by apply Hrs|].
      destruct (Msrc.src_hasmember (gi_excludes gi) src) as [k|].
      * destruct Hs as (Hs0 & _). rewrite (proj2 (Z.eqb_neq _ _) Hs0). by eapply Hcont.
      * subst s. eapply sim_forward; [exact Hh2|done|intros w4; apply Hcont].
Qed.
End entry.

Lemma sim_multicast_loop I2 : forall I1 E1 E2 w h,
  length E1 = length I1 -> groups_with g (I1 ++ I2) (E1 ++ E2) w h -> loop_sim (length I2) w h.
Proof.
  induction I2 as [|gi I2 IH]; intros I1 E1 E2 w h HE Hh; [apply sim_ret; by do 2 eexists|].
  destruct (groups_with_interfaces _ _ _ _ _ Hh) as (Hlen & _). rewrite !length_app in Hlen. simpl in Hlen.
  destruct E2 as [|grpintn E2]; simpl in Hlen; [lia|].
  apply (sim_round grpintn E1 E2 I1 I2 HE gi w h Hh ltac:(lia)). intros w' h' (E1' & I1' & HE' & Hm). by eapply IH.
Qed.
End group.
End forward.

Lemma sim_to_group groups os d f D V intn iph len src dst w h : holds groups d f D V w h ->
  sim os
    (g ← Groups.group_find dst;
     match g with
     | None => mret tt
     | Some g => _ ← upd_group g (count_group len); groupn ← group_at g; Packet.multicast_loop intn iph len src g (length (g_interfaces groupn))
     end)
    (groupn ← group_find groups dst;
     if groupn =? 0 then mret tt
     else
       _ ← count_packet groupn len;
       interfaces ← interfaces_of groupn;
       entries ← list_at interfaces;
       multicast_loop groups intn iph len src groupn (length entries)) w h (fun _ w' h' => exists D V, holds groups d f D V w' h').
Proof.
  intros Hh.
  apply sim_left. unfold Groups.group_find. do 2 spec_step. spec_step. split; [done|].
  destruct (holds_find _ _ _ _ _ _ _ dst Hh) as (p & Hr & Hp). eapply sim_right; [by apply Hr|].
  destruct (find_idx _ (w_groups w)) as [j|] eqn:Ej; [|subst p; apply sim_ret; by do 2 eexists].
  destruct Hp as [Hp0 Hj]. rewrite (proj2 (Z.eqb_neq _ _) Hp0).
  apply find_idx_Some in Ej as (g & Hg & _). rewrite (proj1 Hh), list_lookup_fmap in Hg.
  destruct (V !! j) as [[g0 E]|] eqn:HV; [|done]. injection Hg as Hg. simpl in Hg. subst g0.
  destruct (list_elem_of_split_length _ _ _ HV) as (V1 & V2 & -> & ->). destruct (list_elem_of_split_length _ _ _ Hj) as (D1 & D2 & -> & HD). symmetry in HD.
  assert (Hgw : groups_with groups d f p D1 D2 V1 V2 g (g_interfaces g) E w h) by (unfold groups_with; by destruct g).
  pose proof (groups_with_world _ _ _ _ _ _ _ _ _ _ _ _ _ Hgw) as Hw. rewrite <-(length_fmap fst V1).
  set (g' := count_group len g). assert (Hw2 : alter (count_group len) (length V1.*1) (w_groups w) = mk V1.*1 g' (g_interfaces g) V2.*1).
  { rewrite Hw. unfold mk. rewrite alter_middle. by destruct g. }
  apply sim_left. eapply upd_group_spec; [rewrite Hw; apply lookup_mid|]. split; [done|]. rewrite Hw2.
  destruct (groups_with_fields _ _ _ _ _ _ _ _ HD (count_group len) g _ _ _ _ (fun _ _ => eq_refl) Hgw) as (h1 & Hrun & Hw1). eapply sim_right; [exact Hrun|].
  specialize (Hw1 (set_groups (mk V1.*1 g' (g_interfaces g) V2.*1) w) eq_refl). set (w1 := set_groups _ w) in *.
  destruct (groups_with_interfaces _ _ _ _ _ _ _ _ HD _ _ _ _ _ Hw1) as (Hlen & l & Hr1 & Hr2).
  apply sim_left. eapply group_at_spec; [apply lookup_mid|]. split; [done|].
  eapply sim_right; [by apply Hr1|]. eapply sim_right; [by apply Hr2|]. rewrite Hlen.
  by apply (sim_multicast_loop groups os d f p D1 D2 V1 V2 HD g' intn iph len src (g_interfaces g) [] [] E).
Qed.


Lemma sim_l4_ipv6_multicast groups os d f D V intn iph len w h : holds groups d f D V w h ->
  sim os (Packet.l4_ipv6_multicast intn iph len) (l4_ipv6_multicast groups intn iph len) w h
    (fun _ w' h' => exists D V, holds groups d f D V w' h').
Proof.
  intros Hh. eapply sim_blind_bind; [apply blind_load|exact Hh|]. intros src w1 Hh1 _.
  eapply sim_blind_bind; [apply blind_load|exact Hh1|]. intros dst w2 Hh2 _.
  destruct (not_forwarded src dst); [apply sim_ret; by do 2 eexists|]. by eapply sim_to_group.
Qed.

(** * The theorem *)

(** Forwarding in memory: from a heap with the list of groups, each with its entries and their sources, and with any other objects [f],
    [l4_ipv6_multicast] does what it does on values: it ends the same way, with the same packets sent and calls made, or faults where that does, and never
    follows a pointer to an object that is not there, although the walk over the entries takes sources, entries and the group itself out of their
    lists. The pointers then lead to the groups of the value-level state; what left the lists is still allocated, and [f] is as it was. *)
Theorem l4_ipv6_multicast_memory groups os w intn iph len hs f gs0 :
  groups_shape groups (w_groups w) hs -> hs ##ₘ f ->
  spec (Packet.l4_ipv6_multicast intn iph len) os w
    (fun _ w' => exists hs' lost gs',
      l4_ipv6_multicast groups intn iph len (hs ∪ f) os (set_groups gs0 w) = Ret (tt, hs' ∪ (lost ∪ f)) (set_groups gs' w') /\
      groups_shape groups (w_groups w') hs' /\ hs' ##ₘ lost ∪ f /\ lost ##ₘ f /\ dom (hs' ∪ lost) = dom hs)
    (fun e w' => exists gs', l4_ipv6_multicast groups intn iph len (hs ∪ f) os (set_groups gs0 w) = Crash e (set_groups gs' w')).
Proof.
  intros Hs Hd. eapply spec_mono; [apply (sim_result groups os _ (l4_ipv6_multicast groups intn iph len) w hs f gs0 Hs Hd)|..]; [|by intros []|done].
  intros D V. apply sim_l4_ipv6_multicast.
Qed.

(** A packet of the source that ran out, the last one of the entry [MemoryWalk.lapsed] has: its group goes. *)
Definition lapsed_packet : world := set_buffer ([96; 0; 0; 0; 0; 0; 17; 64] ++ src 1 ++ sample_mca) lapsed.
Lemma lapsed_packet_run : exists w', Packet.l4_ipv6_multicast 1 0 40 sample_os lapsed_packet = Ret tt w' /\ w_groups w' = [].
Proof. eexists. split; [vm_compute; reflexivity|reflexivity]. Qed.
Lemma spec_Ret {A} (m : M A) os w Q E a w' : spec m os w Q E -> m os w = Ret a w' -> Q a w'.
Proof. unfold spec. intros H Ha. by rewrite Ha in H. Qed.

Lemma l4_ipv6_multicast_memory_witness : exists gs' hs' lost w',
  l4_ipv6_multicast 4 1 0 40 (lapsed_heap ∪ {[99 := OSrc (Msrc (src 2) 0)]}) sample_os (set_groups [] lapsed_packet) =
    Ret (tt, hs' ∪ (lost ∪ {[99 := OSrc (Msrc (src 2) 0)]})) (set_groups gs' w') /\
  groups_shape 4 [] hs' /\ dom (hs' ∪ lost) = dom lapsed_heap.
Proof.
  destruct lapsed_packet_run as (w' & E & Hg).
  destruct (spec_Ret _ _ _ _ _ _ _ (l4_ipv6_multicast_memory 4 sample_os lapsed_packet 1 0 40 lapsed_heap _ [] lapsed_shape lapsed_disjoint) E)
    as (hs' & lost & gs' & H1 & H2 & _ & _ & H3).
  rewrite Hg in H2. exists gs', hs', lost, w'. exact (conj H1 (conj H2 H3)).
Defined.
