(* ===== verification/MemoryReport.v ===== *)
(** A group record on pointers, from [mrec_create] to [mrec_destroy], with the group and the entry that [groupint_get] of [src/groups.c] finds or
    makes.  [MemoryRecords] has the branches of the state machine for an entry that is there. *)

From S2P Require Import Prelude LinkList Msrc World Interfaces Send Groups Samples Routing Mld2Logic Blind Mld2Expire Memory MemoryFacts MemoryRefine MemoryRecords MemoryDestroy MemoryExpire MemoryWalk Packet MemoryForward.
#[local] Open Scope Z_scope.
#[local] Arguments Z.eqb : simpl never.

(** * Definitions *)

Section code.
Context `{Malloc} (groups : Z).

(** [os_malloc] tells whether an allocation succeeds; the fields of a new object that [memset] clears, or that are set before they are read, are 0. *)
Definition group_create (mca : in6_addr) : P Z :=
  ok ← lift (os_call os_malloc);
  if negb ok then mret 0
  else
    groupn ← malloc (OGroup mca 0 0 0 0);
    ok ← lift (os_call os_malloc);
    if negb ok then pcrash NullDeref
    else
      interfaces ← list_new;
      _ ← set_obj groupn (OGroup mca interfaces 0 0 0);
      mret groupn.

Definition grpint_create (interface : nat) : P Z :=
  ok ← lift (os_call os_malloc);
  if negb ok then mret 0
  else
    garbage ← lift (os_call os_garbage);
    n ← lift (int_at interface);
    grpintn ← malloc (OGrpint (i_ifindex n) 1 (u32 garbage) 0 0);
    ok ← lift (os_call os_malloc);
    if negb ok then pcrash NullDeref
    else
      includes ← list_new;
      _ ← upd_entry grpintn (put_includes includes);
      ok ← lift (os_call os_malloc);
      if negb ok then pcrash NullDeref
      else
        excludes ← list_new;
        _ ← upd_entry grpintn (put_excludes excludes);
        mret grpintn.

Fixpoint grpint_find_loop (ifindex : Z) (data : list Z) : P Z :=
  match data with
  | [] => mret 0
  | grpintn :: data =>
    if grpintn =? 0 then grpint_find_loop ifindex data
    else e ← entry_at grpintn; if e_ifindex e =? ifindex then mret grpintn else grpint_find_loop ifindex data
  end.

(** The second half of [groupint_get]. *)
Definition groupint_interface (groupn : Z) (interface : nat) (isnew : bool) : P (Z * bool) :=
  now ← lift time;
  _ ← upd_fields groupn (set_lastforward now);
  n ← lift (int_at interface);
  interfaces ← interfaces_of groupn;
  data ← list_at interfaces;
  grpintn ← grpint_find_loop (i_ifindex n) data;
  if grpintn =? 0 then
    grpintn ← grpint_create interface;
    if grpintn =? 0 then mret (0, isnew)
    else _ ← listnode_add interfaces grpintn; mret (grpintn, isnew)
  else mret (grpintn, isnew).

Definition lastforward_of (groupn : Z) : P Z := o ← obj_at groupn; match o with OGroup _ _ v _ _ => mret v | _ => pcrash NullDeref end.
Definition groupint_get (mca : in6_addr) (interface : nat) : P (Z * bool) :=
  groupn ← group_find groups mca;
  if groupn =? 0 then
    groupn ← group_create mca;
    if groupn =? 0 then mret (0, false)
    else
      _ ← listnode_add groups groupn;
      groupint_interface groupn interface true
  else
    now ← lift time;
    lastforward ← lastforward_of groupn;
    if ECMH_SUBSCRIPTION_TIMEOUT <=? now - lastforward then
      _ ← lift time;
      groupint_interface groupn interface true
    else groupint_interface groupn interface false.

(** The record of a report, as in [Memory.report_record], but with the entry looked up where the code does. *)
Definition handle_downstream_subscription (intn : nat) (mrec : Z) : P unit :=
  o ← obj_at mrec;
  match o with
  | OMrec mca _ _ => got ← groupint_get mca intn; Memory.handle_downstream_subscription intn got.1 mrec
  | _ => pcrash NullDeref
  end.
Definition report_record (intn : nat) (mca : in6_addr) (type : Z) (srcs : list in6_addr) : P unit :=
  mrec ← mrec_create mca type;
  _ ← add_addrs mrec srcs;
  _ ← handle_downstream_subscription intn mrec;
  mrec_destroy mrec.
End code.

(** The same on values: [l4_ipv6_icmpv6_mld2_report] destroys the record once more when [handle_downstream_subscription] did. *)
Definition value_record (intn : nat) (mca : in6_addr) (type : Z) (srcs : list in6_addr) : M unit :=
  destroyed ← Mld2Logic.handle_downstream_subscription intn (record_of mca type srcs);
  if (destroyed : bool) then crash DoubleFree else mret tt.

(** * Side by side *)

Section beside.
Context (os : OS).

(** The command [pm] on pointers returns or faults as [m] does on values. The groups of its own state are not looked at. *)
Definition beside {A B} (m : M A) (pm : P B) (w : world) (h : heap) (Q : A -> B -> world -> heap -> Prop) : Prop :=
  forall gs0, spec m os w
    (fun a w' => exists b h' gs', pm h os (set_groups gs0 w) = Ret (b, h') (set_groups gs' w') /\ Q a b w' h')
    (fun _ w' => exists e gs', pm h os (set_groups gs0 w) = Crash e (set_groups gs' w')).

Lemma beside_bind {A B C D} (Q : C -> D -> world -> heap -> Prop) (m : M A) (k : A -> M C) (pm : P B) (pk : B -> P D) w h :
  beside m pm w h (fun a b w' h' => beside (k a) (pk b) w' h' Q) -> beside (m ≫= k) (pm ≫= pk) w h Q.
Proof.
  intros Hm gs0. apply spec_bind. eapply spec_mono; [apply (Hm gs0)|..]; cbv beta.
  - intros a w' (b & h' & gs' & E & Hk). eapply spec_mono; [apply (Hk gs')|..]; cbv beta; unfold mbind, P_bind, mbind, M_bind.
    + intros c w'' (d & h'' & gs'' & E' & HQ). exists d, h'', gs''. by rewrite E.
    + intros _ w'' (e & gs'' & E'). exists e, gs''. by rewrite E.
  - intros _ w' (e & gs' & E). exists e, gs'. unfold mbind, P_bind, mbind, M_bind. by rewrite E.
Qed.

Section rules.
Context {A B C : Type}.
Implicit Types (Q : A -> B -> world -> heap -> Prop).
Lemma beside_ret Q (a : A) (b : B) w h : Q a b w h -> beside (mret a) (mret b) w h Q.
Proof. intros HQ gs0. apply spec_ret. by exists b, h, gs0. Qed.
Lemma beside_crash Q e e' w h : beside (crash e) (pcrash e') w h Q.
Proof. intros gs0. by exists e', gs0. Qed.
Lemma beside_mono Q Q' (m : M A) pm w h :
  beside m pm w h Q -> (forall a b w' h', Q a b w' h' -> Q' a b w' h') -> beside m pm w h Q'.
Proof. intros Hm HQ gs0. eapply spec_mono; [apply (Hm gs0)| |done]. cbv beta. intros a w' (b & h' & gs' & ? & ?). eauto 6. Qed.
Lemma beside_left Q (m : M C) (k : C -> M A) (pm : P B) w h :
  spec m os w (fun c w' => same_rest w w' /\ beside (k c) pm w' h Q) (fun _ _ => False) -> beside (m ≫= k) pm w h Q.
Proof.
  intros Hm gs0. apply spec_bind. eapply spec_mono; [exact Hm| |by intros ? ? []]. cbv beta. intros a w' [Hw Hk].
  specialize (Hk gs0). by rewrite Hw in Hk.
Qed.
Lemma beside_right Q (m : M A) (pm : P C) (pk : C -> P B) w h c h' :
  runs pm h c h' -> beside m (pk c) w h' Q -> beside m (pm ≫= pk) w h Q.
Proof. intros Hr Hm gs0. specialize (Hm gs0). unfold mbind, P_bind, mbind, M_bind. by rewrite Hr. Qed.
Lemma beside_blind Q (m : M C) (k : C -> M A) (pk : C -> P B) w h :
  blind m -> (forall c w', w_groups w' = w_groups w -> beside (k c) (pk c) w' h Q) -> beside (m ≫= k) (lift m ≫= pk) w h Q.
Proof.
  intros Hb Hk. apply beside_bind. intros gs0. unfold spec, lift, mbind, M_bind. rewrite Hb.
  destruct (m os w) as [c w'|e w'] eqn:E; [|by exists e, gs0]. exists c, h, gs0. split; [done|]. apply Hk. by eapply blind_frames.
Qed.
End rules.

Lemma beside_assoc {A B C D} (m : M A) (pm : P B) (pk : B -> P C) (pk' : C -> P D) w h Q :
  beside m (x ← pm; y ← pk x; pk' y) w h Q -> beside m (y ← (x ← pm; pk x); pk' y) w h Q.
Proof.
  intros Hm gs0. specialize (Hm gs0). unfold mbind, P_bind, mbind, M_bind in *. by destruct (pm h os (set_groups gs0 w)) as [[x h1] w1|].
Qed.
Lemma beside_spec {A B} (m : M A) (pm : P B) w h Q Q' :
  beside m pm w h Q -> spec m os w Q' (fun _ _ => True) -> beside m pm w h (fun a b w' h' => Q a b w' h' /\ Q' a w').
Proof.
  intros Hm Hs gs0. specialize (Hm gs0). unfold spec in *. destruct (m os w) as [a w'|]; [|done]. destruct Hm as (b & h' & gs' & E & HQ). eauto 6.
Qed.
Lemma beside_sim {A} (m : M A) pm w h Q : MemoryWalk.sim os m pm w h Q -> beside m pm w h (fun a b w' h' => a = b /\ Q a w' h').
Proof.
  intros Hm gs0. eapply spec_mono; [apply (Hm gs0)|..]; cbv beta.
  - intros a w' (h' & gs' & E & HQ). by exists a, h', gs'.
  - intros e w' (gs' & E). by exists e, gs'.
Qed.
Lemma beside_same {A} (m : M A) pm w h (Q : A -> A -> world -> heap -> Prop) :
  (forall gs0, exists a h' w', m os w = Ret a w' /\ pm h os (set_groups gs0 w) = Ret (a, h') (set_groups gs0 w') /\ Q a a w' h') -> beside m pm w h Q.
Proof. intros Hm gs0. destruct (Hm gs0) as (a & h' & w' & E & E' & HQ). unfold spec. rewrite E. by exists a, h', gs0. Qed.
End beside.

(** * Groups and entries that are made *)

Lemma nodes_snoc {A} (shape : Z -> A -> heap -> Prop) D V hc p a hp :
  nodes shape D V hc -> shape p a hp -> hc ##ₘ hp -> nodes shape (D ++ [p]) (V ++ [a]) (hc ∪ hp).
Proof.
  intros Hn Hp. induction Hn as [|q b D V h1 h2 Hq Hd Hn IH]; simpl; intros Hx.
  - rewrite (left_id_L ∅ (∪)), <-(right_id_L ∅ (∪) hp). constructor; [done|apply map_disjoint_empty_r|constructor].
  - apply map_disjoint_union_l in Hx as [Hx1 Hx2]. rewrite <-(assoc_L (∪)). constructor; [done|by apply map_disjoint_union_r_2|auto].
Qed.

Section made.
Context (groups : Z).

(** The groups of the state are the ones in memory; besides, there are the objects [f] and those that no list has. *)
Definition stands (f : heap) (D : list Z) (V : list (groupnode * list Z)) (w : world) (h : heap) : Prop := holds groups (dom h) f D V w h.
Lemma stands_eq f D V w h : stands f D V w h <->
  w_groups w = V.*1 /\ exists hs x, groups_at groups D V hs /\ h = hs ∪ x /\ hs ##ₘ x /\ f ⊆ x.
Proof. unfold stands, holds. split; [intros (? & _ & ?); done|intros (? & ?); done]. Qed.
Lemma stands_same f D V w w' h : stands f D V w h -> w_groups w' = w_groups w -> stands f D V w' h.
Proof. apply holds_same. Qed.

(** A new object joins those that no list has. *)
Lemma stands_alloc f D V w h p o : stands f D V w h -> h !! p = None -> stands f D V w (<[p := o]> h).
Proof.
  rewrite !stands_eq. intros (Hw & hs & x & Hs & -> & Hd & Hf) [Hp1 Hp2]%lookup_union_None. split; [done|].
  exists hs, (<[p := o]> x). split_and!; [done|by rewrite insert_union_r|by apply map_disjoint_insert_r_2|].
  etrans; [exact Hf|by apply insert_subseteq].
Qed.

(** A group without entries is added at the end of the list. *)
Lemma stands_new_group f D V w h mca g l : stands f D V w h -> h !! g = None -> h !! l = None -> g ≠ l -> g ≠ 0 -> l ≠ 0 ->
  let n := Group mca [] 0 0 0 in
  exists h', runs (listnode_add groups g) (<[g := group_obj n l]> (<[l := OList []]> h)) tt h' /\
    forall w', w_groups w' = w_groups w ++ [n] -> stands f (D ++ [g]) (V ++ [(n, [])]) w' h'.
Proof.
  intros (Hw & hs & x & (hc & Hn & Hc & ->) & -> & Hd & Hf)%stands_eq [Hg1 Hg2]%lookup_union_None [Hl1 Hl2]%lookup_union_None Hgl Hg0 Hl0 n.
  apply lookup_insert_None in Hg1 as [Hg1 Hgg], Hl1 as [Hl1 Hlg]. apply map_disjoint_insert_l in Hd as [Hxg Hd].
  set (hg := <[g := group_obj n l]> (<[l := OList []]> ∅) : heap).
  assert (E : <[groups := OList (D ++ [g])]> (<[g := group_obj n l]> (<[l := OList []]> (<[groups := OList D]> hc ∪ x))) =
    <[groups := OList (D ++ [g])]> (hc ∪ hg) ∪ x).
  { assert (Eh : hc ∪ hg = <[g := group_obj n l]> (<[l := OList []]> hc)).
    { unfold hg. rewrite <-!insert_union_r by (rewrite ?lookup_insert_ne; done). by rewrite (right_id_L ∅ (∪)). }
    rewrite Eh, !insert_union_l. f_equal. by rewrite (insert_insert_ne _ l groups), (insert_insert_ne _ g groups), insert_insert_eq by done. }
  eexists. split.
  - eapply runs_bind; [eapply runs_list_at|eapply runs_set_obj].
    all: rewrite !lookup_insert_ne by done; apply lookup_union_Some_l, lookup_insert_eq.
  - intros w' Hw'. apply stands_eq. split; [rewrite Hw', Hw, fmap_app; done|].
    assert (Hgn : hg !! groups = None) by (unfold hg; by rewrite !lookup_insert_ne).
    exists (<[groups := OList (D ++ [g])]> (hc ∪ hg)), x. split_and!; [|exact E| |done].
    + exists (hc ∪ hg). split_and!; [|by rewrite lookup_union_None|done]. apply nodes_snoc; [done| |].
      * exists l, ∅. split_and!; [done|done|constructor|done|by rewrite lookup_insert_ne|done].
      * apply map_disjoint_insert_r_2; [done|]. apply map_disjoint_insert_r_2; [done|apply map_disjoint_empty_r].
    + apply map_disjoint_insert_l_2; [done|]. apply map_disjoint_union_l_2; [done|].
      apply map_disjoint_insert_l_2; [done|]. apply map_disjoint_insert_l_2; [done|apply map_disjoint_empty_l].
Qed.

(** What the three allocations of an entry give, before it is in a list. *)
Definition new_entry (p : Z) (e : pentry) (h : heap) : heap := <[p := entry_obj e]> (<[e_includes e := OList []]> (<[e_excludes e := OList []]> h)).
Lemma new_entry_shape p e gi : entry_like e gi -> gi_includes gi = [] -> gi_excludes gi = [] -> p ≠ 0 -> e_includes e ≠ 0 -> e_excludes e ≠ 0 ->
  p ≠ e_includes e -> p ≠ e_excludes e -> e_includes e ≠ e_excludes e -> entry_shape p gi (new_entry p e ∅).
Proof.
  intros He Hi Hx Hp Hi0 Hx0 Hpi Hpx Hix. exists e, {[e_includes e := OList []]}, {[e_excludes e := OList []]}. rewrite Hi, Hx. split_and!; [done|done| | | | |].
  - exists [], ∅. split_and!; [done|done|constructor|done].
  - exists [], ∅. split_and!; [done|done|constructor|done].
  - apply map_disjoint_singleton_l_2. by rewrite lookup_singleton_ne.
  - by rewrite lookup_union_None, !lookup_singleton_ne.
  - unfold new_entry. f_equal. by rewrite insert_union_singleton_l.
Qed.
Lemma new_entry_union p e h h' : new_entry p e h ∪ h' = new_entry p e (h ∪ h').
Proof. unfold new_entry. by rewrite !insert_union_l. Qed.
Lemma new_entry_right p e h : h !! p = None -> h !! e_includes e = None -> h !! e_excludes e = None ->
  p ≠ e_includes e -> p ≠ e_excludes e -> e_includes e ≠ e_excludes e -> new_entry p e h = h ∪ new_entry p e ∅.
Proof.
  intros. unfold new_entry. rewrite <-!insert_union_r by (rewrite ?lookup_insert_ne; done). by rewrite (right_id_L ∅ (∪)).
Qed.
Lemma new_entry_disjoint p e h : h !! p = None -> h !! e_includes e = None -> h !! e_excludes e = None -> new_entry p e ∅ ##ₘ h.
Proof. intros. unfold new_entry. repeat (apply map_disjoint_insert_l_2; [done|]). apply map_disjoint_empty_l. Qed.
Lemma new_entry_insert p e h l o : l ≠ p -> l ≠ e_includes e -> l ≠ e_excludes e -> <[l := o]> (new_entry p e h) = new_entry p e (<[l := o]> h).
Proof. intros. unfold new_entry. by rewrite !(insert_insert_ne _ l) by done. Qed.

(** An entry is added at the end of the list of its group. *)
Lemma stands_new_entry f groupn D1 D2 V1 V2 g I E w h p e gi :
  length D1 = length V1 -> stands f (D1 ++ groupn :: D2) (V1 ++ (set_interfaces I g, E) :: V2) w h ->
  h !! p = None -> h !! e_includes e = None -> h !! e_excludes e = None -> p ≠ e_includes e -> p ≠ e_excludes e -> e_includes e ≠ e_excludes e ->
  p ≠ 0 -> e_includes e ≠ 0 -> e_excludes e ≠ 0 -> entry_like e gi -> gi_includes gi = [] -> gi_excludes gi = [] ->
  exists l h', runs (interfaces_of groupn) (new_entry p e h) l (new_entry p e h) /\ runs (listnode_add l p) (new_entry p e h) tt h' /\
    forall w', w_groups w' = mk V1.*1 g (I ++ [gi]) V2.*1 ->
      stands f (D1 ++ groupn :: D2) (V1 ++ (set_interfaces (I ++ [gi]) g, E ++ [p]) :: V2) w' h'.
Proof.
  intros HD Hs Hp Hi Hx Hpi Hpx Hix Hp0 Hi0 Hx0 He Hgi Hgx. pose proof (new_entry_shape p e gi He Hgi Hgx Hp0 Hi0 Hx0 Hpi Hpx Hix) as Hen.
  apply stands_eq in Hs as (Hw & hs & x & Hs & -> & Hd & Hf). destruct (groups_focus _ _ _ _ _ _ HD _ _ Hs) as (hg & r & -> & Hd1 & Hg & _ & _ & _ & W).
  destruct Hg as (l & hc & Hg0 & Hl0 & Hn & Hl & Hg & ->). simpl in *. set (o := group_obj _ l) in *.
  rewrite !lookup_union_None in Hp, Hi, Hx. destruct Hp as [[Hp Hpr] Hpxx], Hi as [[Hi Hir] Hixx], Hx as [[Hx Hxr] Hxxx].
  apply lookup_insert_None in Hp as [Hp Hpg], Hi as [Hi Hig], Hx as [Hx Hxg].
  apply lookup_insert_None in Hp as [Hp Hpl], Hi as [Hi Hil], Hx as [Hx Hxl].
  apply map_disjoint_union_l in Hd as [Hd2 Hd3]. apply map_disjoint_insert_l in Hd1 as [Hrg [Hrl Hd1]%map_disjoint_insert_l].
  apply map_disjoint_insert_l in Hd2 as [Hxxg [Hxxl Hd2]%map_disjoint_insert_l].
  assert (Hgl : groupn ≠ l) by (intros ->; by rewrite lookup_insert_eq in Hg). rewrite lookup_insert_ne in Hg by done.
  set (hg' := <[groupn := o]> (<[l := OList (E ++ [p])]> (hc ∪ new_entry p e ∅))).
  assert (Eh : forall v, new_entry p e (<[groupn := o]> (<[l := v]> hc) ∪ r ∪ x) = <[groupn := o]> (<[l := v]> (hc ∪ new_entry p e ∅)) ∪ r ∪ x).
  { intros v. rewrite <-!new_entry_union. do 2 f_equal. by rewrite <-!new_entry_insert, new_entry_right by done. }
  rewrite Eh. exists l, (hg' ∪ r ∪ x). split_and!.
  - eapply runs_bind; [apply runs_obj_at; do 2 apply lookup_union_Some_l; apply lookup_insert_eq|apply runs_ret].
  - eapply runs_bind; [eapply runs_list_at; do 2 apply lookup_union_Some_l; by rewrite lookup_insert_ne, lookup_insert_eq|].
    eapply (eq_rect _ (runs _ _ tt)); [eapply runs_set_obj; do 2 apply lookup_union_Some_l; by rewrite lookup_insert_ne, lookup_insert_eq|].
    rewrite (insert_union_l (_ ∪ r) x), (insert_union_l _ r). do 2 f_equal. unfold hg'. by rewrite (insert_insert_ne _ l), insert_insert_eq.
  - intros w' Hw'. apply stands_eq. split; [by rewrite Hw', fmap_app|]. exists (hg' ∪ r), x.
    assert (Hdx : forall m, m !! groupn = None -> m !! l = None -> m !! p = None -> m !! e_includes e = None -> m !! e_excludes e = None -> hc ##ₘ m -> hg' ##ₘ m).
    { intros m ? ? ? ? ? ?. apply map_disjoint_insert_l_2; [done|]. apply map_disjoint_insert_l_2; [done|].
      apply map_disjoint_union_l_2; [done|]. by apply new_entry_disjoint. }
    split_and!; [|done|apply map_disjoint_union_l_2; [by apply Hdx|done]|done]. apply W; [|by apply Hdx].
    exists l, (hc ∪ new_entry p e ∅). split_and!; [done|done| | | |done].
    + apply nodes_snoc; [done|done|]. apply map_disjoint_sym. by apply new_entry_disjoint.
    + unfold new_entry. by rewrite lookup_union_None, !lookup_insert_ne.
    + unfold new_entry. by rewrite lookup_insert_ne, lookup_union_None, !lookup_insert_ne.
Qed.
End made.

(** * [groupint_get] *)

Section get.
Context `{Malloc} (os : OS) (groups : Z).

(** The three allocations of an entry. *)
Definition created (w : world) (h : heap) (gi : option grpintnode) (p : Z) (w' : world) (h' : heap) : Prop :=
  w_groups w' = w_groups w /\
  match gi with
  | None => p = 0 /\ h' = h
  | Some gi => exists e, h' = new_entry p e h /\ h !! p = None /\ h !! e_includes e = None /\ h !! e_excludes e = None /\
      p ≠ e_includes e /\ p ≠ e_excludes e /\ e_includes e ≠ e_excludes e /\ p ≠ 0 /\ e_includes e ≠ 0 /\ e_excludes e ≠ 0 /\
      entry_like e gi /\ gi_includes gi = [] /\ gi_excludes gi = []
  end.
Lemma fresh_address (h : heap) k o : h !! k = Some o -> alloc h ≠ k.
Proof. intros Hk E. pose proof (alloc_fresh h) as Hf. rewrite E in Hf. congruence. Qed.
Lemma runs_upd_entry h p e f : h !! p = Some (entry_obj e) -> runs (upd_entry p f) h tt (<[p := entry_obj (f e)]> h).
Proof. intros Hp. eapply runs_bind; [|by eapply runs_set_obj]. by apply (reads_entry_at h). Qed.

Lemma beside_grpint_create i w h : beside os (Groups.grpint_create i) (grpint_create i) w h (created w h).
Proof.
  unfold Groups.grpint_create, grpint_create. apply beside_blind; [apply blind_os_call|]. intros ok w1 E1.
  destruct (negb ok); [by apply beside_ret|]. apply beside_blind; [apply blind_os_call|]. intros garbage w2 E2.
  apply beside_blind; [apply blind_int_at|]. intros n w3 E3.
  set (p := alloc h). set (e0 := PEntry (i_ifindex n) 1 (u32 garbage) 0 0). set (h1 := <[p := entry_obj e0]> h).
  assert (Hp : h1 !! p = Some (entry_obj e0)) by apply lookup_insert_eq.
  set (i1 := alloc h1). set (h2 := <[i1 := OList []]> h1). assert (Hi : i1 ≠ p) by (by eapply fresh_address).
  set (e1 := put_includes i1 e0). set (h3 := <[p := entry_obj e1]> h2). set (i2 := alloc h3).
  assert (Hx : i2 ≠ p /\ i2 ≠ i1).
  { split; eapply fresh_address; [apply lookup_insert_eq|]. unfold h3, h2. by rewrite lookup_insert_ne, lookup_insert_eq. }
  set (e2 := put_excludes i2 e1). set (h4 := <[i2 := OList []]> h3).
  eapply beside_right; [apply (runs_malloc (entry_obj e0))|]. apply beside_blind; [apply blind_os_call|]. intros ok1 w4 E4.
  destruct (negb ok1); [apply beside_crash|]. eapply beside_right; [apply runs_malloc|]. fold p h1 i1 h2.
  eapply beside_right; [apply (runs_upd_entry _ _ e0); unfold h2; by rewrite lookup_insert_ne|]. fold e1 h3.
  apply beside_blind; [apply blind_os_call|]. intros ok2 w5 E5. destruct (negb ok2); [apply beside_crash|].
  eapply beside_right; [apply runs_malloc|]. fold i2 h4.
  eapply beside_right; [apply (runs_upd_entry _ _ e1); unfold h4; rewrite lookup_insert_ne by naive_solver; apply lookup_insert_eq|]. fold e2.
  assert (Hf : forall k, h3 !! k = None -> h !! k = None).
  { intros k. unfold h3, h2, h1. rewrite !lookup_insert. by repeat case_decide. }
  apply beside_ret. split; [congruence|]. exists e2. split_and!; [|apply alloc_fresh| |apply Hf, alloc_fresh|..]; simpl; try (by naive_solver); try apply alloc_nonzero.
  - apply map_eq. intros k. unfold new_entry, h4, h3, h2, h1. simpl. rewrite !lookup_insert. repeat case_decide; congruence.
  - pose proof (alloc_fresh h1) as Hf1. fold i1 in Hf1. unfold h1 in Hf1. by rewrite lookup_insert_ne in Hf1.
  - by split_and!.
Qed.

Lemma reads_grpint_find h ifx D V hc : nodes entry_shape D V hc -> hc ⊆ h ->
  exists p, reads (grpint_find_loop ifx D) h p /\ match Groups.grpint_find V ifx with Some k => p ≠ 0 /\ D !! k = Some p | None => p = 0 end.
Proof.
  unfold Groups.grpint_find. induction 1 as [|d gi D V h1 h2 Hd Hh Hn IH]; intros Hs; [exists 0; split; [apply reads_ret|done]|].
  destruct IH as (p & Hr & Hp); [etrans; [|exact Hs]; by apply map_union_subseteq_r|].
  pose proof Hd as (e & ? & ? & Hd0 & He & _). destruct (entry_open _ _ _ Hd) as (e' & _ & Hl & He' & _).
  assert (Hre : reads (entry_at d) h e').
  { apply reads_entry_at. eapply lookup_weaken; [|exact Hs]. by apply lookup_union_Some_l. }
  cbn [grpint_find_loop find_idx]. rewrite (proj2 (Z.eqb_neq _ _) Hd0), <-(proj1 He'). destruct (e_ifindex e' =? ifx) eqn:E.
  - exists d. split; [eapply reads_bind; [exact Hre|]; rewrite E; apply reads_ret|done].
  - exists p. split; [eapply reads_bind; [exact Hre|]; by rewrite E|]. by destruct (find_idx _ V).
Qed.

(** The entry that was found or made, and where it is. *)
Definition placed (f : heap) (gi : grpintnode) (p : nat * nat) (grpintn : Z) (w : world) (h : heap) : Prop :=
  exists groupn D1 D2 V1 V2 g E1 E2 I1 I2, p = (length V1, length I1) /\ length D1 = length V1 /\ length E1 = length I1 /\ grpintn ≠ 0 /\
    stands groups f (D1 ++ groupn :: D2) (V1 ++ (set_interfaces (I1 ++ gi :: I2) g, E1 ++ grpintn :: E2) :: V2) w h.
Definition got (f : heap) (r : option (nat * nat) * bool) (pr : Z * bool) (w : world) (h : heap) : Prop :=
  match r.1 with None => pr.1 = 0 /\ (exists D V, stands groups f D V w h) | Some p => exists gi, placed f gi p pr.1 w h end.

Lemma holds_stands d f D V w h : holds groups d f D V w h -> stands groups f D V w h.
Proof. intros Hh. unfold stands. by rewrite (proj1 (proj2 Hh)). Qed.
Lemma stands_sub f D V w h : stands groups f D V w h -> f ⊆ h.
Proof. intros (_ & hs & x & _ & -> & Hd & Hf)%stands_eq. etrans; [exact Hf|]. by apply map_union_subseteq_r. Qed.
Lemma new_entry_sub p e h : h !! p = None -> h !! e_includes e = None -> h !! e_excludes e = None -> p ≠ e_includes e -> p ≠ e_excludes e -> e_includes e ≠ e_excludes e ->
  h ⊆ new_entry p e h.
Proof. intros. rewrite new_entry_right by done. apply map_union_subseteq_l. Qed.

Lemma groups_with_entries d f groupn D1 D2 V1 V2 g I E w h : length D1 = length V1 ->
  groups_with groups d f groupn D1 D2 V1 V2 g I E w h -> exists hc, nodes entry_shape E I hc /\ hc ⊆ h.
Proof.
  intros HD (_ & _ & hs & x & Hs & -> & _ & _). destruct (groups_focus _ _ _ _ _ _ HD _ _ Hs) as (hg & r & -> & _ & (l & hc & _ & _ & Hn & Hl & Hp & ->) & _).
  exists hc. split; [exact Hn|]. etrans; [by apply (insert_subseteq hc l)|]. etrans; [by apply insert_subseteq|].
  rewrite <-(assoc_L (∪)). apply map_union_subseteq_l.
Qed.

Lemma beside_groupint_interface f groupn D1 D2 V1 V2 g E interface isnew w h :
  length D1 = length V1 -> stands groups f (D1 ++ groupn :: D2) (V1 ++ (g, E) :: V2) w h ->
  beside os (Groups.groupint_interface (length V1) interface isnew) (groupint_interface groupn interface isnew) w h (got f).
Proof.
  intros HD Hh. unfold Groups.groupint_interface, groupint_interface. apply beside_blind; [apply blind_time|]. intros now w1 E1.
  apply (stands_same _ _ _ _ _ w1) in Hh; [|done]. assert (Hg : g = set_interfaces (g_interfaces g) g) by (by destruct g).
  assert (Hw1 : w_groups w1 = V1.*1 ++ g :: V2.*1) by (apply stands_eq in Hh as [-> _]; by rewrite fmap_app).
  apply beside_left. eapply upd_group_spec; [rewrite Hw1, <-(length_fmap fst V1); apply lookup_mid|]. split; [done|].
  rewrite Hw1, <-(length_fmap fst V1), alter_middle. set (g' := set_lastforward now g). set (w2 := set_groups _ w1).
  unfold stands in Hh. rewrite Hg in Hh.
  destruct (groups_with_fields _ _ _ _ _ _ _ _ HD (set_lastforward now) g _ _ _ _ (fun _ _ => eq_refl) Hh) as (h2 & Hr & Hw2).
  eapply beside_right; [exact Hr|]. fold g' in Hw2. specialize (Hw2 w2). assert (Hm : w_groups w2 = mk V1.*1 g' (g_interfaces g) V2.*1).
  { simpl. unfold mk. by rewrite Hg at 1. }
  specialize (Hw2 Hm). clear Hr. apply beside_blind; [apply blind_int_at|]. intros n w3 E3. rewrite <-E3 in Hm.
  apply (holds_same _ _ _ _ _ _ w3) in Hw2; [|done]. apply beside_left.
  eapply group_at_spec; [rewrite Hm; apply lookup_mid|]. split; [done|]. change (g_interfaces (set_interfaces (g_interfaces g) g')) with (g_interfaces g).
  destruct (groups_with_interfaces _ _ _ _ _ _ _ _ HD _ _ _ _ _ Hw2) as (Hlen & l & Hri & Hrl).
  eapply beside_right; [by apply Hri|]. eapply beside_right; [by apply Hrl|].
  destruct (groups_with_entries _ _ _ _ _ _ _ _ _ _ _ _ HD Hw2) as (hc & Hn & Hhc).
  destruct (reads_grpint_find h2 (i_ifindex n) _ _ _ Hn Hhc) as (p & Hrp & Hp). eapply beside_right; [by apply Hrp|].
  destruct (Groups.grpint_find (g_interfaces g) (i_ifindex n)) as [k|].
  - destruct Hp as [Hp0 Hk]. rewrite (proj2 (Z.eqb_neq _ _) Hp0). apply beside_ret. unfold got. cbn [fst snd].
    destruct (lookup_lt_is_Some_2 (g_interfaces g) k) as [gi Hgi]; [rewrite <-Hlen; by eapply lookup_lt_Some|]. exists gi.
    destruct (list_elem_of_split_length _ _ _ Hgi) as (I1 & I2 & HI & ->). destruct (list_elem_of_split_length _ _ _ Hk) as (E1' & E2' & HE & Hle).
    exists groupn, D1, D2, V1, V2, g', E1', E2', I1, I2. rewrite length_fmap, <-HI, <-HE. split_and!; [done|done|done|done|by eapply holds_stands].
  - subst p. apply beside_bind. eapply beside_mono; [apply beside_grpint_create|]. cbv beta. intros o p w4 h4 [E4 Ho].
    apply (holds_same _ _ _ _ _ _ w4) in Hw2; [|done]. destruct o as [gi|].
    2: { destruct Ho as [-> ->]. apply beside_ret. split; [done|]. do 2 eexists. by eapply holds_stands. }
    destruct Ho as (e & -> & He). destruct He as (H1 & H2 & H3 & H4 & H5 & H6 & H7 & H8 & H9 & H10 & H11 & H12).
    rewrite (proj2 (Z.eqb_neq _ _) H7).
    destruct (stands_new_entry groups f groupn D1 D2 V1 V2 g' (g_interfaces g) E w4 h2 p e gi HD) as (l' & h5 & Hrl' & Hadd & Hw5); try done.
    { by eapply holds_stands. }
    assert (l' = l) as ->.
    { pose proof (Hri (new_entry p e h2) (new_entry_sub _ _ _ H1 H2 H3 H4 H5 H6) os w4) as Hx. rewrite Hrl' in Hx. congruence. }
    eapply beside_right; [exact Hadd|]. assert (Hm4 : w_groups w4 = mk V1.*1 g' (g_interfaces g) V2.*1) by congruence.
    apply beside_left. eapply upd_group_spec; [rewrite Hm4; apply lookup_mid|]. split; [done|]. rewrite Hm4. unfold mk. rewrite alter_middle.
    apply beside_ret. unfold got. cbn [fst snd]. exists gi, groupn, D1, D2, V1, V2, g', E, [], (g_interfaces g), [].
    rewrite length_fmap. split_and!; [done|done|done|done|]. by apply Hw5.
Qed.

(** A group that was not there. *)
Lemma beside_new_group f D V mca interface w h : stands groups f D V w h ->
  beside os
    (created ← Groups.group_create mca;
     match created with
     | None => mret (None, false)
     | Some groupn => w ← get; _ ← modify (fun w => set_groups (w_groups w ++ [groupn]) w); Groups.groupint_interface (length (w_groups w)) interface true
     end)
    (groupn ← group_create mca;
     if groupn =? 0 then mret (0, false) else _ ← listnode_add groups groupn; groupint_interface groupn interface true) w h (got f).
Proof.
  intros Hh. set (n := Group mca [] 0 0 0). apply beside_bind.
  apply (beside_mono _ (fun o g w' h' => w_groups w' = w_groups w /\ match o with
    | None => g = 0 /\ h' = h
    | Some n' => n' = n /\ exists l, h' = <[g := group_obj n l]> (<[l := OList []]> h) /\ h !! g = None /\ h !! l = None /\ g ≠ l /\ g ≠ 0 /\ l ≠ 0
    end)).
  - unfold Groups.group_create, group_create. apply beside_blind; [apply blind_os_call|]. intros ok w1 E1.
    destruct (negb ok); [by apply beside_ret|]. eapply beside_right; [apply runs_malloc|]. set (g := alloc h). set (h1 := <[g := _]> h).
    apply beside_blind; [apply blind_os_call|]. intros ok1 w2 E2. destruct (negb ok1); [apply beside_crash|].
    eapply beside_right; [apply runs_malloc|]. set (l := alloc h1). assert (Hgl : l ≠ g) by (eapply fresh_address; apply lookup_insert_eq).
    eapply beside_right; [eapply runs_set_obj; rewrite lookup_insert_ne by done; apply lookup_insert_eq|]. apply beside_ret.
    split; [congruence|]. split; [done|]. exists l. split_and!; [|apply alloc_fresh| |done|apply alloc_nonzero|apply alloc_nonzero].
    + apply map_eq. intros k. unfold h1. rewrite !lookup_insert. repeat case_decide; first [done|congruence].
    + pose proof (alloc_fresh h1) as Hf1. fold l in Hf1. unfold h1 in Hf1. by rewrite lookup_insert_ne in Hf1.
  - cbv beta. intros [n'|] g w1 h1 [E1 Ho].
    2: { destruct Ho as [-> ->]. apply beside_ret. split; [done|]. do 2 eexists. by eapply stands_same. }
    destruct Ho as (-> & l & -> & H1 & H2 & H3 & H4 & H5). rewrite (proj2 (Z.eqb_neq _ _) H4). apply beside_left, spec_get. split; [done|].
    destruct (stands_new_group groups f D V w h mca g l Hh H1 H2 H3 H4 H5) as (h2 & Hr & Hw2). fold n in Hr, Hw2.
    eapply beside_right; [exact Hr|]. apply beside_left, spec_modify. split; [done|]. rewrite E1.
    specialize (Hw2 (set_groups (w_groups w ++ [n]) w1) eq_refl). pose proof (proj1 (proj1 (stands_eq _ _ _ _ _ _) Hh)) as Hw. rewrite Hw in Hw2 |- *.
    rewrite length_fmap. eapply beside_groupint_interface; [|exact Hw2].
    apply stands_eq in Hh as (_ & hs & x & (hc & Hn & _) & _). by eapply nodes_length.
Qed.

Lemma beside_groupint_get f D V mca interface w h : stands groups f D V w h ->
  beside os (Groups.groupint_get mca interface) (groupint_get groups mca interface) w h (got f).
Proof.
  intros Hh. unfold Groups.groupint_get, groupint_get, Groups.group_find. apply beside_left. do 2 spec_step. spec_step. split; [done|].
  destruct (holds_find _ _ _ _ _ _ _ mca Hh) as (p & Hr & Hp). eapply beside_right; [by apply Hr|].
  destruct (find_idx _ (w_groups w)) as [j|] eqn:Ej; [|subst p; by eapply beside_new_group].
  destruct Hp as [Hp0 Hj]. rewrite (proj2 (Z.eqb_neq _ _) Hp0). apply find_idx_Some in Ej as (g & Hg & _).
  pose proof (proj1 (proj1 (stands_eq _ _ _ _ _ _) Hh)) as Hw. rewrite Hw, list_lookup_fmap in Hg.
  destruct (V !! j) as [[g0 E]|] eqn:HV; [|done]. injection Hg as Hg. simpl in Hg. subst g0.
  destruct (list_elem_of_split_length _ _ _ HV) as (V1 & V2 & -> & ->). destruct (list_elem_of_split_length _ _ _ Hj) as (D1 & D2 & -> & HD). symmetry in HD.
  apply beside_blind; [apply blind_time|]. intros now w1 E1. apply (stands_same _ _ _ _ _ w1) in Hh; [|done]. clear Hr.
  assert (Hw1 : w_groups w1 = V1.*1 ++ g :: V2.*1) by (rewrite E1, Hw, fmap_app; done).
  apply beside_left. eapply group_at_spec; [rewrite Hw1, <-(length_fmap fst V1); apply lookup_mid|]. split; [done|].
  assert (Hl : reads (lastforward_of p) h (g_lastforward g)).
  { pose proof (proj1 (stands_eq _ _ _ _ _ _) Hh) as (_ & hs & x & Hs & -> & _). destruct (groups_focus _ _ _ _ _ _ HD _ _ Hs) as (hg & r & -> & _ & (l & hc & _ & _ & _ & _ & _ & ->) & _).
    eapply reads_bind; [apply reads_obj; do 2 apply lookup_union_Some_l; apply lookup_insert_eq|apply reads_ret]. }
  eapply beside_right; [by apply Hl|]. destruct (ECMH_SUBSCRIPTION_TIMEOUT <=? now - g_lastforward g); [|by eapply beside_groupint_interface].
  apply beside_blind; [apply blind_time|]. intros now' w2 E2. eapply beside_groupint_interface; [done|]. by eapply stands_same.
Qed.
End get.

(** * The record *)

Section record.
Context `{Malloc} (os : OS) (groups : Z).

Lemma beside_ext {A B} (m m' : M A) (pm : P B) w h Q : m os w = m' os w -> beside os m' pm w h Q -> beside os m pm w h Q.
Proof. intros E Hb gs0. specialize (Hb gs0). unfold spec in *. by rewrite E. Qed.

Lemma value_record_eq intn mca type srcs w :
  value_record intn mca type srcs os w =
  (got ← Groups.groupint_get mca intn;
   match got.1 with None => crash DoubleFree | Some p => branches intn p mca type (m_source_list (record_of mca type srcs)) end) os w.
Proof.
  destruct (record_of_fields mca type srcs) as [Hmca Htype]. unfold value_record, Mld2Logic.handle_downstream_subscription, branches, mbind, M_bind.
  rewrite Hmca, Htype. destruct (Groups.groupint_get mca intn os w) as [[[p|] isnew] w1|]; [|done..]. cbn [fst].
  destruct (grpint_at p os w1) as [gi w2|]; [|done]. cbv zeta.
  match goal with |- context [match ?x os w2 with _ => _ end] => by destruct (x os w2) as [[] w3|] end.
Qed.

(** Objects that come beside what is there. *)
Lemma stands_more f D V w h k : stands groups f D V w h -> k ##ₘ h -> stands groups (k ∪ f) D V w (k ∪ h).
Proof.
  rewrite !stands_eq. intros (Hw & hs & x & Hs & -> & Hd & Hf) [Hk1 Hk2]%map_disjoint_union_r. split; [done|]. exists hs, (k ∪ x). split_and!.
  - done.
  - by rewrite !(assoc_L (∪)), (map_union_comm k hs).
  - by apply map_disjoint_union_r_2.
  - apply map_union_mono_l, Hf.
Qed.

(** The command changes the entry at [p] at most. *)
Definition touches (p : nat * nat) (w w' : world) : Prop :=
  exists fn, w_groups w' = alter (fun g => set_interfaces (alter fn p.2 (g_interfaces g)) g) p.1 (w_groups w).
#[local] Instance touches_preorder p : PreOrder (touches p).
Proof.
  split.
  - intros w. exists id. symmetry. etrans; [|apply (list_alter_id id); done]. apply list_alter_ext; [|done]. intros g _.
    rewrite list_alter_id by done. by destruct g.
  - intros w1 w2 w3 [f1 E1] [f2 E2]. exists (f2 ∘ f1). rewrite E2, E1, list_alter_alter_eq. apply list_alter_ext; [|done]. intros g _. simpl. by rewrite list_alter_alter_eq.
Qed.
Lemma touches_same p w w' : w_groups w' = w_groups w -> touches p w w'.
Proof. intros E. destruct (PreOrder_Reflexive (R := touches p) w) as [fn Hfn]. exists fn. by rewrite E. Qed.
Lemma touches_upd p f : rel (touches p) (upd_grpint p f).
Proof.
  unfold upd_grpint, grpint_at, upd_group, group_at. rel_auto. apply rel_modify. intros w. by exists f.
Qed.
Lemma touches_branches intn p mca mode B : rel (touches p) (branches intn p mca mode B).
Proof.
  assert (Hq : forall src b, rel (touches p) (mld_send_query intn mca src b)).
  { intros src b. apply rel_mld_send_query; [typeclasses eauto|..]; intros; by apply touches_same. }
  assert (Hm : forall srcs b, rel (touches p) (mld_send_mquery intn mca srcs b)).
  { intros srcs b. apply rel_mld_send_mquery; [typeclasses eauto|..]; intros; by apply touches_same. }
  assert (Ht : rel (touches p) time) by (apply rel_os_call; intros; by apply touches_same).
  pose proof (touches_upd p) as Hu.
  unfold branches, Mld2Logic.include_add, Mld2Logic.include_to_exclude, Mld2Logic.include_block, Mld2Logic.exclude_add, Mld2Logic.exclude_replace,
    Mld2Logic.exclude_block, remove_all_xy, set_timers_xy, set_timers_xy_time, grpint_at, group_at.
  rel_auto; auto.
Qed.

(** The entry in its place, with the rest of the groups; it may be replaced whatever the addresses its lists have then. *)
Lemma placed_focus f gi p grpintn w h : placed groups f gi p grpintn w h ->
  grpintn ≠ 0 /\ entry_is p gi w /\ exists he r x, h = he ∪ (r ∪ x) /\ he ##ₘ r ∪ x /\ r ##ₘ x /\ f ⊆ x /\ entry_shape grpintn gi he /\
    forall gi' he' w', entry_shape grpintn gi' he' -> he' ##ₘ r -> touches p w w' -> entry_is p gi' w' ->
      groups_shape groups (w_groups w') (he' ∪ r).
Proof.
  intros (groupn & D1 & D2 & V1 & V2 & g & E1 & E2 & I1 & I2 & -> & HD & HE & Hg0 & Hs). apply stands_eq in Hs as (Hw & hs & x & Hs & -> & Hd & Hf).
  rewrite fmap_app in Hw. split; [done|]. split.
  { exists (set_interfaces (I1 ++ gi :: I2) g). rewrite Hw, <-(length_fmap fst V1). split; [apply lookup_mid|apply lookup_mid]. }
  destruct (groups_focus _ _ _ _ _ _ HD _ _ Hs) as (hg & r1 & -> & Hd1 & Hg & _ & _ & _ & W1).
  destruct (group_focus _ _ _ _ _ _ _ HE _ _ Hg) as (he & r2 & -> & Hd2 & He & W2 & _).
  apply map_disjoint_union_l in Hd1 as [Hd1 Hd3]. apply map_disjoint_union_l in Hd as [[Hx1 Hx2]%map_disjoint_union_l Hx3].
  exists he, (r2 ∪ r1), x. split_and!; [by rewrite !(assoc_L (∪))| | |done|done|].
  - apply map_disjoint_union_r_2; [by apply map_disjoint_union_r_2|done].
  - by apply map_disjoint_union_l_2.
  - intros gi' he' w' He' [Hr1 Hr2]%map_disjoint_union_r [fn Hw'] Hen. apply groups_shape_at. eexists _, _. split; [|rewrite (assoc_L (∪)); apply W1; [by apply W2|by apply map_disjoint_union_l_2]].
    rewrite Hw, <-(length_fmap fst V1) in Hw'. cbn [fst snd fmap list_fmap] in Hw'. rewrite alter_middle in Hw'. simpl in Hw'. rewrite alter_middle in Hw'.
    destruct Hen as (g' & Hg' & Hgi'). rewrite Hw', <-(length_fmap fst V1) in Hg'. cbn [fst snd] in Hg', Hgi'. rewrite lookup_mid in Hg'. injection Hg' as <-.
    simpl in Hgi'. rewrite lookup_mid in Hgi'. injection Hgi' as Hgi'. by rewrite Hw', Hgi', fmap_app.
Qed.

(** Equality of unions of disjoint pieces. *)
Ltac heap_perm :=
  apply map_eq; let i := fresh "i" in intros i; rewrite !lookup_union;
  repeat match goal with Hd : ?a ##ₘ ?b |- _ => let H' := fresh in pose proof (proj1 (map_disjoint_spec a b) Hd i) as H'; clear Hd end;
  repeat match goal with |- context [?m !! i] => destruct (m !! i) eqn:? end; try done; exfalso; eauto.
Ltac split_disjoint := repeat match goal with
  | Hd : _ ∪ _ ##ₘ _ |- _ => apply map_disjoint_union_l in Hd as [? ?]
  | Hd : _ ##ₘ _ ∪ _ |- _ => apply map_disjoint_union_r in Hd as [? ?]
  end.

Lemma difference_split (k f x : heap) : k ∪ f ⊆ x -> k ##ₘ f -> exists x2, x = k ∪ x2 /\ k ##ₘ x2 /\ f ⊆ x2.
Proof.
  intros Hs Hd. exists (x ∖ k). split_and!; [|by apply map_disjoint_difference_r1|].
  - symmetry. apply map_difference_union. etrans; [|exact Hs]. apply map_union_subseteq_l.
  - apply map_subseteq_spec. intros i v Hi. apply lookup_difference_Some. split.
    + eapply lookup_weaken; [|exact Hs]. by apply lookup_union_Some_r.
    + by eapply map_disjoint_Some_r.
Qed.

Lemma srcs_shape_at l vs h : srcs_shape l vs h -> is_Some (h !! l).
Proof. intros (_ & data & Hl & _)%srcs_shape_list. by exists (OList data). Qed.

Ltac disjoint_pieces :=
  repeat first [apply map_disjoint_union_l_2 | apply map_disjoint_union_r_2]; first [assumption | apply map_disjoint_sym; assumption].

(** The record [m] with its list [b] in memory of their own: [hb] is the list, [g1] what its sources left behind. *)
Section branches.
Context (m b : Z) (mca : in6_addr) (type : Z) (B : sources) (hb g1 f : heap).
Context (Hm0 : m ≠ 0) (Hb : srcs_shape b B hb) (Hg1 : map_Forall (fun _ o => exists s, o = OSrc s) g1).
#[local] Notation mm := ({[m := OMrec mca type b]} : heap).
Context (D1 : hb ##ₘ g1) (D2 : hb ##ₘ mm) (D3 : g1 ##ₘ mm) (D4 : hb ##ₘ f) (D5 : g1 ##ₘ f) (D6 : mm ##ₘ f).

(** What [MemoryRefine] asks of the memory, and the groups again from what it leaves. *)
Lemma placed_before gi p grpintn intn w h gs0 : placed groups (hb ∪ (g1 ∪ mm) ∪ f) gi p grpintn w h -> int_ok intn w ->
  grpintn ≠ 0 /\ h !! m = Some (OMrec mca type b) /\ exists e R,
    let D := <[e_includes e := gi_includes gi]> (<[e_excludes e := gi_excludes gi]> ∅) in
    before intn p grpintn b B gi e (<[b := B]> D) (g1 ∪ <[m := OMrec mca type b]> R) w h (set_groups gs0 w) /\
    R !! m = None /\ m ≠ grpintn /\ D !! b = None /\ b ≠ e_includes e /\ b ≠ e_excludes e /\ orphans g1 (<[m := OMrec mca type b]> R) (size g1) /\
    forall gi' e' h' g extra w', touches p w w' -> entry_is p gi' w' -> entry_like e' gi' -> e_includes e' ≠ e_excludes e' ->
      extra ##ₘ lists_after D e e' gi' -> orphans g R (size g) ->
      lists_shape h' (extra ∪ lists_after D e e' gi') (<[grpintn := entry_obj e']> (g ∪ R)) -> exists DV VV, stands groups f DV VV w' h'.
Proof.
  intros (Hg0 & Hen & he & r & x & -> & Dh1 & Dh2 & Hf & (e & h1 & h2 & _ & He & H1 & H2 & Dh & Hp & ->) & W)%placed_focus Hint.
  set (pe := {[grpintn := entry_obj e]} : heap). set (k := hb ∪ (g1 ∪ mm)) in *.
  assert (Ehe : <[grpintn := entry_obj e]> (h1 ∪ h2) = pe ∪ (h1 ∪ h2)) by (by rewrite insert_union_singleton_l). rewrite Ehe in *.
  assert (Dk : k ##ₘ f) by (unfold k; disjoint_pieces).
  destruct (difference_split k f x Hf Dk) as (x2 & -> & Dkx & Hfx). clear Hf.
  assert (Hpe : pe ##ₘ h1 ∪ h2) by (by apply map_disjoint_singleton_l_2).
  unfold k in *. clear k Dk. assert (Dkf := conj D4 (conj D5 D6)). split_disjoint.
  assert (Hmg : m ≠ grpintn).
  { intros E. assert (Dmp : mm ##ₘ pe) by (by apply map_disjoint_sym). eapply (proj1 (map_disjoint_spec mm pe) Dmp m); [apply lookup_singleton_eq|]. unfold pe. rewrite E. apply lookup_singleton_eq. }
  destruct (srcs_shape_at _ _ _ Hb) as [ob Hob]. destruct (srcs_shape_at _ _ _ H1) as [o1 Ho1]. destruct (srcs_shape_at _ _ _ H2) as [o2 Ho2].
  assert (Hbi : b ≠ e_includes e).
  { intros E. rewrite <-E in Ho1. by eapply (map_disjoint_spec h1 hb). }
  assert (Hbx : b ≠ e_excludes e).
  { intros E. rewrite <-E in Ho2. by eapply (map_disjoint_spec h2 hb). }
  assert (Hix : e_includes e ≠ e_excludes e).
  { intros E. rewrite <-E in Ho2. by eapply (map_disjoint_spec h1 h2). }
  set (R := pe ∪ (r ∪ x2)). assert (HRm : R !! m = None).
  { apply (map_disjoint_singleton_l R m (OMrec mca type b)). unfold R. disjoint_pieces. }
  assert (HRg : R !! grpintn = Some (entry_obj e)) by (apply lookup_union_Some_l, lookup_singleton_eq).
  assert (Hg1g : g1 !! grpintn = None) by (apply (map_disjoint_singleton_l g1 grpintn (entry_obj e)); done).
  assert (EmR : <[m := OMrec mca type b]> R = mm ∪ R) by (by rewrite insert_union_singleton_l).
  split; [done|]. split.
  { apply lookup_union_Some_r; [disjoint_pieces|]. apply lookup_union_Some_r; [disjoint_pieces|]. apply lookup_union_Some_l.
    apply lookup_union_Some_r; [disjoint_pieces|]. apply lookup_union_Some_r; [disjoint_pieces|]. apply lookup_singleton_eq. }
  exists e, R. cbv zeta. split_and!; try done.
  - split; [|apply lookup_insert_eq|done|done]. split; try done.
    + rewrite EmR. replace (pe ∪ (h1 ∪ h2) ∪ (r ∪ (hb ∪ (g1 ∪ mm) ∪ x2))) with (hb ∪ (h1 ∪ (h2 ∪ (g1 ∪ (mm ∪ R))))) by (unfold R; heap_perm).
      constructor; [constructor; [constructor; [constructor|done| |done]| | |done]| | |done].
      all: try (unfold R; disjoint_pieces). all: by rewrite ?lookup_insert_ne.
    + rewrite lookup_union_r by done. by rewrite lookup_insert_ne.
    + rewrite lookup_insert_ne by done. apply lookup_insert_eq.
    + rewrite !lookup_insert_ne by done. apply lookup_insert_eq.
  - by rewrite !lookup_insert_ne.
  - split_and!; [|done|done]. rewrite EmR. unfold R. disjoint_pieces.
  - intros gi' e' h' g extra w' Ht Hen' He' Hne' Hex Ho HL.
    destruct Ho as (Dg & _ & _). unfold R in Dg. split_disjoint.
    destruct (lists_shape_focus _ _ _ (e_includes e') (gi_includes gi') HL) as (hi & hr & -> & Dhi & Hsi & HL1).
    { apply lookup_union_Some_r; [done|]. apply lookup_insert_eq. }
    destruct (lists_shape_focus _ _ _ (e_excludes e') (gi_excludes gi') HL1) as (hx & h0 & -> & Dhx & Hsx & HL2).
    { rewrite lookup_delete_ne by done. apply lookup_union_Some_r; [done|]. unfold lists_after. rewrite lookup_insert_ne by done. apply lookup_insert_eq. }
    set (pe' := {[grpintn := entry_obj e']} : heap).
    assert (Dpe : forall o : heap, pe ##ₘ o -> pe' ##ₘ o) by (intros o Ho; apply map_disjoint_singleton_l_2; by apply (map_disjoint_singleton_l o grpintn (entry_obj e))).
    assert (Hrest : (pe' ∪ r) ∪ x2 ⊆ h0).
    { etrans; [|by eapply lists_shape_rest]. unfold R. rewrite <-(assoc_L (∪)). apply map_subseteq_spec. intros i v Hi.
      destruct (decide (i = grpintn)) as [->|Hne].
      - unfold pe' in Hi. rewrite <-insert_union_singleton_l, lookup_insert_eq in Hi. by rewrite lookup_insert_eq.
      - unfold pe' in Hi. rewrite <-insert_union_singleton_l, lookup_insert_ne in Hi by done. rewrite lookup_insert_ne by done.
        apply lookup_union_Some_r; [disjoint_pieces|]. apply lookup_union_Some_r; [disjoint_pieces|done]. }
    assert (Dp1 : pe' ##ₘ r) by (apply Dpe; disjoint_pieces). assert (Dp2 : pe' ##ₘ x2) by (apply Dpe; disjoint_pieces).
    destruct (difference_split (pe' ∪ r) x2 h0 Hrest ltac:(disjoint_pieces)) as (y & -> & Dy & Hxy). split_disjoint.
    assert (Hgs : groups_shape groups (w_groups w') ((pe' ∪ (hi ∪ hx)) ∪ r)).
    { apply (W gi'); [|disjoint_pieces|done|done]. exists e', hi, hx. split_and!; [done|done|done|done|done| |by rewrite insert_union_singleton_l].
      apply (map_disjoint_singleton_l (hi ∪ hx) grpintn (entry_obj e')). fold pe'. disjoint_pieces. }
    apply groups_shape_at in Hgs as (DV & VV & HVV & Hat). exists DV, VV. apply stands_eq. split; [done|].
    exists ((pe' ∪ (hi ∪ hx)) ∪ r), y. split_and!; [done|heap_perm|disjoint_pieces|by etrans].
Qed.



(** The record is handled and destroyed. *)
Lemma beside_branches gi p grpintn intn w h : placed groups (hb ∪ (g1 ∪ mm) ∪ f) gi p grpintn w h -> int_ok intn w -> has_mode gi ->
  beside os (branches intn p mca type B) (_ ← Memory.handle_downstream_subscription intn grpintn m; mrec_destroy m) w h (fun _ _ w' h' => exists D V, stands groups f D V w' h').
Proof.
  intros Hpl Hint Hmode gs0. destruct (placed_before gi p grpintn intn w h gs0 Hpl Hint) as (Hg0 & Hmh & e & R & Hbefore & HRm & Hmg & HDb & Hbi & Hbx & Ho & W).
  set (D := <[e_includes e := gi_includes gi]> (<[e_excludes e := gi_excludes gi]> ∅)) in *. clear Hpl.
  pose proof (refine_downstream os intn p grpintn mca type b _ _ _ _ _ w h (set_groups gs0 w) Hbefore Hmode) as Hsim. unfold MemoryRefine.sim in Hsim.
  pose proof (rel_spec _ _ os w (touches_branches intn p mca type B)) as Ht.
  unfold spec in *. destruct (branches intn p mca type B os w) as [[] w'|] eqn:Ew; [|done].
  destruct (downstream intn grpintn mca type b h os (set_groups gs0 w)) as [[[] h3] v'|] eqn:Ev; [|done].
  destruct Hsim as (gi' & e' & g2 & extra & Ha). simpl in Ha.
  pose proof (a_owns _ _ _ _ _ _ _ _ _ _ _ _ _ _ _ _ Ha) as Hown. pose proof (o_lists _ _ _ _ _ _ _ _ _ _ Hown) as HL3.
  destruct (after_keeps _ _ _ _ _ _ _ _ _ _ _ _ _ _ _ _ _ _ Ha Hbi Hbx) as (_ & _ & Hlb).
  assert (Hrm : (g1 ∪ <[m := OMrec mca type b]> R) !! m = Some (OMrec mca type b)) by (eapply orphans_rest; [exact Ho|apply lookup_insert_eq]).
  destruct (runs_mrec_destroy m b mca type h3 _ _ B Hm0 HL3) as (h4 & Hr4 & HL4).
  { rewrite lookup_insert_ne by done. eapply orphans_rest; [exact (a_orphans _ _ _ _ _ _ _ _ _ _ _ _ _ _ _ _ Ha)|exact Hrm]. }
  { apply lookup_union_Some_r; [exact (a_extra _ _ _ _ _ _ _ _ _ _ _ _ _ _ _ _ Ha)|exact Hlb]. }
  pose proof (after_destroy _ _ _ _ _ _ _ _ _ _ _ _ _ _ _ _ _ _ _ _ _ _ _ HRm Hmg HDb Hbi Hbx Ho Ha HL4) as [Hown' _ _ _ Ho' Hex' _].
  pose proof (o_same _ _ _ _ _ _ _ _ _ _ Hown) as Hsame.
  exists tt, h4, (w_groups v'). split.
  - unfold Memory.handle_downstream_subscription. rewrite (proj2 (Z.eqb_neq _ _) Hg0). unfold mbind, P_bind, mbind, M_bind.
    rewrite (runs_obj_at _ _ _ Hmh). cbn [fst snd]. rewrite Ev. cbn [fst snd]. rewrite Hr4. by rewrite <-Hsame.
  - destruct Hown' as [Hen' _ _ HL' _ He' _ _ Hne']. eapply W; [exact Ht|exact Hen'|exact He'|exact Hne'|exact Hex'| |exact HL'].
    destruct Ho' as (? & _ & ?). by split_and!.
Qed.
End branches.

(** When there is an entry, the interface exists and the groups are well formed. *)
Lemma spec_nints {A B} (m : M A) (k : A -> M B) w Q : rel (frames nints) m ->
  (forall a w', nints w' = nints w -> spec (k a) os w' Q (fun _ _ => True)) -> spec (m ≫= k) os w Q (fun _ _ => True).
Proof.
  intros Hm Hk. apply spec_bind. eapply spec_mono; [apply (rel_spec _ _ os w Hm)| |done]. cbv beta. intros a w' Hw. by apply Hk.
Qed.
Lemma nints_os_call {A} (f : OS -> nat -> A) : rel (frames nints) (os_call f).
Proof. by apply rel_os_call. Qed.
Lemma nints_upd_group g f : rel (frames nints) (upd_group g f).
Proof. by apply rel_upd_group; [typeclasses eauto|]. Qed.
Lemma groupint_interface_found g i isnew w : ~ int_ok i w -> spec (Groups.groupint_interface g i isnew) os w (fun _ _ => False) (fun _ _ => True).
Proof.
  intros Hi. unfold Groups.groupint_interface. apply spec_nints; [apply nints_os_call|]. intros now w1 E1.
  apply spec_nints; [apply nints_upd_group|]. intros [] w2 E2. apply spec_bind. unfold spec, int_at, mbind, M_bind, get.
  by rewrite lookup_ge_None_2 by (unfold int_ok, nints in *; lia).
Qed.
Lemma groupint_get_found mca i w : groups_wf (w_groups w) ->
  spec (Groups.groupint_get mca i) os w (fun r w' => forall p, r.1 = Some p -> int_ok i w' /\ groups_wf (w_groups w')) (fun _ _ => True).
Proof.
  intros Hwf. destruct (decide (i < length (w_ints w))%nat) as [Hi|Hi].
  - destruct (lookup_lt_is_Some_2 _ _ Hi) as [n Hn]. eapply spec_mono; [by eapply groupint_get_spec| |done]. cbv beta.
    intros [r isnew] w' ((Hwf' & _) & Hints & _) p _. split; [unfold int_ok; by rewrite Hints|done].
  - assert (Hbad : forall g b w', nints w' = nints w ->
      spec (Groups.groupint_interface g i b) os w' (fun r w' => forall p, r.1 = Some p -> int_ok i w' /\ groups_wf (w_groups w')) (fun _ _ => True)).
    { intros g b w' E. eapply spec_mono; [apply groupint_interface_found; unfold int_ok, nints in *; by rewrite E|by intros ? ? []|done]. }
    unfold Groups.groupint_get, Groups.group_find, Groups.group_create. do 3 spec_step. spec_step. destruct (find_idx _ _) as [g|].
    + apply spec_nints; [apply nints_os_call|]. intros now w1 E1. apply spec_nints; [unfold group_at; rel_auto|]. intros g' w2 E2.
      destruct (_ <=? _); [|apply Hbad; congruence]. apply spec_nints; [apply nints_os_call|]. intros now' w3 E3. apply Hbad; congruence.
    + apply spec_nints; [rel_auto; apply nints_os_call|]. intros [n|] w1 E1; [|by spec_step].
      do 2 spec_step. spec_step. apply spec_modify. apply Hbad. by rewrite <-E1.
Qed.

(** A record of a report, beside what it does to the values. *)
Lemma beside_report_record f D V intn mca type srcs w h : groups_wf (w_groups w) -> stands groups f D V w h ->
  beside os (value_record intn mca type srcs) (report_record groups intn mca type srcs) w h (fun _ _ w' h' => exists D V, stands groups f D V w' h').
Proof.
  intros Hwf Hh. apply (beside_ext _ _ _ _ _ _ (value_record_eq intn mca type srcs w)). set (B := m_source_list (record_of mca type srcs)).
  destruct (runs_mrec_create h ∅ h mca type (shape_rest h)) as (m & b & h1 & Hr1 & Hm0 & Hm & Hb & HL1).
  destruct (runs_add_addrs m b mca type srcs h1 _ _ (Msrc.mrec_create mca type) Hm0 HL1) as (h2 & g1 & n1 & Hr2 & Ho1 & _ & HL2); [apply lookup_insert_eq..|].
  rewrite insert_insert_eq in HL2. fold (record_of mca type srcs) in HL2; fold B in HL2.
  destruct (lists_shape_focus _ _ _ b B HL2 (lookup_insert_eq _ _ _)) as (hb & hr & -> & Dhb & Hsb & HL3).
  assert (E : hr = g1 ∪ ({[m := OMrec mca type b]} ∪ h)).
  { rewrite <-insert_union_singleton_l. eapply lists_shape_no_list; [exact HL3|]. by apply delete_insert_id. }
  subst hr. pose proof Ho1 as (Dg1 & _ & Hsrc). rewrite insert_union_singleton_l in Dg1.
  assert (Dm : {[m := OMrec mca type b]} ##ₘ h) by (by apply map_disjoint_singleton_l_2). split_disjoint.
  set (mm := {[m := OMrec mca type b]} : heap) in *. set (k := hb ∪ (g1 ∪ mm)).
  assert (Eh : hb ∪ (g1 ∪ (mm ∪ h)) = k ∪ h) by (unfold k; by rewrite !(assoc_L (∪))). assert (Dk : k ##ₘ h) by (unfold k; disjoint_pieces).
  pose proof (stands_more _ _ _ _ _ k Hh Dk) as Hk. rewrite <-Eh in Hk.
  pose proof (stands_sub _ _ _ _ _ _ Hh) as Hf. eapply beside_right; [exact Hr1|]. eapply beside_right; [exact Hr2|].
  unfold handle_downstream_subscription. apply beside_assoc. eapply beside_right; [apply (runs_obj_at m (OMrec mca type b))|].
  { apply lookup_union_Some_r; [disjoint_pieces|]. apply lookup_union_Some_r; [disjoint_pieces|]. apply lookup_union_Some_l, lookup_singleton_eq. }
  apply beside_assoc, beside_bind. eapply beside_mono; [eapply beside_spec; [by eapply beside_groupint_get|by apply groupint_get_found]|]. cbv beta.
  intros [[p|] isnew] pr w3 h3 [Hgot Hok]; unfold got in Hgot; cbn [fst] in *.
  - destruct Hgot as (gi & Hpl). destruct (Hok p eq_refl) as [Hint Hwf3]. assert (Hmode : has_mode gi).
    { destruct (placed_focus _ _ _ _ _ _ Hpl) as (_ & (g & Hg & Hgi) & _). eapply wf_grpint; [eapply wf_group; [exact Hwf3|exact Hg]|exact Hgi]. }
    eapply (beside_branches m b mca type B hb g1 f); try done.
    all: first [disjoint_pieces | eapply map_disjoint_weaken_r; [|exact Hf]; disjoint_pieces].
  - destruct Hgot as [Hp (D' & V' & Hk3%stands_sub)]. rewrite Hp. unfold Memory.handle_downstream_subscription. rewrite Z.eqb_refl.
    assert (Dkf : k ##ₘ f) by (by eapply map_disjoint_weaken_r). destruct (difference_split k f h3 Hk3 Dkf) as (y & -> & Dy & _).
    unfold k in *. split_disjoint. assert (HLb : lists_shape (hb ∪ (g1 ∪ mm) ∪ y) {[b := B]} (g1 ∪ mm ∪ y)).
    { rewrite <-!(assoc_L (∪)). rewrite <-insert_empty. constructor; [constructor|done|disjoint_pieces|done]. }
    assert (HRm : (g1 ∪ mm ∪ y) !! m = Some (OMrec mca type b)).
    { apply lookup_union_Some_l, lookup_union_Some_r; [disjoint_pieces|]. apply lookup_singleton_eq. }
    destruct (runs_mrec_destroy m b mca type _ _ _ B Hm0 HLb HRm (lookup_singleton_eq _ _)) as (h4 & Hr4 & HL4).
    eapply beside_right; [exact Hr4|]. rewrite (lists_shape_no_list _ _ _ HL4) by apply delete_singleton_eq.
    intros gs0. exists NullDeref, gs0. unfold mrec_destroy, mbind, P_bind, mbind, M_bind, obj_at. by rewrite lookup_delete_eq.
Qed.
End record.
