(* ===== verification/ReportFacts.v ===== *)
(** The parser of MLDv2 reports ([mld2_report] of [src/ecmh.c]): it decodes what an encoder
    writes, and stays within the receive buffer whatever the packet holds, when the buffer goes on
    for 295 bytes after the packet. *)

From S2P Require Import Prelude Checksum LinkList Msrc World Interfaces Send Groups Samples Routing Mld2Logic Rfc3810 Mld2Refine Packet.
#[local] Open Scope Z_scope.

(** * Encoding *)

Definition be16 (x : Z) : list Z := [x / 256; x mod 256].

(** A group record without auxiliary data, as RFC 3810 section 5.2 lays it out. *)
Record grec := Grec { gr_type : Z; gr_mca : in6_addr; gr_srcs : list in6_addr }.
Definition grec_bytes (r : grec) : list Z :=
  [gr_type r; 0] ++ be16 (Z.of_nat (length (gr_srcs r))) ++ gr_mca r ++ concat (gr_srcs r).
Definition grecs_bytes (rs : list grec) : list Z := concat (grec_bytes <$> rs).
(** The message: type, code, checksum, reserved, number of records. *)
Definition report_bytes (c0 c1 : Z) (rs : list grec) : list Z :=
  [ICMP6_V2_MEMBERSHIP_REPORT; 0; c0; c1; 0; 0] ++ be16 (Z.of_nat (length rs)) ++ grecs_bytes rs.

Record grec_ok (r : grec) : Prop := {
  ok_type : is_known_grec_type (gr_type r) = true;
  ok_mca : length (gr_mca r) = 16%nat;
  ok_scope : IN6_IS_ADDR_MC_NODELOCAL (gr_mca r) || IN6_IS_ADDR_MC_LINKLOCAL (gr_mca r) = false;
  ok_srcs : Forall (fun a => length a = 16%nat) (gr_srcs r);
  ok_count : Z.of_nat (length (gr_srcs r)) < 65536 }.

(** The record the parser hands to [handle_downstream_subscription]. *)
Definition record_of (r : grec) : mrec := mrec_add_addrs (mrec_create (gr_mca r) (gr_type r)) (gr_srcs r).

Fixpoint handle_records (intn : nat) (rs : list grec) (handled : bool) : M bool :=
  match rs with
  | [] => mret handled
  | r :: rs =>
    destroyed ← handle_downstream_subscription intn (record_of r);
    _ ← (if (destroyed : bool) then crash DoubleFree else mret tt);
    handle_records intn rs true
  end.

(** * Loads *)

Lemma bind_Ret {A B} (m : M A) (k : A -> M B) os w a w' : m os w = Ret a w' -> (m ≫= k) os w = k a os w'.
Proof. intros E. unfold mbind, M_bind. by rewrite E. Qed.
Lemma bind_ext {A B} (m : M A) (k k' : A -> M B) os w :
  (forall a w', m os w = Ret a w' -> k a os w' = k' a os w') -> (m ≫= k) os w = (m ≫= k') os w.
Proof. intros H. unfold mbind, M_bind. destruct (m os w) eqn:E; auto. Qed.

(** The bytes [l] lie in the buffer at [off]. *)
Definition lies (off : Z) (l : list Z) (w : world) : Prop :=
  exists pre post, w_buffer w = pre ++ l ++ post /\ off = Z.of_nat (length pre).

Lemma lies_load off l len os w : lies off l w -> len = Z.of_nat (length l) -> load off len os w = Ret l w.
Proof.
  intros (pre & post & Hb & ->) ->. unfold load, mbind, M_bind, get. rewrite Hb, !length_app.
  rewrite (proj2 (andb_true_iff _ _)), !Nat2Z.id, drop_app_length, take_app_length; [done|].
  rewrite andb_true_iff, !Z.leb_le. lia.
Qed.
Lemma lies_load8 off b os w : lies off [b] w -> load8 off os w = Ret b w.
Proof. intros H. unfold load8. by rewrite (bind_Ret _ _ _ _ _ _ (lies_load off [b] 1 os w H eq_refl)). Qed.
Lemma lies_load16 off x os w : 0 <= x < 65536 -> lies off (be16 x) w -> load16 off os w = Ret x w.
Proof.
  intros Hx H. unfold load16. rewrite (bind_Ret _ _ _ _ _ _ (lies_load off (be16 x) 2 os w H eq_refl)).
  simpl. rewrite <-Z.div_mod by done. done.
Qed.
Lemma lies_app off a b w : lies off (a ++ b) w -> lies off a w /\ lies (off + Z.of_nat (length a)) b w.
Proof.
  intros (pre & post & Hb & ->). split; [exists pre, (b ++ post)|exists (pre ++ a), post]; rewrite Hb, ?length_app, <-?app_assoc; (split; [done|lia]).
Qed.
Lemma lies_same off l w w' : w_buffer w' = w_buffer w -> lies off l w -> lies off l w'.
Proof. intros Hb (pre & post & ? & ?). exists pre, post. by rewrite Hb. Qed.

Lemma load_addrs_spec l : forall off os w,
  Forall (fun a => length a = 16%nat) l -> lies off (concat l) w -> load_addrs off (length l) os w = Ret l w.
Proof.
  induction l as [|a l IH]; intros off os w Hl Hb; [done|]. apply Forall_cons in Hl as [Ha Hl]. simpl in *.
  apply lies_app in Hb as [H1 H2]. rewrite Ha in H2.
  rewrite (bind_Ret _ _ _ _ _ _ (lies_load off a 16 os w H1 ltac:(by rewrite Ha))).
  by rewrite (bind_Ret _ _ _ _ _ _ (IH (off + 16) os w Hl H2)).
Qed.

(** The table of names has the record types the parser knows, and no other. *)
Lemma name_grec_eq t : name_grec t = if is_known_grec_type t then mret tt else crash OutOfBounds.
Proof.
  unfold name_grec, is_known_grec_type, Names.lookup, Names.mld2_grec_types. cbn [Names.lookup_from].
  rewrite !(Z.eqb_sym _ t). repeat (destruct (t =? _); simpl; [done|]). done.
Qed.

(** * The parser decodes the encoding *)

Lemma length_concat16 (l : list in6_addr) : Forall (fun a => length a = 16%nat) l -> length (concat l) = (16 * length l)%nat.
Proof. induction 1 as [|a l Ha _ IH]; simpl; [done|]. rewrite length_app, IH. lia. Qed.
Lemma length_grec r : grec_ok r -> Z.of_nat (length (grec_bytes r)) = 20 + Z.of_nat (length (gr_srcs r)) * 16.
Proof.
  intros Hr. unfold grec_bytes, be16. rewrite !length_app, (ok_mca _ Hr), length_concat16 by apply Hr. simpl. lia.
Qed.

(** The fields of a record in the buffer. *)
Lemma grec_fields r off w : grec_ok r -> lies off (grec_bytes r) w ->
  lies off [gr_type r] w /\ lies (off + 1) [0] w /\ lies (off + 2) (be16 (Z.of_nat (length (gr_srcs r)))) w /\
  lies (off + 4) (gr_mca r) w /\ lies (off + 20) (concat (gr_srcs r)) w.
Proof.
  intros Hr Hb. unfold grec_bytes in Hb. apply lies_app in Hb as [H0 H1].
  apply (lies_app _ [gr_type r]) in H0 as [Ht Ha]. apply lies_app in H1 as [Hn H1]. apply lies_app in H1 as [Hm Hs].
  rewrite (ok_mca _ Hr) in Hs. simpl in *. rewrite <-!Z.add_assoc in *. done.
Qed.

Lemma buffer_handle_downstream i m : rel (frames w_buffer) (handle_downstream_subscription i m).
Proof. apply rel_handle_downstream; [typeclasses eauto|done..]. Qed.

Lemma buffer_set_mld_version i v : rel (frames w_buffer) (int_set_mld_version i v).
Proof. apply rel_int_set_mld_version; [typeclasses eauto|done..]. Qed.

(** The checks of the parser let these records pass, the first at [off]: each begins in the packet, or just behind it, and one that
    has sources ends in it. *)
Fixpoint records_fit (limit off : Z) (rs : list grec) : Prop :=
  match rs with
  | [] => True
  | r :: rs => let next := off + Z.of_nat (length (grec_bytes r)) in off <= limit /\ (gr_srcs r = [] \/ next <= limit) /\ records_fit limit next rs
  end.
Lemma records_within limit rs : forall off, off + Z.of_nat (length (grecs_bytes rs)) <= limit -> records_fit limit off rs.
Proof.
  induction rs as [|r rs IH]; intros off Hlen; [done|]. change (grecs_bytes (r :: rs)) with (grec_bytes r ++ grecs_bytes rs) in Hlen.
  rewrite length_app, Nat2Z.inj_add in Hlen. split; [lia|]. split; [right; lia|]. apply IH. lia.
Qed.
Lemma records_behind limit rs r : forall off, off + Z.of_nat (length (grecs_bytes rs)) = limit -> gr_srcs r = [] ->
  records_fit limit off (rs ++ [r]).
Proof.
  induction rs as [|r' rs IH]; intros off Hlen Hs; [simpl in *; split_and!; [lia|by left|done]|].
  change (grecs_bytes (r' :: rs)) with (grec_bytes r' ++ grecs_bytes rs) in Hlen. rewrite length_app, Nat2Z.inj_add in Hlen.
  split; [lia|]. split; [right; lia|]. apply IH; [lia|done].
Qed.

Lemma mld2_grecs_parses intn mld2r plen rs : forall off h os w,
  Forall grec_ok rs -> lies off (grecs_bytes rs) w -> records_fit (mld2r + plen) off rs ->
  mld2_grecs intn mld2r plen (length rs) off h os w = handle_records intn rs h os w.
Proof.
  induction rs as [|r rs IH]; intros off h os w Hok Hb Hlen; [done|]. apply Forall_cons in Hok as [Hr Hok].
  change (grecs_bytes (r :: rs)) with (grec_bytes r ++ grecs_bytes rs) in Hb.
  apply lies_app in Hb as [Hb Hrest]. destruct Hlen as (Hoff & Hsrcs & Hfit).
  rewrite (length_grec _ Hr) in Hsrcs, Hfit, Hrest. destruct (grec_fields _ _ _ Hr Hb) as (Ht & Hx & Hn & Hm & Hs).
  cbn [length mld2_grecs handle_records].
  rewrite (bind_Ret _ _ _ _ _ _ (lies_load _ _ 16 os w Hm ltac:(by rewrite (ok_mca _ Hr)))), (ok_scope _ Hr).
  rewrite (proj2 (Z.ltb_ge _ _)) by lia. pose proof (ok_count _ Hr).
  rewrite (bind_Ret _ _ _ _ _ _ (lies_load16 _ (Z.of_nat (length (gr_srcs r))) os w ltac:(lia) Hn)). cbv zeta.
  rewrite (bind_Ret _ _ _ _ _ _ (lies_load8 _ _ os w Ht)), name_grec_eq, (ok_type _ Hr). cbn [negb].
  rewrite (bind_Ret (mret tt) _ os w tt w eq_refl). unfold sizeof_mld2_grec.
  assert (Hc : (0 <? Z.of_nat (length (gr_srcs r))) && (plen <? off + 20 - mld2r + Z.of_nat (length (gr_srcs r)) * 16) = false).
  { apply andb_false_iff. destruct Hsrcs as [-> | ?]; [by left|right]. apply Z.ltb_ge. lia. }
  rewrite Hc, Nat2Z.id. clear Hc.
  rewrite (bind_Ret _ _ _ _ _ _ (load_addrs_spec _ _ os w (ok_srcs _ Hr) Hs)).
  apply bind_ext. intros destroyed w' Hd. pose proof (rel_Ret _ _ _ _ _ _ (buffer_handle_downstream _ _) Hd) as Hbuf.
  destruct destroyed; [done|]. apply bind_ext. intros [] ? [= <-].
  rewrite (bind_Ret _ _ _ _ _ _ (lies_load8 _ _ os w' (lies_same _ _ _ _ Hbuf Hx))), Z.add_0_r.
  replace (off + 20 + _) with (off + (20 + Z.of_nat (length (gr_srcs r)) * 16)) by lia.
  apply IH; [done|by eapply lies_same|done].
Qed.

Lemma length_grecs rs : Forall grec_ok rs -> 20 * Z.of_nat (length rs) <= Z.of_nat (length (grecs_bytes rs)).
Proof.
  induction 1 as [|r rs Hr _ IH]; [done|]. change (grecs_bytes (r :: rs)) with (grec_bytes r ++ grecs_bytes rs).
  rewrite length_app, Nat2Z.inj_add, (length_grec _ Hr). simpl. lia.
Qed.

(** The refresh after a report that changed something. *)
Definition after_report (intn : nat) (changed : bool) : M unit :=
  when changed (_ ← handle_upstream_subscription (Some intn); w ← get; expire_routes (w_mr6_fd w)).

(** The message announces the records [rs]; not all of them need be in the packet. *)
Lemma mld2_report_announced intn mld2r plen c0 c1 rs os w :
  Forall grec_ok rs -> Z.of_nat (length rs) < 65536 -> lies mld2r (report_bytes c0 c1 rs) w ->
  8 + 20 * Z.of_nat (length rs) <= plen -> records_fit (mld2r + plen) (mld2r + 8) rs ->
  mld2_report intn mld2r plen os w =
  (_ ← int_set_mld_version intn 2; changed ← handle_records intn rs false; after_report intn changed) os w.
Proof.
  intros Hok Hrs Hb Hplen Hfit. unfold report_bytes in *. apply lies_app in Hb as [H0 Hb]. apply lies_app in Hb as [Hn Hb].
  simpl length in *. unfold mld2_report.
  rewrite (bind_Ret _ _ _ _ _ _ (lies_load16 _ (Z.of_nat (length rs)) os w ltac:(lia) Hn)).
  apply bind_ext. intros [] w' Hv.
  assert (Hbuf : w_buffer w' = w_buffer w).
  { apply (rel_Ret (frames w_buffer) _ _ _ _ _ (buffer_set_mld_version intn 2) Hv). }
  unfold sizeof_mld2_report, sizeof_mld2_grec. rewrite (proj2 (Z.ltb_ge _ _)) by lia.
  unfold mbind at 1 3, M_bind at 1 3. rewrite Nat2Z.id, (mld2_grecs_parses intn mld2r _ rs (mld2r + 8) false os w' Hok); [done| |done].
  eapply lies_same; [exact Hbuf|]. replace (mld2r + 8) with (mld2r + 6 + 2) by lia. exact Hb.
Qed.
Lemma length_report c0 c1 rs : Z.of_nat (length (report_bytes c0 c1 rs)) = 8 + Z.of_nat (length (grecs_bytes rs)).
Proof. unfold report_bytes. rewrite !length_app. simpl. lia. Qed.
Lemma mld2_report_eq intn mld2r plen c0 c1 rs os w :
  Forall grec_ok rs -> Z.of_nat (length rs) < 65536 -> lies mld2r (report_bytes c0 c1 rs) w ->
  plen = Z.of_nat (length (report_bytes c0 c1 rs)) ->
  mld2_report intn mld2r plen os w =
  (_ ← int_set_mld_version intn 2; changed ← handle_records intn rs false; after_report intn changed) os w.
Proof.
  intros Hok Hrs Hb ->. rewrite length_report. pose proof (length_grecs _ Hok).
  apply (mld2_report_announced intn mld2r _ c0 c1); [done|done|done|lia|apply records_within; lia].
Qed.

(** C16: A report whose records an encoder wrote is handled record by record, in order, and the
    upstream subscriptions are refreshed once; whatever follows it in the buffer, and whatever
    the checksum. *)
Theorem mld2_report_parses intn mld2r plen c0 c1 rs os w :
  Forall grec_ok rs -> Z.of_nat (length rs) < 65536 -> lies mld2r (report_bytes c0 c1 rs) w ->
  plen = Z.of_nat (length (report_bytes c0 c1 rs)) ->
  mld2_report intn mld2r plen os w =
  (_ ← int_set_mld_version intn 2; changed ← handle_records intn rs false; after_report intn changed) os w.
Proof. apply mld2_report_eq. Qed.

(** C29: A report may announce one record more than its packet holds: when the records in the packet have enough sources for the first length
    check to pass, the parser goes on behind the end of the packet, and whatever record without sources lies there in the receive
    buffer, as what an earlier and longer packet left, is obeyed like those of the report. *)
Theorem mld2_report_reads_past_packet intn mld2r plen c0 c1 rs behind os w :
  Forall grec_ok rs -> grec_ok behind -> gr_srcs behind = [] -> Z.of_nat (length rs) + 1 < 65536 ->
  plen = Z.of_nat (length (report_bytes c0 c1 rs)) -> 8 + 20 * (Z.of_nat (length rs) + 1) <= plen ->
  lies mld2r (report_bytes c0 c1 (rs ++ [behind])) w ->
  mld2_report intn mld2r plen os w =
  (_ ← int_set_mld_version intn 2; changed ← handle_records intn (rs ++ [behind]) false; after_report intn changed) os w.
Proof.
  intros Hok Hb Hs Hn -> Hlen Hlies. rewrite length_report in *. apply (mld2_report_announced intn mld2r _ c0 c1); [|rewrite length_app; simpl; lia|done| |].
  - apply Forall_app. split; [done|by apply Forall_singleton].
  - rewrite length_app. simpl. lia.
  - apply records_behind; [lia|done].
Qed.

(** * The parser on any packet *)

Lemma known_mode t : is_known_grec_type t = true -> 1 <= t <= 6.
Proof.
  unfold is_known_grec_type, MLD2_MODE_IS_INCLUDE, MLD2_MODE_IS_EXCLUDE, MLD2_CHANGE_TO_INCLUDE, MLD2_CHANGE_TO_EXCLUDE,
    MLD2_ALLOW_NEW_SOURCES, MLD2_BLOCK_OLD_SOURCES. lia.
Qed.

(** What the buffer holds at an offset. *)
Definition bytes_at (buffer : list Z) (off len : Z) : list Z := take (Z.to_nat len) (drop (Z.to_nat off) buffer).
Definition byte_at (buffer : list Z) (off : Z) : Z := default 0 (head (bytes_at buffer off 1)).
Definition half_at (buffer : list Z) (off : Z) : Z := match bytes_at buffer off 2 with [hi; lo] => 256 * hi + lo | _ => 0 end.

(** Of the [k] records from [off] on: does the parser come to one of a type without a name, before it gives up? *)
Fixpoint meets_unknown (buffer : list Z) (mld2r plen : Z) (k : nat) (off : Z) : bool :=
  match k with
  | O => false
  | S k =>
    let mca := bytes_at buffer (off + 4) 16 in
    let next := off + sizeof_mld2_grec + half_at buffer (off + 2) * 16 in
    if IN6_IS_ADDR_MC_NODELOCAL mca || IN6_IS_ADDR_MC_LINKLOCAL mca || (mld2r + plen <? off) then false
    else if negb (is_known_grec_type (byte_at buffer off)) then true
    else if (0 <? half_at buffer (off + 2)) && (mld2r + plen <? next) then false
    else meets_unknown buffer mld2r plen k (next + byte_at buffer (off + 1))
  end.
Definition has_unknown (buffer : list Z) (mld2r plen : Z) : bool :=
  let ngrec := half_at buffer (mld2r + 6) in
  negb (plen <? sizeof_mld2_report + ngrec * sizeof_mld2_grec) &&
  meets_unknown buffer mld2r plen (Z.to_nat ngrec) (mld2r + sizeof_mld2_report).

Section any_packet.
Context (os : OS) (now : Z) (Hnow : forall t, os_time os t = now) (H0 : 0 <= now) (H1 : now + MALI < 2 ^ 32)
  (Hmalloc : forall t, os_malloc os t = true).
Context (intn : nat) (buffer : list Z) (mld2r plen : Z).
Context (Hbytes : bytes buffer) (Hr : 0 <= mld2r) (Hroom : mld2r + plen + 295 <= Z.of_nat (length buffer)).

Definition parsing (w : world) : Prop :=
  groups_wf (w_groups w) /\ is_Some (w_ints w !! intn) /\ is_Some (w_routes w) /\ w_buffer w = buffer.

Section loads.
Context (E : fault -> world -> Prop).
Lemma load_within off len w (Q : list Z -> world -> Prop) :
  w_buffer w = buffer -> 0 <= off -> 0 <= len -> off + len <= Z.of_nat (length buffer) ->
  Q (bytes_at buffer off len) w -> spec (load off len) os w Q E.
Proof.
  intros Hb ? ? ? HQ. unfold load. do 2 spec_step. rewrite Hb, (proj2 (andb_true_iff _ _)); [by spec_step|].
  rewrite andb_true_iff, !Z.leb_le; lia.
Qed.
Lemma load8_within off w (Q : Z -> world -> Prop) :
  w_buffer w = buffer -> 0 <= off -> off + 1 <= Z.of_nat (length buffer) -> Q (byte_at buffer off) w -> spec (load8 off) os w Q E.
Proof. intros ? ? ? HQ. unfold load8. spec_step. apply load_within; [done|done|done|done|]. by spec_step. Qed.
Lemma load16_within off w (Q : Z -> world -> Prop) :
  w_buffer w = buffer -> 0 <= off -> off + 2 <= Z.of_nat (length buffer) -> Q (half_at buffer off) w -> spec (load16 off) os w Q E.
Proof. intros ? ? ? HQ. unfold load16. spec_step. apply load_within; [done|done|done|done|]. by spec_step. Qed.
Lemma load_addrs_within n : forall off w (Q : list in6_addr -> world -> Prop),
  w_buffer w = buffer -> 0 <= off -> off + Z.of_nat n * 16 <= Z.of_nat (length buffer) ->
  (forall l, Q l w) -> spec (load_addrs off n) os w Q E.
Proof.
  induction n as [|n IH]; intros off w Q Hb Ho Hl HQ; cbn [load_addrs]; [spec_step; apply HQ|].
  spec_step. apply load_within; [done|lia..|]. spec_step. apply IH; [done|lia..|]. intros l. spec_step. apply HQ.
Qed.
End loads.
Lemma bytes_at_bytes off len : bytes (bytes_at buffer off len).
Proof. by apply Forall_take, Forall_drop. Qed.
Lemma byte_at_range off : 0 <= byte_at buffer off < 256.
Proof. unfold byte_at. pose proof (bytes_at_bytes off 1) as Hb. destruct Hb as [|b l Hb _]; simpl; [lia|exact Hb]. Qed.
Lemma half_at_range off : 0 <= half_at buffer off < 65536.
Proof.
  unfold half_at. pose proof (bytes_at_bytes off 2) as Hb. destruct Hb as [|a l Ha [|b l' Hb' []]]; try lia. unfold is_byte in *. lia.
Qed.

Lemma handle_downstream_parsing mca t srcs w (Q : bool -> world -> Prop) :
  parsing w -> 1 <= t <= 6 -> (forall w', parsing w' -> Q false w') ->
  returns (handle_downstream_subscription intn (mrec_add_addrs (mrec_create mca t) srcs)) os w Q.
Proof.
  intros (Hwf & [n Hn] & Hro & Hb) Ht HQ. set (m := mrec_add_addrs _ _).
  assert (Hm : 1 <= m_filter_mode m <= 6) by (subst m; by rewrite (proj2 (mrec_add_addrs_mca _ _))).
  assert (Hs : mrec_sources_ok m) by (apply mrec_add_addrs_ok, NoDup_nil_2).
  pose proof (handle_downstream_steps now intn n m os w Hnow H0 H1 Hmalloc Hwf Hn Hm Hs) as Hd.
  pose proof (rel_spec _ _ os w (buffer_handle_downstream intn m)) as Hf.
  eapply spec_mono; [exact (spec_conj _ _ _ _ _ _ _ Hd Hf)| |by intros ?? [[] _]].
  unfold frames, handled, took. cbv beta. intros d w' [[-> (? & _ & _ & _ & (n' & Hn' & _) & Hro')] Hb']. apply HQ.
  split_and!; [done|by exists n'|congruence|congruence].
Qed.

Lemma mld2_grecs_within k : forall off h w,
  parsing w -> 0 <= off -> off <= mld2r + plen + 275 ->
  spec (mld2_grecs intn mld2r plen k off h) os w (fun _ w' => meets_unknown buffer mld2r plen k off = false /\ parsing w')
    (fun f _ => f = OutOfBounds /\ meets_unknown buffer mld2r plen k off = true).
Proof.
  induction k as [|k IH]; intros off h w Hp Ho Hlen; cbn [mld2_grecs meets_unknown]; [by spec_step|].
  pose proof Hp as (_ & _ & _ & Hb). cbv zeta.
  spec_step. apply load_within; [done|lia..|]. destruct (_ || _); simpl; [by spec_step|].
  destruct (Z.ltb_spec (mld2r + plen) off); [by spec_step|].
  spec_step. apply load16_within; [done|lia..|]. pose proof (half_at_range (off + 2)) as Hns. set (nsrcs := half_at buffer (off + 2)) in *.
  spec_step. apply load8_within; [done|lia..|]. spec_step. rewrite name_grec_eq.
  destruct (is_known_grec_type (byte_at buffer off)) eqn:Et; simpl; [spec_step|by spec_step].
  replace (plen <? off + sizeof_mld2_grec - mld2r + nsrcs * 16) with (mld2r + plen <? off + sizeof_mld2_grec + nsrcs * 16) by lia.
  destruct (_ && _) eqn:Es; [by spec_step|]. unfold sizeof_mld2_grec in *.
  assert (Hns' : off + 20 + nsrcs * 16 <= mld2r + plen \/ nsrcs = 0) by lia.
  spec_step. apply load_addrs_within; [done|lia..|]. intros srcs. spec_step.
  eapply spec_mono; [apply (handle_downstream_parsing _ _ _ _ (fun d w' => d = false /\ parsing w')); [done|by apply known_mode|done]| |done].
  cbv beta. intros ? w' [-> Hp']. do 2 spec_step.
  pose proof Hp' as (_ & _ & _ & Hb'). spec_step. apply load8_within; [done|lia..|]. pose proof (byte_at_range (off + 1)).
  apply IH; [done|lia..].
Qed.

(** What the refresh of the upstream subscriptions keeps. *)
Definition settled (w : world) : Prop := groups_wf (w_groups w) /\ is_Some (w_routes w) /\ w_buffer w = buffer.
Lemma settled_upstream i : rel (keeps settled) (handle_upstream_subscription i).
Proof.
  apply rel_handle_upstream; [typeclasses eauto|..]; unfold keeps, settled; simpl; try tauto.
  intros l w (? & _ & ?). by split_and!.
Qed.

(** C17: Whatever bytes the packet holds, the parser has one of two outcomes, and [has_unknown] tells which from the bytes: it returns, and every
    access was inside the receive buffer, every pointer valid and no record freed twice; or it comes to a record whose type is none of the six,
    and looking up its name for the debug message leaves the table. (The receive buffer has at least 295 bytes after the packet, the
    allocator gives memory, and the list of kernel routes is there, as it is with [--kernel].) *)
Theorem mld2_report_returns w n l :
  0 <= plen -> groups_wf (w_groups w) -> w_ints w !! intn = Some n -> w_routes w = Some l -> w_buffer w = buffer ->
  spec (mld2_report intn mld2r plen) os w
    (fun _ w' => has_unknown buffer mld2r plen = false /\ groups_wf (w_groups w') /\ w_buffer w' = buffer)
    (fun f _ => has_unknown buffer mld2r plen = true /\ f = OutOfBounds).
Proof.
  intros Hpl Hwf Hn Hl Hb. unfold mld2_report, has_unknown. cbv zeta. spec_step. apply load16_within; [done|lia..|].
  set (ngrec := half_at buffer (mld2r + 6)).
  spec_step. eapply spec_mono; [by apply int_set_mld_version_spec| |done]. cbv beta zeta. intros _ w1 Hw1.
  assert (Hp1 : parsing w1).
  { pose proof (becomes_lookup _ _ (lookup_lt_Some _ _ _ Hn) _ _ Hw1). destruct Hw1 as [t ->]. split_and!; [done|by eexists|by exists l|done]. }
  destruct (_ <? _); simpl; [by spec_step; destruct Hp1 as (? & _ & _ & ?)|]. spec_step.
  eapply spec_mono; [apply mld2_grecs_within; [done|unfold sizeof_mld2_report; lia..]| |cbv beta; tauto]. cbv beta. intros changed w2 [Hu (Hwf2 & [n2 Hn2] & [l2 Hl2] & Hb2)].
  apply spec_when; [|done]. intros _. spec_step.
  pose proof (rel_spec _ _ os w2 (settled_upstream (Some intn))) as F1.
  pose proof (handle_upstream_faults (Some intn) os w2 Hwf2 ltac:(intros ? [= <-]; by eapply lookup_lt_Some)) as F2.
  eapply spec_mono; [exact (spec_conj _ _ _ _ _ _ _ F1 F2)| |intros f w3 (_ & _ & [?|?]); congruence].
  cbv beta. intros _ w3 [Hk _]. destruct Hk as (Hwf3 & [l3 Hl3] & Hb3); [by split_and!; [|exists l2|]|].
  do 2 spec_step. eapply spec_mono; [by apply (expire_routes_spec _ l3)| |done].
  cbv beta. intros _ w4 (t & tr & l4 & -> & _). by split_and!.
Qed.
End any_packet.

(** * A report when the daemon does not control the kernel *)

Section no_kernel.
Context (os : OS) (now : Z) (Hnow : forall t, os_time os t = now) (H0 : 0 <= now) (H1 : now + MALI < 2 ^ 32)
  (Hmalloc : forall t, os_malloc os t = true) (intn : nat).

Lemma handle_records_returns rs : forall h w,
  Forall grec_ok rs -> groups_wf (w_groups w) -> is_Some (w_ints w !! intn) ->
  returns (handle_records intn rs h) os w (fun h' w' => groups_wf (w_groups w') /\ is_Some (w_ints w' !! intn) /\
    w_routes w' = w_routes w /\ h' = match rs with [] => h | _ => true end).
Proof.
  induction rs as [|r rs IH]; intros h w Hok Hwf [n Hn]; cbn [handle_records]; [by spec_step|].
  apply Forall_cons in Hok as [Hr Hok].
  assert (Hm : 1 <= m_filter_mode (record_of r) <= 6).
  { unfold record_of. rewrite (proj2 (mrec_add_addrs_mca _ _)). apply known_mode, (ok_type _ Hr). }
  assert (Hs : mrec_sources_ok (record_of r)) by (apply mrec_add_addrs_ok, NoDup_nil_2).
  spec_step. eapply spec_mono; [by apply (handle_downstream_steps now intn n)| |done].
  unfold handled, took. cbv beta. intros d w' [-> (Hwf' & _ & _ & _ & (n' & Hn' & _) & Hro)]. do 2 spec_step.
  eapply spec_mono; [by apply IH| |done]. cbv beta. intros h' w2 (Hwf2 & Hi2 & Hr2 & Hh).
  split_and!; [done|done|congruence|]. by destruct rs.
Qed.

(** Without [--kernel] the list of kernel routes is never created, and the first well-formed report that has a record
    makes the daemon dereference NULL. *)
Theorem report_without_kernel_crashes n mld2r plen c0 c1 rs w :
  groups_wf (w_groups w) -> w_ints w !! intn = Some n -> w_routes w = None ->
  rs ≠ [] -> Forall grec_ok rs -> Z.of_nat (length rs) < 65536 ->
  lies mld2r (report_bytes c0 c1 rs) w -> plen = Z.of_nat (length (report_bytes c0 c1 rs)) ->
  exists w', mld2_report intn mld2r plen os w = Crash NullDeref w'.
Proof.
  intros Hwf Hn Hro Hne Hok Hlen Hb Hp. rewrite (mld2_report_eq intn mld2r plen c0 c1 rs os w Hok Hlen Hb Hp).
  cut (spec (_ ← int_set_mld_version intn 2; changed ← handle_records intn rs false; after_report intn changed) os w
    (fun _ _ => False) (fun f _ => f = NullDeref)).
  { unfold spec. match goal with |- context [match ?o with Ret _ _ => _ | Crash _ _ => _ end] => destruct o as [|f w'] end; [done|]. intros ->. by exists w'. }
  spec_step. eapply spec_mono; [by apply int_set_mld_version_spec| |done]. cbv beta zeta. intros _ w1 Hw1.
  pose proof (becomes_lookup _ _ (lookup_lt_Some _ _ _ Hn) _ _ Hw1) as Hn1. destruct Hw1 as [t Hw1].
  spec_step. eapply spec_mono; [apply (handle_records_returns rs false w1 Hok); [by rewrite Hw1|by eexists]| |done].
  cbv beta. intros changed w2 (Hwf2 & [n2 Hn2] & Hr2 & ->). rewrite Hw1 in Hr2. simpl in Hr2.
  destruct rs as [|r rs]; [done|]. unfold after_report. cbn [when]. spec_step.
  eapply spec_mono; [apply (handle_upstream_faults (Some intn) os w2 Hwf2)| |by intros f w3 [-> _]].
  - intros i [= <-]. by eapply lookup_lt_Some.
  - cbv beta. intros _ w3 [_ [l Hl]]. congruence.
Qed.
End no_kernel.

(** * The theorems on the sample system *)

Definition sample_grecs : list grec := [Grec MLD2_ALLOW_NEW_SOURCES sample_mca [src 1; src 2]; Grec MLD2_MODE_IS_EXCLUDE sample_mca []].
Lemma sample_grecs_ok : Forall grec_ok sample_grecs.
Proof. repeat constructor. Qed.

Lemma mld2_report_parses_witness :
  let w := sample_world [] [] ([1; 2; 3] ++ report_bytes 77 78 sample_grecs ++ [9; 9]) in
  mld2_report 2 3 80 sample_os w =
  (_ ← int_set_mld_version 2 2; changed ← handle_records 2 sample_grecs false; after_report 2 changed) sample_os w.
Proof.
  apply (mld2_report_parses 2 3 80 77 78 sample_grecs); [apply sample_grecs_ok|reflexivity|by exists [1; 2; 3], [9; 9]|reflexivity].
Defined.

(** A report with a record the parser handles, and one whose type has no name. *)
Definition sample_buffer : list Z := replicate 5 7 ++ report_bytes 0 0 (take 1 sample_grecs) ++ replicate 400 7.
Lemma sample_buffer_bytes : bytes sample_buffer /\ Z.of_nat (length sample_buffer) = 465.
Proof. split; [apply (bool_decide_unpack _)|]; by vm_compute. Qed.
Lemma mld2_report_returns_witness :
  returns (mld2_report 2 5 60) sample_os (sample_world [] [] sample_buffer) (fun _ w' => groups_wf (w_groups w') /\ w_buffer w' = sample_buffer).
Proof.
  eapply spec_mono; [apply (mld2_report_returns sample_os 1000 (fun _ => eq_refl) ltac:(lia) ltac:(reflexivity) (fun _ => eq_refl) 2 sample_buffer 5 60
    (proj1 sample_buffer_bytes) ltac:(lia) ltac:(rewrite (proj2 sample_buffer_bytes); lia) _ eth2 []); [lia| |reflexivity..]|..].
  - apply sample_groups_wf; [apply NoDup_nil_2|apply Forall_nil_2].
  - cbv beta. intros _ w' [_ H]. exact H.
  - cbv beta. intros f w' [H _]. vm_compute in H. discriminate H.
Defined.
Example unknown_type_faults :
  exists w', mld2_report 2 0 28 sample_os (sample_world [] [] ([143; 0; 0; 0; 0; 0; 0; 1] ++ [7; 0; 0; 0] ++ sample_mca)) = Crash OutOfBounds w'.
Proof. eexists. by vm_compute. Qed.

(** The report of one record of two sources announces two; the second lies behind the packet. *)
Lemma mld2_report_reads_past_packet_witness :
  let w := sample_world [] [] (report_bytes 77 78 sample_grecs) in
  mld2_report 2 0 60 sample_os w =
  (_ ← int_set_mld_version 2 2; changed ← handle_records 2 sample_grecs false; after_report 2 changed) sample_os w.
Proof.
  apply (mld2_report_reads_past_packet 2 0 60 77 78 (take 1 sample_grecs) (Grec MLD2_MODE_IS_EXCLUDE sample_mca []));
    [apply Forall_take, sample_grecs_ok|by constructor|reflexivity|reflexivity|reflexivity|vm_compute; congruence|by exists [], []].
Defined.
(** The address of a record is read before the code knows that the record is in the packet: here 48 bytes
    of payload, two records announced, the first with 255 bytes of auxiliary data; the parser reads 255 bytes
    past the end of the packet, and faults where the buffer ends before that. *)
Example reads_address_past_packet :
  let packet := [143; 0; 0; 0; 0; 0; 0; 2] ++ [1; 255; 0; 0] ++ sample_mca ++ replicate 20 0 in
  let run n := mld2_report 2 0 48 sample_os (sample_world [] [] (packet ++ replicate n 0)) in
  length packet = 48%nat /\ (exists w, run 254%nat = Crash OutOfBounds w) /\ (exists w, run 255%nat = Ret tt w).
Proof. split_and!; [done|eexists; by vm_compute|eexists; by vm_compute]. Qed.

(** The sample system without kernel routes. *)
Definition without_kernel : world := 
  let w := sample_world [include_entry 2] [] (report_bytes 0 0 sample_grecs) in
  World (w_cfg w) (w_ints w) (w_groups w) None (w_upstream_id w) (w_downstream_id w) 0 (w_stat w) 0 1000 0 900 false false (w_buffer w) 0 [].
Lemma report_without_kernel_crashes_witness : exists w', mld2_report 2 0 80 sample_os without_kernel = Crash NullDeref w'.
Proof.
  apply (report_without_kernel_crashes sample_os 1000 (fun _ => eq_refl) ltac:(lia) ltac:(reflexivity) (fun _ => eq_refl) 2 eth2 0 80 0 0 sample_grecs);
    [|reflexivity|reflexivity|done|apply sample_grecs_ok|reflexivity| |reflexivity].
  - apply (sample_groups_wf [include_entry 2] [] []); [apply NoDup_singleton|auto with ecmh].
  - exists [], []. by rewrite app_nil_r.
Defined.
