(* ===== verification/Daemon.v ===== *)
(** The daemon of [src/ecmh.c]: options, start-up, [update_interfaces], the timer,
    [handleinterfaces], the main loop and the shutdown. *)

From S2P Require Import Prelude Checksum LinkList Msrc World Interfaces Send Groups Routing Mld2Logic Packet.
From stdpp Require Import strings.
#[local] Open Scope Z_scope.

Definition AF_INET : Z := 2.
Definition AF_INET6 : Z := 10.
Definition AF_PACKET : Z := 17.
Definition PACKET_OUTGOING : Z := 4.

(** * Options *)

(** What [getopt_long] answers; [OptUser] tells whether [getpwnam] knows the user. *)
Inductive opt :=
| OptForeground | OptUpstream (s : string) | OptDownstream (s : string) | OptKernel | OptPromisc | OptNopromisc
| OptUser (known : bool) | OptVerbose | OptVersion | OptMld1only | OptMld2only | OptUnknown.

(** [None]: the program ends. *)
Definition option_step (c : config) (o : opt) : option config :=
  match o with
  | OptForeground => Some (Config (c_upstream c) (c_downstream c) false (c_verbose c) (c_mld1only c) (c_mld2only c) (c_kernel c) (c_promisc c) (c_bufferlen c))
  | OptUpstream s =>
    match c_upstream c with
    | Some _ => None
    | None => Some (Config (Some s) (c_downstream c) (c_daemonize c) (c_verbose c) (c_mld1only c) (c_mld2only c) (c_kernel c) (c_promisc c) (c_bufferlen c))
    end
  | OptDownstream s =>
    match c_downstream c with
    | Some _ => None
    | None => Some (Config (c_upstream c) (Some s) (c_daemonize c) (c_verbose c) (c_mld1only c) (c_mld2only c) (c_kernel c) (c_promisc c) (c_bufferlen c))
    end
  | OptKernel => Some (Config (c_upstream c) (c_downstream c) (c_daemonize c) (c_verbose c) (c_mld1only c) (c_mld2only c) true (c_promisc c) (c_bufferlen c))
  | OptPromisc => Some (Config (c_upstream c) (c_downstream c) (c_daemonize c) (c_verbose c) (c_mld1only c) (c_mld2only c) (c_kernel c) true (c_bufferlen c))
  | OptNopromisc => Some (Config (c_upstream c) (c_downstream c) (c_daemonize c) (c_verbose c) (c_mld1only c) (c_mld2only c) (c_kernel c) false (c_bufferlen c))
  | OptUser known => if known then Some c else None
  | OptVerbose => Some (Config (c_upstream c) (c_downstream c) (c_daemonize c) true (c_mld1only c) (c_mld2only c) (c_kernel c) (c_promisc c) (c_bufferlen c))
  | OptVersion => None
  | OptMld1only => Some (Config (c_upstream c) (c_downstream c) (c_daemonize c) (c_verbose c) true false (c_kernel c) (c_promisc c) (c_bufferlen c))
  | OptMld2only => Some (Config (c_upstream c) (c_downstream c) (c_daemonize c) (c_verbose c) false true (c_kernel c) (c_promisc c) (c_bufferlen c))
  | OptUnknown => None
  end.

Fixpoint options (c : config) (l : list opt) : option config :=
  match l with
  | [] => Some c
  | o :: l => match option_step c o with Some c => options c l | None => None end
  end.

(** [init]: the configuration is cleared, then given its defaults. *)
Definition init_config : config := Config None None true false false false false false (32 * 1024).
Definition init (cfg : config) : world :=
  World cfg [] [] None 0 0 0 stats_zero 0 0 0 0 false false [] 0 [].

(** * [update_interfaces] *)

Definition ignored_ifaddr (ifa : ifaddr) : bool :=
  ifa_loopback ifa || negb (ifa_up ifa) || negb (ifa_running ifa) || (ifa_family ifa =? AF_PACKET).
Definition uninteresting_addr (ifa : ifaddr) : bool :=
  (ifa_family ifa =? AF_INET6) && negb (IN6_IS_ADDR_LINKLOCAL (ifa_bytes ifa)) &&
  (IN6_IS_ADDR_UNSPECIFIED (ifa_bytes ifa) || IN6_IS_ADDR_LOOPBACK (ifa_bytes ifa) || IN6_IS_ADDR_MULTICAST (ifa_bytes ifa)).

(** The interface of an address: the [specific] one, or the one found or created;
    the booleans are the "continue" of the specific case and [newintn]. *)
Definition update_find (specific : option nat) (ifa : ifaddr) : M (option nat * bool * bool) :=
  match specific with
  | Some intn =>
    n ← int_at intn;
    mret (Some intn, i_ifindex n =? ifa_ifindex ifa, false)
  | None =>
    found ← int_find (ifa_ifindex ifa);
    match (found : option nat) with
    | Some intn => mret (Some intn, false, false)
    | None =>
      w ← get;
      up ← strcmp_eq (ifa_name ifa) (c_upstream (w_cfg w));
      wanted ← (if (up : bool) then mret true else strcmp_eq (ifa_name ifa) (c_downstream (w_cfg w)));
      if (wanted : bool) then
        created ← int_create (ifa_ifindex ifa);
        mret (created, false, match created with Some _ => true | None => false end)
      else mret (None, false, false)
    end
  end.

(** Recording the address; the result is the new ([gotlinkl], [gotglobal]). *)
Definition update_addr (intn : option nat) (ifa : ifaddr) (got : bool * bool) : M (bool * bool) :=
  match intn with
  | None => mret got
  | Some intn =>
    if (ifa_family ifa =? AF_INET6) && IN6_IS_ADDR_LINKLOCAL (ifa_bytes ifa) then
      _ ← upd_int intn (set_linklocal (ifa_bytes ifa)); mret (true, got.2)
    else if ifa_family ifa =? AF_INET then mret got
    else if ifa_family ifa =? AF_INET6 then
      _ ← upd_int intn (set_global (ifa_bytes ifa)); mret (got.1, true)
    else mret got
  end.

Fixpoint update_loop (specific : option nat) (l : list ifaddr) (got : bool * bool) : M unit :=
  match l with
  | [] => mret tt
  | ifa :: l =>
    if negb (ifa_has_addr ifa) || ignored_ifaddr ifa || uninteresting_addr ifa then update_loop specific l got
    else
      r ← update_find specific ifa;
      let '(intn, skip, newintn) := (r : option nat * bool * bool) in
      if (skip : bool) then update_loop specific l got
      else
        got ← update_addr intn ifa (if specific then got else (false, false));
        match specific with
        | Some _ => if (got.1 && got.2 : bool) then mret tt else update_loop specific l got
        | None =>
          _ ← match intn with
              | Some intn => when (newintn && negb (got.1 || got.2)) (int_destroy intn)
              | None => mret tt
              end;
          update_loop specific l got
        end
  end.

Definition update_interfaces (specific : option nat) : M unit :=
  w ← get;
  now ← time;
  if now <? w_last_update w + 5 * 60 then mret tt
  else
    now ← time;
    _ ← modify (set_last_update now);
    l ← os_call os_getifaddrs;
    match (l : option (list ifaddr)) with
    | None => mret tt
    | Some l => update_loop specific l (false, false)
    end.

(** * Timer, signals *)

Definition timeout : M unit :=
  now ← time;
  _ ← update_interfaces None;
  w ← get;
  _ ← when ((now + w_timeout_offset w) mod ECMH_SUBSCRIPTION_TIMEOUT =? 0) send_mld_querys;
  expire_sources.

Definition timeout_signal : M unit := modify (fun w => set_flags true (w_quit w) w).

Definition sigusr2 : M unit :=
  w ← get;
  match c_upstream (w_cfg w) with
  | None => mret tt
  | Some _ =>
    intn ← int_find (w_upstream_id w);
    match intn with None => mret tt | Some intn => mld2_send_report intn None end
  end.

(** The uptime as days, hours, minutes and seconds; the variables are [unsigned int]. *)
Definition uptime (now start : Z) : Z * Z * Z * Z :=
  let s := u32 (now - start) in
  let d := s / (24 * 60 * 60) in
  let s := u32 (s - d * 24 * 60 * 60) in
  let h := s / (60 * 60) in
  let s := u32 (s - h * 60 * 60) in
  let m := s / 60 in
  let s := u32 (s - m * 60) in
  (d, h, m, s).

Definition ARPHRD_ETHER : Z := 1.
Definition ARPHRD_SIT : Z := 776.

Definition dump_stats (pr ps br bs ir is_ : string) (s : stats) : list dump_line :=
  [DumpNum pr (packets_received s); DumpNum ps (packets_sent s); DumpNum br (bytes_received s);
   DumpNum bs (bytes_sent s); DumpNum ir (icmp_received s); DumpNum is_ (icmp_sent s)].

Definition dump_interface (n : intnode) : list dump_line :=
  [DumpName "Interface: " (i_name n);
   DumpNum "  Index number           : " (i_ifindex n);
   DumpNum "  MTU                    : " (i_mtu n);
   DumpType (if i_hwfamily n =? ARPHRD_ETHER then "Ethernet" else if i_hwfamily n =? ARPHRD_SIT then "sit" else "Unknown") (i_hwfamily n);
   DumpAddr "  Link-local address     : " (i_linklocal n);
   DumpAddr "  Global unicast address : " (i_global n);
   if i_mld_version n =? 0 then DumpText "  MLD version            : none"
   else DumpNum "  MLD version            : v" (i_mld_version n)]
  ++ dump_stats "  Packets received       : " "  Packets sent           : " "  Bytes received         : "
       "  Bytes sent             : " "  ICMP's received        : " "  ICMP's sent            : " (i_stat n)
  ++ [DumpText ""].

(** The interfaces in use. *)
Definition dumped (w : world) : list intnode := filter (fun n => i_mtu n <> 0) (w_ints w).

(** The lines [sigusr1] writes; the list of subscriptions is compiled out, and [subscriptions]
    stays 0. *)
Definition dump_lines (now : Z) (w : world) : list dump_line :=
  let '(d, h, m, s) := uptime now (w_starttime w) in
  let count := Z.of_nat (length (dumped w)) in
  [DumpText "*** Subscription Information Dump"; DumpText ""; DumpText "*** Interface Dump"; DumpText ""]
  ++ concat (dump_interface <$> dumped w)
  ++ [DumpNum "*** Interface Dump (end - interfaces)" count; DumpText ""; DumpText "*** Statistics Dump"; DumpText "";
      DumpText "Version              : ecmh"; DumpTime "Started              : " (w_starttime w); DumpUptime d h m s; DumpText "";
      DumpNum "Interfaces Monitored : " count; DumpNum "Groups Managed       : " (Z.of_nat (length (w_groups w)));
      DumpNum "Total Subscriptions  : " 0; DumpNum "v2 Robustness Factor : " ECMH_ROBUSTNESS_FACTOR;
      DumpNum "Subscription Timeout : " (ECMH_SUBSCRIPTION_TIMEOUT * ECMH_ROBUSTNESS_FACTOR); DumpText ""]
  ++ dump_stats "Packets Received     : " "Packets Sent         : " "Bytes Received       : "
       "Bytes Sent           : " "ICMP's received      : " "ICMP's sent          : " (w_stat w)
  ++ [DumpNum "Hop Limit Exceeded   : " (w_hlim_exceeded w); DumpText ""; DumpText "*** Statistics Dump (end)"].

Definition sigusr1 : M unit :=
  time_tee ← time;
  w ← get;
  emit (EvDump (dump_lines time_tee w)).

(** * Receiving a frame *)

(** [recvfrom] stores the frame at the start of the buffer. *)
Definition store_frame (bytes buffer : list Z) : list Z :=
  take (length buffer) bytes ++ drop (length bytes) buffer.

(** The frame has its 14 bytes of Ethernet header skipped, but not taken off its length. *)
Definition handleinterfaces : M bool :=
  r ← os_call os_recvfrom;
  match r with
  | None => mret false
  | Some fr =>
    _ ← modify (fun w => set_buffer (store_frame (f_bytes fr) (w_buffer w)) w);
    if (f_hatype fr =? ARPHRD_LOOPBACK) || (f_pkttype fr =? PACKET_OUTGOING) then mret true
    else
      let len := Z.of_nat (length (f_bytes fr)) in
      _ ← modify (set_stat (count_received len));
      w ← get;
      let i := f_ifindex fr in
      if negb ((i =? w_upstream_id w) || (i =? w_downstream_id w)) then mret true
      else
        found ← int_find i;
        intn ← match found with
               | Some intn => mret (Some intn)
               | None =>
                 created ← int_create i;
                 match created with
                 | Some intn => _ ← update_interfaces (Some intn); mret (Some intn)
                 | None => mret None
                 end
               end;
        match (intn : option nat) with
        | None => mret true
        | Some intn =>
          _ ← upd_int intn (set_int_stat (count_received len));
          _ ← l2_ethtype intn 14 len (f_protocol fr);
          mret true
        end
  end.

(** * [main] *)

(** [stat_starttime], the last thing [init] sets that is not a constant, and the random phase
    of the queries. *)
Definition start_clock : M unit :=
  started ← time;
  now ← time;
  modify (set_clocks (now mod ECMH_SUBSCRIPTION_TIMEOUT) started).

(** Forking into the background: the parent ends. *)
Definition daemonize : M bool :=
  w ← get;
  if c_daemonize (w_cfg w) then pid ← os_call os_fork; mret (pid =? 0) else mret true.

(** A step of the start-up that may end the program. *)
Definition or_exit (m : M bool) (k : M bool) : M bool := ok ← m; if (ok : bool) then k else mret false.

Definition open_socket : M bool :=
  fd ← os_call os_socket;
  if fd <? 0 then mret false else _ ← emit (EvSocket fd); mret true.
Definition set_option : M bool := r ← os_call os_setsockopt; mret (negb (r <? 0)).

(** Setting up the forwarding cache of the kernel. *)
Definition start_kernel : M unit :=
  w ← get;
  when (c_kernel (w_cfg w))
    (fd ← mrouter_init;
     _ ← modify (set_mr6_fd fd);
     when (0 <? fd)
       (w ← get;
        _ ← mrouter6_addmif fd 0 (w_upstream_id w);
        _ ← mrouter6_addmif fd 1 (w_downstream_id w);
        mret tt)).

(** From the options to the loop; [false] when the program ends there. *)
Definition startup : M bool :=
  _ ← start_clock;
  or_exit daemonize (
  w ← get;
  match c_upstream (w_cfg w) with
  | None => mret false
  | Some _ =>
    memb_db ← os_call os_malloc;
    if negb memb_db then crash NullDeref
    else
      match c_downstream (w_cfg w) with
      | None => mret false
      | Some _ =>
        or_exit (os_call os_fopen) (or_exit open_socket (or_exit open_socket
        (or_exit set_option (or_exit set_option (or_exit (os_call os_malloc) (
        _ ← modify (set_buffer (replicate (Z.to_nat (c_bufferlen (w_cfg w))) 0));
        _ ← update_interfaces None;
        _ ← send_mld_querys;
        _ ← start_kernel;
        mret true))))))
      end
  end).

(** What [select] answers: an error (was it [EINTR]?), or the message read from the routing
    socket if it is ready and whether the packet socket is. *)
Inductive selected := SelError (eintr : bool) | SelReady (upcall : option (list Z)) (packet : bool).

(** [recvmsg] has a buffer of 1024 bytes. *)
Definition message_ok (s : selected) : Prop :=
  match s with SelReady (Some buf) _ => length buf = 1024%nat /\ bytes buf | _ => True end.

(** One round of the loop; the result is [quit]. *)
Definition main_round (s : selected) : M bool :=
  w ← get;
  _ ← when (w_needs_timeout w)
        (_ ← timeout; modify (fun w => set_flags false (w_quit w) w));
  match s with
  | SelError eintr => mret (negb eintr)
  | SelReady upcall packet =>
    w ← get;
    _ ← match upcall with Some buf => mrouter6_handlesocket (w_mr6_fd w) buf | None => mret tt end;
    if (packet : bool) then
      ok ← handleinterfaces; mret (negb ok)
    else mret false
  end.

Definition shutdown : M unit :=
  _ ← modify (set_groups []);
  ids ← all_ints;
  _ ← for_each ids (fun i => n ← int_at i; when (negb (i_mtu n =? 0)) (int_destroy i));
  w ← get;
  when (c_kernel (w_cfg w))
    (_ ← mrouter6_delmif (w_mr6_fd w) 0; _ ← mrouter6_delmif (w_mr6_fd w) 1; mret tt).

(** * Runs *)

(** The daemon between two points where it waits: the alarm, the two user signals, a round
    after which the loop goes on. *)
Inductive step (os : OS) : world -> world -> Prop :=
| step_alarm w w' : timeout_signal os w = Ret tt w' -> step os w w'
| step_usr1 w w' : sigusr1 os w = Ret tt w' -> step os w w'
| step_usr2 w w' : sigusr2 os w = Ret tt w' -> step os w w'
| step_round s w w' : message_ok s -> main_round s os w = Ret false w' -> step os w w'.

Definition running (os : OS) (args : list opt) (w : world) : Prop :=
  exists cfg w0, options init_config args = Some cfg /\ startup os (init cfg) = Ret true w0 /\ rtc (step os) w0 w.

(** The daemon where its loop ends: a signal has set [quit] between two rounds, or a round answered [true], after [select] or the reception failed. *)
Definition ended (os : OS) (args : list opt) (w : world) : Prop :=
  running os args w \/ exists w0 s, running os args w0 /\ message_ok s /\ main_round s os w0 = Ret true w.
