(* ===== verification/Common.v ===== *)
(** [src/common.c]: messages, and the file with the number of the process.  The functions read [g_conf], which is NULL before the
    options are read and points to freed memory at the end of [main]. *)

From S2P Require Import Prelude.
From stdpp Require Import strings pretty.
#[local] Open Scope Z_scope.

(** * Definitions *)

(** [g_conf], with the fields that are read here. *)
Record flags := Flags { f_verbose : bool; f_daemonize : bool; f_quit : bool }.
Inductive conf_ptr := Null | Freed | Conf (f : flags).
#[export] Instance flags_eq_dec : EqDecision flags.
Proof. solve_decision. Defined.
#[export] Instance conf_ptr_eq_dec : EqDecision conf_ptr.
Proof. solve_decision. Defined.

(** A message that was output, a signal that was sent. *)
Inductive output := Syslog (priority : Z) (text : string) | Stdout (text : string) | Signal (pid signal : Z).

(** The process: the file [PIDFILE], as bytes, and what was output so far, the newest first. *)
Record proc := Proc { p_conf : conf_ptr; p_file : option (list Z); p_out : list output }.

(** [syslog.h]: the severities of a message, and the facility [LOG_LOCAL7]. *)
Definition LOG_ERR : Z := 3.
Definition LOG_WARNING : Z := 4.
Definition LOG_INFO : Z := 6.
Definition LOG_DEBUG : Z := 7.
Definition LOG_LOCAL7 : Z := Z.shiftl 23 3.
Definition SIGHUP : Z := 1.
Definition SIGINT : Z := 2.

(** The word of [printf("[%6s] ", ...)]. *)
Definition prefix (level : Z) : string :=
  if level =? LOG_DEBUG then "[ debug] "
  else if level =? LOG_ERR then "[ error] "
  else if level =? LOG_WARNING then "[  warn] "
  else if level =? LOG_INFO then "[  info] "
  else "[      ] ".

Definition put (o : output) (p : proc) : proc := Proc (p_conf p) (p_file p) (o :: p_out p).

(** [None] is an access to the fields of a configuration that is not there. [text] is the formatted message. *)
Definition dolog (level : Z) (text : string) (p : proc) : option proc :=
  match p_conf p with
  | Null => None
  | Freed => None
  | Conf g =>
    if negb (f_verbose g) && (level =? LOG_DEBUG) then Some p
    else if f_daemonize g then Some (put (Syslog (Z.lor LOG_LOCAL7 level) text) p)
    else Some (put (Stdout ((if f_verbose g then prefix level else "") +:+ text)) p)
  end.

(** [log_grp] and [log_ip6addr]; [inet_ntop] writes the address [a] as [ntop a]. The file and the line are those of the call of
    [dolog], whoever calls [log_grp]. *)
Definition newline : string := String (Ascii.ascii_of_nat 10) "".
Section log.
Context (ntop : list Z -> string).
Definition log_grp (log_level : Z) (text : string) (src grp : list Z) : proc -> option proc :=
  dolog log_level ("common.c " +:+ pretty 37%N +:+ ": " +:+ text +:+ ": src=" +:+ ntop src +:+ " grp=" +:+ ntop grp +:+ newline).
Definition log_ip6addr (log_level : Z) (addr : list Z) : proc -> option proc := dolog log_level (ntop addr +:+ newline).
End log.

(** [fprintf(f, "%d", ...)] of an [int]. *)
Fixpoint dec (fuel : nat) (n : Z) (digits : list Z) : list Z :=
  match fuel with
  | O => digits
  | S fuel => let digits := (48 + n mod 10) :: digits in if n <? 10 then digits else dec fuel (n / 10) digits
  end.
Definition print_d (n : Z) : list Z := if n <? 0 then 45 :: dec 10 (- n) [] else dec 10 n [].

(** [fscanf(f, "%d", ...)]: blanks, a sign, digits. [None] leaves the variable as it was. *)
Definition is_space (c : Z) : bool := (c =? 32) || ((9 <=? c) && (c <=? 13)).
Definition is_digit (c : Z) : bool := (48 <=? c) && (c <=? 57).
Fixpoint scan_digits (v : Z) (s : list Z) : Z :=
  match s with c :: s => if is_digit c then scan_digits (10 * v + (c - 48)) s else v | [] => v end.
Definition scan_unsigned (s : list Z) : option Z :=
  match s with c :: _ => if is_digit c then Some (scan_digits 0 s) else None | [] => None end.
Fixpoint scan_d (s : list Z) : option Z :=
  match s with
  | c :: s' => if is_space c then scan_d s'
               else if c =? 45 then Z.opp <$> scan_unsigned s' else if c =? 43 then scan_unsigned s' else scan_unsigned s
  | [] => None
  end.

(** [kill] tells whether the process with this number can be signalled; [garbage] is what [pid] holds before the scan. *)
Definition huprunning (kill : Z -> bool) (garbage : Z) (p : proc) : Z * proc :=
  match p_file p with
  | None => (0, p)
  | Some s => let pid := default garbage (scan_d s) in (if kill pid then 1 else 0, put (Signal pid SIGHUP) p)
  end.

Definition savepid (fopen_ok : bool) (pid : Z) (running_as : Z -> string) (p : proc) : option proc :=
  if negb fopen_ok then Some p
  else dolog LOG_INFO (running_as pid) (Proc (p_conf p) (Some (print_d pid)) (p_out p)).

Definition cleanpid (trying_to_exit : Z -> string) (i : Z) (p : proc) : option proc :=
  p ← dolog LOG_INFO (trying_to_exit i) p;
  match p_conf p with
  | Conf g => Some (Proc (Conf (Flags (f_verbose g) (f_daemonize g) true)) None (p_out p))
  | _ => None
  end.

(** The last two calls of [main]. *)
Definition main_end (trying_to_exit : Z -> string) (p : proc) : option proc :=
  cleanpid trying_to_exit SIGINT (Proc Freed (p_file p) (p_out p)).

(** * Printing and scanning numbers *)

Definition value (v : Z) (s : list Z) : Z := fold_left (fun v c => 10 * v + (c - 48)) s v.

Lemma dec_spec fuel : forall n l, 0 <= n < 10 ^ Z.of_nat fuel -> Forall (fun c => is_digit c = true) l ->
  Forall (fun c => is_digit c = true) (dec fuel n l) /\ value 0 (dec fuel n l) = value n l.
Proof.
  induction fuel as [|fuel IH]; intros n l Hn Hl.
  { simpl in Hn. by replace n with 0 by lia. }
  cbn [dec]. pose proof (Z.mod_pos_bound n 10). pose proof (Z.div_mod n 10).
  assert (Hd : Forall (fun c => is_digit c = true) ((48 + n mod 10) :: l)).
  { constructor; [|done]. unfold is_digit. apply andb_true_intro; split; apply Z.leb_le; lia. }
  destruct (Z.ltb_spec n 10) as [H10|H10].
  - split; [done|]. simpl. f_equal. rewrite Z.mod_small by lia. lia.
  - destruct (IH (n / 10) ((48 + n mod 10) :: l)) as [IH1 IH2]; [|done|].
    + split; [apply Z.div_pos; lia|]. apply Z.div_lt_upper_bound; [lia|]. replace (Z.of_nat (S fuel)) with (Z.succ (Z.of_nat fuel)) in Hn by lia.
      rewrite Z.pow_succ_r in Hn; lia.
    + split; [exact IH1|]. rewrite IH2. simpl. f_equal. lia.
Qed.
Lemma dec_nonempty fuel n l : (0 < fuel)%nat -> dec fuel n l ≠ [].
Proof.
  revert n l. induction fuel as [|fuel IH]; intros n l Hf; [lia|]. cbn [dec]. destruct (n <? 10); [done|].
  destruct fuel; [done|]. apply IH. lia.
Qed.
Lemma scan_digits_value s v : Forall (fun c => is_digit c = true) s -> scan_digits v s = value v s.
Proof. intros Hs. revert v. induction Hs as [|c s Hc Hs IH]; intros v; [done|]. simpl. rewrite Hc. apply IH. Qed.
Lemma scan_unsigned_dec n : 0 <= n < 10 ^ 10 -> scan_unsigned (dec 10 n []) = Some n.
Proof.
  intros Hn. destruct (dec_spec 10 n [] Hn) as [Hd Hv]; [constructor|]. pose proof (dec_nonempty 10 n [] ltac:(lia)) as Hne.
  destruct (dec 10 n []) as [|c s]; [done|]. unfold scan_unsigned. rewrite scan_digits_value, Hv by done.
  apply Forall_cons in Hd as [Hd _]. by rewrite Hd.
Qed.

Lemma scan_print n : - 2 ^ 31 <= n < 2 ^ 31 -> scan_d (print_d n) = Some n.
Proof.
  intros Hn. unfold print_d. destruct (Z.ltb_spec n 0).
  - cbn [scan_d]. simpl is_space. cbv iota. simpl (45 =? 45). cbv iota. rewrite scan_unsigned_dec by lia. simpl. f_equal. lia.
  - pose proof (scan_unsigned_dec n ltac:(lia)) as Hs. destruct (dec 10 n []) as [|c s]; [done|]. simpl in Hs |- *.
    destruct (is_digit c) eqn:Ec; [|done]. rewrite <-Hs. unfold is_digit, is_space in *. apply andb_prop in Ec as [E1%Z.leb_le E2%Z.leb_le].
    by rewrite (proj2 (Z.eqb_neq c 32)), (proj2 (Z.leb_gt c 13)), andb_false_r, (proj2 (Z.eqb_neq c 45)), (proj2 (Z.eqb_neq c 43)) by lia.
Qed.

(** * The theorems *)

(** A message needs the configuration; a debug message is output in verbose mode only; a daemon's messages go to the log, with their
    severity in the low three bits and the facility above them. *)
Lemma dolog_spec level text p : 0 <= level < 8 ->
  match p_conf p with
  | Conf g => exists o, dolog level text p = Some (Proc (Conf g) (p_file p) (o ++ p_out p)) /\
      (o = [] <-> f_verbose g = false /\ level = LOG_DEBUG) /\
      (f_daemonize g = true -> Forall (fun x => exists pr, x = Syslog pr text /\ Z.land pr 7 = level /\ Z.shiftr pr 3 = 23) o)
  | _ => dolog level text p = None
  end.
Proof.
  intros Hl. unfold dolog. destruct (p_conf p) as [| |g] eqn:Ep; [done..|].
  assert (Hput : forall o, put o p = Proc (Conf g) (p_file p) ([o] ++ p_out p)) by (intros o; unfold put; by rewrite Ep).
  destruct (negb (f_verbose g) && (level =? LOG_DEBUG)) eqn:Eq.
  { apply andb_prop in Eq as [Ev%negb_true_iff El%Z.eqb_eq]. exists []. split_and!; [destruct p; simpl in *; congruence|done|by constructor]. }
  assert (Hout : forall o : output, [o] = [] <-> f_verbose g = false /\ level = LOG_DEBUG).
  { intros o. split; [done|]. intros [Ev ->]. by rewrite Ev in Eq. }
  destruct (f_daemonize g); eexists; rewrite Hput; (split_and!; [done|apply Hout|]); [|done].
  intros _. constructor; [|done]. eexists; split; [done|].
  assert (level = 0 \/ level = 1 \/ level = 2 \/ level = 3 \/ level = 4 \/ level = 5 \/ level = 6 \/ level = 7) as Hc by lia.
  by destruct Hc as [->|[->|[->|[->|[->|[->|[->| ->]]]]]]].
Qed.

(** C39: The file with the process number: after a daemon with a configuration saved its number, [huprunning] sends SIGHUP to that process
    and to no other and answers whether it is there, whatever [pid] held before; after [cleanpid] it sends nothing and answers 0, and the
    daemon is told to quit. *)
Theorem pidfile_roundtrip kill garbage pid running_as trying_to_exit i g f out :
  0 < pid < 2 ^ 31 ->
  exists p, savepid true pid running_as (Proc (Conf g) f out) = Some p /\
    huprunning kill garbage p = (if kill pid then 1 else 0, put (Signal pid SIGHUP) p) /\
    exists p', cleanpid trying_to_exit i p = Some p' /\ huprunning kill garbage p' = (0, p') /\
      p_conf p' = Conf (Flags (f_verbose g) (f_daemonize g) true).
Proof.
  intros Hpid. assert (Hlevel : 0 <= LOG_INFO < 8) by done.
  destruct (dolog_spec LOG_INFO (running_as pid) (Proc (Conf g) (Some (print_d pid)) out) Hlevel) as (o & Hd & _).
  eexists. split; [exact Hd|]. simpl. split; [unfold huprunning; simpl; by rewrite scan_print by lia|].
  destruct (dolog_spec LOG_INFO (trying_to_exit i) (Proc (Conf g) (Some (print_d pid)) (o ++ out)) Hlevel) as (o' & Hd' & _).
  unfold cleanpid. rewrite Hd'. simpl. by eexists.
Qed.

(** [main] ends with [cleanpid] after [free(g_conf)]: the message reads, and [quit] is written to, memory that was given back. *)
Lemma main_end_faults trying_to_exit p : main_end trying_to_exit p = None.
Proof. done. Qed.
(** A message before the configuration is there, as of [huprunning]'s callers or of a failed allocation, reads NULL. *)
Lemma dolog_without_configuration level text f out : dolog level text (Proc Null f out) = None.
Proof. done. Qed.

Lemma pidfile_roundtrip_witness :
  exists p, savepid true 4711 (fun _ => "Running as PID 4711"%string) (Proc (Conf (Flags false true false)) None []) = Some p /\
    huprunning (fun pid => pid =? 4711) 99 p = (1, put (Signal 4711 SIGHUP) p) /\
    exists p', cleanpid (fun _ => "Trying to exit, got signal 15..."%string) 15 p = Some p' /\ huprunning (fun pid => pid =? 4711) 99 p' = (0, p') /\
      p_conf p' = Conf (Flags false true true).
Proof. by apply (pidfile_roundtrip (fun pid => pid =? 4711) 99 4711). Defined.

(** A file with another content makes it signal whatever [pid] held. *)
Example huprunning_garbage : (huprunning (fun _ => true) 1 (Proc Null (Some []) [])).2 = Proc Null (Some []) [Signal 1 SIGHUP].
Proof. reflexivity. Qed.
