(* ===== verification/Printing.v ===== *)
(** The functions that only print: [mrec_print] of [src/mrec.c], [print_sources] of [src/msrc.c], [mdb_print] and the record and address
    printers of [src/mship_db.c], [mld_log] of [src/ecmh.c].  Each is a sequence of messages of [Common.dolog]. *)

From S2P Require Import Prelude LinkList Msrc Common.
From stdpp Require Import strings pretty.
#[local] Open Scope Z_scope.

(** * Definitions *)

Definition printer : Type := proc -> option proc.
Definition andthen (f g : printer) : printer := fun p => p ← f p; g p.
(** [LIST_LOOP] with a body that prints. *)
Fixpoint print_each {A} (f : A -> printer) (l : list A) : printer :=
  match l with [] => Some | x :: l => andthen (f x) (print_each f l) end.

(** [inet_ntop], and the address of the buffer it writes to. *)
Section print.
Context (ntop : in6_addr -> string) (addr1 : Z).

(** [%s %llu] of the text and of the address of the buffer the text is in. *)
Definition source_line (addr : in6_addr) : string := ntop addr +:+ " " +:+ pretty addr1 +:+ newline.
Definition record_line (m : mrec) : string := "(" +:+ ntop (m_mca m) +:+ ", " +:+ mld_grec_mode (m_filter_mode m) +:+ ", {" +:+ newline.

Definition mrec_print (m : mrec) : printer :=
  andthen (dolog LOG_DEBUG (record_line m))
    (andthen (print_each (fun src => dolog LOG_DEBUG (source_line (s_addr src))) (live (m_source_list m)))
      (dolog LOG_DEBUG ("})" +:+ newline))).

Definition print_sources (srcs : sources) : printer :=
  andthen (dolog LOG_DEBUG ("{" +:+ newline))
    (andthen (print_each (fun src => log_ip6addr ntop LOG_DEBUG (s_addr src)) (live srcs))
      (dolog LOG_DEBUG ("}" +:+ newline))).

(** [src/mship_db.c] has its own [mrec_print], with the same text, and its own [log_ip6addr], which does not look at the level. *)
Definition mdb_mrec_print : mrec -> printer := mrec_print.
Definition mdb_log_ip6addr (log_level : Z) (addr : in6_addr) : printer := dolog LOG_DEBUG (source_line addr).
Definition mdb_print (memb_db : list (option mrec)) : printer :=
  andthen (dolog LOG_DEBUG ("Membership database: {" +:+ newline))
    (andthen (print_each mdb_mrec_print (live memb_db)) (dolog LOG_DEBUG ("}" +:+ newline))).

(** [fmt] is the format with its three arguments. *)
Definition mld_log (level : Z) (fmt : string -> string -> Z -> string) (i_mca : in6_addr) (name : string) (ifindex : Z) : printer :=
  dolog level (fmt (ntop i_mca) name ifindex).

(** * What is printed *)

(** The lines of a record and of a database. *)
Definition record_lines (m : mrec) : list string :=
  record_line m :: ((fun src => source_line (s_addr src)) <$> live (m_source_list m)) ++ ["})" +:+ newline].
Definition database_lines (memb_db : list (option mrec)) : list string :=
  ["Membership database: {" +:+ newline] ++ concat (record_lines <$> live memb_db) ++ ["}" +:+ newline].
Definition sources_lines (srcs : sources) : list string :=
  ["{" +:+ newline] ++ ((fun src => ntop (s_addr src) +:+ newline) <$> live srcs) ++ ["}" +:+ newline].

(** The debug messages of a process with configuration [g]: none unless it is verbose. *)
Definition output_of (g : flags) (line : string) : output :=
  if f_daemonize g then Syslog (Z.lor LOG_LOCAL7 LOG_DEBUG) line else Stdout (Common.prefix LOG_DEBUG +:+ line).
Definition debugged (g : flags) (lines : list string) (p : proc) : proc :=
  Proc (p_conf p) (p_file p) ((if f_verbose g then rev (output_of g <$> lines) else []) ++ p_out p).

Definition prints (f : printer) (lines : list string) : Prop :=
  forall p g, p_conf p = Conf g -> f p = Some (debugged g lines p).

Lemma prints_nil : prints Some [].
Proof. intros [c f o] g _. unfold debugged. by destruct (f_verbose g). Qed.
Lemma prints_line line : prints (dolog LOG_DEBUG line) [line].
Proof.
  intros [c f o] g Hg. simpl in Hg. subst c. unfold dolog, debugged, put, output_of. simpl.
  destruct (f_verbose g); simpl; [|done]. by destruct (f_daemonize g).
Qed.
Lemma prints_andthen f1 f2 l1 l2 : prints f1 l1 -> prints f2 l2 -> prints (andthen f1 f2) (l1 ++ l2).
Proof.
  intros H1 H2 p g Hg. unfold andthen. rewrite (H1 p g Hg). simpl. rewrite (H2 _ g) by done. unfold debugged. simpl.
  destruct (f_verbose g); [|done]. by rewrite fmap_app, rev_app_distr, app_assoc.
Qed.
Lemma prints_each {A} (f : A -> printer) (lines : A -> list string) l :
  (forall x, prints (f x) (lines x)) -> prints (print_each f l) (concat (lines <$> l)).
Proof. intros Hf. induction l as [|x l IH]; [apply prints_nil|]. by apply prints_andthen. Qed.
Lemma prints_each_line {A} (f : A -> string) (l : list A) : prints (print_each (fun x => dolog LOG_DEBUG (f x)) l) (f <$> l).
Proof. induction l as [|x l IH]; [apply prints_nil|]. apply (prints_andthen _ _ [_]); [apply prints_line|done]. Qed.

Lemma mrec_print_lines m : prints (mrec_print m) (record_lines m).
Proof. apply (prints_andthen _ _ [_]); [apply prints_line|]. apply prints_andthen; [apply prints_each_line|apply prints_line]. Qed.
Lemma print_sources_lines srcs : prints (print_sources srcs) (sources_lines srcs).
Proof. apply (prints_andthen _ _ [_]); [apply prints_line|]. apply prints_andthen; [apply prints_each_line|apply prints_line]. Qed.

(** A database is printed record by record and source by source, each NULL left out, between its two lines, and nothing unless the
    program is verbose. *)
Theorem mdb_print_lines memb_db : prints (mdb_print memb_db) (database_lines memb_db).
Proof.
  apply (prints_andthen _ _ [_]); [apply prints_line|]. apply prints_andthen; [|apply prints_line].
  apply prints_each. exact mrec_print_lines.
Qed.
End print.
