(* ===== verification/Typed.v ===== *)
(** The C types of the state: a judgement [ty P m], which says of a command that it keeps every
    field of the state, and every argument of a system call, in the range of its C type, and
    returns a value in [P]; one rule per operation, and the theorem that every run is well typed. *)

From S2P Require Import Prelude Checksum LinkList Msrc World Interfaces Send Groups Routing Mld2Logic Packet Daemon.
#[local] Open Scope Z_scope.

(** * Types *)

(** An unsigned and a signed integer of [n] bits. *)
Definition uint (n x : Z) : Prop := 0 <= x < 2 ^ n.
Definition sint (n x : Z) : Prop := - 2 ^ (n - 1) <= x < 2 ^ (n - 1).
(** [struct in6_addr]; one that is not given. *)
Definition addr (a : in6_addr) : Prop := length a = 16%nat /\ bytes a.
Definition opt_addr (a : option in6_addr) : Prop := from_option addr True a.

Record stats_typed (s : stats) : Prop := {
  st_pr : uint 64 (packets_received s); st_ps : uint 64 (packets_sent s);
  st_br : uint 64 (bytes_received s); st_bs : uint 64 (bytes_sent s);
  st_ir : uint 64 (icmp_received s); st_is : uint 64 (icmp_sent s) }.

(** Indexes of interfaces are positive [int]s; a version is 0 until an MLD message was seen. *)
Record int_typed (n : intnode) : Prop := {
  it_ifindex : uint 31 (i_ifindex n); it_mtu : uint 32 (i_mtu n);
  it_version : 0 <= i_mld_version n <= 2; it_last_v1 : sint 64 (i_mld_last_v1 n); it_hwfamily : uint 16 (i_hwfamily n);
  it_linklocal : addr (i_linklocal n); it_global : addr (i_global n); it_stat : stats_typed (i_stat n);
  it_socket : sint 32 (i_upstream_socket n) }.

(** [timer] is a [time_t], but every value stored there is an [unsigned int] before. *)
Definition msrc_typed (s : msrc) : Prop := addr (s_addr s) /\ uint 32 (s_timer s).
(** The list nodes without data are the ones of [list_add_all]. *)
Definition srcs_typed (l : sources) : Prop := Forall (from_option msrc_typed True) l.

Record grpint_typed (g : grpintnode) : Prop := {
  gt_ifindex : uint 31 (gi_ifindex g); gt_includes : srcs_typed (gi_includes g); gt_excludes : srcs_typed (gi_excludes g);
  gt_mode : gi_filter_mode g = MLD2_MODE_IS_INCLUDE \/ gi_filter_mode g = MLD2_MODE_IS_EXCLUDE; gt_timer : uint 32 (gi_filter_timer g) }.

Record group_typed (g : groupnode) : Prop := {
  gt_mca : addr (g_mca g); gt_interfaces : Forall grpint_typed (g_interfaces g); gt_lastforward : sint 64 (g_lastforward g);
  gt_bytes : uint 64 (g_bytes g); gt_packets : uint 64 (g_packets g) }.

Definition route_typed (r : kernel_route6) : Prop := addr (r_src r) /\ addr (r_grp r) /\ r_parent r = 0.

(** The arguments of the system calls: a packet fits the 16 bits of its length, an Ethernet
    address has six bytes, the multicast interfaces of the kernel are 0 and 1. *)
Definition event_typed (e : event) : Prop :=
  match e with
  | EvSendto ifindex hatype mac packet =>
    uint 31 ifindex /\ uint 16 hatype /\ length mac = 6%nat /\ bytes mac /\ Z.of_nat (length packet) < 2 ^ 16 /\ bytes packet
  | EvSocket fd | EvClose fd | EvMrouterInit fd => sint 32 fd
  | EvJoinGroup fd ifindex group => sint 32 fd /\ uint 31 ifindex /\ addr group
  | EvMsFilter fd ifindex group fmode slist => sint 32 fd /\ uint 31 ifindex /\ addr group /\
      (fmode = MLD2_MODE_IS_INCLUDE \/ fmode = MLD2_MODE_IS_EXCLUDE) /\ Forall opt_addr slist
  | EvMfc _ fd vif src grp => sint 32 fd /\ vif = 0 /\ addr src /\ addr grp
  | EvMif _ fd mif pif => sint 32 fd /\ (mif = 0 \/ mif = 1) /\ uint 31 pif
  | EvPromisc ifindex => uint 31 ifindex
  | EvDump _ => True
  end.

Record typed (w : world) : Prop := {
  t_ints : Forall int_typed (w_ints w); t_groups : Forall group_typed (w_groups w);
  t_routes : from_option (Forall route_typed) True (w_routes w);
  t_upstream : uint 31 (w_upstream_id w); t_downstream : uint 31 (w_downstream_id w); t_mr6_fd : sint 32 (w_mr6_fd w);
  t_stat : stats_typed (w_stat w); t_hlim : uint 64 (w_hlim_exceeded w);
  t_update : sint 64 (w_last_update w); t_offset : 0 <= w_timeout_offset w < ECMH_SUBSCRIPTION_TIMEOUT;
  t_start : sint 64 (w_starttime w); t_buffer : bytes (w_buffer w); t_trace : Forall event_typed (w_trace w) }.

(** What the C types of its interface say of the answers of the system. *)
Record os_typed (os : OS) : Prop := {
  ot_time : forall t, sint 64 (os_time os t);
  ot_socket : forall t, sint 32 (os_socket os t);
  ot_hwfamily : forall t i f, os_if_hwfamily os t i = Some f -> uint 16 f;
  ot_getifaddrs : forall t l ifa, os_getifaddrs os t = Some l -> ifa ∈ l ->
    uint 31 (ifa_ifindex ifa) /\ (ifa_family ifa = AF_INET6 -> addr (ifa_bytes ifa));
  ot_recvfrom : forall t fr, os_recvfrom os t = Some fr -> bytes (f_bytes fr) /\ uint 31 (f_ifindex fr) }.

(** * Facts on the types *)

Create HintDb ty discriminated.

Lemma uint_u n x : 0 <= n -> uint n (x mod 2 ^ n).
Proof. intros Hn. apply Z.mod_pos_bound. by apply Z.pow_pos_nonneg. Qed.
Lemma uint_u16 x : uint 16 (u16 x).
Proof. by apply uint_u. Qed.
Lemma uint_u32 x : uint 32 (u32 x).
Proof. by apply uint_u. Qed.
Lemma uint_u64 x : uint 64 (u64 x).
Proof. by apply uint_u. Qed.
#[export] Hint Resolve uint_u16 uint_u32 uint_u64 is_byte_mod bytes_le16 : ty.

Lemma bytes_take n l : bytes l -> bytes (take n l).
Proof. apply Forall_take. Qed.
Lemma bytes_drop n l : bytes l -> bytes (drop n l).
Proof. apply Forall_drop. Qed.
Lemma bytes_app_2 a b : bytes a -> bytes b -> bytes (a ++ b).
Proof. intros. by apply bytes_app. Qed.
Lemma bytes_zeros n : bytes (replicate n 0).
Proof. apply Forall_replicate. split; lia. Qed.
Lemma bytes_cons b l : is_byte b -> bytes l -> bytes (b :: l).
Proof. by constructor. Qed.
Lemma bytes_nil : bytes [].
Proof. constructor. Qed.
Lemma is_byte_u8 x : is_byte (u8 x).
Proof. apply is_byte_mod. Qed.
#[export] Hint Resolve bytes_take bytes_drop bytes_app_2 bytes_zeros bytes_cons bytes_nil is_byte_u8 : ty.
#[export] Hint Extern 1 (is_byte _) => solve [unfold is_byte; lia | by split] : ty.

Lemma addr_bytes a : addr a -> bytes a.
Proof. by intros []. Qed.
Lemma addr_any : addr in6addr_any.
Proof. split; [done|apply bytes_zeros]. Qed.
Lemma addr_all_nodes : addr all_nodes.
Proof. split; [done|]. unfold all_nodes. auto 20 with ty. Qed.
#[export] Hint Resolve addr_bytes addr_any addr_all_nodes : ty.

(** ** Headers and packets *)

Lemma mac_typed iph : bytes iph -> (40 <= length iph)%nat -> length (multicast_mac iph) = 6%nat /\ bytes (multicast_mac iph).
Proof.
  intros Hb Hl. unfold multicast_mac. split; [|auto 10 with ty]. rewrite length_app, length_take, length_drop. cbn [length]. lia.
Qed.

Lemma ip6_hdr_typed plen nxt hlim src dst :
  is_byte nxt -> is_byte hlim -> addr src -> addr dst -> bytes (ip6_hdr plen nxt hlim src dst) /\ length (ip6_hdr plen nxt hlim src dst) = 40%nat.
Proof.
  intros Hn Hh [Ls Bs] [Ld Bd]. unfold ip6_hdr. split; [auto 20 with ty|]. rewrite !length_app, Ls, Ld. done.
Qed.

(** ** Sources *)

Lemma live_typed l s : srcs_typed l -> s ∈ live l -> msrc_typed s.
Proof. intros Hl Hs%elem_of_live. unfold srcs_typed in Hl. rewrite Forall_forall in Hl. exact (Hl _ Hs). Qed.
Lemma srcs_typed_live l : srcs_typed l <-> Forall msrc_typed (live l).
Proof.
  split; [intros H; apply Forall_forall; intros s; by apply live_typed|]. intros H. apply Forall_forall. intros [s|] Hs; [|done].
  rewrite Forall_forall in H. apply (H s). by apply elem_of_live.
Qed.

(** A loop over a list that only adds elements of it. *)
Lemma fold_typed (f : sources -> msrc -> sources) (b : list msrc) : forall a,
  (forall a s, srcs_typed a -> msrc_typed s -> srcs_typed (f a s)) -> srcs_typed a -> Forall msrc_typed b -> srcs_typed (fold_left f b a).
Proof. induction b as [|s b IH]; intros a Hf Ha Hb; simpl; [done|]. apply Forall_cons in Hb as []. auto. Qed.

Lemma srcs_snoc l o : srcs_typed l -> from_option msrc_typed True o -> srcs_typed (listnode_add l o).
Proof. intros. apply Forall_app. split; [done|]. by apply Forall_singleton. Qed.
Lemma srcs_nil : srcs_typed [].
Proof. constructor. Qed.
Lemma srcs_delete l k : srcs_typed l -> srcs_typed (listnode_delete l k).
Proof. apply Forall_delete. Qed.
#[export] Hint Resolve srcs_snoc srcs_nil srcs_delete : ty.
#[export] Hint Extern 0 (from_option _ True None) => exact I : ty.

Ltac srcs_fold := repeat (apply fold_typed; [intros; repeat case_match; auto with ty| |]).
Lemma srcs_intersect a b : srcs_typed a -> srcs_typed b -> srcs_typed (list_intersect msrc_cmp a b).
Proof. intros Ha%srcs_typed_live Hb%srcs_typed_live. unfold list_intersect. cbv zeta. srcs_fold; auto with ty. Qed.
Lemma srcs_difference a b : srcs_typed a -> srcs_typed (list_difference msrc_cmp a b).
Proof. intros Ha%srcs_typed_live. unfold list_difference. srcs_fold; auto with ty. Qed.
Lemma srcs_union a b : srcs_typed a -> srcs_typed b -> srcs_typed (list_union msrc_cmp a (Some b)).
Proof. intros Ha%srcs_typed_live Hb%srcs_typed_live. unfold list_union. cbv zeta. srcs_fold; auto with ty. Qed.
Lemma srcs_remove_all a b : srcs_typed a -> srcs_typed b -> srcs_typed (list_remove_all msrc_cmp a b).
Proof. intros Ha Hb%srcs_typed_live. unfold list_remove_all. srcs_fold; auto with ty. Qed.
Lemma srcs_add_all a b : srcs_typed a -> srcs_typed b -> srcs_typed (list_add_all msrc_cmp a b).
Proof. intros Ha Hb%srcs_typed_live. unfold list_add_all. srcs_fold; auto with ty. Qed.
Lemma srcs_timers l which t : srcs_typed l -> srcs_typed (set_source_timers l which t).
Proof.
  intros Hl. apply Forall_fmap. unfold srcs_typed in Hl. eapply Forall_impl; [exact Hl|]. intros [s|]; simpl; [|done].
  intros [Ha Ht]. case_match; split; simpl; auto with ty.
Qed.
#[export] Hint Resolve srcs_intersect srcs_difference srcs_union srcs_remove_all srcs_add_all srcs_timers : ty.

Lemma mrec_typed m l : srcs_typed (m_source_list m) -> Forall addr l -> srcs_typed (m_source_list (mrec_add_addrs m l)).
Proof.
  revert m. induction l as [|a l IH]; intros m Hm Hl; simpl; [done|]. apply Forall_cons in Hl as [Ha Hl]. apply IH; [|done].
  rewrite mrec_add_source_addr_fst. unfold mrec_add_source. case_match; simpl; [done|]. apply srcs_snoc; [done|]. split; [done|]. split; simpl; lia.
Qed.

(** * The judgement *)

Section typing.
Context (os : OS) (Hos : os_typed os).

Definition ty {A} (P : A -> Prop) (m : M A) : Prop :=
  forall w, typed w -> spec m os w (fun a w' => P a /\ typed w') (fun _ w' => typed w').
(** A result of which nothing is said. *)
Definition any {A} (_ : A) : Prop := True.

Section rules.
Context {A B : Type}.
Implicit Types (P : A -> Prop) (Q : B -> Prop).

Lemma ty_ret P (a : A) : P a -> ty P (mret a).
Proof. by intros Ha w Hw. Qed.
Lemma ty_crash P f : ty P (crash (A := A) f).
Proof. by intros w Hw. Qed.
Lemma ty_bind P Q (m : M A) (k : A -> M B) : ty P m -> (forall a, P a -> ty Q (k a)) -> ty Q (m ≫= k).
Proof.
  intros Hm Hk w Hw. apply spec_bind. eapply spec_mono; [apply Hm, Hw| |done].
  cbv beta. intros a w' [Ha Hw']. by apply Hk.
Qed.
Lemma ty_weaken P P' (m : M A) : ty P m -> (forall a, P a -> P' a) -> ty P' m.
Proof. intros Hm HP w Hw. eapply spec_mono; [apply Hm, Hw| |done]. cbv beta. intros a w' [Ha Hw']. auto. Qed.
Lemma ty_any P (m : M A) : ty P m -> ty any m.
Proof. intros H. by eapply ty_weaken. Qed.
Lemma ty_os_call P (f : OS -> nat -> A) : (forall t, P (f os t)) -> ty P (os_call f).
Proof. intros Hf w []. by apply spec_os_call. Qed.
Lemma ty_for_each (l : list A) body : (forall x, x ∈ l -> ty any (body x)) -> ty any (for_each l body).
Proof.
  induction l as [|x l IH]; intros Hb; cbn [for_each]; [by intros w Hw|]. intros w Hw. apply spec_bind.
  eapply spec_mono; [apply (Hb x); [left|done]| |done]. cbv beta. intros [] w' [_ Hw']. apply IH; [|done]. intros y Hy. apply Hb. by right.
Qed.
End rules.

Lemma ty_when b m : ty any m -> ty any (when b m).
Proof. destruct b; [done|]. intros _. by apply ty_ret. Qed.
Lemma ty_get : ty typed get.
Proof. by intros w Hw. Qed.
Lemma ty_modify f : (forall w, typed w -> typed (f w)) -> ty any (modify f).
Proof. intros Hf w Hw. split; [done|by apply Hf]. Qed.
Lemma ty_time : ty (sint 64) time.
Proof. apply ty_os_call. apply Hos. Qed.
Lemma ty_socket : ty (sint 32) (os_call os_socket).
Proof. apply ty_os_call. apply Hos. Qed.
Lemma ty_emit e : event_typed e -> ty any (emit e).
Proof. intros He. apply ty_modify. intros w []. split; try done. by constructor. Qed.

(** Access to the interfaces, the groups and the buffer. *)
Lemma ty_int_at i : ty int_typed (int_at i).
Proof.
  intros w Hw. unfold int_at. do 2 spec_step. destruct (w_ints w !! i) as [n|] eqn:En; spec_step; [|done]. split; [|done].
  exact (Forall_lookup_1 _ _ _ _ (t_ints _ Hw) En).
Qed.
Lemma ty_upd_int i f : (forall n, int_typed n -> int_typed (f n)) -> ty any (upd_int i f).
Proof.
  intros Hf. eapply ty_bind; [apply ty_int_at|]. intros _ _. apply ty_modify. intros w []. split; try done.
  apply Forall_alter; [done|]. auto.
Qed.
Lemma ty_group_at g : ty group_typed (group_at g).
Proof.
  intros w Hw. unfold group_at. do 2 spec_step. destruct (w_groups w !! g) as [n|] eqn:En; spec_step; [|done]. split; [|done].
  exact (Forall_lookup_1 _ _ _ _ (t_groups _ Hw) En).
Qed.
Lemma ty_upd_group g f : (forall x, group_typed x -> group_typed (f x)) -> ty any (upd_group g f).
Proof.
  intros Hf. eapply ty_bind; [apply ty_group_at|]. intros _ _. apply ty_modify. intros w []. split; try done.
  apply Forall_alter; [done|]. auto.
Qed.
Lemma ty_grpint_at p : ty grpint_typed (grpint_at p).
Proof.
  eapply ty_bind; [apply ty_group_at|]. intros g Hg. destruct (g_interfaces g !! p.2) as [gi|] eqn:Ei; [|apply ty_crash].
  apply ty_ret. exact (Forall_lookup_1 _ _ _ _ (gt_interfaces _ Hg) Ei).
Qed.
Lemma ty_upd_grpint p f : (forall x, grpint_typed x -> grpint_typed (f x)) -> ty any (upd_grpint p f).
Proof.
  intros Hf. eapply ty_bind; [apply ty_grpint_at|]. intros _ _. apply ty_upd_group. intros x []. split; try done.
  apply Forall_alter; [done|]. auto.
Qed.

Lemma ty_load off len : ty (fun l => bytes l /\ length l = Z.to_nat len) (load off len).
Proof.
  intros w Hw. unfold load. do 2 spec_step. destruct (_ && _) eqn:Hb; spec_step; [|done]. split; [|done].
  apply andb_prop in Hb as [[? ?]%andb_prop ?]. pose proof (t_buffer _ Hw). split; [auto with ty|].
  rewrite length_take, length_drop. lia.
Qed.
Lemma ty_load_addr off : ty addr (load off 16).
Proof. eapply ty_weaken; [apply ty_load|]. by intros l []. Qed.
Lemma ty_load8 off : ty is_byte (load8 off).
Proof.
  eapply ty_bind; [apply ty_load|]. intros l [Hl Hlen]. apply ty_ret. destruct Hl; simpl; [by split|done].
Qed.
Lemma ty_load16 off : ty (uint 16) (load16 off).
Proof.
  eapply ty_bind; [apply ty_load|]. intros l [Hl Hlen]. apply ty_ret.
  destruct Hl as [|hi l Hhi Hl]; [done|]. destruct Hl as [|lo l Hlo Hl]; [done|]. destruct Hl; [|done]. unfold uint, is_byte in *. lia.
Qed.
Lemma ty_named {A} (o : option A) : ty any (named o).
Proof. destruct o; [by apply ty_ret|apply ty_crash]. Qed.
Lemma ty_store8 off v : ty any (store8 off v).
Proof.
  eapply ty_bind; [apply ty_load|]. intros _ _. apply ty_modify. intros w []. split; try done. simpl. apply Forall_insert; auto with ty.
Qed.

(** ** Automation: the rule of each command, a case analysis per branch *)

#[local] Hint Resolve ty_crash ty_named ty_get ty_time ty_socket ty_int_at ty_group_at ty_grpint_at ty_load_addr ty_load8 ty_load16 ty_store8 : ty.
#[local] Hint Extern 0 (any _) => exact I : ty.
#[local] Hint Extern 2 (ty any _) => eapply ty_any : ty.
#[local] Hint Extern 3 (ty _ (load _ _)) => apply ty_load : ty.
#[local] Hint Extern 3 (ty _ (os_call _)) => apply (ty_os_call any); done : ty.
#[local] Hint Extern 3 (_ <= _ <= _) => lia : ty.
#[local] Hint Extern 3 (_ <= _ < _) => lia : ty.
#[local] Hint Resolve it_ifindex it_hwfamily it_linklocal it_global it_socket gt_ifindex gt_includes gt_excludes gt_mode gt_timer
  gt_mca t_upstream t_downstream t_mr6_fd : ty.
#[local] Hint Extern 3 (uint _ _) => unfold uint; lia : ty.
#[local] Hint Extern 3 (sint _ _) => unfold sint; lia : ty.
(** A record of the state, with some fields replaced. *)
Ltac ty_fields := intros ? []; split; simpl; auto with ty.
#[local] Hint Extern 3 (ty _ (modify _)) => apply ty_modify; ty_fields; fail : ty.
#[local] Hint Extern 3 (ty _ (upd_int _ _)) => apply ty_upd_int; ty_fields; fail : ty.
#[local] Hint Extern 3 (ty _ (upd_group _ _)) => apply ty_upd_group; ty_fields; fail : ty.
#[local] Hint Extern 3 (ty _ (upd_grpint _ _)) => apply ty_upd_grpint; ty_fields; fail : ty.
#[local] Hint Extern 3 (ty _ (emit _)) => apply ty_emit; simpl; auto 10 with ty; fail : ty.

Ltac ty_intros :=
  let H := fresh "H" in intros ? H; cbv beta in H; lazymatch type of H with _ /\ _ => let H' := fresh H in destruct H as [H H'] | _ => idtac end.
Ltac ty_step :=
  match goal with
  | |- ty _ (mret _) => apply ty_ret; solve [auto with ty]
  | |- ty _ (_ ≫= _) => eapply ty_bind; [solve [eauto 10 with ty]|ty_intros]
  | |- ty _ (match ?x with _ => _ end ≫= _) => apply (ty_bind any); [|intros ? _]
  | |- ty _ (when _ _) => apply ty_when
  | |- ty _ (match ?x with _ => _ end) => destruct x eqn:?
  | |- ty _ (let _ := _ in _) => cbv zeta
  | |- ty _ (_ ≫= _) => apply (ty_bind any); [|intros ? _]
  | |- ty _ _ => solve [eauto 10 with ty]
  end.
Ltac ty_auto := repeat ty_step.

(** * Interfaces *)

Lemma ty_int_find i : ty any (int_find i).
Proof. unfold int_find. ty_auto. Qed.
Lemma ty_int_destroy i : ty any (int_destroy i).
Proof. unfold int_destroy. ty_auto. Qed.
Lemma ty_set_mld i v : v = 1 \/ v = 2 -> ty any (int_set_mld_version i v).
Proof. intros Hv. unfold int_set_mld_version. ty_auto. Qed.
#[local] Hint Resolve ty_int_find ty_int_destroy ty_set_mld : ty.

Lemma stats_zero_typed : stats_typed stats_zero.
Proof. split; simpl; auto with ty. Qed.
#[local] Hint Resolve stats_zero_typed : ty.
Lemma intnode_zero_typed : int_typed intnode_zero.
Proof. split; simpl; auto with ty. Qed.
#[local] Hint Resolve intnode_zero_typed : ty.
Lemma count_received_typed len s : stats_typed s -> stats_typed (count_received len s).
Proof. intros []. split; simpl; auto with ty. Qed.
Lemma count_sent_typed len s : stats_typed s -> stats_typed (count_sent len s).
Proof. intros []. split; simpl; auto with ty. Qed.
Lemma count_icmp_received_typed s : stats_typed s -> stats_typed (count_icmp_received s).
Proof. intros []. split; simpl; auto with ty. Qed.
Lemma count_icmp_sent_typed s : stats_typed s -> stats_typed (count_icmp_sent s).
Proof. intros []. split; simpl; auto with ty. Qed.
#[local] Hint Resolve count_received_typed count_sent_typed count_icmp_received_typed count_icmp_sent_typed : ty.

Lemma ty_int_resize i : ty any (int_resize i).
Proof.
  unfold int_resize. ty_auto. apply ty_modify. ty_fields. apply Forall_app. split; [done|]. apply Forall_replicate. auto with ty.
Qed.
Lemma ty_int_create_fail i sock : sint 32 sock -> ty any (int_create_fail i sock).
Proof. intros Hs. unfold int_create_fail. ty_auto. Qed.
Lemma ty_int_create_finish i sock ifindex name : sint 32 sock -> uint 31 ifindex -> ty any (int_create_finish i sock ifindex name).
Proof. intros Hs Hi. unfold int_create_finish. ty_auto. Qed.
#[local] Hint Resolve ty_int_resize ty_int_create_fail ty_int_create_finish : ty.
Lemma ty_strcmp a b : ty any (strcmp_eq a b).
Proof. unfold strcmp_eq. ty_auto. Qed.
Lemma ty_hwfamily i : ty (from_option (uint 16) True) (os_call (fun os t => os_if_hwfamily os t i)).
Proof. apply ty_os_call. intros t. destruct (os_if_hwfamily os t i) eqn:E; [|done]. by apply (ot_hwfamily _ Hos t i). Qed.
#[local] Hint Resolve ty_strcmp ty_hwfamily : ty.
Lemma ty_int_create ifindex : uint 31 ifindex -> ty any (int_create ifindex).
Proof.
  intros Hi. unfold int_create. ty_auto.
Qed.
#[local] Hint Resolve ty_int_create : ty.

(** * Packets *)

Lemma sent_length len (l : list Z) : uint 16 len -> Z.of_nat (length (take (Z.to_nat len) l)) < 2 ^ 16.
Proof. unfold uint. rewrite length_take. lia. Qed.
#[local] Hint Resolve sent_length : ty.
Lemma ty_sendpacket6 i iph len :
  bytes iph -> (40 <= length iph)%nat -> uint 16 len -> ty any (sendpacket6 i iph len).
Proof.
  intros Hb Hl Hlen. pose proof (mac_typed iph Hb Hl) as [Hm Hmb]. unfold sendpacket6, after_send. ty_auto.
Qed.
#[local] Hint Resolve ty_sendpacket6 : ty.
Lemma ty_count_icmp i : ty any (count_icmp i).
Proof. unfold count_icmp. ty_auto. Qed.
#[local] Hint Resolve ty_count_icmp : ty.
Lemma icmp_body_typed type code cksum d n : bytes d -> bytes ([u8 type; u8 code] ++ le16 cksum ++ d ++ replicate n 0).
Proof. intros. auto 10 with ty. Qed.
Lemma ty_icmp6_send i src type code data dlen : addr src -> ty any (icmp6_send i src type code data dlen).
Proof.
  intros Hs. unfold icmp6_send, name_icmpv6. ty_auto.
  destruct (ip6_hdr_typed (u16 (dlen + 4)) IPPROTO_ICMPV6 64 (i_global a) src) as [Hb Hl]; [eauto with ty..|].
  apply ty_sendpacket6; [auto 10 using icmp_body_typed with ty|rewrite length_app; lia|auto with ty].
Qed.
#[local] Hint Resolve ty_icmp6_send : ty.

Lemma mld1_bytes_typed type mrc csum mca : is_byte type -> addr mca -> bytes (mld1_bytes type mrc csum mca).
Proof. intros ? []. unfold mld1_bytes. auto 10 with ty. Qed.
#[local] Hint Resolve mld1_bytes_typed : ty.
Lemma query_bytes_typed only csum mca src s : addr mca -> opt_addr src -> bytes (mld_query_bytes only csum mca src s).
Proof.
  intros. unfold mld_query_bytes, mld2_query_tail. apply bytes_app_2; [auto with ty|]. destruct only; [auto with ty|].
  destruct s; destruct src; simpl in *; unfold ECMH_ROBUSTNESS_FACTOR, ECMH_SUBSCRIPTION_TIMEOUT; simpl; auto 10 with ty.
Qed.
Lemma routeralert_typed : bytes hbh_routeralert.
Proof. unfold hbh_routeralert. auto 20 with ty. Qed.
#[local] Hint Resolve query_bytes_typed routeralert_typed : ty.
Lemma query_packet_typed only linklocal mca src s :
  addr linklocal -> addr mca -> opt_addr src -> let packet := mld_query_packet only linklocal mca src s in
  bytes packet /\ (40 <= length packet < 200)%nat.
Proof.
  intros Hl Hm Hs packet. unfold packet, mld_query_packet. cbv zeta.
  set (plen := 48 + _ - 40). set (csum := ipv6_checksum _ _ _). clearbody plen csum.
  destruct (ip6_hdr_typed plen IPPROTO_HOPOPTS 1 linklocal all_nodes) as [Hb Hlen]; [auto with ty..|].
  split; [auto 10 with ty|]. rewrite !length_app, Hlen. unfold mld_query_bytes, mld2_query_tail, mld1_bytes.
  destruct Hm as [Lm _]. rewrite !length_app. destruct only, src as [x|]; simpl; rewrite ?Lm; try (destruct Hs as [Ls _]; rewrite Ls); lia.
Qed.
Lemma ty_mld_send_query i mca src s : addr mca -> opt_addr src -> ty any (mld_send_query i mca src s).
Proof.
  intros Hm Hs. unfold mld_send_query. ty_auto.
  destruct (query_packet_typed (c_mld1only (w_cfg a0)) (i_linklocal a) mca src s) as [Hb Hl]; [auto with ty..|].
  cbv zeta in Hb, Hl. apply ty_sendpacket6; [done|lia|unfold uint; lia].
Qed.
#[local] Hint Resolve ty_mld_send_query : ty.
Lemma ty_mld_send_mquery i mca (srcs : sources) s : addr mca -> srcs_typed srcs -> ty any (mld_send_mquery i mca srcs s).
Proof.
  intros Hm Hs. apply ty_for_each. intros x Hx. apply ty_mld_send_query; [done|]. by apply (live_typed srcs).
Qed.
Lemma ty_mld1_send_report i mca : addr mca -> ty any (mld1_send_report i mca).
Proof.
  intros Hm. unfold mld1_send_report, mld1_report_packet. ty_auto.
  set (csum := ipv6_checksum _ _ _). clearbody csum.
  destruct (ip6_hdr_typed 32 IPPROTO_HOPOPTS 1 (i_linklocal a) mca) as [Hb Hl]; [auto with ty..|].
  assert (Hlen : length (mld1_bytes MLD_LISTENER_REPORT 0 csum mca) = 24%nat).
  { unfold mld1_bytes. rewrite !length_app. by destruct Hm as [-> _]. }
  apply ty_sendpacket6; [auto 10 with ty|rewrite length_app; lia|]. rewrite !length_app, Hl, Hlen. by split.
Qed.
Lemma ty_mld2_send_report i mca : ty any (mld2_send_report i mca).
Proof. unfold mld2_send_report. ty_auto. Qed.
#[local] Hint Resolve ty_mld_send_mquery ty_mld1_send_report ty_mld2_send_report : ty.
Lemma ty_mld_send_report i mca : addr mca -> ty any (mld_send_report i mca).
Proof. intros Hm. unfold mld_send_report. ty_auto. Qed.
#[local] Hint Resolve ty_mld_send_report : ty.
Lemma ty_all_ints : ty any all_ints.
Proof. unfold all_ints. ty_auto. Qed.
#[local] Hint Resolve ty_all_ints : ty.
Lemma ty_mld_send_report_all i mca : addr mca -> ty any (mld_send_report_all i mca).
Proof. intros Hm. unfold mld_send_report_all. ty_auto. apply ty_for_each. intros. ty_auto. Qed.
Lemma ty_send_mld_querys : ty any send_mld_querys.
Proof. unfold send_mld_querys. ty_auto. apply ty_for_each. intros. ty_auto. Qed.
#[local] Hint Resolve ty_mld_send_report_all ty_send_mld_querys : ty.

(** * Groups *)

Lemma ty_group_find mca : ty any (group_find mca).
Proof. unfold group_find. ty_auto. Qed.
#[local] Hint Resolve ty_group_find : ty.
Lemma ty_group_create mca : addr mca -> ty (from_option group_typed True) (group_create mca).
Proof. intros Hm. unfold group_create. ty_auto. apply ty_ret. split; simpl; auto with ty. Qed.
Lemma ty_grpint_create i : ty (from_option grpint_typed True) (grpint_create i).
Proof. unfold grpint_create. ty_auto. apply ty_ret. split; simpl; auto with ty. Qed.
#[local] Hint Resolve ty_group_create ty_grpint_create : ty.
Lemma ty_groupint_interface g i b : ty any (groupint_interface g i b).
Proof.
  unfold groupint_interface. ty_auto. apply ty_upd_group. ty_fields. apply Forall_app. split; [done|]. by apply Forall_singleton.
Qed.
#[local] Hint Resolve ty_groupint_interface : ty.
Lemma ty_groupint_get mca i : addr mca -> ty any (groupint_get mca i).
Proof.
  intros Hm. unfold groupint_get. ty_auto. apply ty_modify. ty_fields. apply Forall_app. split; [done|]. by apply Forall_singleton.
Qed.
#[local] Hint Resolve ty_groupint_get : ty.

(** * Routing *)

Lemma ty_setsourcefilter s i group fmode slist :
  sint 32 s -> uint 31 i -> addr group -> fmode = MLD2_MODE_IS_INCLUDE \/ fmode = MLD2_MODE_IS_EXCLUDE -> Forall opt_addr slist ->
  ty any (setsourcefilter s i group fmode slist).
Proof. intros. unfold setsourcefilter. ty_auto. Qed.
Lemma filter_slots_typed l : srcs_typed l -> Forall opt_addr (filter_slots l).
Proof.
  intros Hl%srcs_typed_live. unfold filter_slots. apply Forall_app. split; [|by apply Forall_replicate].
  rewrite <-list_fmap_compose. apply Forall_fmap. eapply Forall_impl; [exact Hl|]. by intros s [].
Qed.
#[local] Hint Resolve ty_setsourcefilter filter_slots_typed : ty.
Lemma ty_mcast_set_filter s i mca fmode l :
  sint 32 s -> uint 31 i -> addr mca -> fmode = MLD2_MODE_IS_INCLUDE \/ fmode = MLD2_MODE_IS_EXCLUDE -> srcs_typed l ->
  ty any (mcast_set_filter s i mca fmode l).
Proof. intros. unfold mcast_set_filter. ty_auto. Qed.
Lemma ty_mcast_socket : ty (sint 32) mcast_socket_create6.
Proof. unfold mcast_socket_create6. ty_auto. Qed.
Lemma ty_mcast_join s i group : sint 32 s -> uint 31 i -> addr group -> ty any (mcast_join_group s i group).
Proof. intros. unfold mcast_join_group. ty_auto. Qed.
#[local] Hint Resolve ty_mcast_set_filter ty_mcast_socket ty_mcast_join : ty.

Lemma ty_check_grpint gi i src : ty any (check_grpint gi i src).
Proof. unfold check_grpint. ty_auto. Qed.
#[local] Hint Resolve ty_check_grpint : ty.
Lemma ty_check_grpints l i src : ty any (check_grpints l i src).
Proof. induction l as [|gi l IH]; cbn [check_grpints]; ty_auto. Qed.
#[local] Hint Resolve ty_check_grpints : ty.
Lemma ty_check_groups l i src grp : ty any (check_groups l i src grp).
Proof. induction l as [|g l IH]; cbn [check_groups]; ty_auto. Qed.
#[local] Hint Resolve ty_check_groups : ty.
Lemma ty_check_route i src grp : ty any (check_route i src grp).
Proof. unfold check_route. ty_auto. Qed.
Lemma ty_changeroute fd src dst add : sint 32 fd -> addr src -> addr dst -> ty any (mrouter6_changeroute fd 0 src dst add).
Proof. intros. unfold mrouter6_changeroute. ty_auto. Qed.
#[local] Hint Resolve ty_check_route ty_changeroute : ty.
#[local] Hint Unfold mrouter6_add_route mrouter6_del_route : ty.
Lemma ty_get_routes : ty (Forall route_typed) get_routes.
Proof.
  intros w Hw. unfold get_routes. do 2 spec_step. pose proof (t_routes _ Hw). by destruct (w_routes w).
Qed.
#[local] Hint Resolve ty_get_routes : ty.
Lemma ty_save_route src dst : addr src -> addr dst -> ty any (save_route 0 src dst).
Proof.
  intros. unfold save_route. ty_auto. apply ty_modify. ty_fields. apply Forall_app. split; [done|]. by apply Forall_singleton.
Qed.
Lemma ty_have_route src dst : ty any (have_route 0 src dst).
Proof. unfold have_route. ty_auto. Qed.
#[local] Hint Resolve ty_save_route ty_have_route : ty.

Lemma ty_expire_loop fd i l : sint 32 fd -> Forall route_typed l -> ty (Forall route_typed) (expire_loop fd i l).
Proof.
  intros Hfd. remember (length l) as k eqn:Hk. revert l Hk. induction (lt_wf k) as [k _ IH]. intros l -> Hl.
  destruct Hl as [|r l Hr Hl]; cbn [expire_loop]; [ty_auto|]. eapply ty_bind; [eauto with ty|]. intros wanted _.
  destruct wanted.
  - eapply ty_bind; [eapply (IH (length l)); [simpl; lia|done..]|]. intros rest Hrest. apply ty_ret. by constructor.
  - eapply ty_bind; [apply ty_changeroute; [done|apply Hr..]|]. intros _ _. destruct Hl as [|r' l Hr' Hl]; [ty_auto|].
    eapply ty_bind; [eapply (IH (length l)); [simpl; lia|done..]|]. intros rest Hrest. apply ty_ret. by constructor.
Qed.
#[local] Hint Resolve ty_expire_loop : ty.
Lemma ty_expire_routes fd : sint 32 fd -> ty any (expire_routes fd).
Proof. intros. unfold expire_routes. ty_auto. Qed.
#[local] Hint Resolve ty_expire_routes : ty.

Lemma ty_mrouter_init : ty (sint 32) mrouter_init.
Proof. unfold mrouter_init. ty_auto. Qed.
Lemma ty_addmif fd mif pif : sint 32 fd -> mif = 0 \/ mif = 1 -> uint 31 pif -> ty any (mrouter6_addmif fd mif pif).
Proof. intros. unfold mrouter6_addmif. ty_auto. Qed.
Lemma ty_handlesocket fd buf : sint 32 fd -> length buf = 1024%nat -> bytes buf -> ty any (mrouter6_handlesocket fd buf).
Proof.
  intros Hfd Hl Hb. assert (Hs : addr (upcall_src buf) /\ addr (upcall_dst buf)).
  { unfold upcall_src, upcall_dst. split; (split; [rewrite length_take, length_drop; lia|auto with ty]). }
  destruct Hs. unfold mrouter6_handlesocket, mrouter6_add_route. ty_auto.
Qed.
#[local] Hint Resolve ty_mrouter_init ty_addmif ty_handlesocket : ty.

Lemma ty_upstream_grpint i mca sock gi :
  addr mca -> sint 32 sock -> grpint_typed gi -> ty (sint 32) (upstream_grpint i mca sock gi).
Proof.
  intros Hm Hs Hg. unfold upstream_grpint. do 2 ty_step. destruct (negb _); [ty_auto|]. cbv zeta.
  destruct (Nat.eqb _ 0 && _); [ty_auto|]. eapply (ty_bind (sint 32)); [destruct (sock =? 0); ty_auto|].
  intros s Hs'. destruct (gi_filter_mode gi =? MLD2_MODE_IS_INCLUDE); ty_auto.
Qed.
#[local] Hint Resolve ty_upstream_grpint : ty.
Lemma ty_upstream_grpints i mca l : addr mca -> Forall grpint_typed l -> forall sock, sint 32 sock -> ty (sint 32) (upstream_grpints i mca sock l).
Proof. intros Hm Hl. induction Hl as [|gi l Hg Hl IH]; intros sock Hs; cbn [upstream_grpints]; ty_auto; auto. Qed.
#[local] Hint Resolve ty_upstream_grpints gt_interfaces : ty.
Lemma ty_upstream_groups i l : Forall group_typed l -> forall sock, sint 32 sock -> ty (sint 32) (upstream_groups i sock l).
Proof. intros Hl. induction Hl as [|g l Hg Hl IH]; intros sock Hs; cbn [upstream_groups]; ty_auto; auto. Qed.
#[local] Hint Resolve ty_upstream_groups t_groups : ty.
Lemma ty_handle_upstream i : ty any (handle_upstream_subscription i).
Proof. unfold handle_upstream_subscription. ty_auto. Qed.
#[local] Hint Resolve ty_handle_upstream : ty.

(** * The state machine *)

Lemma ty_remove_grpintn p : ty any (remove_grpintn p).
Proof.
  unfold remove_grpintn. eapply ty_bind; [apply ty_grpint_at|intros _ _].
  eapply ty_bind; [apply ty_upd_group; ty_fields; by apply Forall_delete|intros _ _]. ty_auto.
  apply ty_modify. ty_fields. by apply Forall_delete.
Qed.
#[local] Hint Resolve ty_remove_grpintn : ty.
Lemma ty_expire_source p k now : ty any (expire_source p k now).
Proof. unfold expire_source. ty_auto. Qed.
Lemma ty_switch p : ty any (mld2_switch_to_include p).
Proof. unfold mld2_switch_to_include. ty_auto. Qed.
#[local] Hint Resolve ty_expire_source ty_switch : ty.
Lemma ty_expire_loop_source p now k : forall removed, ty any (expire_loop_source p k now removed).
Proof. induction k as [|k IH]; intros removed; cbn [expire_loop_source]; ty_auto. Qed.
#[local] Hint Resolve ty_expire_loop_source : ty.
Lemma ty_expire_loop_interface g now k : forall removed, ty any (expire_loop_interface g k now removed).
Proof. induction k as [|k IH]; intros removed; cbn [expire_loop_interface]; ty_auto. Qed.
#[local] Hint Resolve ty_expire_loop_interface : ty.
Lemma ty_expire_loop_group now k : ty any (expire_loop_group k now).
Proof. induction k as [|k IH]; cbn [expire_loop_group]; ty_auto. Qed.
#[local] Hint Resolve ty_expire_loop_group : ty.
Lemma ty_expire_sources : ty any expire_sources.
Proof. unfold expire_sources. ty_auto. Qed.
#[local] Hint Resolve ty_expire_sources : ty.

Section branches.
Context (intn : nat) (p : nat * nat) (mca : in6_addr) (mode : Z) (B : sources) (Hm : addr mca) (HB : srcs_typed B).
Lemma ty_include_add : ty any (include_add intn p mca mode B).
Proof.
  unfold include_add. ty_step. cbv zeta. ty_step. eapply (ty_bind srcs_typed); [destruct (_ =? _); ty_auto|]. intros l Hl. ty_auto.
Qed.
Lemma ty_include_to_exclude : ty any (include_to_exclude intn p mca mode B).
Proof. unfold include_to_exclude. ty_auto. Qed.
Lemma ty_include_block : ty any (include_block intn p mca B).
Proof. unfold include_block. ty_auto. Qed.
Lemma ty_exclude_add : ty any (exclude_add intn p mca mode B).
Proof.
  unfold exclude_add. ty_step. cbv zeta. ty_step. eapply (ty_bind srcs_typed); [destruct (_ =? _); ty_auto|]. intros l Hl. ty_auto.
Qed.
Lemma ty_exclude_replace : ty any (exclude_replace intn p mca mode B).
Proof. unfold exclude_replace, remove_all_xy, set_timers_xy, set_timers_xy_time. ty_auto. Qed.
Lemma ty_exclude_block : ty any (exclude_block intn p mca B).
Proof. unfold exclude_block, set_timers_xy_time. ty_auto. Qed.
End branches.
#[local] Hint Resolve ty_include_add ty_include_to_exclude ty_include_block ty_exclude_add ty_exclude_replace ty_exclude_block : ty.

Lemma ty_handle_downstream intn m : addr (m_mca m) -> srcs_typed (m_source_list m) -> ty any (handle_downstream_subscription intn m).
Proof. intros. unfold handle_downstream_subscription. ty_auto. Qed.
#[local] Hint Resolve ty_handle_downstream : ty.

(** * The receive path *)

Lemma ty_load_addrs n : forall o, ty (Forall addr) (load_addrs o n).
Proof.
  induction n as [|n IH]; intros o; cbn [load_addrs]; [by apply ty_ret|].
  eapply ty_bind; [apply ty_load_addr|]. intros a Ha. eapply ty_bind; [apply IH|]. intros l Hl. apply ty_ret. by constructor.
Qed.
Lemma ty_l3_ipv4 i iph len : ty any (l3_ipv4 i iph len).
Proof. unfold l3_ipv4. ty_auto. Qed.
Lemma ty_mld1_report i o : ty any (mld1_report i o).
Proof. unfold mld1_report. ty_auto. Qed.
Lemma ty_mld1_reduction i o : ty any (mld1_reduction i o).
Proof. unfold mld1_reduction. ty_auto. Qed.
#[local] Hint Resolve ty_load_addrs ty_l3_ipv4 ty_mld1_report ty_mld1_reduction : ty.
Lemma ty_mld2_grecs i r plen n : forall grec h, ty any (mld2_grecs i r plen n grec h).
Proof.
  induction n as [|n IH]; intros grec h; cbn [mld2_grecs]; unfold name_grec; ty_auto.
  apply ty_handle_downstream; [by rewrite (proj1 (mrec_add_addrs_mca _ _))|]. by apply mrec_typed; [apply srcs_nil|].
Qed.
#[local] Hint Resolve ty_mld2_grecs : ty.
Lemma ty_mld2_report i o plen : ty any (mld2_report i o plen).
Proof. unfold mld2_report. ty_auto. Qed.
Lemma ty_mld_query i plen : ty any (mld_query i plen).
Proof.
  unfold mld_query. eapply ty_bind; [apply ty_set_mld; case_match; auto|intros _ _]. ty_auto. apply ty_for_each. intros g Hg. apply ty_for_each. intros gi _.
  pose proof (t_groups _ H) as Hgs. rewrite Forall_forall in Hgs. specialize (Hgs g Hg). ty_auto.
Qed.
#[local] Hint Resolve ty_mld2_report ty_mld_query : ty.

Lemma ty_multicast_loop i iph len src g k : uint 16 len -> ty any (multicast_loop i iph len src g k).
Proof.
  intros Hlen. induction k as [|k IH]; cbn [multicast_loop]; ty_auto; (apply ty_sendpacket6; [done| |done]);
    unfold uint, sizeof_ip6_hdr in *; lia.
Qed.
#[local] Hint Resolve ty_multicast_loop : ty.
Lemma ty_l4_ipv6_multicast i iph len : uint 16 len -> ty any (l4_ipv6_multicast i iph len).
Proof. intros. unfold l4_ipv6_multicast. ty_auto. Qed.
Lemma ty_decrease_hlim iph : ty any (decrease_hlim iph).
Proof. unfold decrease_hlim. ty_auto. Qed.
Lemma ty_recompute_checksum iph o plen : ty any (recompute_checksum iph o plen).
Proof. unfold recompute_checksum. ty_auto. Qed.
Lemma ty_mld_message i t o plen : ty any (mld_message i t o plen).
Proof. unfold mld_message. ty_auto. Qed.
#[local] Hint Resolve ty_l4_ipv6_multicast ty_decrease_hlim ty_recompute_checksum ty_mld_message : ty.
Lemma ty_l4_ipv6_icmpv6 i iph len o plen : uint 16 len -> ty any (l4_ipv6_icmpv6 i iph len o plen).
Proof. intros. unfold l4_ipv6_icmpv6, name_received, name_icmpv6. ty_auto. Qed.
Lemma ty_skip_headers iph len n : forall t ipe plen, ty any (skip_headers n iph len t ipe plen).
Proof. induction n as [|n IH]; intros; cbn [skip_headers]; ty_auto. Qed.
#[local] Hint Resolve ty_l4_ipv6_icmpv6 ty_skip_headers : ty.
Lemma ty_l3_ipv6 i iph len : uint 16 len -> ty any (l3_ipv6 i iph len).
Proof. intros. unfold l3_ipv6. ty_auto. Qed.
#[local] Hint Resolve ty_l3_ipv6 : ty.
Lemma ty_l2_ethtype i o len t : ty any (l2_ethtype i o len t).
Proof. unfold l2_ethtype. ty_auto. Qed.
#[local] Hint Resolve ty_l2_ethtype : ty.

(** * The daemon *)

Definition ifaddr_typed (ifa : ifaddr) : Prop := uint 31 (ifa_ifindex ifa) /\ (ifa_family ifa = AF_INET6 -> addr (ifa_bytes ifa)).
Lemma ty_update_find s ifa : ifaddr_typed ifa -> ty any (update_find s ifa).
Proof. intros []. unfold update_find. ty_auto. Qed.
Lemma ty_update_addr i ifa got : ifaddr_typed ifa -> ty any (update_addr i ifa got).
Proof.
  intros [_ Ha]. unfold update_addr. ty_auto.
  all: try (apply andb_prop in Heqb as [Heqb _]).
  all: assert (addr (ifa_bytes ifa)) by (apply Ha; lia); ty_auto.
Qed.
#[local] Hint Resolve ty_update_find ty_update_addr : ty.
Lemma ty_update_loop s l : Forall ifaddr_typed l -> forall got, ty any (update_loop s l got).
Proof. intros Hl. induction Hl as [|ifa l Hi Hl IH]; intros got; cbn [update_loop]; ty_auto. Qed.
Lemma ty_getifaddrs : ty (from_option (Forall ifaddr_typed) True) (os_call os_getifaddrs).
Proof.
  apply ty_os_call. intros t. destruct (os_getifaddrs os t) as [l|] eqn:E; [|done]. apply Forall_forall. intros ifa Hi.
  by apply (ot_getifaddrs _ Hos t l).
Qed.
#[local] Hint Resolve ty_update_loop ty_getifaddrs : ty.
Lemma ty_update_interfaces s : ty any (update_interfaces s).
Proof. unfold update_interfaces. ty_auto. Qed.
#[local] Hint Resolve ty_update_interfaces : ty.

Definition frame_typed (fr : frame) : Prop := bytes (f_bytes fr) /\ uint 31 (f_ifindex fr).
Lemma ty_recvfrom : ty (from_option frame_typed True) (os_call os_recvfrom).
Proof. apply ty_os_call. intros t. destruct (os_recvfrom os t) as [fr|] eqn:E; [|done]. by apply (ot_recvfrom _ Hos t). Qed.
Lemma store_frame_typed l b : bytes l -> bytes b -> bytes (store_frame l b).
Proof. intros. unfold store_frame. auto with ty. Qed.
#[local] Hint Resolve ty_recvfrom store_frame_typed : ty.
Lemma ty_handleinterfaces : ty any handleinterfaces.
Proof.
  unfold handleinterfaces. ty_step. destruct a as [fr|]; [destruct H as [Hb Hi]|]; ty_auto.
Qed.
Lemma ty_timeout : ty any timeout.
Proof. unfold timeout. ty_auto. Qed.
#[local] Hint Resolve ty_handleinterfaces ty_timeout : ty.
Lemma ty_main_round s : message_ok s -> ty any (main_round s).
Proof. intros Hs. unfold main_round. ty_auto. destruct Hs. eauto with ty. Qed.
Lemma ty_sigusr1 : ty any sigusr1.
Proof. unfold sigusr1. ty_auto. Qed.
Lemma ty_sigusr2 : ty any sigusr2.
Proof. unfold sigusr2. ty_auto. Qed.
Lemma ty_timeout_signal : ty any timeout_signal.
Proof. unfold timeout_signal. ty_auto. Qed.
Lemma ty_start_clock : ty any start_clock.
Proof.
  unfold start_clock. ty_auto. apply ty_modify. ty_fields. apply Z.mod_pos_bound. done.
Qed.
Lemma ty_or_exit m k : ty any m -> ty any k -> ty any (or_exit m k).
Proof. intros. unfold or_exit. ty_auto. Qed.
Lemma ty_start_kernel : ty any start_kernel.
Proof. unfold start_kernel. ty_auto. Qed.
#[local] Hint Resolve ty_start_clock ty_or_exit ty_start_kernel : ty.
Lemma ty_startup : ty any startup.
Proof. unfold startup, daemonize, open_socket, set_option. repeat first [progress ty_auto | apply ty_or_exit]. Qed.

Lemma init_typed cfg : typed (init cfg).
Proof. split; simpl; auto with ty. by split. Qed.

Lemma ty_Ret {A} P (m : M A) w a w' : ty P m -> typed w -> m os w = Ret a w' -> typed w'.
Proof. intros Hm Hw E. specialize (Hm w Hw). unfold spec in Hm. rewrite E in Hm. apply Hm. Qed.
Lemma step_typed w w' : step os w w' -> typed w -> typed w'.
Proof.
  intros [? ? E|? ? E|? ? E|s ? ? Hs E] Hw; eapply ty_Ret; try exact E; try exact Hw.
  - apply ty_timeout_signal.
  - apply ty_sigusr1.
  - apply ty_sigusr2.
  - by apply ty_main_round.
Qed.
End typing.

(** C6: In every run, on a system whose answers have their C types, the whole state keeps its C types: counters are 64 bits wide, filter
    and source timers 32, addresses 16 bytes; and every system call is given arguments of its C types, a packet to be sent
    being at most 65535 bytes with an Ethernet address of six. *)
Theorem running_typed os args w : os_typed os -> running os args w -> typed w.
Proof.
  intros Hos (cfg & w0 & _ & Hs & Hr).
  assert (H0 : typed w0) by exact (ty_Ret os _ _ _ _ _ (ty_startup os Hos) (init_typed cfg) Hs).
  clear Hs. induction Hr as [|? ? ? Hst _ IH]; [done|]. apply IH. by apply (step_typed os Hos _ _ Hst).
Qed.

