(* ===== verification/TimerFacts.v ===== *)
(** The wrap-around of the 32-bit timers: the clock is 64 bits wide, the timers it is compared with are not. *)

From S2P Require Import Prelude Checksum LinkList Msrc World Interfaces Groups Samples Routing Mld2Logic Mld2Expire Typed.
#[local] Open Scope Z_scope.

(** No timer reaches a clock of [2 ^ 32] seconds, which is in February 2106. *)
Lemma typed_source_expired now s : msrc_typed s -> 2 ^ 32 <= now -> s_timer s <= now.
Proof. intros [_ [_ ?]] ?. lia. Qed.
Lemma expired_sources now l : srcs_typed l -> 2 ^ 32 <= now -> live (filter (source_alive now) l) = [].
Proof.
  intros Hl Hnow. induction Hl as [|o l Ho Hl IH]; [done|]. destruct o as [s|]; rewrite filter_cons; simpl.
  - rewrite decide_False; [exact IH|]. pose proof (typed_source_expired now s Ho Hnow). lia.
  - by rewrite live_cons_None.
Qed.

Lemma expire_entry_late now gi gi' :
  grpint_typed gi -> 2 ^ 32 <= now -> expire_entry now gi = Some gi' ->
  gi_filter_mode gi' = MLD2_MODE_IS_INCLUDE /\ (gi_filter_mode gi = MLD2_MODE_IS_INCLUDE -> live (gi_includes gi') = []).
Proof.
  intros [_ Hi _ Hm Ht] Hnow. unfold expire_entry. destruct Hm as [Hm|Hm]; rewrite Hm; simpl.
  - destruct (_ && _); [done|]. intros [= <-]. simpl. split; [done|]. intros _. by apply expired_sources.
  - destruct Ht as [_ Ht]. rewrite (proj2 (Z.leb_le _ _)) by lia. case_bool_decide; [done|]. by intros [= <-].
Qed.

(** C28: From February 2106 on, when the clock has more bits than the timers, every timer has run out: in any state that the types allow and in which
    the list of kernel routes and every entry's interface are there, [expire_sources] returns, puts every entry that is left in INCLUDE mode, and leaves
    no source to those that were in that mode. *)
Theorem expire_sources_late os w :
  groups_wf (w_groups w) -> Forall group_typed (w_groups w) -> is_Some (w_routes w) -> entries_found w -> 2 ^ 32 <= os_time os (w_tick w) ->
  returns expire_sources os w (fun _ w' => forall mca ifx gi', view (w_groups w') mca ifx = Some gi' ->
    gi_filter_mode gi' = MLD2_MODE_IS_INCLUDE /\
    forall gi, view (w_groups w) mca ifx = Some gi -> gi_filter_mode gi = MLD2_MODE_IS_INCLUDE -> live (gi_includes gi') = []).
Proof.
  intros Hwf Ht Hr Hf Hnow. eapply spec_mono; [by apply expire_pass| |done]. cbv beta.
  intros _ w' (_ & _ & Hv) mca ifx gi' Hgi'. rewrite Hv in Hgi'. destruct (view (w_groups w) mca ifx) as [gi|] eqn:Egi; [|done].
  assert (Hgt : grpint_typed gi).
  { unfold view in Egi. destruct (group_by mca (w_groups w)) as [g|] eqn:Eg; [|done]. simpl in Egi.
    apply find_by_Some in Eg as [Hg _]. apply find_by_Some in Egi as [Hgi _].
    eapply Forall_forall in Ht; [|exact Hg]. eapply Forall_forall in Hgi; [|exact (gt_interfaces _ Ht)]. exact Hgi. }
  destruct (expire_entry_late _ gi gi' Hgt Hnow Hgi') as [Hm Hl]. split; [exact Hm|]. intros gi0 [= <-]. exact Hl.
Qed.

(** A clock of [2 ^ 32 + 5] seconds, and a source reported one second before. *)
Definition late_os : OS := {|
  os_time := fun _ => 2 ^ 32 + 5; os_malloc := os_malloc sample_os; os_garbage := os_garbage sample_os; os_sendto := os_sendto sample_os;
  os_socket := os_socket sample_os; os_setsockopt := os_setsockopt sample_os; os_if_name := os_if_name sample_os; os_if_mtu := os_if_mtu sample_os;
  os_if_hwfamily := os_if_hwfamily sample_os; os_getifaddrs := os_getifaddrs sample_os; os_recvfrom := os_recvfrom sample_os;
  os_fork := os_fork sample_os; os_fopen := os_fopen sample_os |}.
Definition late_world : world :=
  sample_world [Grpint 1 (set_source_timers [Some (Msrc (src 1) 0)] None (2 ^ 32 + 4 + MALI)) [] 1 0; exclude_entry 2] [] [].
Ltac in_types := unfold addr, bytes, is_byte, uint, sint; apply (bool_decide_unpack _); by vm_compute.
Lemma late_world_typed : Forall group_typed (w_groups late_world).
Proof.
  assert (Hs : forall i t, i ∈ [1; 3] -> uint 32 t -> msrc_typed (Msrc (src i) t)).
  { intros i t Hi Ht. split; [|done]. apply list_elem_of_In in Hi. repeat destruct Hi as [<-|Hi]; [in_types..|done]. }
  apply Forall_singleton. split; [in_types| |in_types..]. repeat apply Forall_cons_2; [split|split|constructor].
  all: try (by left); try (by right); try in_types.
  all: unfold srcs_typed; simpl; apply Forall_singleton, Hs; [set_solver|in_types].
Qed.
Lemma expire_sources_late_witness :
  returns expire_sources late_os late_world (fun _ w' => forall mca ifx gi', view (w_groups w') mca ifx = Some gi' ->
    gi_filter_mode gi' = MLD2_MODE_IS_INCLUDE /\
    forall gi, view (w_groups late_world) mca ifx = Some gi -> gi_filter_mode gi = MLD2_MODE_IS_INCLUDE -> live (gi_includes gi') = []).
Proof.
  apply (expire_sources_late late_os late_world); [| |by eexists| |by vm_compute].
  - apply sample_groups_wf; [apply (bool_decide_unpack _); by vm_compute|].
    apply Forall_cons_2; [split; [by left| | |done]; apply (bool_decide_unpack _); by vm_compute|apply Forall_singleton; auto with ecmh].
  - exact late_world_typed.
  - apply Forall_singleton. repeat (apply Forall_cons_2; [split; [simpl; lia|eexists; split; [reflexivity|done]]|]). apply Forall_nil_2.
Defined.
