(* ===== verification/Invariant.v ===== *)
(** The state of the groups is well formed in every run: each operation that
    changes it preserves [groups_wf], a fault or a failed allocation included. *)

From S2P Require Import Prelude LinkList Msrc World Interfaces Send Groups Routing Mld2Logic Packet Daemon.
#[local] Open Scope Z_scope.

Definition WF (w : world) : Prop := groups_wf (w_groups w).

(** * Rules for [keeps WF] *)

Lemma keeps_intro {A} (m : M A) :
  (forall os w, WF w -> spec m os w (fun _ w' => WF w') (fun _ w' => WF w')) -> rel (keeps WF) m.
Proof.
  intros H os w. unfold spec in *. destruct (m os w) eqn:E; unfold keeps; intros Hw; specialize (H os w Hw); by rewrite E in H.
Qed.

Lemma keeps_bind_grpint {A} p (k : grpintnode -> M A) :
  (forall gi, grpint_wf gi -> rel (keeps WF) (k gi)) -> rel (keeps WF) (grpint_at p ≫= k).
Proof.
  intros Hk. apply keeps_intro. intros os w Hw. unfold grpint_at, group_at, spec, mbind, M_bind, get.
  destruct (w_groups w !! p.1) as [g|] eqn:Eg; simpl; [|done].
  destruct (g_interfaces g !! p.2) as [gi|] eqn:Ei; simpl; [|done].
  specialize (Hk gi ltac:(unfold WF in *; eauto with ecmh) os w). unfold spec, keeps in Hk. destruct (k gi os w); auto.
Qed.

Lemma keeps_bind_val {A B} (P : A -> Prop) (m : M A) (k : A -> M B) :
  gives P m -> rel (keeps WF) m -> (forall a, P a -> rel (keeps WF) (k a)) -> rel (keeps WF) (m ≫= k).
Proof.
  intros HP Hm Hk os w. specialize (HP os w). specialize (Hm os w). unfold spec, mbind, M_bind in *.
  destruct (m os w) as [a w'|]; [|done]. specialize (Hk a HP os w'). unfold spec, keeps in *. destruct (k a os w'); auto.
Qed.

Lemma keeps_upd_group g f :
  (forall x, g_mca (f x) = g_mca x) -> (forall x, group_wf x -> group_wf (f x)) -> rel (keeps WF) (upd_group g f).
Proof.
  intros Hf Hw. apply keeps_intro. intros os w H. unfold upd_group, group_at, spec, mbind, M_bind, get.
  destruct (w_groups w !! g) eqn:Eg; simpl; [|done]. apply groups_wf_alter; [done..|]. auto.
Qed.

Lemma keeps_upd_grpint p f :
  (forall x, gi_ifindex (f x) = gi_ifindex x) -> (forall x, grpint_wf x -> grpint_wf (f x)) -> rel (keeps WF) (upd_grpint p f).
Proof.
  intros Hf Hw. apply keeps_bind_grpint. intros gi _. apply keeps_upd_group; [done|]. intros g Hg. apply group_wf_alter; auto.
Qed.

Lemma keeps_frame {A} (m : M A) : rel (frames w_groups) m -> rel (keeps WF) m.
Proof. apply (rel_frames_keeps w_groups groups_wf). Qed.

(** What does not touch the groups. *)
Create HintDb wf discriminated.
#[export] Hint Extern 0 (PreOrder _) => typeclasses eauto : wf.
Ltac wf_frame l := apply keeps_frame, l; first [typeclasses eauto | done].
Lemma wf_upd_int i f : rel (keeps WF) (upd_int i f).
Proof. wf_frame rel_upd_int. Qed.
Lemma wf_int_find i : rel (keeps WF) (int_find i).
Proof. wf_frame rel_int_find. Qed.
Lemma wf_int_destroy i : rel (keeps WF) (int_destroy i).
Proof. wf_frame rel_int_destroy. Qed.
Lemma wf_set_mld i v : rel (keeps WF) (int_set_mld_version i v).
Proof. wf_frame rel_int_set_mld_version. Qed.
Lemma wf_sendpacket6 i p l : rel (keeps WF) (sendpacket6 i p l).
Proof. wf_frame rel_sendpacket6. Qed.
Lemma wf_icmp6_send i s t c d l : rel (keeps WF) (icmp6_send i s t c d l).
Proof. wf_frame rel_icmp6_send. Qed.
Lemma wf_query i m s b : rel (keeps WF) (mld_send_query i m s b).
Proof. wf_frame rel_mld_send_query. Qed.
Lemma wf_mquery i m s b : rel (keeps WF) (mld_send_mquery i m s b).
Proof. wf_frame rel_mld_send_mquery. Qed.
Lemma wf_mld2_send_report i m : rel (keeps WF) (mld2_send_report i m).
Proof. wf_frame rel_mld2_send_report. Qed.
Lemma wf_send_report i m : rel (keeps WF) (mld_send_report i m).
Proof. wf_frame rel_mld_send_report. Qed.
Lemma wf_send_report_all i m : rel (keeps WF) (mld_send_report_all i m).
Proof. wf_frame rel_mld_send_report_all. Qed.
Lemma wf_querys : rel (keeps WF) send_mld_querys.
Proof. wf_frame rel_send_mld_querys. Qed.
Lemma wf_upstream i : rel (keeps WF) (handle_upstream_subscription i).
Proof. wf_frame rel_handle_upstream. Qed.
Lemma wf_expire_routes fd : rel (keeps WF) (expire_routes fd).
Proof. wf_frame rel_expire_routes. Qed.
Lemma wf_handlesocket fd b : rel (keeps WF) (mrouter6_handlesocket fd b).
Proof. wf_frame rel_handlesocket. Qed.
#[export] Hint Resolve wf_upd_int wf_int_find wf_int_destroy wf_set_mld wf_sendpacket6 wf_icmp6_send wf_query wf_mquery
  wf_mld2_send_report wf_send_report wf_send_report_all wf_querys wf_upstream wf_expire_routes wf_handlesocket : wf.
#[export] Hint Resolve rel_ret rel_crash rel_named rel_get rel_load rel_load8 rel_load16 rel_int_at rel_group_at rel_grpint_at : wf.
#[export] Hint Extern 2 (rel _ (modify _)) => apply rel_modify; intros ? H; exact H : wf.
#[export] Hint Extern 2 (rel _ (os_call _)) => apply rel_os_call; intros ??? H; exact H : wf.
#[export] Hint Extern 2 (rel _ time) => apply rel_os_call; intros ??? H; exact H : wf.
#[export] Hint Extern 2 (rel _ (emit _)) => apply rel_emit; intros ??? H; exact H : wf.

Ltac wf_auto := repeat first [rel_step | progress eauto 3 with wf].

(** * The operations on groups *)

Lemma wf_groupint_interface g i b : rel (keeps WF) (groupint_interface g i b).
Proof.
  apply keeps_intro. intros os w Hw. destruct (w_groups w !! g) as [gn|] eqn:Eg.
  2: { unfold groupint_interface, upd_group, group_at, spec, time, os_call, mbind, M_bind, get. simpl. by rewrite Eg. }
  destruct (w_ints w !! i) as [n|] eqn:En.
  - eapply spec_mono; [by eapply groupint_interface_spec|..]; cbv beta; [by intros r w' [[? _] _]|by intros f w' (_ & ? & _)].
  - unfold groupint_interface. do 3 spec_step. eapply upd_group_spec; [exact Eg|]. spec_step. unfold int_at. do 2 spec_step. simpl. rewrite En.
    apply spec_crash. apply groups_wf_alter; [done..|]. intros x _. by apply group_wf_same.
Qed.

Lemma wf_groupint_get mca i : rel (keeps WF) (groupint_get mca i).
Proof.
  apply keeps_intro. intros os w Hw. unfold groupint_get, group_find. do 4 spec_step. rewrite group_find_key.
  assert (Hk : forall g b os w, WF w -> spec (groupint_interface g i b) os w (fun _ w' => WF w') (fun _ w' => WF w')).
  { intros g b os' w' H. eapply spec_mono; [apply (wf_groupint_interface g i b)|..]; cbv beta; auto. }
  destruct (find_key _ _ _) as [g|] eqn:Hg.
  - apply find_key_Some in Hg as (gn & Hl & _). do 2 spec_step. spec_step. eapply group_at_spec; [exact Hl|].
    case_match; [do 2 spec_step|]; by apply Hk.
  - apply find_key_None, find_by_None in Hg. unfold group_create. do 2 spec_step. do 2 spec_step; [by spec_step|].
    do 3 spec_step; [by spec_step|]. do 5 spec_step. apply Hk. by apply groups_wf_snoc.
Qed.

Lemma grpint_wf_set g X Y m t :
  grpint_wf g -> NoDup (addrs X) -> NoDup (addrs Y) -> m = gi_filter_mode g \/ m = 1 \/ m = 2 -> 0 <= t < 2 ^ 32 ->
  grpint_wf (Grpint (gi_ifindex g) X Y m t).
Proof. intros [] ? ? Hm ?. split; simpl; naive_solver. Qed.

(** * The state machine *)

Lemma wf_remove_grpintn p : rel (keeps WF) (remove_grpintn p).
Proof.
  unfold remove_grpintn. apply rel_bind; [typeclasses eauto|eauto with wf|intros _].
  apply rel_bind; [typeclasses eauto|apply keeps_upd_group; [done|intros x Hx; by apply group_wf_delete]|intros _].
  wf_auto. apply rel_modify. intros w Hw. by apply groups_wf_delete.
Qed.
#[export] Hint Resolve wf_groupint_get wf_remove_grpintn : wf.

Lemma set_source_timers_NoDup l k t : NoDup (addrs l) -> NoDup (addrs (set_source_timers l k t)).
Proof. by rewrite addrs_set_source_timers. Qed.
Lemma add_all_NoDup a b : NoDup (addrs a) -> NoDup (addrs (list_add_all msrc_cmp a b)).
Proof. by rewrite addrs_add_all. Qed.
#[export] Hint Resolve set_source_timers_NoDup add_all_NoDup : wf.
#[export] Hint Resolve nodup_intersect nodup_difference nodup_union nodup_remove_all u32_range : wf.

(** An update of the entry: the key stays, the new lists and fields are well formed. *)
Ltac wf_upd := apply keeps_upd_grpint; [done|intros x [? ? ? ?]; split; simpl; eauto 10 using u32_range with wf].
#[export] Hint Extern 3 (rel _ (upd_grpint _ _)) => solve [wf_upd] : wf.
Ltac wf_step :=
  match goal with
  | |- rel _ (grpint_at _ ≫= _) => apply keeps_bind_grpint; let H := fresh "Hgi" in intros ? H; destruct H
  end.
Ltac wf_body := repeat first [wf_step | rel_step | progress eauto 3 with wf].

Section branches.
Context (intn : nat) (p : nat * nat) (mca : in6_addr) (mode : Z) (B : sources) (HB : NoDup (addrs B)).
Lemma wf_include_add : rel (keeps WF) (include_add intn p mca mode B).
Proof.
  unfold include_add. wf_step. apply rel_bind; [typeclasses eauto|eauto with wf|intros now]. cbv zeta.
  apply (keeps_bind_val (fun l => NoDup (addrs l))); [destruct (_ =? _)|wf_body|intros l Hl; wf_upd].
  - do 2 (apply gives_bind; intros). apply gives_ret. auto 6 with wf.
  - apply gives_ret. auto with wf.
Qed.
Lemma wf_include_to_exclude : rel (keeps WF) (include_to_exclude intn p mca mode B).
Proof. unfold include_to_exclude. wf_body; wf_upd. Qed.
Lemma wf_include_block : rel (keeps WF) (include_block intn p mca B).
Proof. unfold include_block. wf_body; wf_upd. Qed.
Lemma wf_exclude_add : rel (keeps WF) (exclude_add intn p mca mode B).
Proof.
  unfold exclude_add. wf_step. apply rel_bind; [typeclasses eauto|eauto with wf|intros now]. cbv zeta.
  apply (keeps_bind_val (fun l => NoDup (addrs l))); [destruct (_ =? _)|wf_body|intros l Hl; wf_upd].
  - do 5 (apply gives_bind; intros). apply gives_ret. auto 6 with wf.
  - apply gives_ret. auto with wf.
Qed.
Lemma wf_exclude_replace : rel (keeps WF) (exclude_replace intn p mca mode B).
Proof. unfold exclude_replace, remove_all_xy, set_timers_xy, set_timers_xy_time. wf_body; wf_upd. Qed.
Lemma wf_exclude_block : rel (keeps WF) (exclude_block intn p mca B).
Proof. unfold exclude_block, set_timers_xy_time. wf_body; wf_upd. Qed.
End branches.

Lemma wf_handle_downstream intn m : mrec_sources_ok m -> rel (keeps WF) (handle_downstream_subscription intn m).
Proof.
  intros Hm. pose proof wf_include_add. pose proof wf_include_to_exclude. pose proof wf_include_block.
  pose proof wf_exclude_add. pose proof wf_exclude_replace. pose proof wf_exclude_block.
  unfold handle_downstream_subscription. wf_auto; auto.
Qed.

Lemma wf_expire_source p k now : rel (keeps WF) (expire_source p k now).
Proof.
  unfold expire_source. wf_body; (apply keeps_upd_grpint; [done|]).
  all: intros x Hx; split; simpl; [apply Hx| |apply Hx|apply Hx]; unfold listnode_delete.
  all: eapply sublist_NoDup; [apply (Groups.wf_includes _ Hx)|]; apply fmap_sublist, live_delete_sublist.
Qed.
Lemma wf_switch p : rel (keeps WF) (mld2_switch_to_include p).
Proof. unfold mld2_switch_to_include. wf_auto. Qed.
#[export] Hint Resolve wf_handle_downstream wf_expire_source wf_switch : wf.

Lemma wf_expire_loop_source p now k : forall removed, rel (keeps WF) (expire_loop_source p k now removed).
Proof. induction k as [|k IH]; intros removed; cbn [expire_loop_source]; wf_auto; auto. Qed.
#[export] Hint Resolve wf_expire_loop_source : wf.
Lemma wf_expire_loop_interface g now k : forall removed, rel (keeps WF) (expire_loop_interface g k now removed).
Proof. induction k as [|k IH]; intros removed; cbn [expire_loop_interface]; wf_auto; auto. Qed.
#[export] Hint Resolve wf_expire_loop_interface : wf.
Lemma wf_expire_loop_group now k : rel (keeps WF) (expire_loop_group k now).
Proof. induction k as [|k IH]; cbn [expire_loop_group]; wf_auto; auto. Qed.
#[export] Hint Resolve wf_expire_loop_group : wf.
Lemma wf_expire_sources : rel (keeps WF) expire_sources.
Proof. unfold expire_sources. wf_auto. Qed.
#[export] Hint Resolve wf_expire_sources : wf.

(** * The receive path *)

Lemma wf_store8 o v : rel (keeps WF) (store8 o v).
Proof. unfold store8. wf_auto. Qed.
#[export] Hint Resolve wf_store8 : wf.
Lemma wf_mld1_report i o : rel (keeps WF) (mld1_report i o).
Proof. unfold mld1_report. wf_auto. Qed.
Lemma wf_mld1_reduction i o : rel (keeps WF) (mld1_reduction i o).
Proof. unfold mld1_reduction, group_find. wf_auto. Qed.
Lemma wf_load_addrs n : forall o, rel (keeps WF) (load_addrs o n).
Proof. induction n as [|n IH]; intros o; cbn [load_addrs]; wf_auto; auto. Qed.
#[export] Hint Resolve wf_load_addrs wf_mld1_report wf_mld1_reduction : wf.
Lemma wf_mld2_grecs i r plen n : forall grec h, rel (keeps WF) (mld2_grecs i r plen n grec h).
Proof.
  induction n as [|n IH]; intros grec h; cbn [mld2_grecs]; unfold name_grec; wf_auto; auto.
  apply wf_handle_downstream. apply mrec_add_addrs_ok. apply NoDup_nil_2.
Qed.
#[export] Hint Resolve wf_mld2_grecs : wf.
Lemma wf_mld2_report i o plen : rel (keeps WF) (mld2_report i o plen).
Proof. unfold mld2_report. wf_auto. Qed.
Lemma wf_mld_query i plen : rel (keeps WF) (mld_query i plen).
Proof.
  unfold mld_query. wf_auto. apply rel_for_each; [typeclasses eauto|]. intros g.
  apply rel_for_each; [typeclasses eauto|]. intros gi. wf_auto.
Qed.
Lemma wf_multicast_loop i iph len src g k : rel (keeps WF) (multicast_loop i iph len src g k).
Proof. induction k as [|k IH]; cbn [multicast_loop]; wf_auto; auto. Qed.
#[export] Hint Resolve wf_mld2_report wf_mld_query wf_multicast_loop : wf.
Lemma wf_l4_ipv6_multicast i iph len : rel (keeps WF) (l4_ipv6_multicast i iph len).
Proof.
  unfold l4_ipv6_multicast, group_find. wf_auto.
  apply keeps_upd_group; [done|]. intros x. by apply group_wf_same.
Qed.
#[export] Hint Resolve wf_l4_ipv6_multicast : wf.
Lemma wf_l4_ipv6_icmpv6 i iph len o plen : rel (keeps WF) (l4_ipv6_icmpv6 i iph len o plen).
Proof. unfold l4_ipv6_icmpv6, name_received, name_icmpv6, recompute_checksum, decrease_hlim, mld_message. wf_auto. Qed.
Lemma wf_skip_headers iph len n : forall t ipe plen, rel (keeps WF) (skip_headers n iph len t ipe plen).
Proof. induction n as [|n IH]; intros; cbn [skip_headers]; wf_auto; auto. Qed.
#[export] Hint Resolve wf_l4_ipv6_icmpv6 wf_skip_headers : wf.
Lemma wf_l2_ethtype i o len t : rel (keeps WF) (l2_ethtype i o len t).
Proof. unfold l2_ethtype, l3_ipv4, l3_ipv6, decrease_hlim. wf_auto. Qed.
#[export] Hint Resolve wf_l2_ethtype : wf.

(** * The daemon *)

Lemma wf_int_create i : rel (keeps WF) (int_create i).
Proof. unfold int_create, int_create_fail, int_create_finish, int_resize, strcmp_eq. wf_auto. Qed.
#[export] Hint Resolve wf_int_create : wf.
Lemma wf_update_loop s l : forall got, rel (keeps WF) (update_loop s l got).
Proof.
  induction l as [|ifa l IH]; intros got; cbn [update_loop]; [eauto with wf|].
  unfold update_find, update_addr, strcmp_eq. wf_auto; auto.
Qed.
#[export] Hint Resolve wf_update_loop : wf.
Lemma wf_update_interfaces s : rel (keeps WF) (update_interfaces s).
Proof. unfold update_interfaces. wf_auto. Qed.
#[export] Hint Resolve wf_update_interfaces : wf.
Lemma wf_handleinterfaces : rel (keeps WF) handleinterfaces.
Proof. unfold handleinterfaces. wf_auto. Qed.
Lemma wf_timeout : rel (keeps WF) timeout.
Proof. unfold timeout. wf_auto. Qed.
#[export] Hint Resolve wf_handleinterfaces wf_timeout : wf.
Lemma wf_main_round s : rel (keeps WF) (main_round s).
Proof. unfold main_round. wf_auto. Qed.
Lemma wf_startup : rel (keeps WF) startup.
Proof.
  unfold startup, start_clock, daemonize, or_exit, open_socket, set_option, start_kernel, mrouter_init, mrouter6_addmif.
  wf_auto.
Qed.
Lemma wf_sigusr1 : rel (keeps WF) sigusr1.
Proof. unfold sigusr1. wf_auto. Qed.
Lemma wf_sigusr2 : rel (keeps WF) sigusr2.
Proof. unfold sigusr2. wf_auto. Qed.

Lemma wf_step os w w' : step os w w' -> WF w -> WF w'.
Proof.
  intros [? ? [= <-]|? ? E|? ? E|s ? ? _ E] Hw; [done|..].
  - by apply (rel_Ret _ _ _ _ _ _ wf_sigusr1 E).
  - by apply (rel_Ret _ _ _ _ _ _ wf_sigusr2 E).
  - by apply (rel_Ret _ _ _ _ _ _ (wf_main_round s) E).
Qed.

(** C5: In every run, whatever the frames, the clock, the allocator and the sockets
    answer, the groups and the interfaces of a group are unique, source lists hold no
    address twice, filter modes are INCLUDE or EXCLUDE and filter timers 32 bits wide. *)
Theorem running_groups_wf os args w : running os args w -> groups_wf (w_groups w).
Proof.
  intros (cfg & w0 & _ & Hs & Hr). change (WF w).
  assert (H0 : WF w0).
  { apply (rel_Ret _ _ _ _ _ _ wf_startup Hs). unfold WF. simpl. split; constructor. }
  clear Hs. induction Hr as [|? ? ? Hst _ IH]; [done|]. apply IH. by apply (wf_step _ _ _ Hst).
Qed.
