(* ===== verification/Forwarding.v ===== *)
(** What [l4_ipv6_multicast] forwards: to whom, what, and how often. *)

From S2P Require Import Prelude LinkList Msrc World Interfaces Send Groups Routing Mld2Logic Mld2Expire Packet.
#[local] Open Scope Z_scope.

(** * Definitions *)

(** The filter state of the entry lets the source through; an EXCLUDE entry only while its
    filter timer runs. *)
Definition accepts (os : OS) (gi : grpintnode) (src : in6_addr) : Prop :=
  if gi_filter_mode gi =? MLD2_MODE_IS_INCLUDE then src ∈ addrs (gi_includes gi)
  else src ∉ addrs (gi_excludes gi) /\ exists t, os_time os t < gi_filter_timer gi.

(** What identifies an interface on the wire. *)
Definition int_wire (n : intnode) : Z * Z := (i_ifindex n, i_hwfamily n).
Definition wires (w : world) : list (Z * Z) := int_wire <$> w_ints w.

(** What forwarding looks at in an interface: it counts as gone when its MTU is 0. *)
Definition int_face (n : intnode) : Z * Z * Z := (i_ifindex n, i_hwfamily n, i_mtu n).
Definition faces (w : world) : list (Z * Z * Z) := int_face <$> w_ints w.

(** The routes are the same, and the interfaces as well unless the system says that one has gone. *)
Definition undisturbed (os : OS) (w w' : world) : Prop :=
  w_routes w' = w_routes w /\ ((forall t, os_sendto os t ≠ SendENXIO) -> faces w' = faces w).

(** Nothing is sent, and no interface changes its identity. *)
Definition quiet (w w' : world) : Prop :=
  (exists evs, w_trace w' = evs ++ w_trace w /\ Forall (fun e => is_sendto e = false) evs) /\
  wires w' = wires w /\ w_buffer w' = w_buffer w.

(** The outcome of forwarding [len] of the bytes [packet], from source [src] and received on an
    interface of index [from], to the entries [gis]: nothing is sent, or one packet is. *)
Definition forwarded (os : OS) (w : world) (packet : list Z) (len : Z) (src : in6_addr) (from : Z) (gis : list grpintnode) (w' : world) : Prop :=
  quiet w w' \/
  exists gi n evs, gi ∈ gis /\ gi_ifindex gi ≠ from /\ accepts os gi src /\
    w_ints w !! Z.to_nat (gi_ifindex gi) = Some n /\
    w_trace w' = send_at n packet len :: evs ++ w_trace w /\ Forall (fun e => is_sendto e = false) evs.

(** * Quiet steps *)

#[export] Instance quiet_preorder : PreOrder quiet.
Proof.
  split.
  - intros w. split; [by exists []|done].
  - intros w1 w2 w3 [(e & He & Fe) [? ?]] [(e' & He' & Fe') [? ?]]. split; [|split; congruence].
    exists (e' ++ e). split; [by rewrite He', He, app_assoc|by apply Forall_app].
Qed.

Lemma quiet_same w w' : w_trace w' = w_trace w -> wires w' = wires w -> w_buffer w' = w_buffer w -> quiet w w'.
Proof. intros H1 H2 H3. split; [by exists []|done]. Qed.
Lemma quiet_emit e w : is_sendto e = false -> quiet w (set_os (w_tick w) (e :: w_trace w) w).
Proof. intros He. split; [exists [e]; by split; [|apply Forall_singleton]|done]. Qed.
Lemma quiet_socket i v w : quiet w (set_ints (alter (set_upstream_socket v) i (w_ints w)) w).
Proof.
  apply quiet_same; [done| |done]. unfold wires. simpl. apply list_eq. intros j. rewrite !list_lookup_fmap, list_lookup_alter.
  case_decide; [subst j|done]. by destruct (w_ints w !! i).
Qed.
Ltac quiet_tac := first [apply quiet_socket | apply quiet_emit; assumption | apply quiet_same; reflexivity].
Lemma quiet_expire_source p k now : rel quiet (expire_source p k now).
Proof. apply rel_expire_source; [typeclasses eauto|..]; intros; quiet_tac. Qed.
Lemma quiet_switch p : rel quiet (mld2_switch_to_include p).
Proof. apply rel_switch; [typeclasses eauto|..]; intros; quiet_tac. Qed.
Lemma quiet_int_find i : rel quiet (int_find i).
Proof. apply rel_int_find; typeclasses eauto. Qed.
Lemma quiet_time : rel quiet time.
Proof. apply rel_tick. intros. by apply quiet_same. Qed.

(** A switch that leaves the group in place leaves the entries after it alone. *)
Lemma switch_suffix G1 G2 g I1 gi suf os w :
  w_groups w = mk G1 g (I1 ++ gi :: suf) G2 ->
  spec (mld2_switch_to_include (length G1, length I1)) os w
    (fun b w' => b = false -> exists I1', w_groups w' = mk G1 g (I1' ++ suf) G2) (fun _ _ => True).
Proof.
  intros Hw. unfold mld2_switch_to_include. spec_step. eapply mk_upd; [done|]. spec_step. eapply mk_grpint_at; [done|].
  set (gi' := set_filter_mode _ gi). set (w1 := set_groups _ w).
  assert (Hfr : rel (frames w_groups) (intn ← int_find (gi_ifindex gi'); handle_upstream_subscription intn)).
  { apply rel_bind; [typeclasses eauto|by apply rel_int_find; typeclasses eauto|intros].
    by apply rel_handle_upstream; [typeclasses eauto|..]. }
  eapply (spec_bind_assoc (fun _ => _)), spec_bind. eapply spec_mono; [apply (Hfr os w1)| |done].
  cbv beta. intros [] w2 Hg2. unfold frames in Hg2. simpl in Hg2. spec_step. eapply mk_grpint_at; [exact Hg2|].
  destruct (list_isempty _); [|spec_step; intros _; exists (I1 ++ [gi']); by rewrite <-app_assoc].
  eapply mk_remove; [exact Hg2|]. intros Hb. exists I1. simpl. unfold removed_groups. by rewrite Hb.
Qed.

Lemma expire_source_suffix G1 G2 g I1 gi suf k now os w :
  w_groups w = mk G1 g (I1 ++ gi :: suf) G2 ->
  spec (expire_source (length G1, length I1) k now) os w
    (fun r w' => r = 0 -> exists I1', w_groups w' = mk G1 g (I1' ++ suf) G2) (fun _ _ => True).
Proof.
  intros Hw. unfold expire_source. spec_step. eapply mk_grpint_at; [done|].
  assert (H0 : forall gi w', w_groups w' = mk G1 g (I1 ++ gi :: suf) G2 -> exists I1', w_groups w' = mk G1 g (I1' ++ suf) G2).
  { intros gi' w' ->. exists (I1 ++ [gi']). by rewrite <-app_assoc. }
  destruct (gi_includes gi !! k) as [[s|]|]; [|done..]. destruct (_ <=? _); [|spec_step; by eauto].
  spec_step. eapply mk_upd; [done|]. spec_step. eapply mk_grpint_at; [done|].
  destruct (list_isempty _); [|spec_step; intros _; by eapply H0].
  spec_step. eapply mk_remove; [done|]. spec_step. unfold spec at 1. destruct (int_find _ _ _); [|done].
  spec_step. unfold spec at 1. destruct (handle_upstream_subscription _ _ _); [|done]. spec_step. by case_bool_decide.
Qed.

(** * The loop *)

Lemma forwarded_quiet os w w1 packet len src from gis gis' w' :
  quiet w w1 -> (forall gi, gi ∈ gis -> gi ∈ gis') ->
  forwarded os w1 packet len src from gis w' -> forwarded os w packet len src from gis' w'.
Proof.
  intros Hq Hin [Hq'|(gi & n & evs & Hgi & Hi & Ha & Hn & Ht & Hf)]; [left; by etrans|right].
  destruct Hq as [(e & He & Fe) [Hw _]].
  assert (Hx : wires w !! Z.to_nat (gi_ifindex gi) = Some (int_wire n)).
  { rewrite <-Hw. unfold wires. by rewrite list_lookup_fmap, Hn. }
  unfold wires in Hx. rewrite list_lookup_fmap in Hx. destruct (w_ints w !! _) as [n0|] eqn:En; [|done].
  injection Hx as Hwire1 Hwire2. exists gi, n0, (evs ++ e). split_and!; auto.
  - rewrite Ht, He, <-app_assoc. unfold send_at. by rewrite Hwire1, Hwire2.
  - by apply Forall_app.
Qed.

Lemma int_find_cases ifx os w :
  int_find ifx os w = Ret None w \/
  (exists n, w_ints w !! Z.to_nat ifx = Some n /\ int_find ifx os w = Ret (Some (Z.to_nat ifx)) w) \/
  int_find ifx os w = Crash OutOfBounds w.
Proof.
  unfold int_find, int_at, mbind, M_bind, get. destruct (_ <=? _); [by left|].
  destruct (w_ints w !! Z.to_nat ifx) as [n|]; [|by right; right]. simpl. destruct (i_mtu n =? 0); [by left|right; left; by exists n].
Qed.

(** The pieces of a round, for any continuation. *)
Lemma forward_spec os packet src from gis gi iph len (continue : M unit) w :
  gi ∈ gis -> gi_ifindex gi ≠ from -> accepts os gi src ->
  packet = drop (Z.to_nat iph) (w_buffer w) ->
  spec continue os w (fun _ => forwarded os w packet len src from gis) (fun _ => forwarded os w packet len src from gis) ->
  spec (interface ← int_find (gi_ifindex gi);
        match interface with
        | None => continue
        | Some interface => packet ← load iph (Z.max len sizeof_ip6_hdr); sendpacket6 interface packet len
        end) os w (fun _ => forwarded os w packet len src from gis) (fun _ => forwarded os w packet len src from gis).
Proof.
  intros Hin Hne Hacc Hp Hk. spec_step. unfold spec at 1.
  destruct (int_find_cases (gi_ifindex gi) os w) as [-> | [(n & Hn & ->) | ->]]; [exact Hk| |by left].
  unfold load. do 3 spec_step. destruct (_ && _); [|spec_step; by left].
  spec_step. rewrite <-Hp. eapply spec_mono; [by apply sendpacket6_spec| |done]. cbv beta.
  intros _ w' (_ & _ & Ht & _). right. exists gi, n, []. split_and!; try done. rewrite Ht. unfold sizeof_ip6_hdr. by rewrite send_at_take.
Qed.

(** A round, with the rest of the loop and the transmission as parameters: the entry [gi]
    at the head of what is left, reached in [w] and not joined on the interface the packet came from. *)
Section multicast_round.
Context (os : OS) (G1 G2 : list groupnode) (g : groupnode) (I1 suf : list grpintnode) (gi : grpintnode).
Context (src : in6_addr) (packet : list Z) (len from : Z) (w : world) (continue forward : M unit).
Let goes (m : M unit) (w1 : world) : Prop :=
  spec m os w1 (fun _ => forwarded os w packet len src from (gi :: suf)) (fun _ => forwarded os w packet len src from (gi :: suf)).
Context (Hw : w_groups w = mk G1 g (I1 ++ gi :: suf) G2).
Context (Hcont : forall w1 I1', quiet w w1 -> w_groups w1 = mk G1 g (I1' ++ suf) G2 -> goes continue w1).
Context (Hfwd : forall w1 I1', accepts os gi src -> quiet w w1 -> w_groups w1 = mk G1 g (I1' ++ suf) G2 -> goes forward w1).

Lemma round_stays w1 : w_groups w1 = w_groups w -> w_groups w1 = mk G1 g ((I1 ++ [gi]) ++ suf) G2.
Proof. intros ->. by rewrite <-app_assoc. Qed.

Lemma include_round :
  gi_filter_mode gi =? MLD2_MODE_IS_INCLUDE = true ->
  goes match src_hasmember (gi_includes gi) src with
       | None => continue
       | Some s =>
         now ← time;
         lastgroup ← expire_source (length G1, length I1) s now;
         if negb (lastgroup =? 0) then mret tt else forward
       end w.
Proof.
  intros Hm. destruct (src_hasmember (gi_includes gi) src) as [k|] eqn:Ek; [|by eapply Hcont, round_stays].
  assert (Hacc : accepts os gi src).
  { unfold accepts. rewrite Hm. eapply bool_decide_eq_true. by rewrite <-hasmember_addrs, Ek. }
  unfold goes. do 2 spec_step. spec_step. set (w1 := set_os _ _ w).
  assert (Hq1 : quiet w w1) by by apply quiet_same.
  eapply spec_mono; [exact (spec_conj _ _ _ _ _ _ _ (quiet_expire_source (length G1, length I1) k _ os w1)
    (expire_source_suffix G1 G2 g I1 gi suf k _ os w1 Hw))|..]; cbv beta.
  - intros r w2 [Hq2 Hs]. destruct (Z.eqb_spec r 0) as [Hr|Hr]; simpl; [|spec_step; left; by etrans].
    destruct (Hs Hr) as [I1' Hw2]. eapply Hfwd; [done|by etrans|done].
  - intros f w2 [Hq2 _]. left. by etrans.
Qed.

Lemma exclude_round :
  gi_filter_mode gi =? MLD2_MODE_IS_INCLUDE = false ->
  goes (now ← time;
        if gi_filter_timer gi <=? now then
          lastgroup ← mld2_switch_to_include (length G1, length I1);
          if (lastgroup : bool) then mret tt else continue
        else if negb (list_isempty (gi_excludes gi)) && (if src_hasmember (gi_excludes gi) src then true else false)
        then continue
        else forward) w.
Proof.
  intros Hm. unfold goes. do 2 spec_step. set (w1 := set_os _ _ w).
  assert (Hq1 : quiet w w1) by by apply quiet_same.
  destruct (Z.leb_spec (gi_filter_timer gi) (os_time os (w_tick w))) as [Ht|Ht].
  - spec_step. eapply spec_mono; [exact (spec_conj _ _ _ _ _ _ _ (quiet_switch (length G1, length I1) os w1)
      (switch_suffix G1 G2 g I1 gi suf os w1 Hw))|..]; cbv beta.
    + intros [] w2 [Hq2 Hs]; [spec_step; left; by etrans|]. destruct (Hs eq_refl) as [I1' Hw2].
      eapply Hcont; [by etrans|exact Hw2].
    + intros f w2 [Hq2 _]. left. by etrans.
  - rewrite hasmember_not_nil. case_bool_decide as Hex; [by eapply Hcont, round_stays|].
    eapply Hfwd; [|done|by apply round_stays]. unfold accepts. rewrite Hm. split; [done|by eexists].
Qed.

End multicast_round.

Lemma multicast_loop_spec os G1 G2 g intn iph len src from packet suf : forall I1 w,
  w_groups w = mk G1 g (I1 ++ suf) G2 -> (forall x, wires w !! intn = Some x -> x.1 = from) ->
  packet = drop (Z.to_nat iph) (w_buffer w) ->
  spec (multicast_loop intn iph len src (length G1) (length suf)) os w
    (fun _ => forwarded os w packet len src from suf) (fun _ => forwarded os w packet len src from suf).
Proof.
  induction suf as [|gi suf IH]; intros I1 w Hw Hfrom Hp; [cbn [length multicast_loop]; spec_step; by left|].
  cbn [length multicast_loop]. spec_step. eapply mk_group_at; [exact Hw|]. cbv zeta.
  change (g_interfaces (set_interfaces _ _)) with (I1 ++ gi :: suf).
  replace (length (I1 ++ gi :: suf) - S (length suf))%nat with (length I1) by (rewrite length_app; simpl; lia).
  spec_step. eapply mk_grpint_at; [exact Hw|].
  assert (Hcont : forall w1 I1', quiet w w1 -> w_groups w1 = mk G1 g (I1' ++ suf) G2 ->
    spec (multicast_loop intn iph len src (length G1) (length suf)) os w1
      (fun _ => forwarded os w packet len src from (gi :: suf)) (fun _ => forwarded os w packet len src from (gi :: suf))).
  { intros w1 I1' Hq Hw1. pose proof Hq as (_ & Hwi & Hb).
    eapply spec_mono; [apply (IH I1' w1 Hw1); [by rewrite Hwi|by rewrite Hb]|..]; cbv beta;
      intros ? w'; apply forwarded_quiet; auto; intros; by apply elem_of_cons; right. }
  spec_step. destruct (w_ints w !! intn) as [n|] eqn:En.
  2: { unfold int_at. do 2 spec_step. rewrite En. spec_step. by left. }
  eapply int_at_spec; [exact En|].
  assert (Hn : i_ifindex n = from) by (apply (Hfrom (int_wire n)); unfold wires; by rewrite list_lookup_fmap, En).
  destruct (Z.eqb_spec (i_ifindex n) (gi_ifindex gi)) as [Hi|Hi]; [by eapply Hcont, round_stays|].
  destruct (gi_filter_mode gi =? MLD2_MODE_IS_INCLUDE) eqn:Em; [eapply include_round|eapply exclude_round]; eauto.
  all: intros w1 I1' Hacc Hq Hw1; pose proof Hq as (_ & Hwi & Hb).
  all: eapply spec_mono; [apply (forward_spec os packet src from (gi :: suf) gi)|..];
    [apply elem_of_cons; by left|congruence|done|by rewrite Hb| |cbv beta; intros ? w'; by apply forwarded_quiet..].
  all: eapply spec_mono; [apply (IH I1' w1 Hw1); [by rewrite Hwi|by rewrite Hb]|..]; cbv beta;
    intros ? w'; apply forwarded_quiet; try done; intros; by apply elem_of_cons; right.
Qed.

(** C12: Whatever the answers of the system, forwarding a multicast packet sends at most one packet: the
    packet itself, byte for byte, to an interface other than the one it came from, whose filter
    state for the group, when the packet arrived, accepts its source. *)
Theorem l4_ipv6_multicast_forwards os w intn n iph len :
  groups_wf (w_groups w) -> w_ints w !! intn = Some n ->
  let packet := drop (Z.to_nat iph) (w_buffer w) in
  let src := take 16 (drop (Z.to_nat (iph + 8)) (w_buffer w)) in
  let dst := take 16 (drop (Z.to_nat (iph + 24)) (w_buffer w)) in
  let outcome := fun w' => quiet w w' \/
    exists gi m evs, gi_ifindex gi ≠ i_ifindex n /\ view (w_groups w) dst (gi_ifindex gi) = Some gi /\ accepts os gi src /\
      not_forwarded src dst = false /\ w_ints w !! Z.to_nat (gi_ifindex gi) = Some m /\
      w_trace w' = send_at m packet len :: evs ++ w_trace w /\ Forall (fun e => is_sendto e = false) evs in
  spec (l4_ipv6_multicast intn iph len) os w (fun _ => outcome) (fun _ => outcome).
Proof.
  intros Hwf Hn packet src dst outcome. unfold l4_ipv6_multicast.
  assert (Hload : forall {A} off (k : list Z -> M A) (Q : A -> world -> Prop) (E : fault -> world -> Prop),
    spec (k (take 16 (drop (Z.to_nat off) (w_buffer w)))) os w Q E -> E OutOfBounds w ->
    spec (x ← load off 16; k x) os w Q E).
  { intros A off k Q E Hk HE. spec_step. unfold load. do 2 spec_step. destruct (_ && _); by spec_step. }
  assert (Hq0 : outcome w) by by left.
  apply Hload; [|done]. apply Hload; [|done]. fold src dst.
  destruct (not_forwarded src dst) eqn:Enf; [by spec_step|]. unfold group_find. do 4 spec_step. rewrite group_find_key.
  destruct (find_key _ _ _) as [j|] eqn:Ej; [|by spec_step].
  apply find_key_Some in Ej as (g & Hg & Hgm). spec_step. eapply upd_group_spec; [exact Hg|].
  spec_step. eapply group_at_spec; [simpl; by rewrite list_lookup_alter_eq, Hg|].
  destruct (list_elem_of_split_length _ _ _ Hg) as (G1 & G2 & HG & ->).
  set (w1 := set_groups _ w). assert (Hw1 : w_groups w1 = mk G1 (count_group len g) ([] ++ g_interfaces g) G2).
  { simpl. rewrite HG, alter_middle. unfold mk. by destruct g. }
  eapply spec_mono; [apply (multicast_loop_spec os G1 G2 (count_group len g) intn iph len src (i_ifindex n) packet (g_interfaces g) [] w1 Hw1)|..].
  { intros x Hx. unfold wires in Hx. simpl in Hx. rewrite list_lookup_fmap, Hn in Hx. by injection Hx as <-. }
  { done. }
  all: cbv beta; intros ? w' [Hq|(gi & m & evs & Hin & Hi & Ha & Hm & Ht & Hf)]; [left; exact Hq|right].
  all: exists gi, m, evs; split_and!; try done; apply list_elem_of_lookup in Hin as [k Hk];
    apply (points_to_view _ (length G1, k)); [done|]; exists g; by split_and!.
Qed.

(** * Who gets the packet, when no timer has run out *)

Definition stable_entry (now : Z) (gi : grpintnode) : Prop :=
  0 <= gi_ifindex gi /\
  if gi_filter_mode gi =? MLD2_MODE_IS_INCLUDE then Forall (fun s => now < s_timer s) (live (gi_includes gi))
  else now < gi_filter_timer gi.

(** The interface of an entry, when the entry is to be served. *)
Definition taker (now : Z) (ints : list intnode) (from : Z) (src : in6_addr) (gi : grpintnode) : option intnode :=
  if (gi_ifindex gi =? from) || negb (wants (Some gi) now src) then None
  else n ← ints !! Z.to_nat (gi_ifindex gi); if i_mtu n =? 0 then None else Some n.

(** The first in the order of the list. *)
Definition first_taker (now : Z) (ints : list intnode) (from : Z) (src : in6_addr) (l : list grpintnode) : option intnode :=
  head (omap (taker now ints from src) l).

Lemma hasmember_lookup (l : sources) src k :
  src_hasmember l src = Some k -> exists s, l !! k = Some (Some s) /\ s_addr s = src /\ s ∈ live l.
Proof.
  unfold src_hasmember, list_hasmember. intros (o & Hk & Ho & _)%find_idx_Some. destruct o as [s|]; [|done].
  exists s. apply bool_decide_eq_true in Ho. split_and!; [done..|]. apply elem_of_live. by eapply list_elem_of_lookup_2.
Qed.

Definition sent_to (os : OS) (m : option intnode) (packet : list Z) (w w' : world) : Prop :=
  w_trace w' = (match m with Some n => [send_event n packet] | None => [] end) ++ w_trace w /\ w_groups w' = w_groups w /\ undisturbed os w w'.

Lemma sendpacket6_faces i n packet len os w :
  w_ints w !! i = Some n -> (forall t, os_sendto os t ≠ SendENXIO) -> returns (sendpacket6 i packet len) os w (fun _ w' => faces w' = faces w).
Proof.
  intros Hn Hos. unfold sendpacket6. do 6 spec_step. 
  specialize (Hos (w_tick w)). simpl in *. unfold after_send. destruct (os_sendto os (w_tick w)); [|done|by spec_step].
  do 2 spec_step. eapply upd_int_spec; [exact Hn|]. unfold faces. simpl. by apply fmap_key_alter.
Qed.

(** The transmission, when the packet reaches it. *)
Lemma forward_stable os now w t intn_ifindex gi suf iph len src (continue : M unit) :
  0 <= gi_ifindex gi -> wants (Some gi) now src = true -> gi_ifindex gi ≠ intn_ifindex ->
  0 <= iph -> 40 <= len -> iph + len <= Z.of_nat (length (w_buffer w)) ->
  let reaches (m : M unit) := returns m os (set_os t (w_trace w) w)
    (fun _ => sent_to os (first_taker now (w_ints w) intn_ifindex src (gi :: suf))
                (take (Z.to_nat len) (drop (Z.to_nat iph) (w_buffer w))) w) in
  (taker now (w_ints w) intn_ifindex src gi = None -> reaches continue) ->
  reaches (interface ← int_find (gi_ifindex gi);
           match interface with
           | None => continue
           | Some interface => packet ← load iph (Z.max len sizeof_ip6_hdr); sendpacket6 interface packet len
           end).
Proof.
  intros Hi0 Hwant Hi Hiph Hlen Hbuf reaches Hcont. unfold reaches in *.
  assert (Htk : taker now (w_ints w) intn_ifindex src gi =
    n ← w_ints w !! Z.to_nat (gi_ifindex gi); if i_mtu n =? 0 then None else Some n).
  { unfold taker. by rewrite (proj2 (Z.eqb_neq _ _) Hi), Hwant. }
  spec_step. unfold spec at 1. rewrite int_find_spec by done. simpl.
  destruct (w_ints w !! Z.to_nat (gi_ifindex gi)) as [m|] eqn:Em; [|by apply Hcont]. simpl in Htk.
  destruct (i_mtu m =? 0); [by apply Hcont|]. unfold load. do 3 spec_step. simpl.
  rewrite Z.max_l by (unfold sizeof_ip6_hdr; lia).
  rewrite (proj2 (andb_true_iff _ _)) by (rewrite andb_true_iff, !Z.leb_le; lia). spec_step.
  set (packet := take _ _). set (w1 := set_os _ _ w).
  pose proof (sendpacket6_spec _ m packet len os w1 Em) as Hs. pose proof (sendpacket6_faces _ m packet len os w1 Em) as Hf.
  unfold spec in *. destruct (sendpacket6 _ _ _ _ _) as [? w'|]; [|done]. destruct Hs as (_ & _ & Ht & Hg & _ & Hr & _).
  unfold first_taker. csimpl. rewrite Htk. split_and!; [|done..].
  rewrite Ht, send_at_header by done. unfold packet. by rewrite take_take, Nat.min_id.
Qed.

Lemma multicast_loop_stable os now G1 G2 g intn n iph len src suf : forall I1 w,
  (forall t, os_time os t = now) -> 0 <= now < 2 ^ 32 ->
  w_groups w = mk G1 g (I1 ++ suf) G2 -> Forall (stable_entry now) suf -> w_ints w !! intn = Some n ->
  0 <= iph -> 40 <= len -> iph + len <= Z.of_nat (length (w_buffer w)) ->
  returns (multicast_loop intn iph len src (length G1) (length suf)) os w
    (fun _ => sent_to os (first_taker now (w_ints w) (i_ifindex n) src suf)
                (take (Z.to_nat len) (drop (Z.to_nat iph) (w_buffer w))) w).
Proof.
  intros I1 w Hnow Hrange. revert I1 w. induction suf as [|gi suf IH]; intros I1 w Hw Hst Hn Hiph Hlen Hbuf.
  { cbn [length multicast_loop]. by spec_step. }
  apply Forall_cons in Hst as [(Hi0 & Hst0) Hst].
  cbn [length multicast_loop]. spec_step. eapply mk_group_at; [exact Hw|]. cbv zeta.
  change (g_interfaces (set_interfaces _ _)) with (I1 ++ gi :: suf).
  replace (length (I1 ++ gi :: suf) - S (length suf))%nat with (length I1) by (rewrite length_app; simpl; lia).
  spec_step. eapply mk_grpint_at; [exact Hw|]. spec_step. spec_step.
  (* not a taker: on with the rest, after some ticks *)
  assert (Hcont : forall t, taker now (w_ints w) (i_ifindex n) src gi = None ->
    returns (multicast_loop intn iph len src (length G1) (length suf)) os (set_os t (w_trace w) w)
      (fun _ => sent_to os (first_taker now (w_ints w) (i_ifindex n) src (gi :: suf))
                  (take (Z.to_nat len) (drop (Z.to_nat iph) (w_buffer w))) w)).
  { intros t Ht. unfold first_taker. csimpl. rewrite Ht.
    apply (IH (I1 ++ [gi]) (set_os t (w_trace w) w)); try done. simpl. by rewrite <-app_assoc. }
  assert (Hcont0 : taker now (w_ints w) (i_ifindex n) src gi = None ->
    returns (multicast_loop intn iph len src (length G1) (length suf)) os w
      (fun _ => sent_to os (first_taker now (w_ints w) (i_ifindex n) src (gi :: suf))
                  (take (Z.to_nat len) (drop (Z.to_nat iph) (w_buffer w))) w)).
  { intros Ht. specialize (Hcont (w_tick w) Ht). by destruct w. }
  destruct (Z.eqb_spec (i_ifindex n) (gi_ifindex gi)) as [Hi|Hi].
  { apply Hcont0. unfold taker. by rewrite (proj2 (Z.eqb_eq _ _) (eq_sym Hi)). }
  assert (Hskip : forall t, wants (Some gi) now src = false ->
    returns (multicast_loop intn iph len src (length G1) (length suf)) os (set_os t (w_trace w) w)
      (fun _ => sent_to os (first_taker now (w_ints w) (i_ifindex n) src (gi :: suf))
                  (take (Z.to_nat len) (drop (Z.to_nat iph) (w_buffer w))) w)).
  { intros t Hno. apply Hcont. unfold taker. rewrite Hno. by rewrite orb_true_r. }
  destruct (gi_filter_mode gi =? MLD2_MODE_IS_INCLUDE) eqn:Em.
  - assert (Hwant : wants (Some gi) now src = if src_hasmember (gi_includes gi) src then true else false).
    { unfold wants. by rewrite Em, hasmember_addrs. }
    destruct (src_hasmember (gi_includes gi) src) as [k|] eqn:Ek; [|specialize (Hskip (w_tick w) Hwant); by destruct w].
    destruct (hasmember_lookup _ _ _ Ek) as (s & Hs & _ & Hlive). rewrite Forall_forall in Hst0. specialize (Hst0 s Hlive).
    do 2 spec_step. spec_step. unfold expire_source. spec_step. eapply mk_grpint_at; [exact Hw|]. rewrite Hs, Hnow.
    rewrite (proj2 (Z.leb_gt _ _) Hst0). spec_step. apply forward_stable; auto.
  - assert (Hwant : wants (Some gi) now src = negb (bool_decide (src ∈ addrs (gi_excludes gi)))).
    { unfold wants. by rewrite Em, u32_small, (proj2 (Z.ltb_lt _ _) Hst0). }
    do 2 spec_step. rewrite Hnow, (proj2 (Z.leb_gt _ _) Hst0), hasmember_not_nil.
    case_bool_decide; [by apply Hskip|apply forward_stable; auto].
Qed.

(** Up to the loop: the packet is counted for its group. *)
Lemma l4_ipv6_multicast_enter os w intn iph len (Q : unit -> world -> Prop) :
  0 <= iph -> 40 <= len -> iph + len <= Z.of_nat (length (w_buffer w)) ->
  let src := take 16 (drop (Z.to_nat (iph + 8)) (w_buffer w)) in
  let dst := take 16 (drop (Z.to_nat (iph + 24)) (w_buffer w)) in
  not_forwarded src dst = false ->
  (find_by g_mca dst (w_groups w) = None -> Q tt w) ->
  (forall G1 g G2, find_by g_mca dst (w_groups w) = Some g -> w_groups w = G1 ++ g :: G2 ->
     returns (multicast_loop intn iph len src (length G1) (length (g_interfaces g))) os
       (set_groups (mk G1 (count_group len g) (g_interfaces g) G2) w) Q) ->
  returns (l4_ipv6_multicast intn iph len) os w Q.
Proof.
  intros Hiph Hlen Hbuf src dst Hnf Hnone Hloop. unfold l4_ipv6_multicast.
  assert (Hload : forall {A} off (k : list Z -> M A) (Q : A -> world -> Prop), 0 <= off -> off + 16 <= Z.of_nat (length (w_buffer w)) ->
    returns (k (take 16 (drop (Z.to_nat off) (w_buffer w)))) os w Q -> returns (x ← load off 16; k x) os w Q).
  { intros A off k P H1 H2 Hk. spec_step. unfold load. do 2 spec_step.
    rewrite (proj2 (Z.leb_le _ _) H1), (proj2 (Z.leb_le _ _) H2). by spec_step. }
  apply Hload; [lia..|]. apply Hload; [lia..|]. fold src dst. rewrite Hnf. unfold group_find. do 4 spec_step. rewrite group_find_key.
  rewrite find_by_idx in *. destruct (find_key g_mca dst (w_groups w)) as [j|] eqn:Ej; [|spec_step; by apply Hnone].
  apply find_key_Some in Ej as (g & Hg & Hgm). simpl in *. rewrite Hg in *.
  spec_step. eapply upd_group_spec; [exact Hg|]. spec_step. eapply group_at_spec; [simpl; by rewrite list_lookup_alter_eq, Hg|].
  destruct (list_elem_of_split_length _ _ _ Hg) as (G1 & G2 & HG & ->). specialize (Hloop G1 g G2 eq_refl HG).
  rewrite HG, alter_middle. unfold mk in Hloop. by destruct g.
Qed.

(** When no timer of the group has run out, a packet goes to the first interface of the
    group's list that wants it and is found, to no other, and to none when there is no
    such interface; no filter state changes. *)
Theorem l4_ipv6_multicast_stable os now w intn n iph len :
  groups_wf (w_groups w) -> (forall t, os_time os t = now) -> 0 <= now < 2 ^ 32 -> w_ints w !! intn = Some n ->
  0 <= iph -> 40 <= len -> iph + len <= Z.of_nat (length (w_buffer w)) ->
  let packet := take (Z.to_nat len) (drop (Z.to_nat iph) (w_buffer w)) in
  let src := take 16 (drop (Z.to_nat (iph + 8)) (w_buffer w)) in
  let dst := take 16 (drop (Z.to_nat (iph + 24)) (w_buffer w)) in
  let gis := default [] (g_interfaces <$> find_by g_mca dst (w_groups w)) in
  not_forwarded src dst = false -> Forall (stable_entry now) gis ->
  returns (l4_ipv6_multicast intn iph len) os w (fun _ w' =>
    w_trace w' = (match first_taker now (w_ints w) (i_ifindex n) src gis with Some m => [send_event m packet] | None => [] end) ++ w_trace w /\
    (forall mca ifx, view (w_groups w') mca ifx = view (w_groups w) mca ifx) /\ groups_wf (w_groups w') /\ undisturbed os w w').
Proof.
  intros Hwf Hnow Hrange Hn Hiph Hlen Hbuf packet src dst gis Hnf Hst.
  apply l4_ipv6_multicast_enter; [done..| |]; fold src dst; unfold gis in *; clear gis.
  { intros Hg. by rewrite Hg. }
  intros G1 g G2 Hg HG. rewrite Hg in *. simpl in Hst |- *. set (w1 := set_groups _ w).
  eapply spec_mono; [apply (multicast_loop_stable os now G1 G2 (count_group len g) intn n iph len src (g_interfaces g) [] w1); try done; lia| |done].
  cbv beta. intros _ w' (Ht & Hg' & Hu). split; [exact Ht|]. unfold w1, mk in *. simpl in *.
  rewrite HG in *. change (set_interfaces (g_interfaces g) (count_group len g)) with (count_group len g) in Hg'. split; [|split; [|exact Hu]].
  2: { rewrite Hg', <-(alter_middle (count_group len)). apply groups_wf_alter; [done..|]. intros x _. by apply group_wf_same. }
  intros mca ifx. rewrite Hg'.
  rewrite <-(alter_middle (count_group len)), (view_alter_group _ _ g _ _ _ Hwf (lookup_mid _ _ _)) by done.
  case_decide; [subst|done]. symmetry. exact (view_group _ (length G1) g ifx Hwf (lookup_mid _ _ _)).
Qed.
