(* ===== verification/PacketFacts.v ===== *)
(** The receive path of [src/ecmh.c] before the MLD messages: the chain of extension headers, what
    [l3_ipv6] ignores, the checksum, MLDv1 reports, and the forwarding of data from end to end. *)

From S2P Require Import Prelude Checksum LinkList Msrc World Interfaces Send Groups Samples Routing Mld2Logic Mld2Expire Packet Forwarding ReportFacts.
#[local] Open Scope Z_scope.

(** * The chain of extension headers *)

Lemma spec_eq {A} (m : M A) os w a w' : returns m os w (fun a' w'' => a' = a /\ w'' = w') -> m os w = Ret a w'.
Proof. unfold spec. destruct (m os w); [by intros [-> ->]|done]. Qed.

Lemma load_value off len os w :
  load off len os w = Ret (take (Z.to_nat len) (drop (Z.to_nat off) (w_buffer w))) w \/ load off len os w = Crash OutOfBounds w.
Proof. unfold load, mbind, M_bind, get. destruct (_ && _); auto. Qed.
Lemma load8_value off os w :
  (exists b, (bytes (w_buffer w) -> 0 <= b < 256) /\ load8 off os w = Ret b w) \/ load8 off os w = Crash OutOfBounds w.
Proof.
  unfold load8, mbind, M_bind. destruct (load_value off 1 os w) as [-> | ->]; [left|by right].
  eexists. split; [|done]. intros Hb.
  assert (H : bytes (take (Z.to_nat 1) (drop (Z.to_nat off) (w_buffer w)))) by by apply Forall_take, Forall_drop.
  change (Z.to_nat 1) with 1%nat in *. destruct (drop (Z.to_nat off) (w_buffer w)) as [|b l]; simpl in *; [lia|].
  by apply Forall_cons in H as [? _].
Qed.

(** More fuel changes nothing once the rest of the packet is covered. *)
Lemma skip_headers_more iph len os w :
  bytes (w_buffer w) -> forall fuel k t ipe plen,
  (iph + len - ipe) / 8 < Z.of_nat fuel -> 0 <= iph + len - ipe ->
  skip_headers (fuel + k) iph len t ipe plen os w = skip_headers fuel iph len t ipe plen os w.
Proof.
  intros Hb. induction fuel as [|fuel IH]; intros k t ipe plen Hf Hipe.
  { pose proof (Z.div_pos (iph + len - ipe) 8). lia. }
  cbn [Nat.add skip_headers]. destruct (negb (is_extension t)); [done|].
  unfold mbind, M_bind. destruct (load8_value ipe os w) as [(nxt & _ & ->)| ->]; [|done].
  destruct (load8_value (ipe + 1) os w) as [(l & Hl & ->)| ->]; [|done]. specialize (Hl Hb).
  cbv zeta. destruct (Z.ltb_spec (iph + len) (ipe + (l * 8 + 8))); [done|]. apply IH; [|lia].
  replace (iph + len - (ipe + (l * 8 + 8))) with (iph + len - ipe + (- (l + 1)) * 8) by lia. rewrite Z.div_add by lia. lia.
Qed.

(** The chain of headers as the code walks it: type, offset and the length that is left; the length field of every extension header, of an
    authentication header too, counts 8-byte units after the first. *)
Definition header : Type := Z * Z * Z.
Definition next_header (buffer : list Z) (x y : header) : Prop :=
  let '(t, off, rest) := x in
  let l := (byte_at buffer (off + 1) + 1) * 8 in
  is_extension t = true /\ y = (byte_at buffer off, off + l, u16 (rest - l)).

Lemma load8_exact off os w :
  load8 off os w = if decide (0 <= off < Z.of_nat (length (w_buffer w))) then Ret (byte_at (w_buffer w) off) w else Crash OutOfBounds w.
Proof.
  unfold load8, load, mbind, M_bind, get. destruct (_ && _) eqn:E; case_decide; try done; exfalso; lia.
Qed.

(** C26: The loop over the extension headers ends, and finds the first header that is not an extension: the fuel the model gives it is enough
    for every packet, and more never changes the result; a result is the header that the chain from the IPv6 header leads to, no
    extension itself and inside the packet (each header of the chain is taken to be 8 times its length byte plus 8 bytes long, which for an
    authentication header is not its length); without a result the chain has an extension header that ends behind the packet; and it faults
    only where one of the two bytes it reads of an extension header is outside the receive buffer. *)
Theorem skip_headers_terminates iph len t plen os w :
  bytes (w_buffer w) -> sizeof_ip6_hdr <= len ->
  let start : header := (t, iph + sizeof_ip6_hdr, plen) in
  let reached := rtc (next_header (w_buffer w)) start in
  (forall k, skip_headers (headers_fuel len + k) iph len t (iph + sizeof_ip6_hdr) plen os w =
             skip_headers (headers_fuel len) iph len t (iph + sizeof_ip6_hdr) plen os w) /\
  spec (skip_headers (headers_fuel len) iph len t (iph + sizeof_ip6_hdr) plen) os w
    (fun r w' => w' = w /\ match r with
       | Some (t', ipe, rest) => reached (t', ipe, rest) /\ is_extension t' = false /\ iph + sizeof_ip6_hdr <= ipe <= iph + len
       | None => exists x y, reached x /\ next_header (w_buffer w) x y /\ iph + len < y.1.2
       end)
    (fun f w' => f = OutOfBounds /\ w' = w /\ exists x, reached x /\ is_extension x.1.1 = true /\
       ~ (0 <= x.1.2 /\ x.1.2 + 1 < Z.of_nat (length (w_buffer w)))).
Proof.
  intros Hb Hlen start reached. change sizeof_ip6_hdr with 40 in *. assert (H8 : 0 <= len / 8) by (apply Z.div_pos; lia).
  assert (Hfuel : (iph + len - (iph + 40)) / 8 < Z.of_nat (headers_fuel len)).
  { unfold headers_fuel. rewrite Z2Nat.id by lia. replace (iph + len - (iph + 40)) with (len + (-5) * 8) by lia. rewrite Z.div_add by lia. lia. }
  split; [intros k; apply skip_headers_more; [done|exact Hfuel|lia]|].
  assert (H : forall fuel t ipe plen, reached (t, ipe, plen) -> iph + 40 <= ipe <= iph + len -> (iph + len - ipe) / 8 < Z.of_nat fuel ->
    spec (skip_headers fuel iph len t ipe plen) os w (fun r w' => w' = w /\ match r with
       | Some (t', ipe, rest) => reached (t', ipe, rest) /\ is_extension t' = false /\ iph + 40 <= ipe <= iph + len
       | None => exists x y, reached x /\ next_header (w_buffer w) x y /\ iph + len < y.1.2
       end) (fun f w' => f = OutOfBounds /\ w' = w /\ exists x, reached x /\ is_extension x.1.1 = true /\
       ~ (0 <= x.1.2 /\ x.1.2 + 1 < Z.of_nat (length (w_buffer w))))); [|apply H; [apply rtc_refl|lia|done]].
  clear Hfuel. induction fuel as [|fuel IH]; intros t' ipe rest Hx Hi Hf.
  { pose proof (Z.div_pos (iph + len - ipe) 8). lia. }
  cbn [skip_headers]. destruct (is_extension t') eqn:Et; simpl; [|by spec_step].
  spec_step. unfold spec. rewrite load8_exact. case_decide as H1; [|split_and!; [done|done|]; exists (t', ipe, rest); simpl; split_and!; [done|done|lia]].
  unfold mbind, M_bind. rewrite load8_exact. case_decide as H2; [|split_and!; [done|done|]; exists (t', ipe, rest); simpl; split_and!; [done|done|lia]].
  pose proof (byte_at_range (w_buffer w) Hb (ipe + 1)) as Hl. set (nxt := byte_at _ ipe) in *. set (l := byte_at _ (ipe + 1)) in *.
  assert (Hn : next_header (w_buffer w) (t', ipe, rest) (nxt, ipe + (l * 8 + 8), u16 (rest - (l * 8 + 8)))).
  { split; [done|]. fold nxt l. replace ((l + 1) * 8) with (l * 8 + 8) by lia. done. }
  cbv zeta. destruct (Z.ltb_spec (iph + len) (ipe + (l * 8 + 8))); [split; [done|]; do 2 eexists; split_and!; [exact Hx|exact Hn|simpl; lia]|].
  apply IH; [by eapply rtc_r|lia|].
  replace (iph + len - (ipe + (l * 8 + 8))) with (iph + len - ipe + (- (l + 1)) * 8) by lia. rewrite Z.div_add by lia. lia.
Qed.

(** * What [l3_ipv6] ignores *)

(** The 40 bytes of the IPv6 header lie in the buffer, where the packet pointer points. *)
Definition header_at (iph : Z) (w : world) : Prop := 0 <= iph /\ iph + 40 <= Z.of_nat (length (w_buffer w)).
Definition field (off : Z) (n : nat) (w : world) : list Z := take n (drop (Z.to_nat off) (w_buffer w)).
Definition ip_src (iph : Z) (w : world) : in6_addr := field (iph + 8) 16 w.
Definition ip_dst (iph : Z) (w : world) : in6_addr := field (iph + 24) 16 w.

Lemma load_field off n os w :
  0 <= off -> off + Z.of_nat n <= Z.of_nat (length (w_buffer w)) -> load off (Z.of_nat n) os w = Ret (field off n w) w.
Proof.
  intros. unfold load, mbind, M_bind, get, field. rewrite (proj2 (andb_true_iff _ _)), Nat2Z.id; [done|].
  rewrite andb_true_iff, !Z.leb_le. lia.
Qed.
Lemma bind_load {A} off n (k : list Z -> M A) os w :
  0 <= off -> off + Z.of_nat n <= Z.of_nat (length (w_buffer w)) ->
  (l ← load off (Z.of_nat n); k l) os w = k (field off n w) os w.
Proof. intros H1 H2. by rewrite (bind_Ret _ _ _ _ _ _ (load_field off n os w H1 H2)). Qed.
Lemma bind_int_at {A} i n (k : intnode -> M A) os w : w_ints w !! i = Some n -> (x ← int_at i; k x) os w = k n os w.
Proof. intros H. unfold mbind, M_bind, int_at, mbind, M_bind, get. by rewrite H. Qed.

(** A packet that is not multicast, or comes from an address of the interface itself, is dropped
    without any effect. *)
Theorem l3_ipv6_ignores intn n iph len os w :
  header_at iph w -> w_ints w !! intn = Some n ->
  IN6_IS_ADDR_MULTICAST (ip_dst iph w) = false \/ ip_src iph w = i_linklocal n \/ ip_src iph w = i_global n ->
  l3_ipv6 intn iph len os w = Ret tt w.
Proof.
  intros [H0 H1] Hn Hc. unfold l3_ipv6. change 16 with (Z.of_nat 16) at 1 2.
  rewrite (bind_load (iph + 24) 16) by lia. fold (ip_dst iph w). destruct (IN6_IS_ADDR_MULTICAST _); [|done]. simpl.
  destruct Hc as [|Hc]; [done|]. rewrite (bind_int_at _ _ _ _ _ Hn), (bind_load (iph + 8) 16) by lia. fold (ip_src iph w).
  destruct Hc as [-> | ->]; [by rewrite (bool_decide_eq_true_2 _ (eq_refl (i_linklocal n)))|].
  by rewrite (bool_decide_eq_true_2 _ (eq_refl (i_global n))), orb_true_r.
Qed.

(** * The checksum *)

Definition set_checksum (icmpv6 c0 c1 : Z) (w : world) : world :=
  set_buffer (<[Z.to_nat icmpv6 + 3 := c1]> (<[Z.to_nat icmpv6 + 2 := c0]> (w_buffer w)))%nat w.

Lemma store8_value off v os w :
  0 <= off -> off + 1 <= Z.of_nat (length (w_buffer w)) ->
  store8 off v os w = Ret tt (set_buffer (<[Z.to_nat off := u8 v]> (w_buffer w)) w).
Proof. intros. unfold store8. change 1 with (Z.of_nat 1). by rewrite (bind_load off 1). Qed.

Lemma bind_store8 {A} off v (k : unit -> M A) os w :
  0 <= off -> off + 1 <= Z.of_nat (length (w_buffer w)) ->
  (store8 off v ≫= k) os w = k tt os (set_buffer (<[Z.to_nat off := u8 v]> (w_buffer w)) w).
Proof. intros H1 H2. by rewrite (bind_Ret _ _ _ _ _ _ (store8_value off v os w H1 H2)). Qed.

(** Clearing the field forgets what was in it. *)
Lemma recompute_checksum_same iph icmpv6 plen c0 c1 os w :
  0 <= icmpv6 -> icmpv6 + 4 <= Z.of_nat (length (w_buffer w)) ->
  recompute_checksum iph icmpv6 plen os (set_checksum icmpv6 c0 c1 w) = recompute_checksum iph icmpv6 plen os w.
Proof.
  intros H0 H1. unfold recompute_checksum.
  set (w1 := set_checksum icmpv6 c0 c1 w).
  assert (Hl : length (w_buffer w1) = length (w_buffer w)) by (simpl; by rewrite !length_insert).
  rewrite (bind_load (icmpv6 + 2) 2 _ os w1), (bind_load (icmpv6 + 2) 2 _ os w) by (rewrite ?Hl; lia).
  rewrite !bind_store8 by (simpl; rewrite ?length_insert, ?Hl; lia). simpl.
  replace (Z.to_nat (icmpv6 + 2)) with (Z.to_nat icmpv6 + 2)%nat by lia.
  replace (Z.to_nat (icmpv6 + 3)) with (Z.to_nat icmpv6 + 3)%nat by lia.
  assert (E : forall (b : list Z) k, <[(k + 3)%nat := u8 0]> (<[(k + 2)%nat := u8 0]> (<[(k + 3)%nat := c1]> (<[(k + 2)%nat := c0]> b)))
    = <[(k + 3)%nat := u8 0]> (<[(k + 2)%nat := u8 0]> b)).
  { intros b k. rewrite (list_insert_insert_ne _ (k + 2) (k + 3)) by lia. by rewrite !list_insert_insert_eq. }
  unfold w1, set_checksum. simpl. by rewrite E.
Qed.

(** C27: A message that arrives with a wrong checksum is handled like the one with the right checksum: for the types
    the daemon handles, the outcome does not depend on the checksum field. The code logs
    "CORRUPT->DROP" and goes on. *)
Theorem l4_ipv6_icmpv6_ignores_checksum intn n iph len icmpv6 plen c0 c1 type os w :
  0 <= icmpv6 -> icmpv6 + 4 <= Z.of_nat (length (w_buffer w)) ->
  w_ints w !! intn = Some n -> w_buffer w !! Z.to_nat icmpv6 = Some type -> handled_icmp6_type type = true ->
  l4_ipv6_icmpv6 intn iph len icmpv6 plen os (set_checksum icmpv6 c0 c1 w) = l4_ipv6_icmpv6 intn iph len icmpv6 plen os w.
Proof.
  intros H0 H1 Hn Ht Hh. unfold l4_ipv6_icmpv6.
  assert (Hcount : forall w (k : unit -> M unit), w_ints w !! intn = Some n ->
    (modify (set_stat count_icmp_received) ≫= (fun _ => upd_int intn (set_int_stat count_icmp_received) ≫= k)) os w =
    k tt os (set_ints (alter (set_int_stat count_icmp_received) intn (w_ints w)) (set_stat count_icmp_received w))).
  { intros w' k Hn'. unfold mbind, M_bind, modify, upd_int, int_at, mbind, M_bind, get. simpl. by rewrite Hn'. }
  rewrite (Hcount (set_checksum icmpv6 c0 c1 w)), (Hcount w) by done. simpl.
  set (w1 := set_ints _ (set_stat _ w)). change (set_ints _ (set_stat _ (set_checksum icmpv6 c0 c1 w))) with (set_checksum icmpv6 c0 c1 w1).
  assert (Hload : forall (v : world) (k : Z -> M unit), w_buffer v !! Z.to_nat icmpv6 = Some type -> (load8 icmpv6 ≫= k) os v = k type os v).
  { intros v k Hv. apply lookup_lt_Some in Hv as Hlt. unfold load8.
    assert (E : load icmpv6 1 os v = Ret [type] v).
    { change 1 with (Z.of_nat 1) at 1. rewrite load_field by lia. f_equal. unfold field.
      erewrite drop_S by exact Hv. done. }
    unfold mbind at 1, M_bind at 1. by rewrite (bind_Ret _ _ _ _ _ _ E). }
  rewrite !Hload, Hh; [|done|simpl; by rewrite !list_lookup_insert_ne by lia]. simpl.
  unfold mbind at 1 4, M_bind at 1 4. by rewrite recompute_checksum_same by done.
Qed.

(** The length field of the IPv6 header is trusted: when it announces more than the receive buffer holds, the
    checksum of any message the daemon handles is computed over memory beyond the buffer. *)
Theorem l4_ipv6_icmpv6_overreads intn n iph len icmpv6 plen type os w :
  header_at iph w -> 0 <= icmpv6 -> icmpv6 + 4 <= Z.of_nat (length (w_buffer w)) ->
  w_ints w !! intn = Some n -> w_buffer w !! Z.to_nat icmpv6 = Some type -> handled_icmp6_type type = true ->
  Z.of_nat (length (w_buffer w)) < icmpv6 + plen ->
  exists w', l4_ipv6_icmpv6 intn iph len icmpv6 plen os w = Crash OutOfBounds w'.
Proof.
  intros [Hi0 Hi1] H0 H1 Hn Ht Hh Hplen.
  cut (spec (l4_ipv6_icmpv6 intn iph len icmpv6 plen) os w (fun _ _ => False) (fun f _ => f = OutOfBounds)).
  { unfold spec. destruct (l4_ipv6_icmpv6 _ _ _ _ _ _ _) as [|f w']; [done|]. intros ->. by exists w'. }
  unfold l4_ipv6_icmpv6. do 3 spec_step. spec_step. spec_step. set (w1 := set_ints _ _).
  assert (E : load8 icmpv6 os w1 = Ret type w1).
  { apply lookup_lt_Some in Ht as Hlt. unfold load8.
    assert (E : load icmpv6 1 os w1 = Ret [type] w1).
    { change 1 with (Z.of_nat 1) at 1. rewrite load_field by (simpl; lia). f_equal. unfold field. simpl. by erewrite drop_S by exact Ht. }
    by rewrite (bind_Ret _ _ _ _ _ _ E). }
  unfold spec at 1. rewrite E, Hh. simpl negb. cbv iota. spec_step. unfold recompute_checksum.
  change 2 with (Z.of_nat 2) at 2. unfold spec at 1. rewrite (bind_load (icmpv6 + 2) 2) by (simpl; lia).
  rewrite !bind_store8 by (simpl; rewrite ?length_insert; lia). change 32 with (Z.of_nat 32).
  rewrite (bind_load (iph + 8) 32) by (simpl; rewrite ?length_insert; lia).
  set (w2 := set_buffer _ (set_buffer _ _)).
  assert (Hb : length (w_buffer w2) = length (w_buffer w)) by (simpl; by rewrite !length_insert).
  unfold mbind, M_bind, load, get, mbind, M_bind. rewrite Hb. by rewrite (proj2 (Z.leb_gt _ _) Hplen), andb_false_r.
Qed.

(** * MLDv1 reports *)

(** An MLDv1 report of a routable group sends nothing and opens the filter of no interface: the entry
    it creates includes no source, so that the listener never receives the group. *)
Theorem mld1_report_has_no_effect intn n mld1 os w :
  groups_wf (w_groups w) -> w_ints w !! intn = Some n ->
  let outcome := fun w' => w_trace w' = w_trace w /\
    forall mca ifx now src, wants (view (w_groups w') mca ifx) now src = wants (view (w_groups w) mca ifx) now src in
  spec (mld1_report intn mld1) os w (fun _ => outcome) (fun _ w' => w_trace w' = w_trace w).
Proof.
  intros Hwf Hn outcome. unfold mld1_report. spec_step.
  eapply spec_mono; [by apply int_set_mld_version_spec| |done]. cbv beta zeta. intros _ w1 Hw1.
  pose proof (becomes_lookup _ _ (lookup_lt_Some _ _ _ Hn) _ _ Hw1) as Hn1. destruct Hw1 as [t Hw1].
  assert (Hg1 : w_groups w1 = w_groups w) by by rewrite Hw1. assert (Ht1 : w_trace w1 = w_trace w) by by rewrite Hw1.
  assert (Ho1 : outcome w1) by (split; [done|by rewrite Hg1]). clear Hw1. spec_step. unfold spec at 1.
  destruct (load_value (mld1 + 8) 16 os w1) as [-> | ->]; [|done]. destruct (unroutable_mca _); [by spec_step|]. set (mca := take _ _).
  spec_step. pose proof (groupint_get_spec mca intn _ os w1 ltac:(by rewrite Hg1) Hn1) as H1.
  pose proof (rel_spec (frames w_trace) (groupint_get mca intn) os w1 ltac:(by apply rel_groupint_get; [typeclasses eauto|..])) as H2.
  eapply spec_mono; [exact (spec_conj _ _ _ _ _ _ _ H1 H2)| |unfold frames; intros f w2 [_ Ht2]; congruence].
  unfold frames. cbv beta. intros [[p|] isnew] w2 [((Hwf2 & Hother & Hent) & _) Ht2]; simpl; spec_step; (split; [congruence|]).
  all: intros mca' ifx now src; rewrite Hg1 in *; simpl in *.
  all: destruct (decide (mca' = mca /\ ifx = i_ifindex n)) as [[-> ->]|Hne]; [|rewrite Hother; [done|]; apply not_and_l in Hne; tauto].
  - destruct Hent as (gi & Hp & Hgi). rewrite (points_to_view _ _ _ _ _ Hwf2 Hp). destruct Hgi as [-> | [-> Hf]]; [done|].
    destruct Hf as (_ & Hinc & _ & Hm & _). unfold wants. by rewrite Hm, Hinc.
  - by rewrite Hent.
Qed.

(** * Data, from the IPv6 header to the wire *)

Lemma decrease_hlim_spec iph h os w :
  header_at iph w -> w_buffer w !! Z.to_nat (iph + 7) = Some h -> 1 < h < 256 ->
  decrease_hlim iph os w = Ret (h - 1) (set_buffer (<[Z.to_nat (iph + 7) := h - 1]> (w_buffer w)) w).
Proof.
  intros [H0 H1] Hh Hr. unfold decrease_hlim.
  assert (E : forall v x, w_buffer v !! Z.to_nat (iph + 7) = Some x -> length (w_buffer v) = length (w_buffer w) -> load8 (iph + 7) os v = Ret x v).
  { intros v x Hx Hl. unfold load8. change 1 with (Z.of_nat 1).
    rewrite (bind_load (iph + 7) 1) by (rewrite ?Hl; lia). unfold field. by erewrite drop_S by exact Hx. }
  rewrite (bind_Ret _ _ _ _ _ _ (E w h Hh eq_refl)), (proj2 (Z.ltb_lt _ _)) by lia. cbn [when].
  rewrite bind_store8 by lia. rewrite (E _ (h - 1)); [| |by simpl; rewrite length_insert].
  - do 3 f_equal. unfold u8. by rewrite Z.mod_small by lia.
  - simpl. rewrite list_lookup_insert_eq by (by eapply lookup_lt_Some). unfold u8. by rewrite Z.mod_small by lia.
Qed.

Lemma bind_load16 {A} off (k : Z -> M A) os w :
  0 <= off -> off + 2 <= Z.of_nat (length (w_buffer w)) -> exists x, (load16 off ≫= k) os w = k x os w.
Proof.
  intros H0 H1. unfold load16. change 2 with (Z.of_nat 2). eexists.
  unfold mbind at 1, M_bind at 1. rewrite (bind_load off 2) by done. done.
Qed.

(** C13: From the IPv6 header to the wire: a multicast packet that is no ICMPv6 message, whose hop limit is not used up and
    whose group has only running timers, goes with its hop limit decremented to the first
    interface, in the order of the group's list, that wants its source, and to no other. *)
Theorem l3_ipv6_delivers os now w intn n iph len h nxt :
  (forall t, os_time os t = now) -> 0 <= now < 2 ^ 32 -> groups_wf (w_groups w) -> w_ints w !! intn = Some n ->
  0 <= iph -> 40 <= len -> iph + len <= Z.of_nat (length (w_buffer w)) ->
  w_buffer w !! Z.to_nat (iph + 6) = Some nxt -> is_extension nxt = false -> nxt ≠ IPPROTO_ICMPV6 ->
  w_buffer w !! Z.to_nat (iph + 7) = Some h -> 1 < h < 256 ->
  IN6_IS_ADDR_MULTICAST (ip_dst iph w) = true -> not_forwarded (ip_src iph w) (ip_dst iph w) = false ->
  ip_src iph w ≠ i_linklocal n -> ip_src iph w ≠ i_global n ->
  let gis := default [] (g_interfaces <$> find_by g_mca (ip_dst iph w) (w_groups w)) in
  Forall (stable_entry now) gis ->
  let packet := <[7%nat := h - 1]> (field iph (Z.to_nat len) w) in
  returns (l3_ipv6 intn iph len) os w (fun _ w' =>
    w_trace w' = (match first_taker now (w_ints w) (i_ifindex n) (ip_src iph w) gis with Some m => [send_event m packet] | None => [] end) ++ w_trace w /\
    forall mca ifx, view (w_groups w') mca ifx = view (w_groups w) mca ifx).
Proof.
  intros Hnow Hr Hwf Hn Hiph Hlen Hbuf Hnxt Hext Hicmp Hh Hh1 Hmc Hnf Hs1 Hs2 gis Hst packet.
  assert (Hhdr : header_at iph w) by (split; lia).
  unfold l3_ipv6. change 16 with (Z.of_nat 16). unfold spec.
  rewrite (bind_load (iph + 24) 16) by lia. fold (ip_dst iph w). rewrite Hmc. cbn [negb].
  rewrite (bind_int_at _ _ _ _ _ Hn), (bind_load (iph + 8) 16) by lia. fold (ip_src iph w).
  rewrite (bool_decide_eq_false_2 _ Hs1), (bool_decide_eq_false_2 _ Hs2). cbn [orb].
  assert (E6 : load8 (iph + 6) os w = Ret nxt w).
  { unfold load8. change 1 with (Z.of_nat 1). rewrite (bind_load (iph + 6) 1) by lia. unfold field. by erewrite drop_S by exact Hnxt. }
  rewrite (bind_Ret _ _ _ _ _ _ E6).
  destruct (bind_load16 (iph + 4) (fun plen => r ← skip_headers (headers_fuel len) iph len nxt (iph + sizeof_ip6_hdr) plen;
    match r with
    | Some (ipe_type, ipe, plen0) => if ipe_type =? IPPROTO_ICMPV6 then l4_ipv6_icmpv6 intn iph len ipe plen0
        else if true then hlim ← decrease_hlim iph; if hlim =? 0 then modify (fun w => set_hlim_exceeded (u64 (w_hlim_exceeded w + 1)) w) else l4_ipv6_multicast intn iph len
        else mret tt
    | None => mret tt
    end) os w ltac:(lia) ltac:(lia)) as [plen ->].
  assert (Esk : forall fuel, skip_headers fuel iph len nxt (iph + sizeof_ip6_hdr) plen = mret (Some (nxt, iph + sizeof_ip6_hdr, plen))).
  { intros []; cbn [skip_headers]; by rewrite Hext. }
  rewrite Esk. unfold mbind at 1, M_bind at 1, mret at 1, M_ret at 1. cbv beta iota.
  rewrite (proj2 (Z.eqb_neq _ _) Hicmp). rewrite (bind_Ret _ _ _ _ _ _ (decrease_hlim_spec iph h os w Hhdr Hh Hh1)).
  rewrite (proj2 (Z.eqb_neq (h - 1) 0)) by lia. set (w1 := set_buffer _ w).
  assert (Hf : forall off k, iph + 7 < off -> field off k w1 = field off k w).
  { intros off k Hoff. unfold field, w1. simpl. by rewrite drop_insert_lt by lia. }
  assert (Hp : field iph (Z.to_nat len) w1 = packet).
  { unfold field, w1, packet, field. simpl. rewrite drop_insert_ge, take_insert_lt by lia. f_equal. lia. }
  pose proof (l4_ipv6_multicast_stable os now w1 intn n iph len Hwf Hnow Hr Hn Hiph Hlen) as H. cbv zeta in H.
  change (take 16 (drop (Z.to_nat (iph + 8)) (w_buffer w1))) with (field (iph + 8) 16 w1) in H.
  change (take 16 (drop (Z.to_nat (iph + 24)) (w_buffer w1))) with (field (iph + 24) 16 w1) in H.
  change (take (Z.to_nat len) (drop (Z.to_nat iph) (w_buffer w1))) with (field iph (Z.to_nat len) w1) in H.
  rewrite Hp, !Hf in H by lia.
  eapply spec_mono; [apply H; [simpl; rewrite length_insert; lia|exact Hnf|exact Hst]| |done]. cbv beta. intros _ w' (Ht & Hv & _). by split.
Qed.

(** * The theorems on the sample system *)

(** A packet of [len] bytes of payload behind an Ethernet header. *)
Definition sample_packet (nxt hlim : Z) (from dst : in6_addr) (payload : list Z) : list Z :=
  [96; 0; 0; 0] ++ be16 (Z.of_nat (length payload)) ++ [nxt; hlim] ++ from ++ dst ++ payload.
Definition sample_frame (packet : list Z) : list Z := replicate 14 0 ++ packet.
Definition sample_data : list Z := sample_packet 17 64 (src 1) sample_mca [1; 2; 3; 4; 5; 6; 7; 8].
Definition two_takers : world := sample_world [include_entry 2; include_entry 3] [] (sample_frame sample_data).
Lemma two_takers_wf : groups_wf (w_groups two_takers).
Proof. apply sample_groups_wf; [apply (bool_decide_unpack _); by vm_compute|auto with ecmh]. Qed.

(** Two downstream interfaces include the source; one of them gets the packet. The comment in the code says
    that the loop goes on with the next interface. *)
Theorem l3_ipv6_serves_one_interface :
  (forall gi, gi ∈ [include_entry 2; include_entry 3] -> wants (Some gi) 1000 (src 1) = true) /\
  exists w', l3_ipv6 1 14 48 sample_os two_takers = Ret tt w' /\
    w_trace w' = [send_event eth2 (<[7%nat := 63]> sample_data)].
Proof.
  split; [|eexists; split; by vm_compute].
  intros gi Hgi. rewrite !elem_of_cons, elem_of_nil in Hgi. destruct Hgi as [-> | [-> | []]]; by vm_compute.
Qed.

Lemma l3_ipv6_delivers_witness :
  returns (l3_ipv6 1 14 48) sample_os two_takers (fun _ w' =>
    w_trace w' = [send_event eth2 (<[7%nat := 63]> sample_data)] /\
    forall mca ifx, view (w_groups w') mca ifx = view (w_groups two_takers) mca ifx).
Proof.
  assert (Hst : Forall (stable_entry 1000) (default [] (g_interfaces <$> find_by g_mca (ip_dst 14 two_takers) (w_groups two_takers)))).
  { replace (default _ _) with [include_entry 2; include_entry 3] by (vm_compute; reflexivity).
    assert (H : forall i, 0 <= i -> stable_entry 1000 (include_entry i)).
    { intros i Hi. split; [done|]. change (Forall (fun s => 1000 < s_timer s) [Msrc (src 1) 1100; Msrc (src 2) 1100]). repeat constructor. }
    apply Forall_cons_2; [by apply H|]. apply Forall_cons_2; [by apply H|apply Forall_nil_2]. }
  pose proof (l3_ipv6_delivers sample_os 1000 two_takers 1 eth1 14 48 64 17 (fun _ => eq_refl) ltac:(lia) two_takers_wf eq_refl
    ltac:(lia) ltac:(lia) ltac:(vm_compute; congruence) eq_refl eq_refl ltac:(done) eq_refl ltac:(lia) eq_refl eq_refl
    ltac:(vm_compute; congruence) ltac:(vm_compute; congruence) Hst) as H.
  exact H.
Defined.

Definition sample_zeros : world := sample_world [] [] (replicate 100 0).
(** A hop-by-hop header of 8 bytes before UDP. *)
Definition sample_options : world := sample_world [] [] (sample_frame (sample_packet 0 64 (src 1) sample_mca ([17; 0; 1; 4; 0; 0; 0; 0] ++ replicate 8 0))).
Lemma sample_options_run : skip_headers (headers_fuel 56) 14 56 0 (14 + sizeof_ip6_hdr) 16 sample_os sample_options = Ret (Some (17, 62, 8)) sample_options.
Proof. by vm_compute. Qed.
Lemma skip_headers_terminates_witness :
  rtc (next_header (w_buffer sample_options)) (0, 54, 16) (17, 62, 8) /\ is_extension 17 = false /\
  skip_headers (headers_fuel 56 + 7) 14 56 0 (14 + sizeof_ip6_hdr) 16 sample_os sample_options =
  skip_headers (headers_fuel 56) 14 56 0 (14 + sizeof_ip6_hdr) 16 sample_os sample_options.
Proof.
  assert (Hb : bytes (w_buffer sample_options)) by (apply (bool_decide_unpack _); by vm_compute).
  assert (Hl : sizeof_ip6_hdr <= 56) by (unfold sizeof_ip6_hdr; lia).
  destruct (skip_headers_terminates 14 56 0 16 sample_os sample_options Hb Hl) as [H1 H2].
  unfold spec in H2. rewrite sample_options_run in H2. destruct H2 as (_ & Hr & He & _). exact (conj Hr (conj He (H1 7%nat))).
Defined.

Lemma l3_ipv6_ignores_witness :
  let w := sample_world [] [] (sample_frame (sample_packet 17 64 (linklocal 1) sample_mca [])) in l3_ipv6 1 14 40 sample_os w = Ret tt w.
Proof.
  apply (l3_ipv6_ignores 1 eth1); [split; vm_compute; congruence|reflexivity|right; left; reflexivity].
Defined.

Definition sample_echo : world := sample_world [] [] (sample_frame (sample_packet 58 64 (linklocal 9) sample_mca [128; 0; 1; 2; 3; 4; 5; 6])).
Lemma l4_ipv6_icmpv6_ignores_checksum_witness :
  l4_ipv6_icmpv6 1 14 48 54 8 sample_os (set_checksum 54 99 99 sample_echo) = l4_ipv6_icmpv6 1 14 48 54 8 sample_os sample_echo.
Proof.
  apply (l4_ipv6_icmpv6_ignores_checksum 1 eth1 14 48 54 8 99 99 128); [lia|vm_compute; congruence|reflexivity..].
Defined.

Lemma l4_ipv6_icmpv6_overreads_witness : exists w', l4_ipv6_icmpv6 1 14 48 54 60000 sample_os sample_echo = Crash OutOfBounds w'.
Proof.
  apply (l4_ipv6_icmpv6_overreads 1 eth1 14 48 54 60000 128); [split; vm_compute; congruence|lia|vm_compute; congruence|reflexivity..].
Defined.

Lemma mld1_report_has_no_effect_witness :
  let w := sample_world [] [] ([131; 0; 0; 0; 0; 0; 0; 0] ++ sample_mca) in
  spec (mld1_report 2 0) sample_os w (fun _ w' => w_trace w' = [] /\
    forall mca ifx now src, wants (view (w_groups w') mca ifx) now src = wants (view (w_groups w) mca ifx) now src) (fun _ w' => w_trace w' = []).
Proof.
  apply (mld1_report_has_no_effect 2 eth2); [|reflexivity]. apply sample_groups_wf; [apply NoDup_nil_2|apply Forall_nil_2].
Defined.

Lemma l4_ipv6_multicast_forwards_witness :
  let outcome := fun w' => quiet two_takers w' \/
    exists gi m evs, gi_ifindex gi ≠ 1 /\ view (w_groups two_takers) sample_mca (gi_ifindex gi) = Some gi /\
      accepts sample_os gi (src 1) /\ not_forwarded (src 1) sample_mca = false /\
      w_ints two_takers !! Z.to_nat (gi_ifindex gi) = Some m /\
      w_trace w' = send_event m sample_data :: evs ++ [] /\ Forall (fun e => is_sendto e = false) evs in
  spec (l4_ipv6_multicast 1 14 48) sample_os two_takers (fun _ => outcome) (fun _ => outcome).
Proof. exact (l4_ipv6_multicast_forwards sample_os two_takers 1 eth1 14 48 two_takers_wf eq_refl). Defined.
