(* ===== verification/Delivery.v ===== *)
(** From a report to the delivery of data: the report parser, the router state machine, the refresh of the
    upstream subscriptions and the forwarding of packets, taken together. *)

From S2P Require Import Prelude LinkList Msrc World Interfaces Send Groups Samples Routing Mld2Logic Rfc3810 Mld2Refine DownstreamFacts Packet ReportFacts Mld2Expire Forwarding PacketFacts.
#[local] Open Scope Z_scope.

(** * What handling a report leaves alone *)

(** Nothing is sent, and forwarding finds the same interfaces. *)
Definition calm (w w' : world) : Prop :=
  (exists evs, w_trace w' = evs ++ w_trace w /\ Forall (fun e => is_sendto e = false) evs) /\ faces w' = faces w.

#[export] Instance calm_preorder : PreOrder calm.
Proof.
  split.
  - intros w. split; [by exists []|done].
  - intros w1 w2 w3 [(e & He & Fe) H] [(e' & He' & Fe') H']. split; [|congruence].
    exists (e' ++ e). split; [by rewrite He', He, app_assoc|by apply Forall_app].
Qed.

Lemma calm_same w w' : w_trace w' = w_trace w -> faces w' = faces w -> calm w w'.
Proof. intros H1 H2. split; [by exists []|done]. Qed.
Lemma calm_emit e w : is_sendto e = false -> calm w (set_os (w_tick w) (e :: w_trace w) w).
Proof. intros He. split; [exists [e]; by split; [|apply Forall_singleton]|done]. Qed.
Lemma calm_ints i f w : (forall n, int_face (f n) = int_face n) -> calm w (set_ints (alter f i (w_ints w)) w).
Proof. intros Hf. apply calm_same; [done|]. unfold faces. simpl. by apply fmap_key_alter. Qed.
Ltac calm_tac := intros; first [apply calm_emit; assumption | apply calm_ints; done | by apply calm_same].

Lemma calm_set_mld_version i v : rel calm (int_set_mld_version i v).
Proof.
  assert (Ht : rel calm time) by (apply rel_tick; calm_tac).
  assert (Hu : forall f, (forall n, int_face (f n) = int_face n) -> rel calm (upd_int i f)).
  { intros f Hf. apply rel_upd_int_fun; [typeclasses eauto|]. intros w. by apply calm_ints. }
  unfold int_set_mld_version. rel_auto; auto.
Qed.
Lemma calm_after_report i b : rel calm (after_report i b).
Proof.
  apply rel_when; [typeclasses eauto|]. rel_auto.
  - apply rel_handle_upstream; [typeclasses eauto|..]; calm_tac.
  - apply rel_expire_routes; [typeclasses eauto|..]; calm_tac.
Qed.

(** The records that ask for sources without revoking any: no query is sent. *)
Definition asks (mode : Z) : Prop := mode = MLD2_MODE_IS_INCLUDE \/ mode = MLD2_ALLOW_NEW_SOURCES.

Lemma calm_asks i m : asks (m_filter_mode m) -> rel calm (handle_downstream_subscription i m).
Proof.
  intros Hm.
  assert (Ht : rel calm time) by (apply rel_tick; calm_tac).
  assert (Hg : forall p f, rel calm (upd_grpint p f)) by (intros; apply rel_upd_grpint; [typeclasses eauto|calm_tac..]).
  assert (Hget : forall mca, rel calm (groupint_get mca i)) by (intros; apply rel_groupint_get; [typeclasses eauto|calm_tac..]).
  assert (Ha : adds_sources (m_filter_mode m) = true) by (by destruct Hm as [-> | ->]).
  assert (Hc : (m_filter_mode m =? MLD2_CHANGE_TO_INCLUDE) = false) by (by destruct Hm as [-> | ->]).
  unfold handle_downstream_subscription, include_add, exclude_add. cbv zeta. rewrite Ha, Hc. rel_auto; auto.
Qed.

Lemma groups_after_report i b : rel (frames w_groups) (after_report i b).
Proof.
  apply rel_when; [typeclasses eauto|]. rel_auto.
  - by apply rel_handle_upstream; [typeclasses eauto|..].
  - by apply rel_expire_routes; [typeclasses eauto|..].
Qed.

Lemma after_report_returns intn b os w :
  groups_wf (w_groups w) -> int_ok intn w -> is_Some (w_routes w) -> returns (after_report intn b) os w (fun _ w' => is_Some (w_routes w')).
Proof.
  intros Hwf Hi [l Hl]. apply spec_when; [intros _|by exists l]. spec_step.
  pose proof (rel_spec _ _ os w (settled_upstream (w_buffer w) (Some intn))) as F1.
  pose proof (handle_upstream_faults (Some intn) os w Hwf ltac:(by intros ? [= <-])) as F2.
  eapply spec_mono; [exact (spec_conj _ _ _ _ _ _ _ F1 F2)| |intros f w' (_ & _ & [?|?]); congruence].
  cbv beta. intros _ w' [Hk _]. destruct Hk as (Hwf' & [l' Hl'] & _); [by split_and!; [|exists l|]|].
  do 2 spec_step. eapply spec_mono; [by apply (expire_routes_spec _ l')| |done].
  cbv beta. intros _ w2 (m & t & l2 & -> & _). by exists l2.
Qed.

(** * A group that one interface asked for *)

(** The interface [n] is the only one with state for the group [mca]: the sources [srcs], until [until]. *)
Definition opened (n : intnode) (mca : in6_addr) (srcs : addr_set) (until : Z) (gs : list groupnode) : Prop :=
  groups_wf gs /\
  (exists gi, view gs mca (i_ifindex n) = Some gi /\ abs gi = RInclude (gset_to_gmap until srcs)) /\
  forall ifx, ifx ≠ i_ifindex n -> view gs mca ifx = None.

(** A list without duplicate keys, one of which is the only one present. *)
Lemma find_by_only {A K} `{EqDecision K} (key : A -> K) (l : list A) k x :
  NoDup (key <$> l) -> find_by key k l = Some x -> (forall k', k' ≠ k -> find_by key k' l = None) -> l = [x].
Proof.
  intros Hnd Hx Ho. assert (Hk : forall y, y ∈ l -> key y = k).
  { intros y [i Hi]%list_elem_of_lookup. destruct (decide (key y = k)) as [|Hne]; [done|].
    pose proof (find_by_NoDup key l i y Hnd Hi) as E. by rewrite Ho in E. }
  destruct l as [|y [|z l]]; [done| |].
  - simpl in Hx. by destruct (decide _); simplify_eq.
  - csimpl in Hnd. apply NoDup_cons in Hnd as [Hy _]. destruct Hy.
    rewrite (Hk y), <-(Hk z) by (rewrite !elem_of_cons; auto). by apply elem_of_cons; left.
Qed.

Lemma opened_entries n mca srcs until gs :
  opened n mca srcs until gs -> exists gi, default [] (g_interfaces <$> find_by g_mca mca gs) = [gi] /\ grpint_wf gi /\
    gi_ifindex gi = i_ifindex n /\ abs gi = RInclude (gset_to_gmap until srcs).
Proof.
  intros (Hwf & (gi & Hv & Ha) & Ho). exists gi. destruct (view_wf _ _ _ _ Hwf Hv) as [Hgi Hi]. split_and!; [|done..].
  unfold view in Hv, Ho. destruct (find_by g_mca mca gs) as [g|] eqn:Eg; [|done]. simpl in *.
  apply find_by_Some in Eg as [[j Hg]%list_elem_of_lookup _].
  eapply find_by_only; [|exact Hv|exact Ho]. eauto with ecmh.
Qed.

Lemma abs_included gi A : abs gi = RInclude A -> gi_filter_mode gi =? MLD2_MODE_IS_INCLUDE = true /\ timers_of (gi_includes gi) = A.
Proof. unfold abs. destruct (_ =? _); [by intros [= <-]|done]. Qed.

(** While the timers run the entry is stable, and wants the sources that were asked for. *)
Lemma opened_entry gi srcs until now :
  grpint_wf gi -> 0 <= gi_ifindex gi -> abs gi = RInclude (gset_to_gmap until srcs) -> now < until ->
  stable_entry now gi /\ forall src, wants (Some gi) now src = bool_decide (src ∈ srcs).
Proof.
  intros Hwf Hi Ha Hnow. destruct (abs_included _ _ Ha) as [Hm Ht]. unfold stable_entry, wants. rewrite Hm.
  assert (Hl : forall a, s_timer <$> find_by s_addr a (live (gi_includes gi)) = if decide (a ∈ srcs) then Some until else None).
  { intros a. by rewrite <-lookup_timers_of, Ht, lookup_const_timers. }
  split_and!; [done| |].
  - apply Forall_lookup_2. intros i s Hs. pose proof (Hl (s_addr s)) as E.
    rewrite (find_by_NoDup s_addr _ i s (wf_includes _ Hwf) Hs) in E. simpl in E. case_decide; naive_solver.
  - intros a. apply bool_decide_ext. pose proof (Hl a) as E. unfold keys.
    destruct (find_by s_addr a (live (gi_includes gi))) as [s|] eqn:Es; simpl in E; case_decide; simplify_eq.
    + split; [done|]. intros _. apply find_by_Some in Es as [Hin <-]. apply list_elem_of_fmap. by exists s.
    + apply find_by_None in Es. by split.
Qed.

(** * From the report to the data *)

(** The packet of [len] bytes at [iph] of a buffer, its source and its destination. *)
Definition packet_at (buffer : list Z) (iph len : Z) : list Z := take (Z.to_nat len) (drop (Z.to_nat iph) buffer).
Definition source_at (buffer : list Z) (iph : Z) : in6_addr := packet_at buffer (iph + 8) 16.
Definition destination_at (buffer : list Z) (iph : Z) : in6_addr := packet_at buffer (iph + 24) 16.

(** The interface with its index as position in the array, found by [int_find]. *)
Definition found_at (i : nat) (n : intnode) (w : world) : Prop :=
  w_ints w !! i = Some n /\ i = Z.to_nat (i_ifindex n) /\ 0 <= i_ifindex n /\ i_mtu n ≠ 0.

Lemma faces_lookup w w' i n : faces w' = faces w -> w_ints w !! i = Some n -> exists n', w_ints w' !! i = Some n' /\ int_face n' = int_face n.
Proof.
  intros Hf Hn. assert (H : faces w' !! i = Some (int_face n)) by (rewrite Hf; unfold faces; by rewrite list_lookup_fmap, Hn).
  unfold faces in H. rewrite list_lookup_fmap in H. destruct (w_ints w' !! i) as [n'|]; [|done]. exists n'. split; [done|simpl in H; congruence].
Qed.

Lemma opened_delivers os now w from nf i n n' srcs until iph len :
  (forall t, os_time os t = now) -> 0 <= now < until -> until < 2 ^ 32 ->
  w_ints w !! from = Some nf -> found_at i n' w -> int_face n' = int_face n -> i_ifindex nf ≠ i_ifindex n ->
  0 <= iph -> 40 <= len -> iph + len <= Z.of_nat (length (w_buffer w)) ->
  not_forwarded (source_at (w_buffer w) iph) (destination_at (w_buffer w) iph) = false ->
  opened n (destination_at (w_buffer w) iph) srcs until (w_groups w) ->
  returns (l4_ipv6_multicast from iph len) os w (fun _ w' =>
    w_trace w' = (if bool_decide (source_at (w_buffer w) iph ∈ srcs) then [send_event n (packet_at (w_buffer w) iph len)] else []) ++ w_trace w /\
    (forall mca ifx, view (w_groups w') mca ifx = view (w_groups w) mca ifx) /\ groups_wf (w_groups w') /\ undisturbed os w w').
Proof.
  intros Hnow Hr Hu Hf (Hn & Hpos & Hi0 & Hmtu) Hface Hne Hiph Hlen Hbuf Hnf Ho. injection Hface as Ei Eh Em.
  destruct (opened_entries _ _ _ _ _ Ho) as (gi & Hgis & Hgi & Hidx & Habs).
  destruct (opened_entry gi srcs until now Hgi ltac:(lia) Habs ltac:(lia)) as [Hst Hw].
  pose proof (l4_ipv6_multicast_stable os now w from nf iph len (proj1 Ho) Hnow ltac:(lia) Hf Hiph Hlen Hbuf) as H. cbv zeta in H.
  fold (packet_at (w_buffer w) iph len) in H. change (take 16 (drop (Z.to_nat (iph + 8)) _)) with (source_at (w_buffer w) iph) in H.
  change (take 16 (drop (Z.to_nat (iph + 24)) _)) with (destination_at (w_buffer w) iph) in H. rewrite Hgis in H.
  assert (Htk : taker now (w_ints w) (i_ifindex nf) (source_at (w_buffer w) iph) gi =
    if bool_decide (source_at (w_buffer w) iph ∈ srcs) then Some n' else None).
  { unfold taker. rewrite Hw, (proj2 (Z.eqb_neq (gi_ifindex gi) _)) by congruence. cbn [orb].
    case_bool_decide; [cbn [negb]|done]. replace (Z.to_nat (gi_ifindex gi)) with i by congruence. rewrite Hn. csimpl.
    by rewrite (proj2 (Z.eqb_neq _ _) Hmtu). }
  eapply spec_mono; [apply (H Hnf); by apply Forall_singleton| |done]. cbv beta. intros _ w' [-> Hrest]. split; [|exact Hrest]. f_equal.
  unfold first_taker. csimpl. rewrite Htk. case_bool_decide; [|done]. simpl. unfold send_event. by rewrite Ei, Eh.
Qed.

(** The record of the report opens the group. *)
Lemma asks_opens os now w intn n r :
  still os now -> groups_wf (w_groups w) -> w_ints w !! intn = Some n -> grec_ok r -> asks (gr_type r) ->
  (forall ifx, view (w_groups w) (gr_mca r) ifx = None) ->
  returns (handle_downstream_subscription intn (record_of r)) os w (fun destroyed w' => destroyed = false /\
    opened n (gr_mca r) (list_to_set (gr_srcs r)) (now + MALI) (w_groups w') /\
    (forall mca ifx, mca ≠ gr_mca r \/ ifx ≠ i_ifindex n -> view (w_groups w') mca ifx = view (w_groups w) mca ifx) /\
    w_routes w' = w_routes w /\ calm w w').
Proof.
  intros Hos Hwf Hn Hr Ha Hv. destruct (mrec_add_addrs_mca (mrec_create (gr_mca r) (gr_type r)) (gr_srcs r)) as [Hmca Hmode].
  change (m_mca (record_of r) = gr_mca r) in Hmca. change (m_filter_mode (record_of r) = gr_type r) in Hmode.
  assert (Hm : record_ok (record_of r)).
  { split; [rewrite Hmode; apply known_mode, (ok_type _ Hr)|apply mrec_add_addrs_ok, NoDup_nil_2]. }
  assert (Hsrcs : requested (record_of r) = list_to_set (gr_srcs r)).
  { apply set_eq. intros a. unfold requested, record_of. rewrite elem_addr_set_of, mrec_add_addrs_elem, elem_of_list_to_set.
    simpl. rewrite elem_of_nil. tauto. }
  assert (Hs : state_of w (record_of r) n = RInclude ∅) by (unfold state_of; by rewrite Hmca, Hv).
  pose proof (downstream_took os now w intn n (record_of r) Hos Hwf Hn Hm _ eq_refl) as H.
  rewrite Hs, Hmode, Hsrcs in H.
  pose proof (rel_spec _ _ os w (calm_asks intn (record_of r) ltac:(by rewrite Hmode))) as Hc.
  eapply spec_mono; [exact (spec_conj _ _ _ _ _ _ _ H Hc)| |by intros ?? [[] _]].
  cbv beta. intros d w' [[-> (Hwf' & (gi & Hgi & Habs) & Ho & _ & _ & Hro)] Hcalm]. rewrite Hmca in *.
  split_and!; [done| |exact Ho|done|done]. split_and!; [done| |].
  - exists gi. split; [done|]. rewrite Habs. unfold ecmh_step. destruct Ha as [-> | ->]; simpl; f_equal; unfold add_timers; by rewrite map_union_empty.
  - intros ifx Hifx. rewrite Ho by auto. apply Hv.
Qed.

(** ** What may happen after the report *)

(** A packet that comes in on the interface [from], as the bytes of the buffer from [iph] on, and the timer pass. *)
Inductive happening :=
  | Arrives (from : nat) (buffer : list Z) (iph len : Z)
  | Pass.

Definition happens (h : happening) : M unit :=
  match h with
  | Arrives from buffer iph len => _ ← modify (set_buffer buffer); l4_ipv6_multicast from iph len
  | Pass => expire_sources
  end.

(** What is to be sent in answer: the packet itself when its source is one of [srcs]. *)
Definition answer (n : intnode) (srcs : list in6_addr) (h : happening) : list event :=
  match h with
  | Arrives _ buffer iph len => if bool_decide (source_at buffer iph ∈ srcs) then [send_event n (packet_at buffer iph len)] else []
  | Pass => []
  end.

(** All packets sent so far. *)
Definition sends (w : world) : list event := List.filter is_sendto (w_trace w).

(** Each of the happenings, which meet the answers of the system beside them, is handled without fault, and what is sent is its [answer]. *)
Fixpoint served (n : intnode) (srcs : list in6_addr) (hs : list (OS * happening)) (w : world) : Prop :=
  match hs with
  | [] => True
  | (os, h) :: hs => returns (happens h) os w (fun _ w' => sends w' = answer n srcs h ++ sends w /\ served n srcs hs w')
  end.

(** A happening before [until], while no interface goes: a packet is one for the group, from an interface other than [n]. *)
Definition timely (n : intnode) (mca : in6_addr) (until : Z) (fs : list (Z * Z * Z)) (x : OS * happening) : Prop :=
  (exists later, 0 <= later < until /\ forall t, os_time x.1 t = later) /\ (forall t, os_sendto x.1 t ≠ SendENXIO) /\
  match x.2 with
  | Arrives from buffer iph len =>
    (exists f, fs !! from = Some f /\ f.1.1 ≠ i_ifindex n) /\ 0 <= iph /\ 40 <= len /\ iph + len <= Z.of_nat (length buffer) /\
    destination_at buffer iph = mca /\ not_forwarded (source_at buffer iph) mca = false
  | Pass => True
  end.

(** The state in which the group is served: it stays that way. *)
Record serving (n : intnode) (mca : in6_addr) (srcs : addr_set) (until : Z) (fs : list (Z * Z * Z)) (w : world) : Prop := {
  sv_opened : opened n mca srcs until (w_groups w);
  sv_routes : is_Some (w_routes w);
  sv_entries : entries_found w;
  sv_faces : faces w = fs }.

Lemma sends_app w w' evs : w_trace w' = evs ++ w_trace w -> sends w' = List.filter is_sendto evs ++ sends w.
Proof. unfold sends. intros ->. apply List.filter_app. Qed.
Lemma sends_none evs : Forall (fun e => is_sendto e = false) evs -> List.filter is_sendto evs = [].
Proof. induction 1 as [|e evs He _ IH]; simpl; [done|]. by rewrite He. Qed.
Lemma sends_calm w w' : calm w w' -> sends w' = sends w.
Proof. intros [(evs & Ht & Hev) _]. by rewrite (sends_app _ _ _ Ht), sends_none. Qed.

(** ** Interfaces that are found *)

Definition found (w : world) (ifx : Z) : Prop := 0 <= ifx /\ exists n, w_ints w !! Z.to_nat ifx = Some n /\ i_mtu n ≠ 0.

Lemma found_faces w w' ifx : faces w' = faces w -> found w ifx -> found w' ifx.
Proof.
  intros Hf [H0 (n & Hn & Hm)]. destruct (faces_lookup _ _ _ _ Hf Hn) as (n' & Hn' & [= _ _ E]). split; [done|]. exists n'. split; congruence.
Qed.
Lemma entries_found_views w :
  groups_wf (w_groups w) -> entries_found w <-> forall mca ifx gi, view (w_groups w) mca ifx = Some gi -> found w ifx.
Proof.
  intros Hwf. unfold entries_found. split.
  - intros H mca ifx gi (g & [Hg _]%find_by_Some & [Hgi <-]%find_by_Some)%bind_Some.
    rewrite Forall_forall in H. specialize (H g Hg). rewrite Forall_forall in H. exact (H gi Hgi).
  - intros H. apply Forall_lookup_2. intros i g Hg. apply Forall_lookup_2. intros j gi Hgi.
    apply (H (g_mca g) (gi_ifindex gi) gi), (points_to_view _ (i, j)); [done|]. exists g. by split_and!.
Qed.
Lemma entries_found_incl w w' :
  groups_wf (w_groups w) -> groups_wf (w_groups w') -> faces w' = faces w ->
  (forall mca ifx, is_Some (view (w_groups w') mca ifx) -> is_Some (view (w_groups w) mca ifx)) -> entries_found w -> entries_found w'.
Proof.
  intros Hwf Hwf' Hf Hv. rewrite !entries_found_views by done. intros H mca ifx gi Hgi.
  destruct (Hv mca ifx) as [gi0 H0]; [by eexists|]. eapply found_faces; [done|eauto].
Qed.

(** ** The state stays *)

Lemma calm_expire_sources : rel calm expire_sources.
Proof. apply rel_expire_sources; [typeclasses eauto|..]; calm_tac. Qed.
Lemma keeps_routes_expire : rel (keeps (fun w => is_Some (w_routes w))) expire_sources.
Proof. apply rel_expire_sources; [typeclasses eauto|..]; unfold keeps; intros; simpl; first [assumption | by eexists]. Qed.

Lemma filter_id {A} (P : A -> Prop) `{forall x, Decision (P x)} (l : list A) : (forall x, x ∈ l -> P x) -> filter P l = l.
Proof.
  induction l as [|x l IH]; [done|]. intros Hl. rewrite filter_cons_True, IH; [done| |by apply Hl, list_elem_of_here].
  intros y Hy. by apply Hl, list_elem_of_further.
Qed.

(** A timer pass before the interval is over keeps the entry, with all its sources. *)
Lemma expire_opened gi srcs until now :
  abs gi = RInclude (gset_to_gmap until srcs) -> grpint_wf gi -> 0 <= gi_ifindex gi -> now < until -> expire_entry now gi = Some gi.
Proof.
  intros Ha Hwf Hi Hnow. destruct (opened_entry gi srcs until now Hwf Hi Ha Hnow) as [[_ Hst] _]. destruct (abs_included _ _ Ha) as [Hm _].
  rewrite Hm in Hst. unfold expire_entry. rewrite Hm. cbv zeta. rewrite filter_id.
  2: { intros [s|] Hs; [|done]. rewrite Forall_forall in Hst. apply Hst. by apply elem_of_live. }
  rewrite andb_negb_r. by destruct gi.
Qed.

Lemma serving_pass os later n mca srcs until fs w :
  serving n mca srcs until fs w -> (forall t, os_time os t = later) -> later < until ->
  returns expire_sources os w (fun _ w' => sends w' = sends w /\ serving n mca srcs until fs w').
Proof.
  intros [(Hwf & (gi & Hv & Ha) & Ho) Hr He Hf] Hos Hl.
  pose proof (expire_pass os w Hwf Hr He) as H1. pose proof (rel_spec _ _ os w calm_expire_sources) as H2.
  pose proof (rel_spec _ _ os w keeps_routes_expire) as H3.
  eapply spec_mono; [exact (spec_conj _ _ _ _ _ _ _ (spec_conj _ _ _ _ _ _ _ H1 H2) H3)| |by intros ?? [[[] _] _]].
  cbv beta. intros _ w' [[(Hwf' & _ & Hviews) Hc] Hr']. rewrite Hos in Hviews. split; [by apply sends_calm|].
  assert (Hfound : found w (i_ifindex n)) by (by eapply (proj1 (entries_found_views w Hwf) He)).
  destruct (view_wf _ _ _ _ Hwf Hv) as [Hgi Hidx]. destruct Hc as [_ Hfaces]. split; [|by apply Hr'| |congruence].
  - split_and!; [done| |].
    + exists gi. split; [|done]. rewrite Hviews, Hv. simpl. eapply expire_opened; [done..| |done]. rewrite Hidx. apply Hfound.
    + intros ifx Hne. by rewrite Hviews, Ho.
  - apply (entries_found_incl w); [done..| |done]. intros mca' ifx [gi' H']. rewrite Hviews in H'. apply bind_Some in H' as (gi0 & -> & _). by eexists.
Qed.

Lemma serving_packet os later n mca srcs until fs from buffer iph len w :
  serving n mca srcs until fs w -> until < 2 ^ 32 -> (forall t, os_time os t = later) -> 0 <= later < until ->
  (forall t, os_sendto os t ≠ SendENXIO) -> (exists f, fs !! from = Some f /\ f.1.1 ≠ i_ifindex n) ->
  (exists i n', found_at i n' w /\ int_face n' = int_face n) ->
  0 <= iph -> 40 <= len -> iph + len <= Z.of_nat (length buffer) ->
  destination_at buffer iph = mca -> not_forwarded (source_at buffer iph) mca = false ->
  returns (happens (Arrives from buffer iph len)) os w (fun _ w' =>
    sends w' = (if bool_decide (source_at buffer iph ∈ srcs) then [send_event n (packet_at buffer iph len)] else []) ++ sends w /\
    serving n mca srcs until fs w').
Proof.
  intros [Ho Hr He Hf] Hu Hos Hl Hx (f & Hfrom & Hne) (i & n' & Hn & Hface) Hiph Hlen Hbuf Hdst Hnf.
  unfold faces in Hf. rewrite <-Hf, list_lookup_fmap in Hfrom. apply fmap_Some in Hfrom as (nf & Hnf' & ->).
  cbn [happens]. do 2 spec_step.
  eapply spec_mono; [apply (opened_delivers os later (set_buffer buffer w) from nf i n n' srcs until iph len); try done|
    |done]; simpl; [by rewrite Hdst..|]. cbv beta. intros _ w' (Ht & Hv & Hwf' & Hro & Hfaces). specialize (Hfaces Hx). simpl in *. split.
  - rewrite (sends_app w w' _ Ht). by case_bool_decide.
  - destruct Ho as (Hwf & (gi & Hgi & Ha) & Ho). split; [|by rewrite Hro| |by rewrite Hfaces].
    + split_and!; [done| |]; [exists gi; by rewrite Hv|]. intros ifx Hifx. rewrite Hv. by apply Ho.
    + apply (entries_found_incl w); [done..| |done]. intros mca' ifx. by rewrite Hv.
Qed.

(** Whatever happens in time, the group is served and stays so. *)
Lemma serving_served n mca (srcs : list in6_addr) until i fs hs : forall w,
  serving n mca (list_to_set srcs) until fs w -> until < 2 ^ 32 -> fs !! i = Some (int_face n) ->
  i = Z.to_nat (i_ifindex n) -> 0 <= i_ifindex n -> i_mtu n ≠ 0 -> Forall (timely n mca until fs) hs -> served n srcs hs w.
Proof.
  induction hs as [|[os h] hs IH]; intros w Hs Hu Hi Hpos H0 Hm Hhs; [done|]. apply Forall_cons in Hhs as [(Ht & Hx & Hh) Hhs]. simpl in *.
  destruct Ht as (later & Hl & Hos).
  assert (H : returns (happens h) os w (fun _ w' => sends w' = answer n srcs h ++ sends w /\ serving n mca (list_to_set srcs) until fs w')).
  { destruct h as [from buffer iph len|].
    - destruct Hh as (Hfrom & Hiph & Hlen & Hbuf & Hdst & Hnf).
      eapply spec_mono; [apply (serving_packet os later n mca (list_to_set srcs) until fs from buffer iph len w); try done| |done].
      + exists i. rewrite <-(sv_faces _ _ _ _ _ _ Hs) in Hi. unfold faces in Hi. rewrite list_lookup_fmap in Hi. apply fmap_Some in Hi as (n' & Hn' & Hface).
        exists n'. split; [|done]. injection Hface as E1 E2 E3. split_and!; congruence.
      + cbv beta. intros _ w' [-> Hs']. split; [|done]. simpl. by rewrite (bool_decide_ext _ _ (elem_of_list_to_set (C := addr_set) _ _)).
    - apply (serving_pass os later); [done..|lia]. }
  eapply spec_mono; [exact H| |done]. cbv beta. intros _ w' [E Hs']. split; [done|]. by apply IH.
Qed.


(** * The packet of a source that has run out *)

(** The round for a packet whose source has run out: the source is deleted, and unless that empties the entry the packet is sent. *)
Lemma expired_round os now w G1 G2 g gi from nf i n k s src iph len :
  (forall t, os_time os t = now) -> groups_wf (w_groups w) -> is_Some (w_routes w) -> found_at i n w ->
  w_ints w !! from = Some nf -> i_ifindex nf ≠ i_ifindex n ->
  0 <= iph -> 40 <= len -> iph + len <= Z.of_nat (length (w_buffer w)) ->
  w_groups w = mk G1 g [gi] G2 -> gi_ifindex gi = i_ifindex n -> gi_filter_mode gi = MLD2_MODE_IS_INCLUDE ->
  src_hasmember (gi_includes gi) src = Some k -> gi_includes gi !! k = Some (Some s) -> s_timer s <= now ->
  let rest := delete k (gi_includes gi) in
  returns (multicast_loop from iph len src (length G1) 1) os w (fun _ w' =>
    groups_wf (w_groups w') /\
    if decide (rest = []) then quiet w w' /\ w_groups w' = G1 ++ G2
    else w_groups w' = mk G1 g [set_includes rest gi] G2 /\ exists evs,
      w_trace w' = send_event n (packet_at (w_buffer w) iph len) :: evs ++ w_trace w /\ Forall (fun e => is_sendto e = false) evs).
Proof.
  intros Hnow Hwf Hr (Hn & Hpos & Hi0 & Hmtu) Hf Hne Hiph Hlen Hbuf Hw Hidx Hm Hk Hs Ht rest.
  destruct (list_elem_of_split_length _ _ _ Hs) as (pre & suf & Hinc & Hpre).
  assert (Hrest : rest = pre ++ suf) by (unfold rest; rewrite Hinc, Hpre; apply delete_middle).
  assert (Hw0 : w_groups w = mk G1 g ([] ++ gi :: []) G2) by done.
  cbn [multicast_loop]. spec_step. eapply mk_group_at; [exact Hw0|]. cbv zeta. spec_step. apply (mk_grpint_at os w G1 G2 g [] [] gi Hw0).
  spec_step. spec_step. rewrite (proj2 (Z.eqb_neq (i_ifindex nf) _)) by congruence. rewrite Hm, Hk, Z.eqb_refl.
  do 2 spec_step. spec_step. rewrite Hnow. set (w1 := set_os _ _ w).
  set (U := fun ifx => ifx = i_ifindex n).
  assert (Hinv : inv U w1).
  { split; [done|]. split; [done|]. intros ifx ->. split; [done|]. exists n. simpl. by rewrite <-Hpos. }
  subst k. pose proof (expire_source_spec U os now G1 G2 g [] [] gi pre s suf w1 Hinv Hidx Hw0 Hinc) as H1.
  pose proof (rel_spec _ _ os w1 (quiet_expire_source (length G1, 0%nat) (length pre) now)) as H2.
  eapply spec_mono; [exact (spec_conj _ _ _ _ _ _ _ H1 H2)| |by intros ?? [[] _]].
  cbv beta. rewrite Hrest. intros r w2 [[Hinv2 Hif] Hq]. rewrite decide_False in Hif by lia.
  assert (Hq2 : quiet w w2) by (transitivity w1; [by apply quiet_same|done]).
  destruct (decide (pre ++ suf = [])); destruct Hif as [-> Hg2].
  { rewrite bool_decide_true by done. cbn [negb Z.eqb]. spec_step. split; [apply Hinv2|]. split; [done|]. rewrite Hg2. reflexivity. }
  cbn [negb Z.eqb].
  destruct Hinv2 as [Hwf2 [_ Hint]]. destruct (Hint _ Hidx) as (_ & n2 & Hn2 & Hmtu2).
  destruct Hq2 as ((evs & Htr & Hevs) & Hwi & Hb). spec_step. unfold spec at 1. rewrite int_find_spec by congruence.
  rewrite Hn2, (proj2 (Z.eqb_neq _ _) Hmtu2). unfold load. do 3 spec_step.
  rewrite Hb, Z.max_l by (unfold sizeof_ip6_hdr; lia). rewrite (proj2 (andb_true_iff _ _)) by (rewrite andb_true_iff, !Z.leb_le; lia). spec_step.
  eapply spec_mono; [by apply (sendpacket6_spec _ n2)| |done]. cbv beta. intros _ w3 (_ & _ & Ht3 & Hg3 & _).
  rewrite Hg3. split; [done|]. split; [exact Hg2|]. exists evs. split; [|done]. rewrite Ht3, Htr, send_at_header, take_take, Nat.min_id by done.
  assert (Hwire : int_wire n2 = int_wire n).
  { assert (E : wires w2 !! i = wires w !! i) by congruence. unfold wires in E. rewrite !list_lookup_fmap, Hn in E.
    rewrite Hidx, <-Hpos in Hn2. rewrite Hn2 in E. simpl in E. congruence. }
  injection Hwire as E1 E2. unfold send_event, packet_at. by rewrite E1, E2.
Qed.

(** C15: A packet whose source has run out for the only interface with state for its group: the source is deleted; the packet
    is sent all the same when another source of the entry is left, and not when it was the last, with which the state goes. *)
Theorem expired_source_packet os now w from nf i n gi k s iph len :
  (forall t, os_time os t = now) -> groups_wf (w_groups w) -> is_Some (w_routes w) -> found_at i n w ->
  w_ints w !! from = Some nf -> i_ifindex nf ≠ i_ifindex n ->
  0 <= iph -> 40 <= len -> iph + len <= Z.of_nat (length (w_buffer w)) ->
  let src := source_at (w_buffer w) iph in
  let dst := destination_at (w_buffer w) iph in
  not_forwarded src dst = false ->
  view (w_groups w) dst (i_ifindex n) = Some gi -> (forall ifx, ifx ≠ i_ifindex n -> view (w_groups w) dst ifx = None) ->
  gi_filter_mode gi = MLD2_MODE_IS_INCLUDE -> src_hasmember (gi_includes gi) src = Some k ->
  gi_includes gi !! k = Some (Some s) -> s_timer s <= now ->
  let rest := delete k (gi_includes gi) in
  returns (l4_ipv6_multicast from iph len) os w (fun _ w' =>
    if decide (rest = []) then quiet w w' /\ view (w_groups w') dst (i_ifindex n) = None
    else view (w_groups w') dst (i_ifindex n) = Some (set_includes rest gi) /\ exists evs,
      w_trace w' = send_event n (packet_at (w_buffer w) iph len) :: evs ++ w_trace w /\ Forall (fun e => is_sendto e = false) evs).
Proof.
  intros Hnow Hwf Hr Hfound Hf Hne Hiph Hlen Hbuf src dst Hnf Hv Ho Hm Hk Hs Ht rest.
  destruct (view_wf _ _ _ _ Hwf Hv) as [Hgi Hidx].
  apply l4_ipv6_multicast_enter; [done..| |]; change (take 16 (drop (Z.to_nat (iph + 24)) (w_buffer w))) with dst;
    change (take 16 (drop (Z.to_nat (iph + 8)) (w_buffer w))) with src; unfold view in Hv, Ho.
  { intros E. by rewrite E in Hv. }
  intros G1 g G2 Hg HG. rewrite Hg in Hv, Ho. simpl in Hv, Ho. pose proof (find_by_Some _ _ _ _ Hg) as [Hin Hmca].
  assert (Hgw : group_wf g) by (eapply (wf_group _ (length G1)); [exact Hwf|rewrite HG; apply lookup_mid]).
  assert (Hgis : g_interfaces g = [gi]) by (eapply find_by_only; [apply Hgw|exact Hv|exact Ho]).
  rewrite Hgis. set (g' := count_group len g). set (w1 := set_groups _ w).
  assert (Hwf1 : groups_wf (w_groups w1)).
  { pose proof (groups_wf_alter _ (length G1) (count_group len) Hwf) as H. rewrite HG, alter_middle in H.
    simpl. unfold mk. rewrite <-Hgis. apply H; [done|]. intros x _. by apply group_wf_same. }
  eapply spec_mono; [by apply (expired_round os now w1 G1 G2 g' gi from nf i n k s src iph len); try done; lia| |done].
  cbv beta. intros _ w' [Hwf' Hif]. fold rest in Hif. destruct (decide (rest = [])); destruct Hif as [H1 H2].
  - split; [exact H1|]. rewrite H2, <-(delete_middle G1 G2 g), <-HG.
    rewrite (view_delete _ _ g _ _ Hwf) by (rewrite HG; apply lookup_mid). by rewrite decide_True.
  - split; [|exact H2]. apply (points_to_view _ (length G1, 0%nat)); [done|]. rewrite H1. eexists. split; [apply lookup_mid|by split_and!].
Qed.

(** * The theorem on the sample system *)

Definition asking : world := sample_world [] [] (report_bytes 0 0 [Grec MLD2_ALLOW_NEW_SOURCES sample_mca [src 1]]).

(** [eth2] asks for a source: a packet of that source on [eth1] is sent to [eth2], before and after a timer pass, one of another source is not. *)
Definition other_data : list Z := sample_packet 17 64 (src 2) sample_mca [1; 2; 3; 4; 5; 6; 7; 8].
Definition sample_happenings : list (OS * happening) :=
  [(sample_os, Arrives 1 sample_data 0 48); (sample_os, Pass); (sample_os, Arrives 1 other_data 0 48); (sample_os, Arrives 1 sample_data 0 48)].


(** The source of the packet ran out at 900, another one of the entry runs until 1100. *)
Definition run_out : world :=
  sample_world [Grpint 2 [Some (Msrc (src 1) 900); Some (Msrc (src 2) 1100)] [] 1 0] [] (sample_frame sample_data).

Lemma expired_source_packet_witness :
  returns (l4_ipv6_multicast 1 14 48) sample_os run_out (fun _ w' =>
    view (w_groups w') sample_mca 2 = Some (Grpint 2 [Some (Msrc (src 2) 1100)] [] 1 0) /\ exists evs,
      w_trace w' = send_event eth2 sample_data :: evs ++ [] /\ Forall (fun e => is_sendto e = false) evs).
Proof.
  eapply spec_mono; [apply (expired_source_packet sample_os 1000 run_out 1 eth1 2 eth2
    (Grpint 2 [Some (Msrc (src 1) 900); Some (Msrc (src 2) 1100)] [] 1 0) 0 (Msrc (src 1) 900) 14 48)| |done].
  - done.
  - apply sample_groups_wf; [apply NoDup_singleton|apply Forall_singleton]. split; [by left| | |simpl; lia]; apply (bool_decide_unpack _); by vm_compute.
  - by eexists.
  - by split_and!.
  - done.
  - done.
  - done.
  - done.
  - vm_compute. congruence.
  - done.
  - by vm_compute.
  - intros ifx Hne. change (group_view (Group sample_mca [Grpint 2 [Some (Msrc (src 1) 900); Some (Msrc (src 2) 1100)] [] 1 0] 1000 0 0) ifx = None).
    unfold group_view. simpl. rewrite decide_False; [done|]. intros E. apply Hne. by rewrite <-E.
  - done.
  - by vm_compute.
  - done.
  - done.
  - cbv beta. intros _ w' H. exact H.
Defined.
