(* ===== verification/QueryFacts.v ===== *)
(** The MLD queries: the packet on the wire, who is asked, and when. *)

From S2P Require Import Prelude Checksum LinkList Msrc World Interfaces Send Groups Samples Routing Mld2Logic Mld2Expire Packet Daemon Forwarding.
#[local] Open Scope Z_scope.

(** * The packet *)

(** What a listener checks in a query: the lengths, the hop limit of 1, the router alert in front,
    the destination ff02::1, and the ICMPv6 checksum over the message that follows. *)
Record valid_query (mld1only : bool) (linklocal : in6_addr) (packet : list Z) : Prop := {
  vq_header : take 8 packet = [96; 0; 0; 0; 0; Z.of_nat (length packet) - 40; IPPROTO_HOPOPTS; 1];
  vq_source : take 16 (drop 8 packet) = linklocal;
  vq_destination : take 16 (drop 24 packet) = all_nodes;
  vq_alert : take 8 (drop 40 packet) = [IPPROTO_ICMPV6; 0; 5; 2; 0; 0; 1; 0];
  vq_type : packet !! 48%nat = Some MLD_LISTENER_QUERY;
  vq_length : length (drop 48 packet) = 24%nat \/ (mld1only = false /\ 28 <= length (drop 48 packet) <= 44)%nat;
  vq_checksum : inchksum (linklocal ++ all_nodes ++ pseudo_header IPPROTO_ICMPV6 (Z.of_nat (length (drop 48 packet))) ++ drop 48 packet) = 65535 }.

Definition address (a : in6_addr) : Prop := bytes a /\ length a = 16%nat.

Lemma mld_query_bytes_split mld1only csum mca src suppression :
  mld_query_bytes mld1only csum mca src suppression =
  [MLD_LISTENER_QUERY; 0] ++ le16 csum ++ (le16 (htons 2000) ++ [0; 0] ++ mca ++ (if mld1only then [] else mld2_query_tail suppression src)).
Proof. unfold mld_query_bytes, mld1_bytes. by rewrite <-!app_assoc. Qed.

Section packet.
Context (mld1only : bool) (linklocal mca : in6_addr) (src : option in6_addr).
Context (Hl : address linklocal) (Hm : address mca) (Hs : forall a, src = Some a -> address a).

Lemma query_tail_bytes : bytes (if mld1only then [] else mld2_query_tail false src).
Proof.
  destruct mld1only; [constructor|]. unfold mld2_query_tail. rewrite !bytes_app. split_and!.
  - by repeat constructor.
  - apply bytes_le16.
  - destruct src as [a|]; simpl; [by apply Hs|constructor].
Qed.
Lemma query_tail_length : length (if mld1only then [] else mld2_query_tail false src) = 0%nat \/
  mld1only = false /\ (4 <= length (if mld1only then [] else mld2_query_tail false src) <= 20)%nat.
Proof.
  destruct mld1only; [by left|right]. split; [done|]. destruct src as [a|]; simpl; [|lia]. destruct (Hs a eq_refl) as [_ ->]. lia.
Qed.

Lemma htons_byte x : 0 <= x < 256 -> le16 (htons x) = [0; x].
Proof.
  intros Hx. unfold htons, le16. rewrite (Z.div_small x), Z.mod_0_l, Z.add_0_r by lia.
  rewrite Z_mod_mult, Z_div_mult, Z.mod_mod, Z.mod_small by lia. done.
Qed.

Lemma query_packet_valid : valid_query mld1only linklocal (mld_query_packet mld1only linklocal mca src false).
Proof.
  destruct Hl as [Hlb Hll], Hm as [Hmb Hml].
  pose proof query_tail_bytes as Htb. pose proof query_tail_length as Htl.
  unfold mld_query_packet. rewrite !mld_query_bytes_split.
  set (tail := if mld1only then [] else mld2_query_tail false src) in *.
  set (post := le16 (htons 2000) ++ [0; 0] ++ mca ++ tail) in *.
  assert (Hpb : bytes post) by (unfold post; rewrite !bytes_app; split_and!; [apply bytes_le16|by repeat constructor|done|done]).
  assert (Hpl : length post = (20 + length tail)%nat) by (unfold post; rewrite !length_app, Hml; simpl; lia).
  change (le16 0) with [0; 0]. set (ck := ipv6_checksum _ _ _).
  set (data := [MLD_LISTENER_QUERY; 0] ++ le16 ck ++ post).
  assert (Hdl : length data = (24 + length tail)%nat) by (unfold data; rewrite !length_app, Hpl; simpl; lia).
  set (plen := 48 + _ - 40).
  assert (Hplen : plen = Z.of_nat (length data) + 8) by (unfold plen, data; rewrite !length_app; simpl; lia).
  clearbody plen. unfold ip6_hdr. rewrite (htons_byte plen) by lia. rewrite <-!app_assoc.
  assert (Hck : inchksum (linklocal ++ all_nodes ++ pseudo_header IPPROTO_ICMPV6 (Z.of_nat (length data)) ++ data) = 65535).
  { rewrite app_assoc. apply (ipv6_checksum_rfc1071 (linklocal ++ all_nodes) IPPROTO_ICMPV6 [MLD_LISTENER_QUERY; 0] post).
    - rewrite bytes_app. split; [done|by repeat constructor].
    - by rewrite length_app, Hll.
    - by repeat constructor.
    - done.
    - by exists 1%nat.
    - rewrite Hpl. clear - Htl. cbn [length]. lia. }
  assert (H48 : drop 48 (([96; 0; 0; 0] ++ [0; plen] ++ [IPPROTO_HOPOPTS; 1] ++ linklocal ++ all_nodes) ++ hbh_routeralert ++ data) = data).
  { rewrite app_assoc. apply drop_app_length'. rewrite !length_app, Hll. done. }
  rewrite <-!app_assoc in H48.
  split; rewrite ?H48; try done.
  - rewrite !length_app, Hll. change (length [_; plen]) with 2%nat. change (length [_; 1]) with 2%nat.
    change (length [_; _; _; _]) with 4%nat. change (length all_nodes) with 16%nat. change (length hbh_routeralert) with 8%nat.
    replace (Z.of_nat _ - 40) with plen by lia. done.
  - simpl. by apply take_app_length'.
  - change (take 16 (drop 16 (linklocal ++ all_nodes ++ hbh_routeralert ++ data)) = all_nodes). by rewrite drop_app_length' by done.
  - change (take 8 (drop 32 (linklocal ++ all_nodes ++ hbh_routeralert ++ data)) = hbh_routeralert).
    rewrite app_assoc, drop_app_length' by (by rewrite length_app, Hll). done.
  - pose proof (f_equal (fun l => l !! 0%nat) H48) as H0. by rewrite lookup_drop in H0.
  - rewrite Hdl. destruct Htl as [-> | [? ?]]; [by left|right]. split; [done|lia].
Qed.
End packet.

(** C24: A query sent on an interface is one valid packet to the Ethernet address of all nodes; the
    upstream interface is never queried. *)
Theorem mld_send_query_wire i n mca src os w :
  w_ints w !! i = Some n -> address (i_linklocal n) -> address mca -> (forall a, src = Some a -> address a) ->
  returns (mld_send_query i mca src false) os w (fun _ w' => w_groups w' = w_groups w /\
    if i_upstream n then w_trace w' = w_trace w
    else exists packet, w_trace w' = EvSendto (i_ifindex n) (i_hwfamily n) [51; 51; 0; 0; 0; 1] packet :: w_trace w /\
      valid_query (c_mld1only (w_cfg w)) (i_linklocal n) packet).
Proof.
  intros Hn Hl Hm Hs. eapply spec_mono; [by apply mld_send_query_spec| |done].
  unfold query_events. cbv beta. intros _ w' (_ & _ & Ht & Hg & _). split; [done|]. destruct (i_upstream n); [done|].
  pose proof (query_packet_valid (c_mld1only (w_cfg w)) _ mca src Hl Hm Hs) as Hv.
  set (packet := mld_query_packet _ _ _ _ _) in *. exists packet. split; [|done]. rewrite Ht. simpl. unfold send_event. do 2 f_equal.
  unfold multicast_mac. change [51; 51; 0; 0; 0; 1] with ([51; 51] ++ take 4 (drop 12 all_nodes)). f_equal.
  rewrite <-(vq_destination _ _ _ Hv), skipn_firstn_comm, take_take, drop_drop. done.
Qed.

(** * The periodic general query *)

(** What [send_mld_querys] sends on one interface. *)
Definition general_query (cfg : config) (n : intnode) : list event :=
  if i_mtu n =? 0 then [] else query_events cfg n in6addr_any None.

Lemma send_mld_querys_loop os cfg todo : forall k w,
  w_cfg w = cfg -> drop k (w_ints w) = todo ->
  returns (for_each (seq k (length todo)) (fun i => n ← int_at i; when (negb (i_mtu n =? 0)) (mld_send_query i in6addr_any None false))) os w
    (fun _ w' => w_trace w' = rev (todo ≫= general_query cfg) ++ w_trace w /\ w_groups w' = w_groups w /\ w_routes w' = w_routes w).
Proof.
  induction todo as [|n todo IH]; intros k w Hc Hd; csimpl; cbn [for_each]; [by spec_step|].
  assert (Hn : w_ints w !! k = Some n) by (rewrite <-(Nat.add_0_r k), <-lookup_drop, Hd; done).
  assert (Hd' : drop (S k) (w_ints w) = todo) by (rewrite <-Nat.add_1_r, <-drop_drop, Hd; done).
  spec_step. unfold general_query at 1. do 2 spec_step. apply spec_when; intros E.
  - apply negb_true_iff in E. rewrite E. eapply spec_mono; [by apply mld_send_query_spec| |done].
    cbv beta. intros _ w1 (_ & Hj & Ht & Hg & Hc1 & Hr & _).
    eapply spec_mono; [apply (IH (S k) w1); [congruence|]| |done].
    + rewrite <-Hd'. apply list_eq. intros j. rewrite !lookup_drop. apply Hj. lia.
    + cbv beta. intros _ w2 (Ht2 & Hg2 & Hr2). rewrite Ht2, Ht, rev_app_distr, app_assoc, Hc. split_and!; congruence.
  - apply negb_false_iff in E. rewrite E. by apply IH.
Qed.

Lemma send_mld_querys_spec os w :
  returns send_mld_querys os w (fun _ w' =>
    w_trace w' = rev (w_ints w ≫= general_query (w_cfg w)) ++ w_trace w /\ w_groups w' = w_groups w /\ w_routes w' = w_routes w).
Proof. unfold send_mld_querys, all_ints. do 4 spec_step. by apply send_mld_querys_loop. Qed.

(** ** The timer pass sends no packet *)

Lemma quiet_expire_sources : rel quiet expire_sources.
Proof. apply rel_expire_sources; [typeclasses eauto|..]; intros; quiet_tac. Qed.

(** ** The queries destroy no interface *)

(** They do when the kernel answers that the interface is gone. *)
Section mtus.
Context (os : OS) (Hsend : forall t, os_sendto os t ≠ SendENXIO).
Definition mtus (w : world) : list Z := i_mtu <$> w_ints w.
Definition keeps_mtus {A} (m : M A) : Prop := forall w, spec m os w (fun _ w' => mtus w' = mtus w) (fun _ w' => mtus w' = mtus w).

Lemma mtus_rel {A} (m : M A) : rel (frames mtus) m -> keeps_mtus m.
Proof. intros Hm w. apply Hm. Qed.
Lemma mtus_bind {A B} (m : M A) (k : A -> M B) : keeps_mtus m -> (forall a, keeps_mtus (k a)) -> keeps_mtus (m ≫= k).
Proof.
  intros Hm Hk w. apply spec_bind. eapply spec_mono; [apply Hm| |done]. cbv beta. intros a w' E.
  eapply spec_mono; [apply Hk|..]; cbv beta; congruence.
Qed.
Lemma mtus_upd_int i f : (forall n, i_mtu (f n) = i_mtu n) -> rel (frames mtus) (upd_int i f).
Proof. intros Hf. apply rel_upd_int_fun; [typeclasses eauto|]. intros w. unfold frames, mtus. simpl. by apply fmap_key_alter. Qed.
#[local] Hint Extern 1 (rel (frames mtus) (upd_int _ _)) => apply mtus_upd_int; done : rel.
#[local] Hint Extern 1 (rel (frames mtus) (modify _)) => apply rel_modify; done : rel.
#[local] Hint Extern 1 (rel (frames mtus) (emit _)) => apply rel_modify; done : rel.
Lemma mtus_sendpacket6 i p len : keeps_mtus (sendpacket6 i p len).
Proof.
  unfold sendpacket6. apply mtus_bind; [apply mtus_rel; auto with rel|]. intros n. apply mtus_bind; [apply mtus_rel; auto with rel|]. intros _ w.
  do 2 spec_step. unfold after_send. specialize (Hsend (w_tick w)). destruct (os_sendto os (w_tick w)); [|done|by spec_step].
  change (mtus w) with (mtus (set_os (S (w_tick w)) (w_trace w) w)). apply mtus_rel. rel_auto; auto with rel.
Qed.
Lemma mtus_query i mca src b : keeps_mtus (mld_send_query i mca src b).
Proof.
  unfold mld_send_query. apply mtus_bind; [apply mtus_rel; auto with rel|]. intros n. destruct (i_upstream n); [apply mtus_rel; auto with rel|].
  apply mtus_bind; [apply mtus_rel; auto with rel|]. intros w. cbv zeta. apply mtus_bind; [apply mtus_sendpacket6|]. intros _.
  apply mtus_rel. unfold count_icmp. rel_auto; auto with rel.
Qed.
Lemma mtus_querys : keeps_mtus send_mld_querys.
Proof.
  unfold send_mld_querys, all_ints. apply mtus_bind; [apply mtus_rel; rel_auto|]. intros ids. induction ids as [|i ids IH]; [intros w; cbn [for_each]; by spec_step|].
  cbn [for_each]. apply mtus_bind; [|by intros _]. apply mtus_bind; [apply mtus_rel; auto with rel|]. intros n.
  destruct (negb _); [apply mtus_query|intros w; cbn [when]; by spec_step].
Qed.
Lemma found_same w w' : mtus w' = mtus w -> w_groups w' = w_groups w -> entries_found w -> entries_found w'.
Proof.
  intros Hm Hg. unfold entries_found. rewrite Hg. intros H. eapply Forall_impl; [exact H|]. intros g Hgi. eapply Forall_impl; [exact Hgi|].
  intros gi [H0 (n & Hn & Hne)]. split; [done|]. apply (f_equal (.!! Z.to_nat (gi_ifindex gi))) in Hm. unfold mtus in Hm.
  rewrite !list_lookup_fmap, Hn in Hm. simpl in Hm. destruct (w_ints w' !! _) as [n'|]; [|done]. injection Hm as Hm. exists n'. by split; [|congruence].
Qed.
End mtus.

(** C25: What the alarm asks for each second, when the interfaces were read within the last five minutes and are not read again.  When the time plus
    the offset drawn at start-up is a multiple of the query interval, and only then, the general query goes out on every downstream interface, once,
    and nothing else is sent, whether the daemon then faults or not.  After that the daemon expires sources: when the list of kernel routes and
    the interface of every entry are there, and no interface goes while the queries are sent, it returns, and every group is what
    [expire_group] makes of it at that time. *)
Theorem timeout_queries os now w :
  (forall t, os_time os t = now) -> now < w_last_update w + 5 * 60 ->
  let due := (now + w_timeout_offset w) mod ECMH_SUBSCRIPTION_TIMEOUT =? 0 in
  let outcome := fun w' => exists evs, Forall (fun e => is_sendto e = false) evs /\
    w_trace w' = evs ++ rev (if due then w_ints w ≫= general_query (w_cfg w) else []) ++ w_trace w in
  spec timeout os w (fun _ => outcome) (fun _ => outcome) /\
  (groups_wf (w_groups w) -> is_Some (w_routes w) -> entries_found w -> (forall t, os_sendto os t ≠ SendENXIO) ->
   returns timeout os w (fun _ w' => w_groups w' = omap (expire_group now) (w_groups w))).
Proof.
  intros Hnow Hrec due outcome.
  assert (Hstart : forall Q E, spec (_ ← when due send_mld_querys; expire_sources) os (set_os (S (S (w_tick w))) (w_trace w) w) Q E -> spec timeout os w Q E).
  { intros Q E H. unfold timeout, update_interfaces. do 6 spec_step. spec_step. simpl. rewrite !Hnow, (proj2 (Z.ltb_lt _ _) Hrec).
    do 3 spec_step. exact H. }
  set (w0 := set_os _ _ w) in Hstart. split; [|intros Hwf Hr Hf Hsend]; apply Hstart; spec_step.
  - assert (Hend : forall w1, w_trace w1 = rev (if due then w_ints w ≫= general_query (w_cfg w) else []) ++ w_trace w ->
      spec expire_sources os w1 (fun _ => outcome) (fun _ => outcome)).
    { intros w1 H1. eapply spec_mono; [apply quiet_expire_sources|..]; intros ? w2 [(evs & Ht & Hev) _]; exists evs; by rewrite Ht, H1. }
    apply spec_when; intros E; rewrite E in Hend; [|by apply Hend].
    eapply spec_mono; [apply send_mld_querys_spec| |done]. cbv beta. intros _ w1 (Ht & _). by apply Hend.
  - assert (Hend : forall w1, w_groups w1 = w_groups w -> w_routes w1 = w_routes w -> mtus w1 = mtus w ->
      returns expire_sources os w1 (fun _ w' => w_groups w' = omap (expire_group now) (w_groups w))).
    { intros w1 Hg Hro Hm. eapply spec_mono; [apply expire_pass; [by rewrite Hg|by rewrite Hro|by eapply found_same]| |done].
      cbv beta. rewrite Hnow, Hg. by intros _ w2 (_ & ? & _). }
    apply spec_when; intros _; [|by apply Hend].
    eapply spec_mono; [exact (spec_conj _ _ _ _ _ _ _ (send_mld_querys_spec os w0) (mtus_querys os Hsend w0))| |by intros ?? [[] _]].
    cbv beta. intros _ w1 [(_ & Hg & Hro) Hm]. by apply Hend.
Qed.

(** * The theorems on the sample system *)

Lemma mld_send_query_wire_witness :
  let w := sample_world [] [] [] in
  returns (mld_send_query 2 sample_mca (Some (src 1)) false) sample_os w (fun _ w' => w_groups w' = w_groups w /\
    exists packet, w_trace w' = [EvSendto 2 1 [51; 51; 0; 0; 0; 1] packet] /\ valid_query false (linklocal 2) packet).
Proof.
  assert (Ha : forall i, 0 <= i < 256 -> address (linklocal i) /\ address (global i)).
  { intros i Hi. unfold address. split; (split; [|done]); simpl;
    repeat (apply Forall_cons_2; [unfold is_byte; lia|]); apply Forall_nil_2. }
  apply (mld_send_query_wire 2 eth2 sample_mca (Some (src 1)) sample_os (sample_world [] [] [])).
  - reflexivity.
  - apply Ha. lia.
  - split; [repeat constructor; vm_compute; congruence|reflexivity].
  - intros a [= <-]. apply Ha. lia.
Defined.

(** Every interface is due, and the source of one entry has run out. *)
Lemma timeout_queries_witness :
  let w := expiring_world in
  let outcome := fun w' => exists evs, Forall (fun e => is_sendto e = false) evs /\
    w_trace w' = evs ++ rev (w_ints w ≫= general_query (w_cfg w)) ++ [] in
  spec timeout sample_os w (fun _ => outcome) (fun _ => outcome) /\
  returns timeout sample_os w (fun _ w' => w_groups w' = omap (expire_group 1000) (w_groups w)).
Proof.
  destruct (timeout_queries sample_os 1000 expiring_world (fun _ => eq_refl) ltac:(simpl; lia)) as [H1 H2]. split; [exact H1|]. apply H2.
  - apply expiring_world_wf.
  - exists []. reflexivity.
  - apply expiring_world_found.
  - intros t E. discriminate E.
Defined.
