(* ===== verification/DaemonFacts.v ===== *)
(** The daemon around the protocol: the command line, the creation of interfaces, the addresses
    [update_interfaces] records, the frames [handleinterfaces] drops, the shutdown. *)

From S2P Require Import Prelude Checksum LinkList Msrc World Interfaces Send Groups Samples Routing Mld2Logic Packet Daemon Typed Invariant.
From stdpp Require Import strings.
#[local] Open Scope Z_scope.

(** * The command line *)

Definition opt_upstream (o : opt) : option string := match o with OptUpstream s => Some s | _ => None end.
Definition opt_downstream (o : opt) : option string := match o with OptDownstream s => Some s | _ => None end.

Lemma options_invariant args : forall c c',
  options c args = Some c' ->
  (c_mld1only c && c_mld2only c = false -> c_mld1only c' && c_mld2only c' = false) /\
  option_list (c_upstream c') = option_list (c_upstream c) ++ omap opt_upstream args /\
  option_list (c_downstream c') = option_list (c_downstream c) ++ omap opt_downstream args.
Proof.
  induction args as [|o args IH]; intros c c' H; csimpl in *; [injection H as <-; by rewrite !app_nil_r|].
  destruct (option_step c o) as [c1|] eqn:E; [|done]. destruct (IH _ _ H) as (H1 & H2 & H3). rewrite H2, H3. clear H H2 H3 IH.
  destruct o; simpl in E; repeat case_match; simplify_eq; simpl in *;
    repeat match goal with H : _ = None |- _ => rewrite H end; (split_and!; [intros; auto|congruence|congruence]).
Qed.

(** A start-up that succeeds was given both interfaces. *)
Lemma startup_named os cfg w0 : startup os (init cfg) = Ret true w0 -> is_Some (c_upstream cfg) /\ is_Some (c_downstream cfg).
Proof.
  unfold startup, or_exit, start_clock, daemonize. unfold mbind, M_bind, mret, M_ret, crash, time, os_call, modify, get. simpl.
  destruct (c_upstream cfg) as [up|] eqn:Hu; [destruct (c_downstream cfg) as [down|] eqn:Hd; [by eauto|]|];
    destruct (c_daemonize cfg); simpl; repeat (case_match; simpl; rewrite ?Hu, ?Hd); discriminate.
Qed.

(** C32: A daemon that runs was given exactly one upstream and one downstream interface, and is never both an
    MLDv1-only and an MLDv2-only host, in whatever order the options came. *)
Theorem running_command_line os args w :
  running os args w -> exists cfg up down, options init_config args = Some cfg /\
    omap opt_upstream args = [up] /\ omap opt_downstream args = [down] /\
    c_upstream cfg = Some up /\ c_downstream cfg = Some down /\ c_mld1only cfg && c_mld2only cfg = false.
Proof.
  intros (cfg & w0 & Ho & Hs & _). destruct (options_invariant _ _ _ Ho) as (H1 & H2 & H3). simpl in H2, H3.
  exists cfg. assert (Hn : is_Some (c_upstream cfg) /\ is_Some (c_downstream cfg)) by exact (startup_named _ _ _ Hs).
  destruct Hn as [[up Hu] [down Hd]]. rewrite Hu in H2. rewrite Hd in H3. exists up, down. by split_and!; auto.
Qed.

(** * Interfaces *)

Lemma int_find_None i os w : 0 <= i -> (length (w_ints w) <= Z.to_nat i)%nat -> int_find i os w = Ret None w.
Proof. intros Hi Hl. rewrite int_find_spec by done. by rewrite lookup_ge_None_2. Qed.

(** The system answers the questions [int_create] asks about interface [i]. *)
Record known_interface (os : OS) (i : Z) (name : string) (mtu hw : Z) : Prop := {
  k_index : 0 <= i < 2 ^ 32 - 1;
  k_malloc : forall t, os_malloc os t = true;
  k_socket : forall t, 0 <= os_socket os t;
  k_name : forall t, os_if_name os t i = Some name;
  k_mtu : forall t, os_if_mtu os t i = Some mtu;
  k_hw : forall t, os_if_hwfamily os t i = Some hw }.

(** The array after [int_resize]. *)
Definition resized (i : Z) (l : list intnode) : list intnode := l ++ replicate (S (Z.to_nat i) - length l) intnode_zero.

Lemma int_resize_spec i os w (Q : unit -> world -> Prop) :
  0 <= i < 2 ^ 32 - 1 -> (forall t, os_malloc os t = true) ->
  (forall t, Q tt (set_os t (w_trace w) (set_ints (resized i (w_ints w)) w))) ->
  returns (int_resize i) os w Q.
Proof.
  intros Hi Hm HQ. unfold int_resize. do 2 spec_step. rewrite u32_small by lia.
  assert (E : Z.to_nat (i + 1) = S (Z.to_nat i)) by lia. rewrite E.
  destruct (Z.ltb_spec (Z.of_nat (length (w_ints w))) (i + 1)).
  - do 2 spec_step. rewrite Hm. simpl negb. cbv iota. spec_step. apply (HQ (S (w_tick w))).
  - spec_step. specialize (HQ (w_tick w)). unfold resized in HQ. replace (S (Z.to_nat i) - length (w_ints w))%nat with 0%nat in HQ by lia.
    rewrite app_nil_r in HQ. by destruct w.
Qed.

Lemma resized_lt i l : (Z.to_nat i < length (resized i l))%nat.
Proof. unfold resized. rewrite length_app, length_replicate. lia. Qed.

(** Interface [i] is being filled in as [n]. *)
Record building (w0 : world) (i : nat) (n : intnode) (w : world) : Prop := {
  b_ints : w_ints w = <[i := n]> (w_ints w0);
  b_cfg : w_cfg w = w_cfg w0;
  b_ids : w_upstream_id w = w_upstream_id w0 /\ w_downstream_id w = w_downstream_id w0;
  b_groups : w_groups w = w_groups w0 }.

Section building.
Context (w0 : world) (i : nat) (Hi : int_ok i w0) (os : OS) (E : fault -> world -> Prop).
Abbreviation building := (building w0 i).

Lemma building_start w n : w_ints w0 !! i = Some n -> w = w0 -> building n w.
Proof. intros Hn ->. split; [|done..]. by rewrite list_insert_id. Qed.
Lemma building_upd f n w (Q : unit -> world -> Prop) :
  building n w -> (forall w', building (f n) w' -> Q tt w') -> spec (upd_int i f) os w Q E.
Proof.
  intros [H1 H2 H3 H4] HQ. eapply upd_int_spec; [rewrite H1; by apply list_lookup_insert_eq|]. apply HQ.
  split; [|done..]. simpl. rewrite H1. apply list_eq. intros j. rewrite list_lookup_alter.
  case_decide; [subst j|by rewrite !list_lookup_insert_ne]. by rewrite !list_lookup_insert_eq.
Qed.
Lemma building_call {A} (f : OS -> nat -> A) n w (Q : A -> world -> Prop) :
  building n w -> (forall t w', building n w' -> Q (f os t) w') -> spec (os_call f) os w Q E.
Proof. intros [] HQ. apply spec_os_call, HQ. by split. Qed.
Lemma building_emit e n w (Q : unit -> world -> Prop) :
  building n w -> (forall w', building n w' -> Q tt w') -> spec (emit e) os w Q E.
Proof. intros [] HQ. apply spec_emit, HQ. by split. Qed.
End building.

Ltac b_step :=
  match goal with
  | |- spec (_ ≫= _) _ _ _ _ => apply spec_bind
  | H : building _ _ _ ?w |- spec (upd_int _ _) _ ?w _ _ =>
    eapply building_upd; [eassumption..|]; clear H; let w' := fresh "w" in intros w' H
  | H : building _ _ _ ?w |- spec (os_call _) _ ?w _ _ =>
    eapply building_call; [eassumption..|]; clear H; let w' := fresh "w" in intros ? w' H
  | H : building _ _ _ ?w |- spec (emit _) _ ?w _ _ =>
    eapply building_emit; [eassumption..|]; clear H; let w' := fresh "w" in intros w' H
  | |- spec get _ _ _ _ => apply spec_get
  | |- spec (mret _) _ _ _ _ => apply spec_ret
  end.

(** The role the names give to an interface. *)
Definition named (name : string) (o : option string) : bool := match o with Some s => strcasecmp_eq name s | None => false end.

Lemma int_create_finish_spec w0 i n sock ifx name os w :
  int_ok i w0 -> building w0 i n w ->
  returns (int_create_finish i sock ifx name) os w (fun r w' => r = Some i /\
    let up := named name (c_upstream (w_cfg w0)) in let down := named name (c_downstream (w_cfg w0)) in
    w_ints w' = <[i := set_role up down n]> (w_ints w0) /\
    w_upstream_id w' = (if up then ifx else w_upstream_id w0) /\
    w_downstream_id w' = (if down then ifx else w_downstream_id w0) /\ w_groups w' = w_groups w0).
Proof.
  intros Hi Hb. unfold int_create_finish. do 2 b_step. rewrite (b_cfg _ _ _ _ Hb). spec_step.
  apply (spec_mono _ _ _ (fun _ w' => building w0 i n w') _ (fun _ _ => False)); [| |done].
  { apply spec_when; intros; [|done]. do 2 b_step. apply spec_when; intros; [|done]. do 2 b_step. apply spec_when; intros; [|done]. by b_step. }
  clear w Hb. intros _ w Hb. do 2 b_step. cbv zeta. fold (named name (c_upstream (w_cfg w0))) (named name (c_downstream (w_cfg w0))).
  destruct Hb as [H1 H2 [H3 H4] H5].
  assert (Hn : forall f, alter f i (<[i:=n]> (w_ints w0)) = <[i := f n]> (w_ints w0)).
  { intros f. apply list_eq. intros j. rewrite list_lookup_alter. case_decide; [subst j|by rewrite !list_lookup_insert_ne].
    by rewrite !list_lookup_insert_eq. }
  do 2 (spec_step; apply spec_when; intros ->; [spec_step|]).
  all: spec_step; eapply upd_int_spec; [simpl; rewrite H1; by apply list_lookup_insert_eq|]; spec_step; simpl; rewrite H1, Hn; by split_and!.
Qed.

(** An interface named on the command line comes up: its entry is filled in, [int_find] finds it, its
    role follows its name, and the other interfaces are as before. *)
Theorem int_create_named i name mtu hw up down os w :
  known_interface os i name mtu hw -> c_upstream (w_cfg w) = Some up -> c_downstream (w_cfg w) = Some down ->
  hw ≠ ARPHRD_LOOPBACK -> name = up \/ name = down ->
  let n := Intnode i name (u32 mtu) 0 0 hw in6addr_any in6addr_any stats_zero (strcasecmp_eq name up) (strcasecmp_eq name down) 0 in
  returns (int_create i) os w (fun r w' => r = Some (Z.to_nat i) /\
    w_ints w' = <[Z.to_nat i := n]> (resized i (w_ints w)) /\
    w_upstream_id w' = (if strcasecmp_eq name up then i else w_upstream_id w) /\
    w_downstream_id w' = (if strcasecmp_eq name down then i else w_downstream_id w) /\ w_groups w' = w_groups w).
Proof.
  intros [Hi Hm Hs Hname Hmtu Hhw] Hup Hdown Hlo Hor n. unfold int_create. spec_step. apply int_resize_spec; [done..|]. intros t.
  assert (exists w0, w0 = set_os t (w_trace w) (set_ints (resized i (w_ints w)) w)) as [w0 Hw0] by eauto. rewrite <-Hw0.
  assert (H1 : w_ints w0 = resized i (w_ints w)) by by rewrite Hw0. assert (Hok : int_ok (Z.to_nat i) w0) by (unfold int_ok; rewrite H1; apply resized_lt).
  assert (H2 : w_cfg w0 = w_cfg w /\ w_upstream_id w0 = w_upstream_id w /\ w_downstream_id w0 = w_downstream_id w /\ w_groups w0 = w_groups w) by by rewrite Hw0.
  clear Hw0 t. destruct H2 as (Hc & <- & <- & <-). rewrite <-H1, <-Hc in *. clear H1 Hc w.
  destruct (lookup_lt_is_Some_2 (w_ints w0) (Z.to_nat i) Hok) as [n0 Hn0].
  pose proof (building_start w0 (Z.to_nat i) w0 n0 Hn0 eq_refl) as Hb. cbv zeta.
  do 2 b_step. rewrite (proj2 (Z.ltb_ge _ _)) by auto. do 8 b_step. rewrite Hname. do 4 b_step. rewrite Hmtu. do 4 b_step. rewrite Hhw.
  do 2 b_step. rewrite (proj2 (Z.eqb_neq _ _)) by done. do 2 b_step.
  match goal with H : building _ _ _ ?v |- _ => pose proof (b_cfg _ _ _ _ H) as Hc end. rewrite Hc, Hup, Hdown. simpl strcmp_eq.
  do 2 b_step.
  replace (if bool_decide (name = up) then _ else _) with (mret true : M bool)
    by (case_bool_decide as Hu; [done|]; destruct Hor as [?|Hd]; [done|by rewrite (bool_decide_eq_true_2 _ Hd)]).
  do 2 b_step. simpl negb. cbv iota. eapply spec_mono; [by eapply int_create_finish_spec| |done].
  cbv beta zeta. rewrite Hup, Hdown. done.
Qed.

(** The failure exits leave the interface disabled. *)
Definition refused (w : world) (i : Z) (os : OS) (r : option nat) (w' : world) : Prop :=
  r = None /\ int_find i os w' = Ret None w' /\
  w_upstream_id w' = w_upstream_id w /\ w_downstream_id w' = w_downstream_id w /\ w_groups w' = w_groups w.

Lemma int_create_fail_spec w0 i n sock os w :
  0 <= i -> int_ok (Z.to_nat i) w0 -> building w0 (Z.to_nat i) n w ->
  returns (int_create_fail (Z.to_nat i) sock) os w (refused w0 i os).
Proof.
  intros Hi Hok Hb. unfold int_create_fail, int_destroy. do 5 b_step. destruct Hb as [H1 H2 [H3 H4] H5].
  split_and!; try done. rewrite int_find_spec by done. by rewrite H1, list_lookup_insert_eq.
Qed.

(** An interface the command line does not name, or the loopback, is not used: the call gives NULL, and [int_find]
    does not find it. *)
Theorem int_create_refused i name mtu hw up down os w :
  known_interface os i name mtu hw -> c_upstream (w_cfg w) = Some up -> c_downstream (w_cfg w) = Some down ->
  hw = ARPHRD_LOOPBACK \/ name ≠ up /\ name ≠ down ->
  returns (int_create i) os w (refused w i os).
Proof.
  intros [Hi Hm Hs Hname Hmtu Hhw] Hup Hdown Hor. unfold int_create. spec_step. apply int_resize_spec; [done..|]. intros t.
  assert (exists w0, w0 = set_os t (w_trace w) (set_ints (resized i (w_ints w)) w)) as [w0 Hw0] by eauto. rewrite <-Hw0.
  assert (Hok : int_ok (Z.to_nat i) w0) by (unfold int_ok; rewrite Hw0; apply resized_lt).
  assert (H2 : w_cfg w0 = w_cfg w /\ w_upstream_id w0 = w_upstream_id w /\ w_downstream_id w0 = w_downstream_id w /\ w_groups w0 = w_groups w) by by rewrite Hw0.
  unfold refused. clear Hw0 t. destruct H2 as (Hc & <- & <- & <-). rewrite <-Hc in *. clear Hc w. fold (refused w0 i os).
  destruct (lookup_lt_is_Some_2 (w_ints w0) (Z.to_nat i) Hok) as [n0 Hn0].
  pose proof (building_start w0 (Z.to_nat i) w0 n0 Hn0 eq_refl) as Hb. cbv zeta.
  do 2 b_step. rewrite (proj2 (Z.ltb_ge _ _)) by auto. do 8 b_step. rewrite Hname. do 4 b_step. rewrite Hmtu. do 4 b_step. rewrite Hhw.
  do 2 b_step. destruct (Z.eqb_spec hw ARPHRD_LOOPBACK) as [|Hlo]; [eapply int_create_fail_spec; [lia|done..]|].
  destruct Hor as [|[Hu Hd]]; [done|]. do 2 b_step.
  match goal with H : building _ _ _ ?v |- _ => pose proof (b_cfg _ _ _ _ H) as Hc end. rewrite Hc, Hup, Hdown. simpl strcmp_eq.
  do 2 b_step. rewrite (bool_decide_eq_false_2 _ Hu), (bool_decide_eq_false_2 _ Hd). do 2 b_step. simpl negb. cbv iota.
  eapply int_create_fail_spec; [lia|done..].
Qed.

(** ** The MLD version *)

(** The version of an interface is set by the first MLD message seen there. An MLDv1 message never changes a version that is set
    already, so that there is no downgrade from version 2; an MLDv2 message changes version 1 when no MLDv1
    message was recorded for more than 125 seconds; the single-version options prevail. *)
Theorem int_set_mld_version_transitions i v n os w :
  w_ints w !! i = Some n ->
  let now := os_time os (w_tick w) in
  let stale := negb (i_mld_last_v1 n =? 0) && (i_mld_last_v1 n + ECMH_SUBSCRIPTION_TIMEOUT <? now) in
  returns (int_set_mld_version i v) os w (fun _ w' => exists n', becomes i n' w w' /\
    (v = 1 -> i_mld_version n ≠ 0 -> n' = n) /\
    (v = 1 -> i_mld_version n = 0 -> i_mld_version n' = if c_mld2only (w_cfg w) then 0 else 1) /\
    (v = 2 -> i_mld_version n ≠ 0 -> stale = false -> n' = n) /\
    (v = 2 -> i_mld_version n = 0 \/ stale = true -> i_mld_version n' = if c_mld1only (w_cfg w) then 0 else 2)).
Proof.
  intros Hn now stale. eapply spec_mono; [by apply int_set_mld_version_spec| |done]. cbv beta zeta. intros _ w' Hb.
  eexists. split; [exact Hb|]. unfold mld_step. fold now. fold stale. split_and!.
  - intros -> Hv. rewrite (proj2 (Z.eqb_neq _ _) Hv), orb_true_r. apply set_mld_id.
  - intros -> Hv. rewrite (proj2 (Z.eqb_eq _ _) Hv), orb_false_r. simpl. by destruct (c_mld2only _).
  - intros -> Hv ->. simpl. rewrite (proj2 (Z.eqb_neq _ _) Hv), orb_true_r. apply set_mld_id.
  - intros -> Hv. simpl. destruct stale; simpl; [by destruct (c_mld1only _)|]. destruct Hv as [Hv|]; [|done].
    rewrite (proj2 (Z.eqb_eq _ _) Hv). by destruct (c_mld1only _).
Qed.

(** * The addresses of an interface *)

(** An address of another interface, among those the system lists. *)
Definition foreign (l : list ifaddr) (n : intnode) (a : in6_addr) : Prop :=
  exists ifa, ifa ∈ l /\ ifa_ifindex ifa ≠ i_ifindex n /\ ifa_bytes ifa = a.
(** The addresses [n'] has and [n] had not are addresses of other interfaces. *)
Definition takes_foreign (l : list ifaddr) (n n' : intnode) : Prop :=
  i_ifindex n' = i_ifindex n /\
  (i_linklocal n' = i_linklocal n \/ foreign l n (i_linklocal n')) /\ (i_global n' = i_global n \/ foreign l n (i_global n')).

Lemma takes_foreign_cons ifa l n n1 n' : takes_foreign [ifa] n n1 -> takes_foreign l n1 n' -> takes_foreign (ifa :: l) n n'.
Proof.
  assert (H : forall a n0, i_ifindex n0 = i_ifindex n -> foreign l n0 a -> foreign (ifa :: l) n a).
  { intros a n0 E (x & Hx & Hi & Ha). exists x. rewrite <-E. by split; [right|]. }
  assert (H1 : forall a, foreign [ifa] n a -> foreign (ifa :: l) n a).
  { intros a (x & ->%list_elem_of_singleton & ?). exists ifa. by split; [left|]. }
  intros (Ei & Hl & Hg) (Ei' & Hl' & Hg'). split; [congruence|]. split.
  - destruct Hl' as [->|?]; [|by right; eapply H]. destruct Hl as [->|?]; [by left|right; by apply H1].
  - destruct Hg' as [->|?]; [|by right; eapply H]. destruct Hg as [->|?]; [by left|right; by apply H1].
Qed.
Lemma takes_foreign_refl l n : takes_foreign l n n.
Proof. split_and!; auto. Qed.

Lemma update_loop_specific os i l : forall got n w,
  w_ints w !! i = Some n ->
  returns (update_loop (Some i) l got) os w (fun _ w' => exists n', w_ints w' !! i = Some n' /\ takes_foreign l n n').
Proof.
  induction l as [|ifa l IH]; intros got n w Hn; cbn [update_loop]; [spec_step; exists n; by split; [|apply takes_foreign_refl]|].
  assert (Hnext : forall got n1 w1, takes_foreign [ifa] n n1 -> w_ints w1 !! i = Some n1 ->
    returns (update_loop (Some i) l got) os w1 (fun _ w' => exists n', w_ints w' !! i = Some n' /\ takes_foreign (ifa :: l) n n')).
  { intros got1 n1 w1 Hf H1. eapply spec_mono; [by apply IH| |done]. cbv beta. intros _ w' (n' & H' & Hf'). exists n'.
    split; [done|]. by eapply takes_foreign_cons. }
  destruct (_ || _); [apply (Hnext _ n); [apply takes_foreign_refl|done]|].
  spec_step. unfold update_find. spec_step. spec_step. spec_step.
  destruct (Z.eqb_spec (i_ifindex n) (ifa_ifindex ifa)) as [Hi|Hi]; [apply (Hnext _ n); [apply takes_foreign_refl|done]|].
  assert (Hfa : foreign [ifa] n (ifa_bytes ifa)) by (exists ifa; split; [by left|by split]).
  spec_step. apply (spec_mono _ _ _ (fun _ w1 => exists n1, w_ints w1 !! i = Some n1 /\ takes_foreign [ifa] n n1) _ (fun _ _ => False)); [| |done].
  - unfold update_addr.
    assert (Hset : forall f b, takes_foreign [ifa] n (f n) -> returns (_ ← upd_int i f; mret (b : bool * bool)) os w
      (fun _ w1 => exists n1, w_ints w1 !! i = Some n1 /\ takes_foreign [ifa] n n1)).
    { intros f b Hf. spec_step. spec_step. spec_step. exists (f n). split; [|done]. simpl. by rewrite list_lookup_alter_eq, Hn. }
    assert (Hsame : forall b, returns (mret (b : bool * bool)) os w (fun _ w1 => exists n1, w_ints w1 !! i = Some n1 /\ takes_foreign [ifa] n n1)).
    { intros b. spec_step. exists n. by split; [|apply takes_foreign_refl]. }
    destruct (_ && _); [apply Hset; split_and!; [done|by right|by left]|]. destruct (_ =? AF_INET); [apply Hsame|].
    destruct (_ =? AF_INET6); [|apply Hsame]. apply Hset. split_and!; [done|by left|by right].
  - cbv beta. intros got1 w1 (n1 & H1 & Hf). destruct (got1.1 && got1.2); [|by apply (Hnext _ n1)].
    spec_step. exists n1. split; [done|]. eapply takes_foreign_cons; [done|apply takes_foreign_refl].
Qed.

(** When a frame makes the daemon read the addresses of one interface, it records no address of that
    interface, only addresses of others: the test of the interface index is inverted. *)
Theorem update_interfaces_specific os i n l w :
  w_ints w !! i = Some n -> (forall t, os_getifaddrs os t = Some l) ->
  returns (update_interfaces (Some i)) os w (fun _ w' => exists n', w_ints w' !! i = Some n' /\ takes_foreign l n n').
Proof.
  intros Hn Hl. unfold update_interfaces. do 4 spec_step. destruct (_ <? _); [spec_step; exists n; by split; [|apply takes_foreign_refl]|].
  do 6 spec_step. rewrite Hl. by apply update_loop_specific.
Qed.

(** * Frames that are not for the daemon *)

Definition dropped_frame (w : world) (fr : frame) : Prop :=
  f_hatype fr = ARPHRD_LOOPBACK \/ f_pkttype fr = PACKET_OUTGOING \/
  f_ifindex fr ≠ w_upstream_id w /\ f_ifindex fr ≠ w_downstream_id w.

(** A frame of the loopback, a frame the host itself sends, and a frame of an interface that is neither the upstream
    nor the downstream one have no effect but on the buffer and the counters. *)
Theorem handleinterfaces_drops os w fr :
  os_recvfrom os (w_tick w) = Some fr -> dropped_frame w fr ->
  exists stat, handleinterfaces os w = Ret true (set_stat stat (set_buffer (store_frame (f_bytes fr) (w_buffer w)) (set_os (S (w_tick w)) (w_trace w) w))).
Proof.
  intros Hfr Hd. unfold handleinterfaces, mbind at 1, M_bind at 1, os_call. rewrite Hfr.
  unfold mbind at 1, M_bind at 1, modify at 1.
  destruct ((f_hatype fr =? ARPHRD_LOOPBACK) || (f_pkttype fr =? PACKET_OUTGOING)) eqn:E.
  { exists (fun s => s). destruct w. done. }
  apply orb_false_iff in E as [E1%Z.eqb_neq E2%Z.eqb_neq]. destruct Hd as [?|[?|[H1 H2]]]; [done..|].
  exists (count_received (Z.of_nat (length (f_bytes fr)))). unfold mbind, M_bind, modify, get. simpl.
  by rewrite (proj2 (Z.eqb_neq _ _) H1), (proj2 (Z.eqb_neq _ _) H2).
Qed.

(** * The statistics *)

(** The uptime in its four units adds up to the time since the start, below 136 years. *)
Lemma uptime_spec now start :
  0 <= now - start < 2 ^ 32 ->
  let '(d, h, m, s) := uptime now start in
  d * 86400 + h * 3600 + m * 60 + s = now - start /\ 0 <= d /\ 0 <= h < 24 /\ 0 <= m < 60 /\ 0 <= s < 60.
Proof.
  unfold uptime. change (24 * 60 * 60) with 86400. change (60 * 60) with 3600. generalize (now - start). intros e H.
  rewrite (u32_small e) by done. pose proof (Z.div_mod e 86400). pose proof (Z.mod_pos_bound e 86400). pose proof (Z.div_pos e 86400).
  rewrite (u32_small (e - e / 86400 * 24 * 60 * 60)) by lia. set (e1 := e - e / 86400 * 24 * 60 * 60) in *.
  pose proof (Z.div_mod e1 3600). pose proof (Z.mod_pos_bound e1 3600). pose proof (Z.div_pos e1 3600).
  rewrite (u32_small (e1 - e1 / 3600 * 60 * 60)) by lia. set (e2 := e1 - e1 / 3600 * 60 * 60) in *.
  pose proof (Z.div_mod e2 60). pose proof (Z.mod_pos_bound e2 60). pose proof (Z.div_pos e2 60).
  rewrite (u32_small (e2 - e2 / 60 * 60)) by lia. lia.
Qed.

(** [SIGUSR1] writes one report and changes nothing: the report gives the time since the start in
    days, hours, minutes and seconds, lists exactly the interfaces in use, in the order of their
    indices, and ends with the counters. *)
Theorem sigusr1_reports os w :
  let now := os_time os (w_tick w) in
  0 <= now - w_starttime w < 2 ^ 32 ->
  exists d h m s pre post,
    sigusr1 os w = Ret tt (set_os (S (w_tick w)) (EvDump (pre ++ concat (dump_interface <$> dumped w) ++ post) :: w_trace w) w) /\
    DumpUptime d h m s ∈ post /\ DumpNum "Interfaces Monitored : " (Z.of_nat (length (dumped w))) ∈ post /\
    d * 86400 + h * 3600 + m * 60 + s = now - w_starttime w /\ 0 <= d /\ 0 <= h < 24 /\ 0 <= m < 60 /\ 0 <= s < 60 /\
    (forall n, n ∈ dumped w <-> n ∈ w_ints w /\ i_mtu n <> 0).
Proof.
  intros now H. pose proof (uptime_spec _ _ H) as Hu. destruct (uptime now (w_starttime w)) as [[[d h] m] s] eqn:E.
  exists d, h, m, s. eexists [_; _; _; _], _. split.
  - unfold sigusr1, dump_lines, mbind, M_bind, time, os_call, get, emit, modify. cbn -[uptime dump_interface dump_stats dumped].
    fold now. rewrite E. reflexivity.
  - split; [|split; [|split_and!; [by apply Hu..|]]].
    + do 6 right. left.
    + do 8 right. left.
    + intros n. unfold dumped. rewrite list_elem_of_filter. tauto.
Qed.

(** * The shutdown *)

Lemma shutdown_loop os todo : forall pre w,
  w_ints w = pre ++ todo -> Forall (fun n => i_mtu n = 0) pre ->
  returns (for_each (seq (length pre) (length todo)) (fun i => n ← int_at i; when (negb (i_mtu n =? 0)) (int_destroy i))) os w
    (fun _ w' => Forall (fun n => i_mtu n = 0) (w_ints w') /\ w_groups w' = w_groups w).
Proof.
  induction todo as [|n todo IH]; intros pre w Hw Hpre; cbn [length seq for_each].
  { spec_step. by rewrite Hw, app_nil_r. }
  assert (Hn : w_ints w !! length pre = Some n) by (by rewrite Hw, lookup_app_r, Nat.sub_diag by done).
  assert (Hgo : forall n' w', i_mtu n' = 0 -> w_ints w' = pre ++ n' :: todo -> w_groups w' = w_groups w ->
    returns (for_each (seq (S (length pre)) (length todo)) (fun i => n ← int_at i; when (negb (i_mtu n =? 0)) (int_destroy i))) os w'
      (fun _ w' => Forall (fun n => i_mtu n = 0) (w_ints w') /\ w_groups w' = w_groups w)).
  { intros n' w' Hm H' Hg. specialize (IH (pre ++ [n']) w'). rewrite length_app, Nat.add_1_r, <-app_assoc, Hg in IH. apply IH; [done|].
    apply Forall_app. by split; [|apply Forall_singleton]. }
  do 2 spec_step. spec_step. apply spec_when; intros E.
  - unfold int_destroy. eapply upd_int_spec; [done|]. apply (Hgo (set_mtu 0 n)); [done| |done]. simpl. rewrite Hw.
    apply list_eq. intros j. rewrite list_lookup_alter. case_decide; [subst j; by rewrite !lookup_app_r, Nat.sub_diag by done|].
    destruct (decide (j < length pre)%nat); [by rewrite !lookup_app_l|]. rewrite !lookup_app_r by lia.
    destruct (j - length pre)%nat as [|k] eqn:Ek; [lia|done].
  - apply (Hgo n); [|done|done]. apply negb_false_iff in E. lia.
Qed.

(** The shutdown always returns; afterwards there is no group, and no interface is enabled. *)
Theorem shutdown_clears os w :
  returns shutdown os w (fun _ w' => w_groups w' = [] /\ Forall (fun n => i_mtu n = 0) (w_ints w')).
Proof.
  unfold shutdown, all_ints. do 7 spec_step. eapply spec_mono; [apply (shutdown_loop os (w_ints w) []); [done|constructor]| |done].
  cbv beta. intros _ w' [Hm Hg]. do 2 spec_step. apply spec_when; intros _; [|by rewrite Hg].
  unfold mrouter6_delmif. repeat spec_step. by simpl; rewrite Hg.
Qed.

(** * The theorems on the sample system *)

Definition sample_args : list opt := [OptUpstream "eth1"; OptMld1only; OptDownstream "eth2"; OptMld2only; OptForeground]%string.
Lemma sample_known i name : i = 1 /\ name = "eth1"%string \/ i = 2 /\ name = "eth2"%string -> known_interface sample_os i name 1500 1.
Proof. intros [[-> ->]|[-> ->]]; split; (done || lia). Qed.

Lemma sample_running : exists w, running sample_os sample_args w.
Proof.
  do 3 eexists. split; [reflexivity|]. split; [|apply rtc_refl]. lazy -[replicate Z.to_nat]. reflexivity.
Qed.

Lemma running_command_line_witness :
  exists cfg up down, options init_config sample_args = Some cfg /\ omap opt_upstream sample_args = [up] /\
    omap opt_downstream sample_args = [down] /\
    c_upstream cfg = Some up /\ c_downstream cfg = Some down /\ c_mld1only cfg && c_mld2only cfg = false.
Proof.
  destruct sample_running as [w H]. exact (running_command_line sample_os sample_args w H).
Defined.

Lemma int_create_named_witness :
  let w := init sample_cfg in
  returns (int_create 2) sample_os w (fun r w' => r = Some 2%nat /\
    w_ints w' = <[2%nat := Intnode 2 "eth2" 1500 0 0 1 in6addr_any in6addr_any stats_zero false true 0]> (resized 2 []) /\
    w_upstream_id w' = 0 /\ w_downstream_id w' = 2 /\ w_groups w' = []).
Proof.
  apply (int_create_named 2 "eth2" 1500 1 "eth1" "eth2" sample_os (init sample_cfg)); [apply sample_known; by right|reflexivity|reflexivity|by vm_compute|by right].
Defined.

Lemma int_create_refused_witness :
  let cfg := Config (Some "eth1"%string) (Some "eth3"%string) false false false false true false 32768 in
  returns (int_create 2) sample_os (init cfg) (refused (init cfg) 2 sample_os).
Proof.
  apply (int_create_refused 2 "eth2" 1500 1 "eth1" "eth3"); [apply sample_known; by right|reflexivity|reflexivity|by right].
Defined.

(** The system with two link-local addresses, of interfaces 1 and 2. *)
Definition sample_addrs : list ifaddr :=
  (fun i => Ifaddr "eth" i AF_INET6 (linklocal i) false true true true) <$> [1; 2].
Definition sample_addrs_os : OS := {|
  os_time := fun _ => 1000; os_malloc := fun _ => true; os_garbage := fun _ => 7; os_sendto := fun _ => SendOk;
  os_socket := fun _ => 5; os_setsockopt := fun _ => 0; os_if_name := fun _ _ => None; os_if_mtu := fun _ _ => None;
  os_if_hwfamily := fun _ _ => None; os_getifaddrs := fun _ => Some sample_addrs;
  os_recvfrom := fun _ => Some (Frame [1; 2; 3] 1 0 3 34525);
  os_fork := fun _ => 0; os_fopen := fun _ => true |}.

Lemma update_interfaces_specific_witness :
  (exists w' n', update_interfaces (Some 2%nat) sample_addrs_os (set_last_update 0 (sample_world [] [] [])) = Ret tt w' /\
     w_ints w' !! 2%nat = Some n' /\ i_linklocal n' = linklocal 1) /\
  returns (update_interfaces (Some 2%nat)) sample_addrs_os (sample_world [] [] []) (fun _ w' =>
    exists n', w_ints w' !! 2%nat = Some n' /\ takes_foreign sample_addrs eth2 n').
Proof.
  split; [do 2 eexists; split_and!; by vm_compute|].
  apply (update_interfaces_specific sample_addrs_os 2 eth2 sample_addrs); reflexivity.
Defined.

Lemma sigusr1_reports_witness :
  0 <= os_time sample_os 0 - 900 < 2 ^ 32 /\
  exists d h m s pre post,
    sigusr1 sample_os (sample_world [] [] []) =
      Ret tt (set_os 1 [EvDump (pre ++ concat (dump_interface <$> [eth1; eth2; eth3]) ++ post)] (sample_world [] [] [])) /\
    DumpUptime d h m s ∈ post /\ d * 86400 + h * 3600 + m * 60 + s = 100.
Proof.
  assert (H : 0 <= os_time sample_os 0 - 900 < 2 ^ 32) by (simpl; lia). split; [exact H|].
  destruct (sigusr1_reports sample_os (sample_world [] [] []) H) as (d & h & m & s & pre & post & Hr & Hin & _ & Hs & _).
  exists d, h, m, s, pre, post. split; [exact Hr|split; [exact Hin|exact Hs]].
Defined.

Lemma handleinterfaces_drops_witness :
  let w := sample_world [] [] (replicate 10 0) in
  exists stat, handleinterfaces sample_addrs_os w =
    Ret true (set_stat stat (set_buffer (store_frame [1; 2; 3] (w_buffer w)) (set_os 1 [] w))).
Proof.
  apply (handleinterfaces_drops sample_addrs_os (sample_world [] [] (replicate 10 0)) (Frame [1; 2; 3] 1 0 3 34525));
    [reflexivity|right; right; split; vm_compute; congruence].
Defined.

Lemma int_set_mld_version_transitions_witness :
  let w := sample_world [] [] [] in
  returns (int_set_mld_version 2 2) sample_os w (fun _ w' => exists n', becomes 2 n' w w' /\
    (2 = 1 -> i_mld_version eth2 ≠ 0 -> n' = eth2) /\ (2 = 1 -> i_mld_version eth2 = 0 -> i_mld_version n' = 1) /\
    (2 = 2 -> i_mld_version eth2 ≠ 0 -> false = false -> n' = eth2) /\
    (2 = 2 -> i_mld_version eth2 = 0 \/ false = true -> i_mld_version n' = 2)).
Proof. apply (int_set_mld_version_transitions 2 2 eth2 sample_os (sample_world [] [] [])). reflexivity. Defined.

Lemma running_groups_wf_witness : exists w, running sample_os sample_args w /\ groups_wf (w_groups w).
Proof. destruct sample_running as [w H]. exists w. exact (conj H (running_groups_wf sample_os sample_args w H)). Defined.

Lemma sample_os_typed : os_typed sample_os.
Proof. split; simpl; [by split|by split|by intros _ _ f [= <-]|done|done]. Qed.
Lemma running_typed_witness : exists w, running sample_os sample_args w /\ typed w.
Proof. destruct sample_running as [w H]. exists w. exact (conj H (running_typed sample_os sample_args w sample_os_typed H)). Defined.
