(* ===== verification/MemoryDaemon.v ===== *)
(** The daemon on pointers: the receive path, the expiry, the main loop and the shutdown with the operations of [MemoryReport], [MemoryForward] and
    [MemoryExpire] in the place of those on values, and the simulation of all its runs. *)

From S2P Require Import Prelude LinkList Msrc World Interfaces Send Groups Samples Routing Mld2Logic Blind Mld2Expire Memory MemoryFacts MemoryRefine MemoryRecords MemoryDestroy MemoryExpire MemoryWalk Packet MemoryForward MemoryReport Daemon Invariant Delivery DaemonFacts.
#[local] Open Scope Z_scope.
#[local] Arguments Z.eqb : simpl never.

(** * Definitions *)

(** [groups] is [g_conf->groups].  What does not touch the groups is a command of the daemon as it is ([lift]); what only looks at them reads them
    through their pointers ([through]). *)
Section code.
Context `{Malloc} (groups : Z).

(** [grpint_refresh] answers NULL. *)
Definition mld1_report (intn : nat) (mld1 : Z) : P unit :=
  _ ← lift (int_set_mld_version intn 1);
  mca ← lift (load (mld1 + 8) 16);
  if unroutable_mca mca then mret tt
  else
    got ← groupint_get groups mca intn;
    if got.1 =? 0 then mret tt else mret tt.

Fixpoint mld2_grecs (intn : nat) (mld2r plen : Z) (ngrec : nat) (grec : Z) (handle_upstream : bool) : P bool :=
  match ngrec with
  | O => mret handle_upstream
  | S ngrec =>
    mca ← lift (load (grec + 4) 16);
    if IN6_IS_ADDR_MC_NODELOCAL mca || IN6_IS_ADDR_MC_LINKLOCAL mca then mret handle_upstream
    else if mld2r + plen <? grec then mret handle_upstream
    else
      nsrcs ← lift (load16 (grec + 2));
      let src := grec + sizeof_mld2_grec in
      type ← lift (load8 grec);
      _ ← lift (name_grec type);
      if negb (is_known_grec_type type) then mret handle_upstream
      else if (0 <? nsrcs) && (plen <? src - mld2r + nsrcs * 16) then mret handle_upstream
      else
        srcs ← lift (load_addrs src (Z.to_nat nsrcs));
        _ ← report_record groups intn mca type srcs;
        auxwords ← lift (load8 (grec + 1));
        mld2_grecs intn mld2r plen ngrec (src + nsrcs * 16 + auxwords) true
  end.

Definition mld2_report (intn : nat) (mld2r plen : Z) : P unit :=
  ngrec ← lift (load16 (mld2r + 6));
  _ ← lift (int_set_mld_version intn 2);
  if plen <? sizeof_mld2_report + ngrec * sizeof_mld2_grec then mret tt
  else
    refresh ← mld2_grecs intn mld2r plen (Z.to_nat ngrec) (mld2r + sizeof_mld2_report) false;
    if (refresh : bool) then
      _ ← handle_upstream groups (Some intn);
      through groups (w ← get; expire_routes (w_mr6_fd w))
    else mret tt.

Definition mld_message (intn : nat) (type icmpv6 plen : Z) : P unit :=
  if type =? MLD_LISTENER_REPORT then mld1_report intn icmpv6
  else if type =? MLD_LISTENER_REDUCTION then through groups (mld1_reduction intn icmpv6)
  else if (type =? ICMP6_V2_MEMBERSHIP_REPORT) || (type =? ICMP6_V2_MEMBERSHIP_REPORT_EXP) then mld2_report intn icmpv6 plen
  else if type =? MLD_LISTENER_QUERY then through groups (mld_query intn plen)
  else mret tt.

Definition l4_ipv6_icmpv6 (intn : nat) (iph len icmpv6 plen : Z) : P unit :=
  _ ← lift (modify (set_stat count_icmp_received));
  _ ← lift (upd_int intn (set_int_stat count_icmp_received));
  type ← lift (load8 icmpv6);
  if negb (handled_icmp6_type type) then lift (name_received icmpv6 type)
  else
    _ ← lift (recompute_checksum iph icmpv6 plen);
    _ ← lift (name_received icmpv6 type);
    if type =? ICMP6_ECHO_REQUEST then
      hlim ← lift (decrease_hlim iph);
      if hlim =? 0 then
        lift (_ ← modify (fun w => set_hlim_exceeded (u64 (w_hlim_exceeded w + 1)) w);
              src ← load (iph + 8) 16;
              icmp6_send intn src ICMP6_ECHO_REPLY ICMP6_TIME_EXCEED_TRANSIT (icmpv6 + 4) (u32 (plen - 8 + 4)))
      else l4_ipv6_multicast groups intn iph len
    else
      src ← lift (load (iph + 8) 16);
      if negb (IN6_IS_ADDR_LINKLOCAL src) then mret tt
      else mld_message intn type icmpv6 plen.

Definition l3_ipv6 (intn : nat) (iph len : Z) : P unit :=
  dst ← lift (load (iph + 24) 16);
  if negb (IN6_IS_ADDR_MULTICAST dst) then mret tt
  else
    n ← lift (int_at intn);
    src ← lift (load (iph + 8) 16);
    if bool_decide (src = i_linklocal n) || bool_decide (src = i_global n) then mret tt
    else
      nxt ← lift (load8 (iph + 6));
      plen ← lift (load16 (iph + 4));
      r ← lift (skip_headers (headers_fuel len) iph len nxt (iph + sizeof_ip6_hdr) plen);
      match (r : option (Z * Z * Z)) with
      | None => mret tt
      | Some (ipe_type, ipe, plen) =>
        if ipe_type =? IPPROTO_ICMPV6 then l4_ipv6_icmpv6 intn iph len ipe plen
        else if IN6_IS_ADDR_MULTICAST dst then
          hlim ← lift (decrease_hlim iph);
          if hlim =? 0 then lift (modify (fun w => set_hlim_exceeded (u64 (w_hlim_exceeded w + 1)) w))
          else l4_ipv6_multicast groups intn iph len
        else mret tt
      end.

Definition l2_ethtype (intn : nat) (packet len ether_type : Z) : P unit :=
  if ether_type =? ETH_P_IP then lift (l3_ipv4 intn packet (u16 len))
  else if ether_type =? ETH_P_IPV6 then l3_ipv6 intn packet (u16 len)
  else mret tt.

(** The interface of a frame; it is created when it is not known yet. *)
Definition frame_interface (i : Z) : M (option nat) :=
  found ← int_find i;
  match found with
  | Some intn => mret (Some intn)
  | None =>
    created ← int_create i;
    match created with Some intn => _ ← update_interfaces (Some intn); mret (Some intn) | None => mret None end
  end.

Definition handleinterfaces : P bool :=
  r ← lift (os_call os_recvfrom);
  match r with
  | None => mret false
  | Some fr =>
    _ ← lift (modify (fun w => set_buffer (store_frame (f_bytes fr) (w_buffer w)) w));
    if (f_hatype fr =? ARPHRD_LOOPBACK) || (f_pkttype fr =? PACKET_OUTGOING) then mret true
    else
      let len := Z.of_nat (length (f_bytes fr)) in
      _ ← lift (modify (set_stat (count_received len)));
      w ← lift get;
      let i := f_ifindex fr in
      if negb ((i =? w_upstream_id w) || (i =? w_downstream_id w)) then mret true
      else
        intn ← lift (frame_interface i);
        match (intn : option nat) with
        | None => mret true
        | Some intn =>
          _ ← lift (upd_int intn (set_int_stat (count_received len)));
          _ ← l2_ethtype intn 14 len (f_protocol fr);
          mret true
        end
  end.

Definition timeout : P unit :=
  now ← lift time;
  _ ← lift (update_interfaces None);
  w ← lift get;
  _ ← lift (when ((now + w_timeout_offset w) mod ECMH_SUBSCRIPTION_TIMEOUT =? 0) send_mld_querys);
  expire_sources groups.

Definition main_round (s : selected) : P bool :=
  w ← lift get;
  _ ← (if w_needs_timeout w then _ ← timeout; lift (modify (fun w => set_flags false (w_quit w) w)) else mret tt);
  match s with
  | SelError eintr => mret (negb eintr)
  | SelReady upcall packet =>
    _ ← match upcall with
        | Some buf => through groups (w ← get; mrouter6_handlesocket (w_mr6_fd w) buf)
        | None => mret tt
        end;
    if (packet : bool) then ok ← handleinterfaces; mret (negb ok) else mret false
  end.

(** The groups go first; the rest of [main] does not look at them. *)
Definition shutdown : P unit :=
  _ ← groups_delete groups;
  lift Daemon.shutdown.

(** The runs; [init] makes the list of groups before anything else, and the memory [f] is that of the rest of the program. *)
Inductive step (os : OS) : world * heap -> world * heap -> Prop :=
| step_alarm v v' h h' : lift timeout_signal h os v = Ret (tt, h') v' -> step os (v, h) (v', h')
| step_usr1 v v' h h' : through groups sigusr1 h os v = Ret (tt, h') v' -> step os (v, h) (v', h')
| step_usr2 v v' h h' : lift sigusr2 h os v = Ret (tt, h') v' -> step os (v, h) (v', h')
| step_round s v v' h h' : message_ok s -> main_round s h os v = Ret (false, h') v' -> step os (v, h) (v', h').

Definition running (os : OS) (args : list opt) (f : heap) (v : world) (h : heap) : Prop :=
  exists cfg v0 h0, options init_config args = Some cfg /\
    lift startup ({[groups := OList []]} ∪ f) os (init cfg) = Ret (true, h0) v0 /\ rtc (step os) (v0, h0) (v, h).
(** Where the loop ends, as [Daemon.ended]. *)
Definition ended (os : OS) (args : list opt) (f : heap) (v : world) (h : heap) : Prop :=
  running os args f v h \/
  exists v0 h0 s, running os args f v0 h0 /\ message_ok s /\ main_round s h0 os v0 = Ret (true, h) v.
End code.

(** * Commands that leave the groups alone *)

Lemma blind_load_addrs n : forall src, blind (load_addrs src n).
Proof. induction n as [|n IH]; intros src; cbn [load_addrs]; blind_auto. Qed.
Lemma blind_skip_headers iph len n : forall t ipe plen, blind (skip_headers n iph len t ipe plen).
Proof. induction n as [|n IH]; intros t ipe plen; cbn [skip_headers]; blind_auto. Qed.
#[local] Hint Resolve blind_load_addrs blind_skip_headers : blind.
Lemma blind_recompute_checksum iph o plen : blind (recompute_checksum iph o plen).
Proof. unfold recompute_checksum. blind_auto. Qed.
Lemma blind_name_grec type : blind (name_grec type).
Proof. unfold name_grec. blind_auto. Qed.
Lemma blind_name_received o type : blind (name_received o type).
Proof. unfold name_received, name_icmpv6. blind_auto. Qed.
#[local] Hint Resolve blind_name_grec blind_name_received : blind.
Lemma blind_decrease_hlim iph : blind (decrease_hlim iph).
Proof. unfold decrease_hlim. blind_auto. Qed.
Lemma blind_l3_ipv4 i iph len : blind (l3_ipv4 i iph len).
Proof. unfold l3_ipv4. blind_auto. Qed.
Lemma blind_int_create i : blind (int_create i).
Proof. unfold int_create, int_resize, int_create_finish, int_create_fail, strcmp_eq. blind_auto. Qed.
#[local] Hint Resolve blind_recompute_checksum blind_decrease_hlim blind_l3_ipv4 blind_int_create : blind.
Lemma blind_update_loop s l : forall got, blind (update_loop s l got).
Proof. induction l as [|ifa l IH]; intros got; cbn [update_loop]; unfold update_find, update_addr, strcmp_eq; blind_auto. Qed.
#[local] Hint Resolve blind_update_loop : blind.
Lemma blind_update_interfaces s : blind (update_interfaces s).
Proof. unfold update_interfaces. blind_auto. Qed.
Lemma blind_send_mld_querys : blind send_mld_querys.
Proof. unfold send_mld_querys, all_ints. blind_auto. Qed.
#[local] Hint Resolve blind_update_interfaces blind_send_mld_querys : blind.
Lemma blind_frame_interface i : blind (frame_interface i).
Proof. unfold frame_interface. blind_auto. Qed.
Lemma blind_sigusr2 : blind sigusr2.
Proof. unfold sigusr2, mld2_send_report. blind_auto. Qed.
Lemma blind_startup : blind startup.
Proof.
  unfold startup, start_clock, or_exit, daemonize, open_socket, set_option, start_kernel, mrouter_init, mrouter6_addmif. blind_auto.
Qed.
#[local] Hint Resolve blind_frame_interface blind_sigusr2 blind_startup : blind.

(** * In lockstep *)

Section lockstep.
Context `{Malloc} (groups : Z).

(** The state of the values is well formed; the groups in memory are its groups; and [f] is untouched. *)
Definition good (f : heap) (w : world) (h : heap) : Prop := WF w /\ exists D V, stands groups f D V w h.
Definition lockstep {A} (m : M A) (pm : P A) : Prop :=
  forall os f w h, good f w h -> beside os m pm w h (fun a b w' h' => a = b /\ good f w' h').

Section rules.
Context {A : Type}.
Lemma ls_ret (a : A) : lockstep (mret a) (mret a).
Proof. intros os f w h Hg. by apply beside_ret. Qed.
Lemma ls_crash e : lockstep (crash e : M A) (pcrash e).
Proof. intros os f w h Hg. apply beside_crash. Qed.
Lemma ls_bind {B} (m : M A) (k : A -> M B) pm pk : lockstep m pm -> (forall a, lockstep (k a) (pk a)) -> lockstep (m ≫= k) (pm ≫= pk).
Proof.
  intros Hm Hk os f w h Hg. apply beside_bind. eapply beside_mono; [by apply Hm|]. cbv beta. intros a b w' h' [-> Hg']. by apply Hk.
Qed.
Lemma ls_lift (m : M A) : blind m -> lockstep m (lift m).
Proof.
  intros Hb os f w h [Hwf (D & V & Hs)]. intros gs0. unfold spec, lift, mbind, M_bind. rewrite Hb.
  destruct (m os w) as [a w'|e w'] eqn:E; [|by exists e, gs0]. pose proof (blind_frames _ _ _ _ _ Hb E) as Ew. exists a, h, gs0. split; [done|].
  split; [done|]. split; [unfold WF in *; by rewrite Ew|]. exists D, V. by eapply stands_same.
Qed.
(** Reading a field of the state other than the groups. *)
Lemma ls_get (k : world -> M A) (pk : world -> P A) :
  (forall w G, pk (set_groups G w) = pk w) -> (forall w, lockstep (k w) (pk w)) -> lockstep (get ≫= k) (lift get ≫= pk).
Proof.
  intros He Hk os f w h Hg gs0. specialize (Hk w os f w h Hg gs0).
  assert (E : (lift get ≫= pk) h os (set_groups gs0 w) = pk w h os (set_groups gs0 w)) by (by rewrite <-(He w gs0)).
  rewrite E. exact Hk.
Qed.
Lemma ls_through (m : M A) : rel (frames w_groups) m -> lockstep m (through groups m).
Proof.
  intros Hm os f w h [Hwf (D & V & Hs)]. eapply beside_mono; [apply beside_sim, sim_through; [exact Hm|by eapply holds_reads]|].
  cbv beta. intros a b w' h' (-> & Hw & ->). split; [done|]. split; [unfold WF in *; by rewrite Hw|]. exists D, V. by eapply stands_same.
Qed.
Lemma ls_ext (m m' : M A) pm : (forall os w, m os w = m' os w) -> lockstep m' pm -> lockstep m pm.
Proof. intros E Hm os f w h Hg. eapply beside_ext; [apply E|by apply Hm]. Qed.
(** A command that keeps the groups well formed, and whose groups in memory are known. *)
Lemma ls_intro (m : M A) pm : rel (keeps WF) m ->
  (forall os f D V w h, WF w -> stands groups f D V w h -> beside os m pm w h (fun a b w' h' => a = b /\ exists D V, stands groups f D V w' h')) ->
  lockstep m pm.
Proof.
  intros Hk Hm os f w h [Hwf (D & V & Hs)]. eapply beside_mono; [eapply beside_spec; [by eapply Hm|]|].
  - eapply spec_mono; [apply (rel_spec _ _ os w Hk)|..]; cbv beta; [|done]. intros a w' Hw'. exact (Hw' Hwf).
  - cbv beta. intros a b w' h' [[-> Hst] Hw']. by split.
Qed.
End rules.
Lemma ls_when (b : bool) m pm : lockstep m pm -> lockstep (when b m) (if b then pm else mret tt).
Proof. by destruct b; [|intros _; apply ls_ret]. Qed.

(** ** The operations on groups *)

Lemma ls_expire_sources : lockstep Mld2Logic.expire_sources (expire_sources groups).
Proof.
  apply ls_intro; [apply wf_expire_sources|]. intros os f D V w h _ Hs. eapply beside_mono; [by apply beside_sim, (sim_expire_sources groups os (dom h) f D V)|].
  cbv beta. intros a b w' h' (-> & D' & V' & Hs'). split; [done|]. do 2 eexists. by eapply holds_stands.
Qed.
Lemma ls_l4_ipv6_multicast intn iph len : lockstep (Packet.l4_ipv6_multicast intn iph len) (l4_ipv6_multicast groups intn iph len).
Proof.
  apply ls_intro; [apply wf_l4_ipv6_multicast|]. intros os f D V w h _ Hs. eapply beside_mono; [by apply beside_sim, (sim_l4_ipv6_multicast groups os (dom h) f D V)|].
  cbv beta. intros a b w' h' (-> & D' & V' & Hs'). split; [done|]. do 2 eexists. by eapply holds_stands.
Qed.
Lemma ls_report_record intn mca type srcs : lockstep (value_record intn mca type srcs) (report_record groups intn mca type srcs).
Proof.
  apply ls_intro.
  - unfold value_record. apply rel_bind; [typeclasses eauto| |].
    + apply wf_handle_downstream. unfold record_of. apply mrec_add_addrs_ok, NoDup_nil_2.
    + intros []; [apply rel_crash|apply rel_ret]; typeclasses eauto.
  - intros os f D V w h Hwf Hs. eapply beside_mono; [by eapply beside_report_record|]. cbv beta. intros [] [] w' h' Hs'. by split.
Qed.
Lemma ls_mld1_report intn o : lockstep (Packet.mld1_report intn o) (mld1_report groups intn o).
Proof.
  unfold Packet.mld1_report, mld1_report. apply ls_bind; [apply ls_lift; blind_auto|]. intros _.
  apply ls_bind; [apply ls_lift; blind_auto|]. intros mca. destruct (unroutable_mca mca); [apply ls_ret|].
  apply ls_intro.
  { apply rel_bind; [typeclasses eauto|apply wf_groupint_get|]. intros [[p|] isnew]; cbn [fst snd grpint_refresh]; apply rel_ret; typeclasses eauto. }
  intros os f D V w h Hwf Hs. apply beside_bind. eapply beside_mono; [by eapply beside_groupint_get|]. cbv beta.
  intros [[p|] isnew] [q isnew'] w' h' Hgot; unfold got in Hgot; cbn [fst snd grpint_refresh] in *.
  - destruct Hgot as (gi & groupn & D1 & D2 & V1 & V2 & g & E1 & E2 & I1 & I2 & _ & _ & _ & _ & Hs'). destruct (q =? 0); (apply beside_ret; split; [done|by do 2 eexists]).
  - destruct Hgot as [-> Hs']. by apply beside_ret.
Qed.

(** ** The receive path and the main loop *)

Create HintDb lockstep discriminated.
#[local] Hint Resolve ls_ret ls_crash ls_expire_sources ls_l4_ipv6_multicast ls_report_record ls_mld1_report : lockstep.
#[local] Hint Extern 3 (lockstep _ (lift _)) => apply ls_lift; solve [blind_auto] : lockstep.
Ltac ls_step :=
  match goal with
  | |- lockstep (get ≫= _) (lift get ≫= _) => apply ls_get; [done|intros ?]
  | |- lockstep (_ ≫= _) (_ ≫= _) => apply ls_bind; [|intros ?]
  | |- lockstep (when _ _) (if _ then _ else _) => apply ls_when
  | |- lockstep (match ?x with _ => _ end) _ => destruct x
  | |- lockstep (let _ := _ in _) _ => cbv zeta
  end.
Ltac ls_auto := repeat first [ls_step | progress eauto 3 with lockstep].

Lemma ls_mld2_grecs intn mld2r plen n : forall grec refresh,
  lockstep (Packet.mld2_grecs intn mld2r plen n grec refresh) (mld2_grecs groups intn mld2r plen n grec refresh).
Proof.
  induction n as [|n IH]; intros grec refresh; cbn [Packet.mld2_grecs mld2_grecs]; [apply ls_ret|].
  apply ls_bind; [by eauto with lockstep|]. intros mca. destruct (_ || _); [apply ls_ret|]. destruct (_ <? _); [apply ls_ret|].
  apply ls_bind; [by eauto with lockstep|]. intros nsrcs. cbv zeta. apply ls_bind; [by eauto with lockstep|]. intros type.
  apply ls_bind; [by eauto with lockstep|]. intros _. destruct (negb _); [apply ls_ret|]. destruct (_ && _); [apply ls_ret|]. apply ls_bind; [by eauto with lockstep|]. intros srcs.
  apply (ls_ext _ (_ ← value_record intn mca type srcs; auxwords ← load8 (grec + 1);
    Packet.mld2_grecs intn mld2r plen n (grec + sizeof_mld2_grec + nsrcs * 16 + auxwords) true)).
  { intros os w. unfold value_record, record_of, mbind, M_bind. by destruct (Mld2Logic.handle_downstream_subscription _ _ os w) as [[] ?|]. }
  apply ls_bind; [by eauto with lockstep|]. intros _. apply ls_bind; [by eauto with lockstep|]. intros auxwords. apply IH.
Qed.
#[local] Hint Resolve ls_mld2_grecs : lockstep.

Lemma frames_expire_routes : rel (frames w_groups) (w ← get; expire_routes (w_mr6_fd w)).
Proof. apply rel_bind; [typeclasses eauto|apply rel_get; typeclasses eauto|]. intros w. by apply rel_expire_routes; [typeclasses eauto|..]. Qed.
Lemma frames_upstream i : rel (frames w_groups) (handle_upstream_subscription i).
Proof. by apply rel_handle_upstream; [typeclasses eauto|..]. Qed.
Lemma ls_mld2_report intn o plen : lockstep (Packet.mld2_report intn o plen) (mld2_report groups intn o plen).
Proof.
  unfold Packet.mld2_report, mld2_report. apply ls_bind; [by eauto with lockstep|]. intros ngrec. apply ls_bind; [by eauto with lockstep|]. intros _.
  destruct (_ <? _); [apply ls_ret|]. apply ls_bind; [apply ls_mld2_grecs|]. intros refresh. apply ls_when.
  apply ls_bind; [apply ls_through, frames_upstream|]. intros _. apply ls_through, frames_expire_routes.
Qed.

Lemma frames_blind {A} (m : M A) : blind m -> rel (frames w_groups) m.
Proof.
  intros Hb os w. pose proof (Hb os w (w_groups w)) as E. replace (set_groups (w_groups w) w) with w in E by (by destruct w).
  unfold spec, frames. destruct (m os w) as [a w'|e w']; injection E as E; exact (f_equal w_groups E).
Qed.
Lemma frames_mld1_reduction intn o : rel (frames w_groups) (mld1_reduction intn o).
Proof. unfold mld1_reduction, Groups.group_find, group_at. rel_auto; apply frames_blind; blind_auto. Qed.
Lemma frames_mld_query intn plen : rel (frames w_groups) (mld_query intn plen).
Proof.
  unfold mld_query. rel_auto; try (apply frames_blind; unfold mld2_send_report; solve [blind_auto]).
  apply rel_for_each; [typeclasses eauto|]. intros g. apply rel_for_each; [typeclasses eauto|]. intros gi.
  apply frames_blind. unfold mld_send_report, mld1_send_report, mld2_send_report, count_icmp. blind_auto.
Qed.
Lemma frames_handlesocket buf : rel (frames w_groups) (w ← get; mrouter6_handlesocket (w_mr6_fd w) buf).
Proof. apply rel_bind; [typeclasses eauto|apply rel_get; typeclasses eauto|]. intros w. by apply rel_handlesocket; [typeclasses eauto|..]. Qed.
Lemma frames_sigusr1 : rel (frames w_groups) sigusr1.
Proof. unfold sigusr1. rel_auto; apply frames_blind; blind_auto. Qed.

(** The binds of the values, associated to the left. *)
Lemma M_assoc {A B C} (m : M A) (k : A -> M B) (k' : B -> M C) os w : ((m ≫= k) ≫= k') os w = (m ≫= fun a => k a ≫= k') os w.
Proof. unfold mbind, M_bind. by destruct (m os w). Qed.

Lemma ls_mld_message intn type o plen : lockstep (Packet.mld_message intn type o plen) (mld_message groups intn type o plen).
Proof.
  unfold Packet.mld_message, mld_message. repeat case_match; [apply ls_mld1_report|apply ls_through, frames_mld1_reduction|apply ls_mld2_report|
    apply ls_through, frames_mld_query|apply ls_ret].
Qed.
#[local] Hint Resolve ls_mld_message : lockstep.
Lemma ls_l4_ipv6_icmpv6 intn iph len o plen : lockstep (Packet.l4_ipv6_icmpv6 intn iph len o plen) (l4_ipv6_icmpv6 groups intn iph len o plen).
Proof. unfold Packet.l4_ipv6_icmpv6, l4_ipv6_icmpv6. ls_auto. Qed.
#[local] Hint Resolve ls_l4_ipv6_icmpv6 : lockstep.
Lemma ls_l3_ipv6 intn iph len : lockstep (Packet.l3_ipv6 intn iph len) (l3_ipv6 groups intn iph len).
Proof. unfold Packet.l3_ipv6, l3_ipv6. ls_auto. Qed.
#[local] Hint Resolve ls_l3_ipv6 : lockstep.
Lemma ls_l2_ethtype intn o len t : lockstep (Packet.l2_ethtype intn o len t) (l2_ethtype groups intn o len t).
Proof. unfold Packet.l2_ethtype, l2_ethtype. ls_auto. Qed.
#[local] Hint Resolve ls_l2_ethtype : lockstep.
Lemma ls_handleinterfaces : lockstep Daemon.handleinterfaces (handleinterfaces groups).
Proof.
  unfold Daemon.handleinterfaces, handleinterfaces. apply ls_bind; [by eauto with lockstep|]. intros [fr|]; [|apply ls_ret].
  apply ls_bind; [by eauto with lockstep|]. intros _. destruct (_ || _); [apply ls_ret|]. cbv zeta.
  apply ls_bind; [by eauto with lockstep|]. intros _. apply ls_get; [done|]. intros w. destruct (negb _); [apply ls_ret|].
  eapply ls_ext; [intros os v; symmetry; apply M_assoc|].
  apply ls_bind; [apply (ls_lift (frame_interface (f_ifindex fr))); by eauto with blind|]. intros [intn|]; [|apply ls_ret]. ls_auto.
Qed.
Lemma ls_timeout : lockstep Daemon.timeout (timeout groups).
Proof. unfold Daemon.timeout, timeout. ls_auto. Qed.
Lemma ls_main_round s : lockstep (Daemon.main_round s) (main_round groups s).
Proof.
  unfold Daemon.main_round, main_round. apply ls_get; [done|]. intros w0. apply ls_bind.
  { apply ls_when. apply ls_bind; [apply ls_timeout|]. intros _. by eauto with lockstep. }
  intros _. destruct s as [eintr|upcall packet]; [apply ls_ret|].
  eapply (ls_ext _ (_ ← match upcall with Some buf => w ← get; mrouter6_handlesocket (w_mr6_fd w) buf | None => mret tt end; _));
    [intros os w; by destruct upcall|].
  apply ls_bind; [destruct upcall; [apply ls_through, frames_handlesocket|apply ls_ret]|]. intros _.
  destruct packet; [|apply ls_ret]. apply ls_bind; [apply ls_handleinterfaces|]. intros ok. apply ls_ret.
Qed.
End lockstep.

(** * Runs *)

Section runs.
Context `{Malloc} (groups : Z).

(** The memory [h] has the groups of [w] in its lists; besides, there is [f], untouched, and what left the lists without being given back. *)
Definition represents (f : heap) (w v : world) (h : heap) : Prop :=
  v = set_groups (w_groups v) w /\ exists hs lost, groups_shape groups (w_groups w) hs /\ hs ##ₘ lost ∪ f /\ lost ##ₘ f /\ h = hs ∪ (lost ∪ f).
(** A pair of states between the rounds. *)
Definition paired (f : heap) (w v : world) (h : heap) : Prop := v = set_groups (w_groups v) w /\ good groups f w h.

Lemma paired_represents f w v h : paired f w v h -> represents f w v h.
Proof.
  intros (Hv & _ & D & V & (Hw & hs & x & Hs & -> & Hd & Hf)%stands_eq). split; [done|]. exists hs, (x ∖ f).
  assert (Ex : x ∖ f ∪ f = x).
  { rewrite (map_union_comm (x ∖ f) f) by (by apply map_disjoint_difference_l1). by apply map_difference_union. }
  rewrite Ex. split_and!; [|done|by apply map_disjoint_difference_l1|done]. apply groups_shape_at. by exists D, V.
Qed.

(** What lockstep gives in a pair of states. *)
Lemma paired_Ret {A} (m : M A) pm os f w v h a w' : lockstep groups m pm -> paired f w v h -> m os w = Ret a w' ->
  exists v' h', pm h os v = Ret (a, h') v' /\ paired f w' v' h'.
Proof.
  intros Hm [-> Hg] E. pose proof (Hm os f w h Hg (w_groups v)) as Hs. unfold spec in Hs. rewrite E in Hs.
  destruct Hs as (b & h' & gs' & E' & -> & Hg'). by exists (set_groups gs' w'), h'.
Qed.
Lemma paired_Crash {A} (m : M A) pm os f w v h e w' : lockstep groups m pm -> paired f w v h -> m os w = Crash e w' ->
  exists e' v', pm h os v = Crash e' v'.
Proof.
  intros Hm [-> Hg] E. pose proof (Hm os f w h Hg (w_groups v)) as Hs. unfold spec in Hs. rewrite E in Hs.
  destruct Hs as (e' & gs' & E'). eauto.
Qed.
Lemma paired_back {A} (m : M A) pm os f w v h a v' h' : lockstep groups m pm -> paired f w v h -> pm h os v = Ret (a, h') v' ->
  exists w', m os w = Ret a w' /\ paired f w' v' h'.
Proof.
  intros Hm Hp E. destruct (m os w) as [b w'|e w'] eqn:Em.
  - destruct (paired_Ret _ _ _ _ _ _ _ _ _ Hm Hp Em) as (v1 & h1 & E1 & Hp1). rewrite E1 in E. injection E as -> -> ->. by exists w'.
  - destruct (paired_Crash _ _ _ _ _ _ _ _ _ Hm Hp Em) as (e' & v1 & E1). by rewrite E1 in E.
Qed.

Lemma ls_alarm : lockstep groups timeout_signal (lift timeout_signal).
Proof. apply ls_lift. unfold timeout_signal. blind_auto. Qed.
Lemma ls_usr1 : lockstep groups sigusr1 (through groups sigusr1).
Proof. apply ls_through, frames_sigusr1. Qed.
Lemma ls_usr2 : lockstep groups sigusr2 (lift sigusr2).
Proof. apply ls_lift, blind_sigusr2. Qed.

Lemma step_forth os f w w' v h : Daemon.step os w w' -> paired f w v h -> exists v' h', step groups os (v, h) (v', h') /\ paired f w' v' h'.
Proof.
  intros [w0 w1 E|w0 w1 E|w0 w1 E|s w0 w1 Hs E] Hp.
  - destruct (paired_Ret _ _ _ _ _ _ _ _ _ ls_alarm Hp E) as (v' & h' & E' & Hp'). exists v', h'. split; [by apply step_alarm|done].
  - destruct (paired_Ret _ _ _ _ _ _ _ _ _ ls_usr1 Hp E) as (v' & h' & E' & Hp'). exists v', h'. split; [by apply step_usr1|done].
  - destruct (paired_Ret _ _ _ _ _ _ _ _ _ ls_usr2 Hp E) as (v' & h' & E' & Hp'). exists v', h'. split; [by apply step_usr2|done].
  - destruct (paired_Ret _ _ _ _ _ _ _ _ _ (ls_main_round groups s) Hp E) as (v' & h' & E' & Hp'). exists v', h'. split; [by eapply step_round|done].
Qed.
Lemma step_back os f w v h v' h' : step groups os (v, h) (v', h') -> paired f w v h -> exists w', Daemon.step os w w' /\ paired f w' v' h'.
Proof.
  intros Hst Hp. inversion Hst as [? ? ? ? E|? ? ? ? E|? ? ? ? E|s ? ? ? ? Hs E]; subst.
  - destruct (paired_back _ _ _ _ _ _ _ _ _ _ ls_alarm Hp E) as (w' & E' & Hp'). exists w'. split; [by apply Daemon.step_alarm|done].
  - destruct (paired_back _ _ _ _ _ _ _ _ _ _ ls_usr1 Hp E) as (w' & E' & Hp'). exists w'. split; [by apply Daemon.step_usr1|done].
  - destruct (paired_back _ _ _ _ _ _ _ _ _ _ ls_usr2 Hp E) as (w' & E' & Hp'). exists w'. split; [by apply Daemon.step_usr2|done].
  - destruct (paired_back _ _ _ _ _ _ _ _ _ _ (ls_main_round groups s) Hp E) as (w' & E' & Hp'). exists w'. split; [by eapply Daemon.step_round|done].
Qed.

(** The list [init] makes. *)
Lemma paired_init f cfg : f !! groups = None -> paired f (init cfg) (init cfg) ({[groups := OList []]} ∪ f).
Proof.
  intros Hf. split; [done|]. split; [split; constructor|]. exists [], []. apply stands_eq. split; [done|].
  exists {[groups := OList []]}, f. split_and!; [|done|by apply map_disjoint_singleton_l_2|done]. exists ∅. by split_and!; [constructor|..].
Qed.
Lemma ls_startup : lockstep groups startup (lift startup).
Proof. apply ls_lift, blind_startup. Qed.

Lemma running_forth os args f w : f !! groups = None -> Daemon.running os args w -> exists v h, running groups os args f v h /\ paired f w v h.
Proof.
  intros Hf (cfg & w0 & Ho & Es & Hr). destruct (paired_Ret _ _ _ _ _ _ _ _ _ ls_startup (paired_init f cfg Hf) Es) as (v0 & h0 & E0 & Hp).
  enough (Hg : exists v h, rtc (step groups os) (v0, h0) (v, h) /\ paired f w v h).
  { destruct Hg as (v & h & Hr' & Hp'). exists v, h. split; [|done]. by exists cfg, v0, h0. }
  clear Es E0. revert v0 h0 Hp. induction Hr as [|w1 w2 w3 Hst _ IH]; intros v0 h0 Hp; [by exists v0, h0; split; [apply rtc_refl|]|].
  destruct (step_forth _ _ _ _ _ _ Hst Hp) as (v1 & h1 & Hst' & Hp1). destruct (IH _ _ Hp1) as (v & h & Hr' & Hp').
  exists v, h. split; [by eapply rtc_l|done].
Qed.
Lemma running_back os args f v h : f !! groups = None -> running groups os args f v h -> exists w, Daemon.running os args w /\ paired f w v h.
Proof.
  intros Hf (cfg & v0 & h0 & Ho & Es & Hr). destruct (paired_back _ _ _ _ _ _ _ _ _ _ ls_startup (paired_init f cfg Hf) Es) as (w0 & E0 & Hp).
  enough (Hg : exists w, rtc (Daemon.step os) w0 w /\ paired f w v h).
  { destruct Hg as (w & Hr' & Hp'). exists w. split; [|done]. by exists cfg, w0. }
  clear Es E0. revert w0 Hp. remember (v0, h0) as c eqn:Ec. remember (v, h) as c' eqn:Ec'. revert v0 h0 Ec.
  induction Hr as [c|c [v1 h1] c' Hst _ IH]; intros v0 h0 -> w0 Hp.
  - injection Ec' as -> ->. by exists w0; split; [apply rtc_refl|].
  - destruct (step_back _ _ _ _ _ _ _ Hst Hp) as (w1 & Hst' & Hp1). destruct (IH Ec' _ _ eq_refl _ Hp1) as (w & Hr' & Hp').
    exists w. split; [by eapply rtc_l|done].
Qed.

(** C7: The daemon on pointers and the daemon on values have the same runs: whatever the frames, the clock, the signals, the allocator and the
    sockets answer, and whatever other memory [f] the program has, each run of the one is a run of the other, with the same packets, interfaces,
    counters and system calls. In every state reached, the memory is made of three disjoint parts: the lists of groups, entries and sources, which
    represent exactly the groups of the values and share no node; [f], as it was; and the objects that left the lists and were not given back.
    The next round gives the same answer on both sides, or faults on both sides: the code never follows a dangling pointer, takes one object for
    another or gives an object back twice unless it also faults on values. *)
Theorem daemon_memory os args f :
  f !! groups = None ->
  (forall w, Daemon.running os args w -> exists v h, running groups os args f v h /\ represents f w v h) /\
  (forall v h, running groups os args f v h -> exists w, Daemon.running os args w /\ represents f w v h /\
    forall s, match Daemon.main_round s os w with
              | Ret quit w' => exists v' h', main_round groups s h os v = Ret (quit, h') v' /\ represents f w' v' h'
              | Crash _ _ => exists e v', main_round groups s h os v = Crash e v'
              end).
Proof.
  intros Hf. split.
  - intros w Hr. destruct (running_forth _ _ _ _ Hf Hr) as (v & h & Hr' & Hp). exists v, h. split; [done|by apply paired_represents].
  - intros v h Hr. destruct (running_back _ _ _ _ _ Hf Hr) as (w & Hr' & Hp). exists w. split; [done|]. split; [by apply paired_represents|].
    intros s. destruct (Daemon.main_round s os w) as [quit w'|e w'] eqn:E.
    + destruct (paired_Ret _ _ _ _ _ _ _ _ _ (ls_main_round groups s) Hp E) as (v' & h' & E' & Hp'). exists v', h'. split; [done|by apply paired_represents].
    + by eapply paired_Crash; [apply (ls_main_round groups s)|..].
Qed.

Lemma ended_back os args f v h : f !! groups = None -> ended groups os args f v h -> exists w, Daemon.ended os args w /\ paired f w v h.
Proof.
  intros Hf [Hr|(v0 & h0 & s & Hr & Hs & E)].
  - destruct (running_back _ _ _ _ _ Hf Hr) as (w & Hr' & Hp). exists w. split; [by left|done].
  - destruct (running_back _ _ _ _ _ Hf Hr) as (w0 & Hr' & Hp). destruct (paired_back _ _ _ _ _ _ _ _ _ _ (ls_main_round groups s) Hp E) as (w & E' & Hp').
    exists w. split; [right; by exists w0, s|done].
Qed.

(** C8: The clean-up at the end of a run: wherever the loop ends, by a signal that sets [quit] between two rounds or by a round in which [select] or
    the reception failed, the clean-up of [main] up to the freeing of the configuration returns; it gives back every group, every entry, every
    source list and every source, each exactly once, and disables every interface; what remains of the memory is the memory [f] of the rest of the
    program, the empty list of groups, and the objects that had left the lists before without being given back.  (What [main] does after that faults:
    see [Common.main_end].) *)
Theorem daemon_exit os args f v h :
  f !! groups = None -> ended groups os args f v h ->
  exists w hs lost v', Daemon.ended os args w /\ groups_shape groups (w_groups w) hs /\ h = hs ∪ (lost ∪ f) /\ hs ##ₘ lost ∪ f /\ lost ##ₘ f /\
  shutdown groups h os v = Ret (tt, <[groups := OList []]> (lost ∪ f)) v' /\ w_groups v' = [] /\ Forall (fun n => i_mtu n = 0) (w_ints v').
Proof.
  intros Hf Hr. destruct (ended_back _ _ _ _ _ Hf Hr) as (w & Hr' & Hp). destruct (paired_represents _ _ _ _ Hp) as (_ & hs & lost & Hs & Hd & Hl & ->).
  pose proof (shutdown_clears os v) as Hc. unfold returns, spec in Hc. destruct (Daemon.shutdown os v) as [[] v'|] eqn:E; [|done].
  exists w, hs, lost, v'. split_and!; try done; [|apply Hc..]. unfold shutdown, lift, mbind, P_bind, mbind, M_bind.
  by rewrite (frees_groups groups _ _ _ Hs Hd os v), E.
Qed.
End runs.

(** A run with memory besides. *)
Definition other_memory : heap := {[99 := OSrc (Msrc (src 2) 0)]}.
Lemma daemon_memory_witness : exists w v h, Daemon.running sample_os sample_args w /\ @running first_free 4 sample_os sample_args other_memory v h /\
  represents 4 other_memory w v h.
Proof.
  destruct sample_running as [w Hw]. destruct (proj1 (@daemon_memory first_free 4 sample_os sample_args other_memory eq_refl) w Hw) as (v & h & Hr & Hp).
  exists w, v, h. exact (conj Hw (conj Hr Hp)).
Defined.
(** The run that ends because [select] fails. *)
Lemma sample_failing : exists w w', Daemon.running sample_os sample_args w /\ Daemon.main_round (SelError false) sample_os w = Ret true w'.
Proof.
  do 2 eexists. split.
  - do 2 eexists. split; [reflexivity|]. split; [|apply rtc_refl]. lazy -[replicate Z.to_nat]. reflexivity.
  - reflexivity.
Qed.
Lemma sample_ended_memory : exists v h, @ended first_free 4 sample_os sample_args other_memory v h.
Proof.
  destruct sample_failing as (w & w' & Hw & E). destruct (@running_forth first_free 4 sample_os sample_args other_memory w eq_refl Hw) as (v & h & Hr & Hp).
  destruct (paired_Ret 4 _ _ _ _ _ _ _ _ _ (@ls_main_round first_free 4 (SelError false)) Hp E) as (v' & h' & E' & _).
  exists v', h'. right. by exists v, h, (SelError false).
Qed.
Lemma daemon_exit_witness : exists v h lost v', @ended first_free 4 sample_os sample_args other_memory v h /\
  shutdown 4 h sample_os v = Ret (tt, <[4 := OList []]> (lost ∪ other_memory)) v'.
Proof.
  destruct sample_ended_memory as (v & h & Hr).
  destruct (@daemon_exit first_free 4 sample_os sample_args other_memory v h eq_refl Hr) as (w & hs & lost & v' & _ & _ & _ & _ & _ & E & _).
  exists v, h, lost, v'. exact (conj Hr E).
Defined.

(** An MLDv2 report of one source, from an empty list of groups: the group at 9 with its list at 10, the entry at 11 with its lists at 14 and 13,
    and the source at 15. The source at 7 is the one the record was made of; no list has it any more and it was not given back. *)
Example report_in_memory : exists v,
  @mld2_report first_free 4 2 0 44 {[4 := OList []]} sample_os asking =
    Ret (tt, <[4 := OList [9]]> (<[9 := OGroup sample_mca 10 1000 0 0]> (<[10 := OList [11]]> (<[11 := OGrpint 2 1 7 14 13]>
      (<[14 := OList [15]]> (<[15 := OSrc (Msrc (src 1) 1260)]> (<[13 := OList []]> {[7 := OSrc (Msrc (src 1) 0)]}))))))) v.
Proof. eexists. vm_compute. reflexivity. Qed.
