(* ===== verification/FilterFacts.v ===== *)
(** The packet filter and the daemon together: what a daemon that only receives the frames its filter keeps
    never sends. *)

From S2P Require Import Prelude Checksum LinkList Msrc World Interfaces Send Groups Samples Routing Mld2Logic Packet Daemon Typed DaemonFacts Filter.
From stdpp Require Import strings.
#[local] Open Scope Z_scope.

(** * Definitions *)

(** The filter is attached to the socket: a frame is received when the program keeps some of its bytes, and these
    are the ones received. *)
Definition attached (prog : list sock_filter) (os : OS) : Prop :=
  forall t fr, os_recvfrom os t = Some fr ->
    exists sent n, run_filter prog sent = Some n /\ n ≠ 0 /\ f_bytes fr = take (Z.to_nat n) sent.

(** The packet of a transmission has no UDP header right behind its IPv6 header. *)
Definition sends_udp (packet : list Z) : Prop := packet !! 6%nat = Some IPPROTO_UDP.
Definition event_not_udp (e : event) : Prop :=
  match e with EvSendto _ _ _ packet => ~ sends_udp packet | _ => True end.

(** The invariant: nothing sent was UDP, and the frame in the buffer is not. *)
Record no_udp (w : world) : Prop := {
  nu_trace : Forall event_not_udp (w_trace w);
  nu_bytes : bytes (w_buffer w);
  nu_frame : w_buffer w !! 20%nat ≠ Some IPPROTO_UDP }.

(** * Rules *)

Notation NU := (keeps no_udp).

Lemma nu_same w w' : w_trace w' = w_trace w -> w_buffer w' = w_buffer w -> NU w w'.
Proof. intros Ht Hb [? ? ?]. split; congruence. Qed.
Lemma nu_event e w : event_not_udp e -> NU w (set_os (w_tick w) (e :: w_trace w) w).
Proof. intros He [? ? ?]. split; [by constructor|done..]. Qed.
Lemma nu_quiet e w : is_sendto e = false -> NU w (set_os (w_tick w) (e :: w_trace w) w).
Proof. intros He. apply nu_event. by destruct e. Qed.

Lemma nu_intro {A} (m : M A) :
  (forall os w, no_udp w -> spec m os w (fun _ w' => no_udp w') (fun _ w' => no_udp w')) -> rel NU m.
Proof.
  intros H os w. unfold spec in *. destruct (m os w) eqn:E; unfold keeps; intros Hw; specialize (H os w Hw); by rewrite E in H.
Qed.
(** What a command reads in a state of the invariant. *)
Lemma nu_bind {A B} (P : A -> Prop) (m : M A) (k : A -> M B) :
  (forall os w, no_udp w -> spec m os w (fun a w' => P a /\ no_udp w') (fun _ w' => no_udp w')) ->
  (forall a, P a -> rel NU (k a)) -> rel NU (m ≫= k).
Proof.
  intros Hm Hk. apply nu_intro. intros os w Hw. apply spec_bind. eapply spec_mono; [apply Hm, Hw| |done].
  cbv beta. intros a w' [Ha Hw']. eapply spec_mono; [apply (Hk a Ha os w')|..]; cbv beta; unfold keeps; auto.
Qed.

Create HintDb nu discriminated.
#[export] Hint Resolve rel_ret rel_crash rel_named rel_get rel_load rel_load8 rel_load16 rel_int_at rel_group_at rel_grpint_at rel_for_each : nu.
#[export] Hint Extern 0 (PreOrder _) => typeclasses eauto : nu.
Ltac nu_leaf := intros; first [apply nu_quiet; first [assumption|reflexivity] | by apply nu_same].
#[export] Hint Extern 2 (rel _ (modify _)) => apply rel_modify; nu_leaf : nu.
#[export] Hint Extern 2 (rel _ (os_call _)) => apply rel_tick; nu_leaf : nu.
#[export] Hint Extern 2 (rel _ time) => apply rel_tick; nu_leaf : nu.
#[export] Hint Extern 2 (rel _ (emit _)) => apply rel_emit_one; nu_leaf : nu.
Ltac nu_auto := repeat first [rel_step | progress eauto 3 with nu].
(** The operations of the other files, whose rules leave the leaves. *)
Ltac nu_by l := apply l; [typeclasses eauto|nu_leaf..].

Lemma nu_upd_int i f : rel NU (upd_int i f).
Proof. nu_by rel_upd_int. Qed.
Lemma nu_int_find i : rel NU (int_find i).
Proof. apply rel_int_find. typeclasses eauto. Qed.
Lemma nu_int_destroy i : rel NU (int_destroy i).
Proof. nu_by rel_int_destroy. Qed.
Lemma nu_set_mld i v : rel NU (int_set_mld_version i v).
Proof. nu_by rel_int_set_mld_version. Qed.
Lemma nu_upd_group g f : rel NU (upd_group g f).
Proof. nu_by rel_upd_group. Qed.
Lemma nu_upd_grpint p f : rel NU (upd_grpint p f).
Proof. nu_by rel_upd_grpint. Qed.
Lemma nu_groupint_get mca i : rel NU (groupint_get mca i).
Proof. nu_by rel_groupint_get. Qed.
Lemma nu_upstream i : rel NU (handle_upstream_subscription i).
Proof. nu_by rel_handle_upstream. Qed.
Lemma nu_expire_routes fd : rel NU (expire_routes fd).
Proof. nu_by rel_expire_routes. Qed.
Lemma nu_handlesocket fd b : rel NU (mrouter6_handlesocket fd b).
Proof. nu_by rel_handlesocket. Qed.
Lemma nu_expire_source p k now : rel NU (expire_source p k now).
Proof. nu_by rel_expire_source. Qed.
Lemma nu_switch p : rel NU (mld2_switch_to_include p).
Proof. nu_by rel_switch. Qed.
#[export] Hint Resolve nu_upd_int nu_int_find nu_int_destroy nu_set_mld nu_upd_group nu_upd_grpint nu_groupint_get nu_upstream
  nu_expire_routes nu_handlesocket nu_expire_source nu_switch : nu.

(** * Transmissions *)

Lemma take_not_udp n p : ~ sends_udp p -> ~ sends_udp (take n p).
Proof. unfold sends_udp. intros H. rewrite lookup_take. by case_decide. Qed.

(** The next header the daemon writes itself: ICMPv6, or a hop-by-hop header before it. *)
Lemma ip6_hdr_not_udp plen nxt hlim src dst data : nxt ≠ IPPROTO_UDP -> ~ sends_udp (ip6_hdr plen nxt hlim src dst ++ data).
Proof. unfold sends_udp, ip6_hdr, le16. simpl. congruence. Qed.

Lemma nu_sendpacket6 i p l : ~ sends_udp p -> rel NU (sendpacket6 i p l).
Proof.
  intros Hp. unfold sendpacket6, after_send. apply rel_bind; [typeclasses eauto|eauto with nu|intros n].
  apply rel_bind; [typeclasses eauto|apply rel_emit_one; intros; by apply nu_event, take_not_udp|intros _]. nu_auto.
Qed.
Lemma nu_count_icmp i : rel NU (count_icmp i).
Proof. unfold count_icmp. nu_auto. Qed.
#[export] Hint Resolve nu_sendpacket6 nu_count_icmp : nu.
#[export] Hint Extern 2 (~ sends_udp _) => apply ip6_hdr_not_udp; done : nu.

Lemma nu_icmp6_send i s t c d l : rel NU (icmp6_send i s t c d l).
Proof. unfold icmp6_send, name_icmpv6. nu_auto. Qed.
Lemma nu_query i m s b : rel NU (mld_send_query i m s b).
Proof. unfold mld_send_query, mld_query_packet. nu_auto. Qed.
Lemma nu_mquery i m s b : rel NU (mld_send_mquery i m s b).
Proof. apply rel_for_each; [typeclasses eauto|]. intros. apply nu_query. Qed.
Lemma nu_mld1_send_report i m : rel NU (mld1_send_report i m).
Proof. unfold mld1_send_report, mld1_report_packet. nu_auto. Qed.
Lemma nu_mld2_send_report i m : rel NU (mld2_send_report i m).
Proof. unfold mld2_send_report. nu_auto. Qed.
#[export] Hint Resolve nu_icmp6_send nu_query nu_mquery nu_mld1_send_report nu_mld2_send_report : nu.
Lemma nu_send_report i m : rel NU (mld_send_report i m).
Proof. unfold mld_send_report. nu_auto. Qed.
#[export] Hint Resolve nu_send_report : nu.
Lemma nu_send_report_all i m : rel NU (mld_send_report_all i m).
Proof. unfold mld_send_report_all, all_ints. nu_auto. apply rel_for_each; [typeclasses eauto|]. intros. nu_auto. Qed.
Lemma nu_querys : rel NU send_mld_querys.
Proof. unfold send_mld_querys, all_ints. nu_auto. apply rel_for_each; [typeclasses eauto|]. intros. nu_auto. Qed.
#[export] Hint Resolve nu_send_report_all nu_querys : nu.

(** * The state machine *)

Lemma nu_handle_downstream i m : rel NU (handle_downstream_subscription i m).
Proof.
  unfold handle_downstream_subscription, include_add, include_to_exclude, include_block, exclude_add, exclude_replace,
    exclude_block, remove_all_xy, set_timers_xy, set_timers_xy_time. nu_auto.
Qed.
Lemma nu_expire_loop_source p now k : forall removed, rel NU (expire_loop_source p k now removed).
Proof. induction k as [|k IH]; intros removed; cbn [expire_loop_source]; nu_auto; auto. Qed.
#[export] Hint Resolve nu_handle_downstream nu_expire_loop_source : nu.
Lemma nu_expire_loop_interface g now k : forall removed, rel NU (expire_loop_interface g k now removed).
Proof. induction k as [|k IH]; intros removed; cbn [expire_loop_interface]; nu_auto; auto. Qed.
#[export] Hint Resolve nu_expire_loop_interface : nu.
Lemma nu_expire_loop_group now k : rel NU (expire_loop_group k now).
Proof. induction k as [|k IH]; cbn [expire_loop_group]; nu_auto; auto. Qed.
#[export] Hint Resolve nu_expire_loop_group : nu.
Lemma nu_expire_sources : rel NU expire_sources.
Proof. unfold expire_sources. nu_auto. Qed.
#[export] Hint Resolve nu_expire_sources : nu.

(** * The receive path *)

(** A byte read from the buffer, and a write to a byte that is not the next header. *)
Lemma load_bytes off len os w : no_udp w -> spec (load off len) os w (fun l w' => bytes l /\ no_udp w') (fun _ w' => no_udp w').
Proof.
  intros Hw. unfold load. do 2 spec_step. destruct (_ && _); spec_step; [|done]. split; [|done].
  by apply bytes_take, bytes_drop, nu_bytes.
Qed.
Lemma nu_bind_load8 {A} off (k : Z -> M A) : (forall v, 0 <= v -> rel NU (k v)) -> rel NU (load8 off ≫= k).
Proof.
  intros Hk. apply (nu_bind (fun v => 0 <= v)); [|done]. intros os w Hw. apply spec_bind.
  eapply spec_mono; [apply load_bytes, Hw| |done]. cbv beta. intros l w' [Hl Hw']. spec_step.
  split; [|done]. destruct Hl as [|b l [? ?] Hl]; simpl; lia.
Qed.
Lemma nu_store8 off v : 20 < off -> rel NU (store8 off v).
Proof.
  intros Ho. unfold store8. nu_auto. apply rel_modify. intros w [? ? ?]. split; simpl; [done|by apply Forall_insert, is_byte_u8|].
  rewrite list_lookup_insert_ne by lia. done.
Qed.
#[export] Hint Extern 2 (rel _ (store8 _ _)) => apply nu_store8; lia : nu.

(** The packet behind the Ethernet header. *)
Lemma nu_bind_packet {A} len (k : list Z -> M A) :
  (forall l, ~ sends_udp l -> rel NU (k l)) -> rel NU (load 14 len ≫= k).
Proof.
  intros Hk. apply (nu_bind (fun l => ~ sends_udp l)); [|done]. intros os w Hw. unfold load. do 2 spec_step.
  destruct (_ && _); spec_step; [|done]. split; [|done]. apply take_not_udp. unfold sends_udp. rewrite lookup_drop. apply Hw.
Qed.

Lemma nu_mld1_report i o : rel NU (mld1_report i o).
Proof. unfold mld1_report. nu_auto. Qed.
Lemma nu_mld1_reduction i o : rel NU (mld1_reduction i o).
Proof. unfold mld1_reduction, group_find. nu_auto. Qed.
Lemma nu_load_addrs n : forall o, rel NU (load_addrs o n).
Proof. induction n as [|n IH]; intros o; cbn [load_addrs]; nu_auto; auto. Qed.
#[export] Hint Resolve nu_load_addrs nu_mld1_report nu_mld1_reduction : nu.
Lemma nu_mld2_grecs i r plen n : forall grec h, rel NU (mld2_grecs i r plen n grec h).
Proof. induction n as [|n IH]; intros grec h; cbn [mld2_grecs]; unfold name_grec; nu_auto; auto. Qed.
#[export] Hint Resolve nu_mld2_grecs : nu.
Lemma nu_mld2_report i o plen : rel NU (mld2_report i o plen).
Proof. unfold mld2_report. nu_auto. Qed.
Lemma nu_mld_query i plen : rel NU (mld_query i plen).
Proof.
  unfold mld_query. nu_auto. apply rel_for_each; [typeclasses eauto|]. intros g.
  apply rel_for_each; [typeclasses eauto|]. intros gi. nu_auto.
Qed.
#[export] Hint Resolve nu_mld2_report nu_mld_query : nu.

Lemma nu_multicast_loop i len src g k : rel NU (multicast_loop i 14 len src g k).
Proof.
  induction k as [|k IH]; cbn [multicast_loop]; repeat first [by auto | apply nu_bind_packet; intros ? ? | rel_step | progress eauto 3 with nu].
Qed.
#[export] Hint Resolve nu_multicast_loop : nu.
Lemma nu_l4_ipv6_multicast i len : rel NU (l4_ipv6_multicast i 14 len).
Proof. unfold l4_ipv6_multicast, group_find. nu_auto. Qed.
Lemma nu_decrease_hlim : rel NU (decrease_hlim 14).
Proof. unfold decrease_hlim. nu_auto. Qed.
#[export] Hint Resolve nu_l4_ipv6_multicast nu_decrease_hlim : nu.
Lemma nu_l4_ipv6_icmpv6 i len o plen : 54 <= o -> rel NU (l4_ipv6_icmpv6 i 14 len o plen).
Proof. intros Ho. unfold l4_ipv6_icmpv6, name_received, name_icmpv6, recompute_checksum, mld_message. nu_auto. Qed.
#[export] Hint Resolve nu_l4_ipv6_icmpv6 : nu.

(** Extension headers only move forward. *)
Lemma nu_bind_skip {A} iph len n (k : option (Z * Z * Z) -> M A) : forall t ipe plen, 54 <= ipe ->
  (forall t ipe plen, 54 <= ipe -> rel NU (k (Some (t, ipe, plen)))) -> rel NU (k None) ->
  rel NU (skip_headers n iph len t ipe plen ≫= k).
Proof.
  induction n as [|n IH]; intros t ipe plen Hi Hk Hn; cbn [skip_headers]; (destruct (negb _); [by apply Hk|]); [done|].
  assert (Ha : forall (m m' : M A), (forall os w, m os w = m' os w) -> rel NU m' -> rel NU m).
  { intros m m' E H os w. unfold spec. rewrite E. apply H. }
  eapply Ha.
  { intros os w. instantiate (1 := nxt ← load8 ipe; hdrlen ← load8 (ipe + 1);
      (if iph + len <? ipe + (hdrlen * 8 + 8) then mret None
       else skip_headers n iph len nxt (ipe + (hdrlen * 8 + 8)) (u16 (plen - (hdrlen * 8 + 8)))) ≫= k).
    unfold mbind, M_bind. destruct (load8 ipe os w) as [? w1|]; [|done]. by destruct (load8 (ipe + 1) os w1). }
  eapply rel_bind; [typeclasses eauto|auto with nu|intros nxt]. apply nu_bind_load8. intros l Hl.
  destruct (_ <? _); [done|]. apply IH; [lia|done..].
Qed.

Lemma nu_l3_ipv6 i len : rel NU (l3_ipv6 i 14 len).
Proof.
  unfold l3_ipv6. repeat first [apply nu_bind_skip; [done|intros ????|] | rel_step | progress eauto 3 with nu].
Qed.
#[export] Hint Resolve nu_l3_ipv6 : nu.
Lemma nu_l2_ethtype i len t : rel NU (l2_ethtype i 14 len t).
Proof. unfold l2_ethtype, l3_ipv4. nu_auto. Qed.
#[export] Hint Resolve nu_l2_ethtype : nu.

(** * The daemon *)

Lemma nu_int_create i : rel NU (int_create i).
Proof. unfold int_create, int_create_fail, int_create_finish, int_resize, strcmp_eq. nu_auto. Qed.
#[export] Hint Resolve nu_int_create : nu.
Lemma nu_update_loop s l : forall got, rel NU (update_loop s l got).
Proof.
  induction l as [|ifa l IH]; intros got; cbn [update_loop]; [eauto with nu|].
  unfold update_find, update_addr, strcmp_eq. nu_auto; auto.
Qed.
#[export] Hint Resolve nu_update_loop : nu.
Lemma nu_update_interfaces s : rel NU (update_interfaces s).
Proof. unfold update_interfaces. nu_auto. Qed.
#[export] Hint Resolve nu_update_interfaces : nu.

(** A frame the filter keeps has a next header, and it is not UDP; it overwrites the one before it. *)
Lemma kept_not_udp sent n : run_filter bpf sent = Some n -> n ≠ 0 ->
  exists b, take (Z.to_nat n) sent !! 20%nat = Some b /\ b ≠ IPPROTO_UDP.
Proof.
  rewrite bpf_run. destruct (_ && not_udp sent) eqn:E; intros [= <-] Hn; [|done].
  apply andb_prop in E as [_ E]. unfold not_udp, next_header, byte_at in E.
  destruct (sent !! Z.to_nat 20) as [b|] eqn:Eb; [|done]. exists b. split; [|intros ->; done].
  rewrite lookup_take. by rewrite decide_True by lia.
Qed.

Lemma store_frame_lookup l buffer i b : l !! i = Some b -> store_frame l buffer !! i = if decide (i < length buffer)%nat then Some b else None.
Proof.
  intros Hb. unfold store_frame. pose proof (lookup_lt_Some _ _ _ Hb). case_decide.
  - rewrite lookup_app_l by (rewrite length_take; lia). rewrite lookup_take. by rewrite decide_True.
  - apply lookup_ge_None_2. rewrite length_app, length_take, length_drop. lia.
Qed.

Section runs.
Context (os : OS) (Hos : os_typed os) (Hfilter : attached bpf os).

Definition nu_run {A} (m : M A) : Prop := forall w, no_udp w -> spec m os w (fun _ w' => no_udp w') (fun _ w' => no_udp w').

Lemma nu_run_rel {A} (m : M A) : rel NU m -> nu_run m.
Proof. intros H w Hw. eapply spec_mono; [apply (H os w)|..]; cbv beta; unfold keeps; auto. Qed.

Lemma nu_store fr w : no_udp w -> (exists t, os_recvfrom os t = Some fr) -> no_udp (set_buffer (store_frame (f_bytes fr) (w_buffer w)) w).
Proof.
  intros [? ? ?] [t Hfr]. destruct (Hfilter t fr Hfr) as (sent & n & Hrun & Hn & Hbytes).
  destruct (kept_not_udp sent n Hrun Hn) as (b & Hb & Hne). rewrite <-Hbytes in Hb. split; simpl; [done| |].
  - apply Forall_app. split; [apply bytes_take, (ot_recvfrom _ Hos t fr Hfr)|by apply bytes_drop].
  - rewrite (store_frame_lookup _ _ _ _ Hb). case_decide; congruence.
Qed.

Lemma nu_handleinterfaces : nu_run handleinterfaces.
Proof.
  intros w Hw. unfold handleinterfaces. apply spec_bind, spec_os_call.
  assert (Hw1 : no_udp (set_os (S (w_tick w)) (w_trace w) w)) by (by destruct Hw; split).
  destruct (os_recvfrom os (w_tick w)) as [fr|] eqn:Efr; [|by spec_step]. apply spec_bind, spec_modify.
  pose proof (nu_store fr _ Hw1 (ex_intro _ _ Efr)) as Hw2.
  refine (nu_run_rel _ _ _ Hw2). nu_auto.
Qed.
Lemma nu_timeout : rel NU timeout.
Proof. unfold timeout. nu_auto. Qed.
Hint Resolve nu_timeout : nu.

Lemma nu_main_round s : nu_run (main_round s).
Proof.
  intros w Hw. unfold main_round. do 2 spec_step. spec_step. eapply spec_mono; [apply (nu_run_rel (A := unit)); [nu_auto|done]| |done].
  cbv beta. intros _ w1 Hw1. destruct s as [eintr|upcall packet]; [by spec_step|]. do 2 spec_step. spec_step.
  eapply spec_mono; [apply (nu_run_rel (A := unit)); [nu_auto|done]| |done]. cbv beta. intros _ w2 Hw2.
  destruct packet; [|by spec_step]. spec_step. eapply spec_mono; [by apply nu_handleinterfaces| |done]. cbv beta. intros ok w3 Hw3. by spec_step.
Qed.
End runs.

Lemma nu_startup : rel NU startup.
Proof.
  unfold startup, start_clock, daemonize, or_exit, open_socket, set_option, start_kernel, mrouter_init, mrouter6_addmif.
  nu_auto. apply rel_modify. intros w' [? ? ?]. split; simpl; [done|apply bytes_zeros|]. rewrite lookup_replicate. by intros [? _].
Qed.

Lemma nu_sigusr1 : rel NU sigusr1.
Proof. unfold sigusr1. nu_auto. Qed.
Lemma nu_sigusr2 : rel NU sigusr2.
Proof. unfold sigusr2. nu_auto. Qed.

Lemma nu_step os w w' : os_typed os -> attached bpf os -> step os w w' -> no_udp w -> no_udp w'.
Proof.
  intros Hos Hf [? ? [= <-]|? ? E|? ? E|s ? ? _ E] Hw.
  - by destruct Hw; split.
  - by apply (rel_Ret _ _ _ _ _ _ nu_sigusr1 E).
  - by apply (rel_Ret _ _ _ _ _ _ nu_sigusr2 E).
  - pose proof (nu_main_round os Hos Hf s _ Hw) as H. unfold spec in H. by rewrite E in H.
Qed.

(** C30: A daemon that receives only the frames its own filter keeps never sends a packet with UDP behind its IPv6 header, in
    no run and whatever was asked for: multicast UDP is not forwarded in user space. *)
Theorem running_never_forwards_udp os args w :
  os_typed os -> attached bpf os -> running os args w -> Forall event_not_udp (w_trace w).
Proof.
  intros Hos Hf (cfg & w0 & _ & Hs & Hr). cut (no_udp w); [by intros []|].
  assert (H0 : no_udp w0).
  { apply (rel_Ret NU _ _ _ _ _ nu_startup Hs). split; [constructor|constructor|done]. }
  clear Hs. induction Hr as [|? ? ? Hst _ IH]; [done|]. apply IH. by apply (nu_step _ _ _ Hos Hf Hst).
Qed.

(** A host on a network where every frame is an ICMPv6 echo request to a group, which the filter keeps. *)
Definition echo_frame : list Z :=
  [51; 51; 0; 0; 0; 1] ++ [2; 0; 0; 0; 0; 1] ++ [134; 221]
  ++ ip6_hdr 8 IPPROTO_ICMPV6 64 (src 1) sample_mca ++ [128; 0; 0; 0; 0; 0; 0; 0].
Definition echo_os : OS := {|
  os_time := os_time sample_os; os_malloc := os_malloc sample_os; os_garbage := os_garbage sample_os;
  os_sendto := os_sendto sample_os; os_socket := os_socket sample_os; os_setsockopt := os_setsockopt sample_os;
  os_if_name := os_if_name sample_os; os_if_mtu := os_if_mtu sample_os; os_if_hwfamily := os_if_hwfamily sample_os;
  os_getifaddrs := os_getifaddrs sample_os; os_recvfrom := fun _ => Some (Frame echo_frame 1 0 1 ETH_P_IPV6);
  os_fork := os_fork sample_os; os_fopen := os_fopen sample_os |}.

Lemma running_never_forwards_udp_witness : exists w, running echo_os sample_args w /\ Forall event_not_udp (w_trace w).
Proof.
  assert (H : exists w, running echo_os sample_args w).
  { do 3 eexists. split; [reflexivity|]. split; [|apply rtc_refl]. lazy -[replicate Z.to_nat]. reflexivity. }
  destruct H as [w H]. exists w. split; [exact H|]. apply (running_never_forwards_udp echo_os sample_args w); [| |exact H].
  - split; simpl; [by split|by split|by intros _ _ f [= <-]|done|].
    intros t fr [= <-]. split; [apply (bool_decide_unpack _); by vm_compute|by split].
  - intros t fr [= <-]. exists echo_frame, 65535. split; [by vm_compute|split; [done|]].
    rewrite take_ge; [done|]. change (length echo_frame) with 62%nat. lia.
Defined.
